(* ===== verification/_CoqProject ===== *)
-Q . S2P
Prelude.v
CppString.v
Double.v
Strtod.v
Admission.v
Wire.v
Broker.v
Client.v
LocalExec.v
Driver.v
Stats.v
Framing.v
Energy.v
Pressure.v
Basic.v
Sim.v
Pi3.v
Yolo.v
Rn50Bwaj.v
Rn50Listener.v
Dpu.v
ReadPower.v
