(* ===== verification/Prelude.v ===== *)
(** * Verification of ASAP_OMS_ED_EC: edge-device offloading with local fallback

    This library models, in Rocq, the C++ programs of the repository
    ASAP_OMS_ED_EC: an edge device (ED) that offloads inference tasks to
    an edge-compute node (EC), which admits or refuses each task from the
    length of its queue; refused or unreachable tasks fall back to a local
    executor on the ED.  It also models the image-transfer tools used for
    the latency and energy measurements.

    ** The program and how its parts interact

    - EC broker, [src/Experiment_May15/EC_OMS_May15_YOLOv5s6.cpp]: one
      detached thread per connection runs [handle_request]; it reads
      [REQ:<id>:..], atomically draws the position [p = queue_size++]
      under [queue_mutex], grants iff [static_cast<int>(p * 68.71) <= 550]
      (a binary64 product), answers [GRANT:<p>] or [DROP], waits for
      [OK:..], runs the inference, answers [DONE] and releases the slot.
    - ED, [src/Experiment_May15/ed_oms_parallel_rn50_fallback_sequencial.cpp]
      (the variant the spec describes): a generator feeds ids [0 .. n-1] to
      32 workers running [run_request]; refused or failed tasks go through
      [enqueue_local_run] to the single [local_run_dispatch] thread, which
      writes them to a Python helper; [start_done_listener] reads the
      helper's completion lines; [main] joins everything and prints the
      statistics.
    - Seven other ED variants: [ed_oms_parallel_basic_working.cpp] (one
      request after the other), [ed_oms_parallel_rn50_fallabck_pressure.cpp]
      (one thread per request, no acknowledgement, [sent_to_ec++] outside
      the lock), [ed_oms_parallel_rn50_simulation_working.cpp] (32
      workers drawing ids from a locked [static int next], the whole image
      sent and acknowledged), [..._working_withdpu_retina.cpp] (one
      thread per request under a semaphore of 100, at most 20 local runs),
      [..._poission_pi3.cpp] (the sequential ED
      with a generator that runs for [duration_sec] seconds), and the two
      bandwidth-aware variants [src/ed_oms_parallel_yolov5s_bwaj.cpp] and
      [src/ed_oms_parallel_rn50_bwaj.cpp] (the same process with other
      answers to [GRANT]/[DROP] and, for ResNet-50, birth and death time
      stamps of every task).
    - Image transfer: [src/coco_test_to_ec.cpp] / [src/coco_test_from_ed.cpp]
      (4-byte big-endian size, then the bytes) and the four
      [image_energy_latency_*] tools (SEND/GET of directories with
      fixed-width decimal fields).
    - [src/Experiment_May15/read_power.cpp]: a measurement script that
      averages one column of a CSV power log, parsed with [std::stod].
    - The two sides of each pair talk over TCP; the model gives every
      receiver the byte stream cut into segments the network chose, and
      one [recv] returns at most the rest of the current segment.

    ** Files, in dependency order

    - [Prelude] (this file): the [oms_scope] notations, the C widths
      ([int] 32 bits, [long] 64 bits on the aarch64 targets), the [oms]
      hint databases and the counting lemmas over lists shared by the
      concurrent models.
    - [CppString]: [rfind(p,0)==0], [find], [substr] (with
      [std::out_of_range]), [std::to_string], [std::stoi]/[std::stol] (the
      [strtol] grammar and both exceptions), and their round trips.
    - [Double]: binary64 arithmetic through the Standard Library's
      [SpecFloat] and [static_cast<int>] on AArch64 (saturating).
    - [Strtod]: [std::stod] over glibc's [strtod] grammar (space, sign,
      [inf]/[nan], hexadecimal and decimal forms), the exact value
      rounded once to binary64 and [ERANGE] on overflow and inexact
      underflow.
    - [Admission]: [wait_ms] and [admits]; the typeclass [AdmissionRule]
      states what the broker needs of the rule and [code_admission] is the
      code's instance.
    - [Wire]: the frames and the parses each side applies.
    - [Broker]: [handle_request] threads as a partial step function
      [ec_step] on [ec_state] (shared counters, one program counter per
      connection, all frames written); each locked block or socket access
      is one step; invariants by induction on [rtc].
    - [Client]: [run_request] of the sequential-fallback ED as the frames it
      sends and the effects ([ed_effect]) it applies under its mutexes.
    - [LocalExec]: [local_run_dispatch] and [start_done_listener] (with
      [fgets], [stoi], [stol] and their exceptions).
    - [Driver]: the ED process (generator, 32 workers, dispatcher, helper,
      [main]) as one interleaved step function [sys_step] over [sys],
      parameterised by what a variant does differently: the locked blocks
      of its [run_request], of its listener and of its generator loop
      body; the section hypotheses are the laws those blocks must obey
      (at most four request blocks, the listener and generator neither
      count nor queue).  The time-driven generator of the Poisson
      variants is [gen_pushes]/[first_stop].
    - [Stats]: the final percentages and reconciled average of [main],
      and the printed report [final_report] that the time-driven variants
      reuse ([Pi3.pi3_report], [Yolo.yolo_report]).
    - [Framing]: the COCO image sender and receiver: [get_image_files]
      and the sender's [main] ([to_ec_main]), the receiver's set-up
      checks and accept loop ([from_ed_main]).
    - [Energy]: the SEND/GET transfer tools, in a small error monad for
      the uncaught C++ exceptions.
    - [Pressure]: the thread-per-request ED as a step function [p_step],
      and the report [main] prints ([p_final_report]).
    - [Basic]: the sequential basic ED as a function of its counters.
    - [Sim]: the simulation ED as a step function [s_step] over [sstate];
      ghost lists record the ids drawn and the ids whose [run_request]
      returned; [s_final_report] is the report [main] prints.
    - [Pi3], [Yolo], [Rn50Bwaj]: the Poisson Pi 3 and the two
      bandwidth-aware EDs, each as its [run_request] blocks (and, for
      ResNet-50, the generator's time-stamp block) instantiating [Driver];
      the ResNet-50 blocks also record the mutexes they hold ([block]),
      which is what its data race is stated on.
    - [Rn50Listener]: the ResNet-50 bandwidth-aware listener thread, which
      converts the inference time with [std::stod] into the double-valued
      [local_infer_time_ms], and [main]'s average of that map.
    - [Dpu]: the thread-per-request ED of
      [ed_oms_parallel_working_withdpu_retina.cpp] with its counting
      semaphore and local-run limit, as a step function [d_step].
    - [ReadPower]: [compute_column_average] (the [std::getline] loops,
      header skip, column selection, [std::stod], binary64 mean) and
      [main] with [std::atoi].

    ** What the theorems show (claim ids C1..C40)

    - Admission (C1): the double computation grants exactly positions
      0..8, also at the [int] edge.
    - Wire (C2): the broker reads back the id the client sent.
    - Broker (C3-C7): under every interleaving [queue_size] counts the
      threads holding a slot, at most 9 granted tasks are in flight, the
      frames per connection are exact, [tasks_on_ec] and [tasks_dropped]
      count the served and dropped threads; nine unacknowledged grants
      block every later grant.
    - Client, LocalExec, Driver, Stats (C8-C18): [run_request] refines the
      spec's outcome (sections 4.2 and 8) on GRANT/DROP wherever the spec
      does not classify the task as failed; a GRANT not answered by
      [DONE], which the spec calls failed, is counted nowhere or counted
      as sent (C9); transport failures and unknown answers are lost or
      miscounted; the listener parses records and dies on a non-numeric
      line; every id is taken exactly once, the final counters are exact,
      every run is bounded; every line written to the helper is a
      well-formed task line it reads back (C17); the corrected latency
      does not depend on the map order.
    - Yolo, Rn50Bwaj (C19-C24): the YOLOv5s client refines the spec on
      the answers it reads; its printed report accounts for every
      generated task (generated minus completed is the number of requests
      lost before an answer, C21); for both time-driven variants the
      workers take exactly the ids pushed before the clock check fails
      and the counters are exact by outcome; in the ResNet-50 variant a
      worker's write of [task_start_time], which holds no mutex, and the
      generator's, which holds [time_map_mutex], can be the next blocks
      of two threads at once (C22), and its end-to-end latency is
      measured from the worker's start, leaving out the queueing delay.
    - Rn50Listener (C25): after any well-formed reports, a report whose
      inference time [std::stod] cannot convert ends the ResNet-50 ED
      before anything later is read, where the sequential listener
      stores it.
    - Dpu (C26-C29): at most 100 threads hold the semaphore and at most 20
      run locally, under every interleaving; the final counters are exact
      by outcome; a request whose [recv] after the image returns [-1]
      terminates the process before it prints; no run deadlocks and every
      run is bounded.
    - Framing (C30-C31): the received image is the sent one modulo 2^32
      when the size header arrives whole; composed, the sender's [main]
      streams every regular file of its directory in listing order and
      the receiver's [main] counts exactly that many images.
    - Energy (C32): the SEND round trip for any junk bytes and buffer
      contents when each send arrives whole.
    - ReadPower (C33): the loops of [compute_column_average] compute the
      binary64 mean of the converted cells of the column over every line
      but the header, in file order.
    - Pressure (C34-C35): the locked counters are exact, the racy
      [sent_to_ec] ends between [min 1 g] and [g].
    - Basic (C36-C37): the image loop drops the last partial 4 kB block;
      [main] returns with [sent_to_ec] the granted ids whose image
      opened, [ran_on_ed] the [DROP]s, [completed_tasks] these plus the
      failed connections, and their total duration.
    - Sim (C38-C40): the locked counters are exact sums by outcome
      (failures before the reply are queued but uncounted); the whole image
      is sent, tail included; every run is bounded and every reached state
      can run to the end (no deadlock, no overflow for [int] request
      counts).

    Further theorems, not numbered, document facts the numbered ones do
    not cover: the spec's admission example, the grant handshake round
    trip, colliding GRANT tokens, the dispatcher's FIFO drain, the
    printed average skewed by uncounted local runs, [std::stod] reading
    back every [long] [std::to_string] prints, the Pi 3 variant's final
    counters, the split image header that loses an image, the GET round
    trip, TCP coalescing that corrupts the remote directory, the bare GET
    that stops the EC, the 1 kB pair's 1220 results, the pressure ED's
    lost update and bounded runs, the OK frame echoing the token, the
    simulation ED taking each id once, the ResNet-50 listener storing
    every well-formed report, the order dependence of its average
    inference time, the YOLOv5s client counting a task as sent when
    [DONE] never came, a column of negative power readings whose mean is
    never printed, and the basic ED counting failovers as completed but
    not as local.

    ** Bounds and fuel

    Loops that are not structural carry fuel, and a lemma shows the fuel
    given is enough: [dec_digits] 20 digits (every [long] has at most 19);
    [Framing.recv_loop] one turn per byte of the segments
    ([recv_loop_take]); [Energy.recv_data] one turn per byte still expected
    ([recv_data_fuel]); [Energy.grow_payload] 256 turns of 4 bytes
    ([ed1k_receives_all] checks the 1024 bytes); [Basic.read_blocks] [size + 1] turns of 4096
    bytes ([read_blocks_concat]); [Sim.sim_blocks] [size + 1] turns
    ([sim_blocks_spec]); [LocalExec.listen] and [Rn50Listener.bw_listen]
    one turn per byte of the stream plus one.  [Strtod] needs no fuel: its
    scans are structural and its exponent is an exact integer.  The concurrent models ([Broker], [Driver],
    [Pressure], [Sim]) are step functions with no fuel; their termination
    is a theorem (C16, C29, C40, [pressure_run_bounded]) via a decreasing
    measure.  The time-driven generator [gen_pushes] gets one check more
    than the ids it pushes ([gen_pushes_first_stop]).  Signed overflow is
    undefined in C++, so an update that would overflow an [int] or [long]
    makes the step [None]: theorems about reachable states hold of the runs
    without undefined behaviour, and the counting theorems state when no
    overflow can occur.

    ** Not modelled

    - The inference itself ([model->run], the Python helper's network):
      the spec makes the Inference Engine an external collaborator; only
      the helper's output line is modelled, from the spec.
    - Clocks, [sleep_for] and the Poisson delays: timing is an input (the
      durations) or ignored; every interleaving is allowed instead.
    - The local command of [..._working_withdpu_retina.cpp] (an external
      Python RetinaFace script run by [std::system]).
    - [std::to_string(double)] ("%f") in the ResNet-50 listener's log
      line: the text is a parameter.  The sign and payload of a NaN that
      [std::stod] returns ([SpecFloat] has one NaN).  The messages written
      to [std::cerr].
    - Socket options,
      file-system listing and log-file I/O, which are inputs or
      observations of the model. *)

From stdpp Require Export base list gmap strings.
From Stdlib Require Export ZArith Lia String Ascii.

Declare Scope oms_scope.
Delimit Scope oms_scope with oms.
Open Scope Z_scope.

(** ** C integer widths *)

(** [int] is 32 bits and [long] is 64 bits on the Linux targets (Raspberry
    Pi OS aarch64 and the Kria board). *)
Definition INT_MIN : Z := - 2 ^ 31.
Definition INT_MAX : Z := 2 ^ 31 - 1.
Definition LONG_MIN : Z := - 2 ^ 63.
Definition LONG_MAX : Z := 2 ^ 63 - 1.

(** [in_int z] holds when [z] is representable as an [int]. *)
Definition in_int (z : Z) : bool := (INT_MIN <=? z) && (z <=? INT_MAX).
Definition in_long (z : Z) : bool := (LONG_MIN <=? z) && (z <=? LONG_MAX).

Notation "'int32' z" := (in_int z = true) (at level 10) : oms_scope.
Notation "'int64' z" := (in_long z = true) (at level 10) : oms_scope.
Infix "+s+" := String.append (at level 60, right associativity) : oms_scope.

Open Scope oms_scope.

(** A sum in [Z] over a list (of thread states, of ids). *)
Definition zsum_with {A} (f : A -> Z) (l : list A) : Z := foldr (fun x acc => f x + acc) 0 l.

Create HintDb oms.
Create Rewrite HintDb oms_rw.

(** ** Shared lemmas *)

Lemma in_int_iff (z : Z) : int32 z <-> INT_MIN <= z <= INT_MAX.
Proof.
  unfold in_int. rewrite andb_true_iff, !Z.leb_le. tauto.
Qed.

Lemma in_long_iff (z : Z) : int64 z <-> LONG_MIN <= z <= LONG_MAX.
Proof.
  unfold in_long. rewrite andb_true_iff, !Z.leb_le. tauto.
Qed.

Lemma in_int_in_long (z : Z) : int32 z -> int64 z.
Proof.
  rewrite in_int_iff, in_long_iff.
  unfold INT_MIN, INT_MAX, LONG_MIN, LONG_MAX. lia.
Qed.

(** Unfold the width predicates into linear arithmetic. *)
Ltac widths :=
  repeat match goal with
  | H : in_int _ = true |- _ => apply in_int_iff in H
  | H : in_long _ = true |- _ => apply in_long_iff in H
  | |- in_int _ = true => apply in_int_iff
  | |- in_long _ = true => apply in_long_iff
  end;
  unfold INT_MIN, INT_MAX, LONG_MIN, LONG_MAX in *.

(** Linear arithmetic with [/] and [mod] by constants. *)
Ltac zdiv_lia := Z.div_mod_to_equations; lia.

(** stdpp declares [String.append] [simpl never]: these are its equations. *)
Lemma string_app_nil_l (a : string) : EmptyString +s+ a = a.
Proof. reflexivity. Qed.

Lemma string_app_cons (x : ascii) (a b : string) :
  String x a +s+ b = String x (a +s+ b).
Proof. reflexivity. Qed.

Lemma string_app_assoc (a b c : string) : (a +s+ b) +s+ c = a +s+ (b +s+ c).
Proof.
  induction a as [|x a IH]; [done|].
  by rewrite !string_app_cons, IH.
Qed.

Lemma string_app_nil_r (a : string) : a +s+ EmptyString = a.
Proof.
  induction a as [|x a IH]; [done|].
  by rewrite string_app_cons, IH.
Qed.

#[export] Hint Resolve in_int_in_long : oms.
#[export] Hint Rewrite string_app_nil_l string_app_cons string_app_assoc
  string_app_nil_r : oms_rw.

(** ** Counting over a list of thread states *)

(** Updating one element of a list moves a sum by the difference. *)
Lemma sum_list_with_insert {A} (f : A -> nat) (l : list A) (i : nat) (x y : A) :
  l !! i = Some x ->
  (sum_list_with f (<[i:=y]> l) + f x = sum_list_with f l + f y)%nat.
Proof.
  revert i. induction l as [|z l IH]; intros [|i] H; simplify_eq/=; [lia|].
  specialize (IH i H). lia.
Qed.

(** A pointwise bound between two counts. *)
Lemma sum_list_with_le {A} (f g : A -> nat) (l : list A) :
  (forall x, x ∈ l -> f x <= g x)%nat -> (sum_list_with f l <= sum_list_with g l)%nat.
Proof.
  induction l as [|z l IH]; intros H; cbn; [lia|].
  pose proof (H z ltac:(left)). assert (sum_list_with f l <= sum_list_with g l)%nat.
  { apply IH. intros x Hx. apply H. by right. }
  lia.
Qed.

Lemma sum_list_with_add {A} (f g : A -> nat) (l : list A) :
  sum_list_with (fun x => f x + g x)%nat l = (sum_list_with f l + sum_list_with g l)%nat.
Proof. induction l as [|z l IH]; cbn; lia. Qed.

(** A count that is zero has no positive term. *)
Lemma sum_list_with_zero {A} (f : A -> nat) (l : list A) :
  sum_list_with f l = 0%nat -> Forall (fun x => f x = 0%nat) l.
Proof. induction l as [|z l IH]; cbn; intros H; constructor; [lia | apply IH; lia]. Qed.

Lemma sum_list_with_ext {A} (f g : A -> nat) (l : list A) :
  (forall x, x ∈ l -> f x = g x) -> sum_list_with f l = sum_list_with g l.
Proof.
  induction l as [|z l IH]; intros H; cbn; [done|].
  rewrite (H z ltac:(left)), IH; [done|]. intros x Hx. apply H. by right.
Qed.

(** A term counted once over a duplicate-free list of keys. *)
Lemma sum_list_with_single {K} `{EqDecision K} (x : K) (c : nat) (ks : list K) :
  NoDup ks -> x ∈ ks -> sum_list_with (fun k => if decide (x = k) then c else 0%nat) ks = c.
Proof.
  induction ks as [|k ks IH]; intros Hnd Hx; [by apply elem_of_nil in Hx|].
  apply NoDup_cons in Hnd as [Hk Hnd]. cbn. case_decide as E.
  - subst. rewrite (sum_list_with_ext _ (fun _ => 0%nat)).
    + clear. induction ks; cbn; lia.
    + intros y Hy. case_decide; [subst; contradiction | done].
  - apply elem_of_cons in Hx as [->|Hx]; [done|]. rewrite IH; done.
Qed.

(** Summing over a list of tagged values is summing, key by key, over
    the values of each key. *)
Lemma sum_list_with_by_key {K V} `{EqDecision K} (f : V -> nat) (l : list (K * V)) (ks : list K) :
  NoDup ks -> Forall (fun a => a.1 ∈ ks) l ->
  sum_list_with f (snd <$> l) =
  sum_list_with (fun k => sum_list_with f (snd <$> filter (fun a => a.1 = k) l)) ks.
Proof.
  intros Hnd. induction l as [|a l IH]; intros Hl.
  - cbn. clear. induction ks; cbn; lia.
  - apply Forall_cons in Hl as [Ha Hl]. rewrite fmap_cons. cbn [sum_list_with]. rewrite IH by done.
    assert (sum_list_with (fun k => sum_list_with f (snd <$> filter (fun a => a.1 = k) (a :: l))) ks =
            sum_list_with (fun k => (if decide (a.1 = k) then f a.2 else 0%nat) +
                sum_list_with f (snd <$> filter (fun a => a.1 = k) l))%nat ks) as ->.
    { apply sum_list_with_ext. intros k _. rewrite filter_cons.
      repeat case_decide; cbn; lia. }
    rewrite sum_list_with_add, sum_list_with_single by done. done.
Qed.

(** Counting an indicator is the length of the filter. *)
Lemma sum_list_with_indicator {A} (f : A -> bool) (l : list A) :
  sum_list_with (fun x => if f x then 1%nat else 0%nat) l = List.length (filter (fun x => f x = true) l).
Proof.
  induction l as [|x l IH]; [done|]. rewrite filter_cons. cbn. rewrite IH.
  destruct (f x); case_decide; cbn; done || congruence.
Qed.

Lemma sum_list_with_snoc {A} (f : A -> nat) (l : list A) (x : A) :
  sum_list_with f (l ++ [x]) = (sum_list_with f l + f x)%nat.
Proof. rewrite sum_list_with_app. cbn. lia. Qed.

(** ** Sums over a list of thread states, in [Z] *)

Lemma zsum_with_insert {A} (f : A -> Z) (l : list A) (i : nat) (x y : A) :
  l !! i = Some x -> zsum_with f (<[i:=y]> l) = zsum_with f l - f x + f y.
Proof.
  unfold zsum_with. revert i. induction l as [|z l IH]; intros [|i] H; simplify_eq/=; [lia|].
  rewrite (IH i H). lia.
Qed.


Lemma zsum_with_snoc {A} (f : A -> Z) (l : list A) (x : A) :
  zsum_with f (l ++ [x]) = zsum_with f l + f x.
Proof. unfold zsum_with. rewrite foldr_app. cbn. induction l; cbn in *; lia. Qed.


Lemma sum_set {A} (f : A -> nat) (l : list A) (i : nat) (x y : A) :
  l !! i = Some x ->
  Z.of_nat (sum_list_with f (<[i:=y]> l)) = Z.of_nat (sum_list_with f l) - Z.of_nat (f x) + Z.of_nat (f y).
Proof. intros H. pose proof (sum_list_with_insert f l i x y H). lia. Qed.


Lemma forallb_lookup_false {A} (f : A -> bool) (l : list A) (i : nat) (x : A) :
  l !! i = Some x -> f x = false -> forallb f l = false.
Proof.
  revert i. induction l as [|y l IH]; intros [|i] Hi Hx; simplify_eq/=; [by rewrite Hx|].
  rewrite (IH i Hi Hx). apply andb_false_r.
Qed.


Lemma replicate_snoc {A} (n : nat) (x : A) (l : list A) :
  l = replicate n x -> l ++ [x] = replicate (S n) x.
Proof. intros ->. by rewrite replicate_S_end. Qed.


Lemma forallb_lookup {A} (f : A -> bool) (l : list A) (i : nat) (x : A) :
  forallb f l = true -> l !! i = Some x -> f x = true.
Proof.
  revert i. induction l as [|y l IH]; intros [|i] Hall Hi; simplify_eq/=;
    apply andb_true_iff in Hall as [Hy Hl]; [done | by apply (IH i)].
Qed.


Lemma sum_list_with_fmap {A B} (f : B -> nat) (g : A -> B) (l : list A) :
  sum_list_with f (g <$> l) = sum_list_with (fun x => f (g x)) l.
Proof. induction l as [|x l IH]; cbn; [done | by rewrite IH]. Qed.


Lemma zsum_with_fmap {A B} (f : B -> Z) (g : A -> B) (l : list A) :
  zsum_with f (g <$> l) = zsum_with (fun x => f (g x)) l.
Proof. unfold zsum_with. induction l as [|x l IH]; cbn; [done | by rewrite IH]. Qed.


Lemma zsum_with_app {A} (f : A -> Z) (l1 l2 : list A) :
  zsum_with f (l1 ++ l2) = zsum_with f l1 + zsum_with f l2.
Proof. unfold zsum_with. induction l1 as [|x l1 IH]; cbn; lia. Qed.

Lemma zsum_with_Permutation {A} (f : A -> Z) (l1 l2 : list A) :
  l1 ≡ₚ l2 -> zsum_with f l1 = zsum_with f l2.
Proof. unfold zsum_with. induction 1; cbn; lia. Qed.

(** ** Ids drawn in order, and lists of per-thread ids *)

Lemma seqZ_snoc (n : Z) : 0 <= n -> seqZ 0 (n + 1) = seqZ 0 n ++ [n].
Proof. intros Hn. rewrite seqZ_app by lia. rewrite (seqZ_cons (0 + n) 1), (seqZ_nil _ (Z.pred 1)) by lia. done. Qed.

(** Replacing one element of [l] replaces its image in the concatenation. *)
Lemma concat_fmap_insert {A B} (f : A -> list B) (l : list A) (i : nat) (x y : A) :
  l !! i = Some x ->
  List.concat (f <$> <[i:=y]> l) ++ f x ≡ₚ List.concat (f <$> l) ++ f y.
Proof.
  revert i. induction l as [|z l IH]; intros [|i] H; simplify_eq/=.
  - rewrite <- !app_assoc. solve_Permutation.
  - rewrite <- !app_assoc. apply Permutation_app_head. by apply IH.
Qed.

Lemma forallb_false_lookup {A} (f : A -> bool) (l : list A) :
  forallb f l = false -> exists i x, l !! i = Some x /\ f x = false.
Proof.
  induction l as [|y l IH]; cbn; [done|]. destruct (f y) eqn:Ey; cbn.
  - intros H. destruct (IH H) as (i & x & Hi & Hx). by exists (S i), x.
  - intros _. by exists 0%nat, y.
Qed.

Lemma zsum_with_bound {A} (f : A -> Z) (l : list A) (B : Z) :
  (forall x, x ∈ l -> 0 <= f x <= B) -> 0 <= zsum_with f l <= Z.of_nat (List.length l) * B.
Proof.
  unfold zsum_with. induction l as [|y l IH]; intros H; cbn; [lia|].
  assert (0 <= f y <= B) by (apply H; left).
  assert (0 <= foldr (fun x acc => f x + acc) 0 l <= Z.of_nat (List.length l) * B)
    by (apply IH; intros x Hx; apply H; by right).
  lia.
Qed.

(** A per-element sum that depends only on the position: the sum over the
    positions. *)
Lemma zsum_with_indexed {A} (f : A -> Z) (g : Z -> Z) (l : list A) :
  (forall i x, l !! i = Some x -> f x = g (Z.of_nat i)) ->
  zsum_with f l = zsum_with g (seqZ 0 (Z.of_nat (List.length l))).
Proof.
  induction l as [|x l IH] using rev_ind; intros H; [done|].
  rewrite length_app, Nat2Z.inj_add, seqZ_snoc, !zsum_with_snoc by lia. cbn [List.length].
  rewrite IH; [f_equal|].
  - rewrite (H (List.length l)); [f_equal; lia|]. by rewrite lookup_app_r, Nat.sub_diag by lia.
  - intros i y Hi. apply H. by apply lookup_app_l_Some.
Qed.

Lemma zsum_with_indicator {A} (f : A -> bool) (l : list A) :
  zsum_with (fun x => if f x then 1 else 0) l = Z.of_nat (List.length (filter (fun x => f x = true) l)).
Proof.
  unfold zsum_with. induction l as [|x l IH]; [done|]. rewrite filter_cons. cbn [foldr].
  destruct (f x); [rewrite decide_True by done | rewrite decide_False by done]; cbn [List.length]; lia.
Qed.

Lemma zsum_with_zero {A} (f : A -> Z) (l : list A) :
  Forall (fun x => f x = 0) l -> zsum_with f l = 0.
Proof. unfold zsum_with. induction 1; cbn; lia. Qed.

Lemma zsum_with_nonneg {A} (f : A -> Z) (l : list A) : (forall y, 0 <= f y) -> 0 <= zsum_with f l.
Proof. intros Hf. unfold zsum_with. induction l as [|y l IH]; cbn; [lia|]. specialize (Hf y). lia. Qed.

(** A non-negative summand is at most the sum. *)
Lemma zsum_with_lookup_le {A} (f : A -> Z) (l : list A) (i : nat) (x : A) :
  (forall y, 0 <= f y) -> l !! i = Some x -> f x <= zsum_with f l.
Proof.
  intros Hf. revert i. induction l as [|y l IH]; intros [|i] H; simplify_eq/=.
  - pose proof (zsum_with_nonneg f l Hf). unfold zsum_with in *. cbn. lia.
  - specialize (IH i H). specialize (Hf y). unfold zsum_with in *. cbn. lia.
Qed.

Lemma zsum_with_add {A} (f g : A -> Z) (l : list A) :
  zsum_with (fun x => f x + g x) l = zsum_with f l + zsum_with g l.
Proof. unfold zsum_with. induction l; cbn; lia. Qed.

(** Two exclusive tests split a list in three: the elements passing the
    first, those passing the second and those passing neither. *)
Lemma length_filter_split {A} (p q : A -> bool) (l : list A) :
  (forall x, p x = true -> q x = false) ->
  List.length l = (List.length (filter (fun x => p x = true) l) + List.length (filter (fun x => q x = true) l)
                   + List.length (filter (fun x => negb (p x || q x) = true) l))%nat.
Proof.
  intros H. induction l as [|x l IH]; [done|]. rewrite !filter_cons. specialize (H x).
  destruct (p x) eqn:Ep, (q x) eqn:Eq; cbn [orb negb];
    repeat first [rewrite decide_True by done | rewrite decide_False by done]; cbn [List.length];
    lia.
Qed.
