(* ===== verification/CppString.v ===== *)
(** * CppString: the [std::string] operations the offload code relies on

    The broker and the client exchange decimal numbers inside text frames.
    This file models, over [String.string], the library calls the code
    makes: [s.rfind(p, 0) == 0] (prefix test), [s.find(c, pos)] (with
    [npos] as [None]), [s.substr(pos, n)] (with its [std::out_of_range]),
    [std::to_string] on [int]/[long], and [std::stoi]/[std::stol] with
    the [strtol] grammar (leading white space, optional sign, longest
    digit prefix) and their two exceptions.  The main results are the
    round trips [stoi (to_string z) = inr z] and its variant with a
    non-digit suffix, which the wire-protocol proofs use. *)

From S2P Require Import Prelude.

Open Scope oms_scope.

(** ** Prefix test, [find] and [substr] *)

(** [s.rfind(p, 0) == 0]: the last occurrence of [p] starting at or
    before index 0 is at 0, i.e. [s] starts with [p]. *)
Definition starts_with (p s : string) : bool := String.prefix p s.

(** [s.find(c, pos)]: the first index [>= pos] holding [c]; [None] is
    [std::string::npos] (also when [pos] is past the end). *)
Fixpoint str_find (c : ascii) (s : string) (pos : nat) : option nat :=
  match s with
  | EmptyString => None
  | String a s' =>
      match pos with
      | O => if Ascii.eqb a c then Some O else S <$> str_find c s' O
      | S pos' => S <$> str_find c s' pos'
      end
  end.

(** [s.substr(pos, count)]; [count = None] is the default [npos] (to the
    end).  A [pos] past the end throws [std::out_of_range] ([None]). *)
Definition substr (s : string) (pos : nat) (count : option nat) : option string :=
  if Nat.leb pos (String.length s) then
    Some (match count with
          | Some n => String.substring pos n s
          | None => String.substring pos (String.length s - pos) s
          end)
  else None.

(** [line.erase(std::remove(line.begin(), line.end(), c), line.end())]. *)
Fixpoint erase_char (c : ascii) (s : string) : string :=
  match s with
  | EmptyString => EmptyString
  | String a s' => if Ascii.eqb a c then erase_char c s' else String a (erase_char c s')
  end.

(** ** [std::to_string] *)

Definition digit_char (d : Z) : ascii := ascii_of_nat (48 + Z.to_nat d).

(** Decimal digits of [n >= 0], most significant first, before [acc];
    [fuel] bounds the number of digits. *)
Fixpoint dec_digits (fuel : nat) (n : Z) (acc : string) : string :=
  match fuel with
  | O => acc
  | S f =>
      let acc' := String (digit_char (n mod 10)) acc in
      if n <? 10 then acc' else dec_digits f (n / 10) acc'
  end.

(** Twenty digits cover every [long] (|z| <= 2^63 < 10^20). *)
Definition to_string (z : Z) : string :=
  if z <? 0 then String "-" (dec_digits 20 (- z) EmptyString)
  else dec_digits 20 z EmptyString.

(** ** [std::stoi] and [std::stol] *)

(** [isspace] in the C locale. *)
Definition is_space (a : ascii) : bool :=
  match nat_of_ascii a with
  | 32 | 9 | 10 | 11 | 12 | 13 => true
  | _ => false
  end%nat.

Definition digit_val (a : ascii) : option Z :=
  let n := nat_of_ascii a in
  if Nat.leb 48 n && Nat.leb n 57 then Some (Z.of_nat n - 48) else None.

Fixpoint skip_space (s : string) : string :=
  match s with
  | String a s' => if is_space a then skip_space s' else s
  | EmptyString => EmptyString
  end.

(** The longest digit prefix, accumulated onto [acc]; returns the rest. *)
Fixpoint read_digits (s : string) (acc : Z) : Z * string :=
  match s with
  | String a s' =>
      match digit_val a with
      | Some d => read_digits s' (acc * 10 + d)
      | None => (acc, s)
      end
  | EmptyString => (acc, EmptyString)
  end.

(** [strtol(s, &end, 10)] before its range check: [None] when no digit
    was converted. *)
Definition strtol_core (s : string) : option Z :=
  let s1 := skip_space s in
  let '(neg, s2) :=
    match s1 with
    | String "-" r => (true, r)
    | String "+" r => (false, r)
    | _ => (false, s1)
    end in
  match s2 with
  | String a _ =>
      match digit_val a with
      | Some _ => let v := fst (read_digits s2 0) in Some (if neg then - v else v)
      | None => None
      end
  | EmptyString => None
  end.

(** The two exceptions of the conversion functions. *)
Inductive conv_error := InvalidArgument | OutOfRange.

(** [std::stol]: [long] is the range of [strtol] itself. *)
Definition stol (s : string) : conv_error + Z :=
  match strtol_core s with
  | None => inl InvalidArgument
  | Some v => if in_long v then inr v else inl OutOfRange
  end.

(** [std::stoi]: [strtol] and then the [int] range check. *)
Definition stoi (s : string) : conv_error + Z :=
  match strtol_core s with
  | None => inl InvalidArgument
  | Some v => if in_int v then inr v else inl OutOfRange
  end.

(** ** Scanning helpers *)

(** [rest] stops a [strtol] digit scan. *)
Definition stops_digits (rest : string) : bool :=
  match rest with
  | String a _ => match digit_val a with Some _ => false | None => true end
  | EmptyString => true
  end.

(** [f] holds of every character of [s]. *)
Fixpoint all_chars (f : ascii -> bool) (s : string) : bool :=
  match s with
  | EmptyString => true
  | String a s' => f a && all_chars f s'
  end.

(** The characters [std::to_string] prints: digits and the minus sign. *)
Definition is_decimal_char (a : ascii) : bool :=
  match digit_val a with Some _ => true | None => Ascii.eqb a "-" end.

(** ** Lemmas: decimal digits *)

(** Split a digit [0 <= d < 10] into its ten concrete cases. *)
Ltac digit_cases d :=
  let Hd := fresh "Hd" in
  assert (d = 0 \/ d = 1 \/ d = 2 \/ d = 3 \/ d = 4 \/ d = 5 \/ d = 6 \/
          d = 7 \/ d = 8 \/ d = 9) as Hd by lia;
  repeat destruct Hd as [-> | Hd]; [..| subst d].

Lemma digit_val_digit_char (d : Z) : 0 <= d < 10 -> digit_val (digit_char d) = Some d.
Proof. intros H. digit_cases d; reflexivity. Qed.

Lemma dec_digits_app (f : nat) (n : Z) (acc rest : string) :
  dec_digits f n acc +s+ rest = dec_digits f n (acc +s+ rest).
Proof.
  revert n acc. induction f as [|f IH]; intros n acc; [done|].
  cbn [dec_digits]. destruct (n <? 10); [done|]. by rewrite IH.
Qed.

(** The first character printed is a digit. *)
Lemma dec_digits_head (f : nat) (n : Z) (acc : string) :
  exists d r, 0 <= d < 10 /\ dec_digits (S f) n acc = String (digit_char d) r.
Proof.
  revert n acc. induction f as [|f IH]; intros n acc; cbn [dec_digits].
  - destruct (n <? 10); eexists _, _; split; [apply Z.mod_pos_bound; lia|done
                                            |apply Z.mod_pos_bound; lia|done].
  - destruct (n <? 10); [eexists _, _; split; [apply Z.mod_pos_bound; lia|done]|].
    apply IH.
Qed.

Lemma read_digits_digit (d : Z) (s : string) (v : Z) :
  0 <= d < 10 -> read_digits (String (digit_char d) s) v = read_digits s (v * 10 + d).
Proof. intros Hd. cbn [read_digits]. by rewrite digit_val_digit_char. Qed.

(** Reading back the printed digits accumulates exactly [n]. *)
Lemma read_digits_dec (f : nat) (n : Z) (acc : string) (v : Z) :
  0 <= n < 10 ^ Z.of_nat f ->
  exists k : nat, read_digits (dec_digits f n acc) v = read_digits acc (v * 10 ^ Z.of_nat k + n).
Proof.
  revert n acc v. induction f as [|f IH]; intros n acc v Hn.
  - simpl in Hn. assert (n = 0) as -> by lia. exists O. by rewrite Z.mul_1_r, Z.add_0_r.
  - rewrite Nat2Z.inj_succ, Z.pow_succ_r in Hn by lia.
    pose proof (Z.mod_pos_bound n 10 ltac:(lia)) as Hm.
    cbn [dec_digits]. destruct (Z.ltb_spec n 10).
    + exists 1%nat. rewrite read_digits_digit by lia.
      rewrite Z.mod_small by lia. f_equal; lia.
    + destruct (IH (n / 10) (String (digit_char (n mod 10)) acc) v) as [k Hk].
      { split; [apply Z.div_pos; lia | apply Z.div_lt_upper_bound; lia]. }
      exists (S k). rewrite Hk, read_digits_digit by lia.
      f_equal. rewrite Nat2Z.inj_succ, Z.pow_succ_r by lia.
      pose proof (Z.div_mod n 10 ltac:(lia)). lia.
Qed.

Lemma read_digits_stop (rest : string) (v : Z) :
  stops_digits rest = true -> read_digits rest v = (v, rest).
Proof. destruct rest as [|a r]; simpl; [done|]. by destruct (digit_val a). Qed.

Lemma read_digits_to_string_body (n : Z) (rest : string) :
  0 <= n < 10 ^ 20 -> stops_digits rest = true ->
  read_digits (dec_digits 20 n rest) 0 = (n, rest).
Proof.
  intros Hn Hs. destruct (read_digits_dec 20 n rest 0 Hn) as [k ->].
  rewrite Z.mul_0_l, Z.add_0_l. by apply read_digits_stop.
Qed.

(** [strtol] on a string that starts with a digit, optionally signed. *)
Lemma strtol_core_digit (d : Z) (r : string) (neg : bool) :
  0 <= d < 10 ->
  strtol_core ((if neg then String "-" EmptyString else EmptyString) +s+ String (digit_char d) r) =
  Some (let v := fst (read_digits (String (digit_char d) r) 0) in if neg then - v else v).
Proof. intros Hd. destruct neg; digit_cases d; reflexivity. Qed.

(** [strtol] on a printed non-negative number followed by a stop. *)
Lemma strtol_core_dec (n : Z) (rest : string) (neg : bool) :
  0 <= n < 10 ^ 20 -> stops_digits rest = true ->
  strtol_core ((if neg then String "-" EmptyString else EmptyString)
                 +s+ dec_digits 20 n rest) = Some (if neg then - n else n).
Proof.
  intros Hn Hs.
  pose proof (read_digits_to_string_body n rest Hn Hs) as Hr.
  destruct (dec_digits_head 19 n rest) as (d & r & Hd & Heq).
  rewrite Heq in Hr |- *. by rewrite strtol_core_digit, Hr.
Qed.

Lemma to_string_app (z : Z) (rest : string) :
  to_string z +s+ rest =
  (if z <? 0 then String "-" EmptyString else EmptyString)
    +s+ dec_digits 20 (Z.abs z) rest.
Proof.
  unfold to_string. destruct (Z.ltb_spec z 0).
  - rewrite Z.abs_neq by lia. by rewrite string_app_cons, dec_digits_app.
  - rewrite Z.abs_eq by lia. by rewrite dec_digits_app.
Qed.

(** ** Round trips *)

(** [strtol] reads back what [std::to_string] printed, up to any suffix
    that does not start with a digit (a [':'] or [','] separator). *)
Theorem strtol_core_to_string (z : Z) (rest : string) :
  int64 z -> stops_digits rest = true ->
  strtol_core (to_string z +s+ rest) = Some z.
Proof.
  intros Hz Hs. rewrite to_string_app.
  assert (0 <= Z.abs z < 10 ^ 20) by (widths; lia).
  rewrite strtol_core_dec by done. f_equal. destruct (Z.ltb_spec z 0); lia.
Qed.

Lemma stoi_to_string (z : Z) : int32 z -> stoi (to_string z) = inr z.
Proof.
  intros Hz. unfold stoi.
  rewrite <- (string_app_nil_r (to_string z)), strtol_core_to_string by auto with oms.
  by rewrite Hz.
Qed.

Lemma stol_to_string (z : Z) : int64 z -> stol (to_string z) = inr z.
Proof.
  intros Hz. unfold stol.
  rewrite <- (string_app_nil_r (to_string z)), strtol_core_to_string by done.
  by rewrite Hz.
Qed.

#[export] Hint Rewrite stoi_to_string stol_to_string using assumption : oms_rw.

(** ** The characters and length of [std::to_string] *)

Lemma all_chars_app (f : ascii -> bool) (a b : string) :
  all_chars f (a +s+ b) = all_chars f a && all_chars f b.
Proof.
  induction a as [|x a IH]; [done|]. rewrite string_app_cons. cbn [all_chars].
  by rewrite IH, andb_assoc.
Qed.

Lemma dec_digits_chars (f : nat) (n : Z) (acc : string) :
  0 <= n -> all_chars is_decimal_char acc = true ->
  all_chars is_decimal_char (dec_digits f n acc) = true.
Proof.
  revert n acc. induction f as [|f IH]; intros n acc Hn Hacc; [done|].
  assert (is_decimal_char (digit_char (n mod 10)) = true).
  { unfold is_decimal_char. by rewrite digit_val_digit_char by (apply Z.mod_pos_bound; lia). }
  cbn [dec_digits]. destruct (n <? 10).
  - cbn [all_chars]. by apply andb_true_intro.
  - apply IH; [apply Z.div_pos; lia|]. cbn [all_chars]. by apply andb_true_intro.
Qed.

Lemma to_string_chars (z : Z) : all_chars is_decimal_char (to_string z) = true.
Proof.
  unfold to_string. destruct (Z.ltb_spec z 0).
  - cbn [all_chars]. apply dec_digits_chars; [lia|done].
  - apply dec_digits_chars; [lia|done].
Qed.

Lemma dec_digits_length (f : nat) (n : Z) (acc : string) :
  (String.length (dec_digits f n acc) <= f + String.length acc)%nat.
Proof.
  revert n acc. induction f as [|f IH]; intros n acc; [done|].
  cbn [dec_digits]. destruct (n <? 10); cbn [String.length]; [lia|].
  specialize (IH (n / 10) (String (digit_char (n mod 10)) acc)). cbn [String.length] in IH. lia.
Qed.

Lemma to_string_length (z : Z) : (String.length (to_string z) <= 21)%nat.
Proof.
  unfold to_string. destruct (z <? 0); cbn [String.length];
    pose proof (dec_digits_length 20 (Z.abs z) EmptyString); cbn [String.length] in *;
    [pose proof (dec_digits_length 20 (- z) EmptyString) | pose proof (dec_digits_length 20 z EmptyString)];
    cbn [String.length] in *; lia.
Qed.

Lemma dec_digits_length_lt (f : nat) (n : Z) (acc : string) (k : nat) :
  0 <= n < 10 ^ Z.of_nat k -> (1 <= k)%nat ->
  (String.length (dec_digits f n acc) <= k + String.length acc)%nat.
Proof.
  revert n acc k. induction f as [|f IH]; intros n acc k Hn Hk; cbn [dec_digits]; [lia|].
  destruct (Z.ltb_spec n 10); cbn [String.length]; [lia|].
  destruct k as [|[|k]]; [lia| cbn in Hn; lia|].
  specialize (IH (n / 10) (String (digit_char (n mod 10)) acc) (S k)).
  cbn [String.length] in IH. rewrite Nat2Z.inj_succ, Z.pow_succ_r in Hn by lia.
  rewrite IH; [lia| |lia]. rewrite Nat2Z.inj_succ. zdiv_lia.
Qed.

(** A non-negative number below [10 ^ k] prints in at most [k] digits. *)
Lemma to_string_length_lt (z : Z) (k : nat) :
  0 <= z < 10 ^ Z.of_nat k -> (1 <= k)%nat -> (String.length (to_string z) <= k)%nat.
Proof.
  intros Hz Hk. unfold to_string. rewrite (proj2 (Z.ltb_ge z 0)) by lia.
  pose proof (dec_digits_length_lt 20 z EmptyString k Hz Hk). cbn [String.length] in *. lia.
Qed.

(** A position [find] returns is inside the string, at or after [pos]. *)
Lemma str_find_bounds (c : ascii) (s : string) (pos k : nat) :
  str_find c s pos = Some k -> (pos <= k < String.length s)%nat.
Proof.
  revert pos k. induction s as [|a s IH]; intros pos k H; [done|]. cbn in H |- *.
  destruct pos as [|pos].
  - destruct (Ascii.eqb a c); [injection H as <-; lia|].
    destruct (str_find c s 0) as [k'|] eqn:E; [|done]. injection H as <-. apply IH in E. lia.
  - destruct (str_find c s pos) as [k'|] eqn:E; [|done]. injection H as <-. apply IH in E. lia.
Qed.

(** [str_find] from 0 over a prefix none of whose characters is [c]. *)
Lemma str_find_app_none (c : ascii) (a b : string) :
  all_chars (fun x => negb (Ascii.eqb x c)) a = true ->
  str_find c (a +s+ b) 0 = Nat.add (String.length a) <$> str_find c b 0.
Proof.
  induction a as [|x a IH]; intros Ha.
  - rewrite string_app_nil_l. by destruct (str_find c b 0).
  - rewrite string_app_cons. cbn [all_chars] in Ha. apply andb_prop in Ha as [Hx Ha].
    apply negb_true_iff in Hx. cbn [str_find String.length]. rewrite Hx, IH by done.
    by destruct (str_find c b 0).
Qed.

(** ** [substring] and [prefix] over concatenations *)

Lemma string_length_app (a b : string) :
  String.length (a +s+ b) = (String.length a + String.length b)%nat.
Proof. induction a as [|x a IH]; [done|]. rewrite string_app_cons. cbn. by rewrite IH. Qed.

Lemma substring_app_l (a s : string) (i n : nat) :
  String.substring (String.length a + i) n (a +s+ s) = String.substring i n s.
Proof. induction a as [|x a IH]; [done|]. by rewrite string_app_cons. Qed.

Lemma substring_0_app (b c : string) :
  String.substring 0 (String.length b) (b +s+ c) = b.
Proof. induction b as [|x b IH]; [by destruct c|]. rewrite string_app_cons. cbn. by rewrite IH. Qed.

Lemma substring_0_all (s : string) (n : nat) :
  (String.length s <= n)%nat -> String.substring 0 n s = s.
Proof.
  revert n. induction s as [|x s IH]; intros n Hn; [by destruct n|].
  destruct n as [|n]; cbn in Hn; [lia|]. cbn. rewrite IH; [done|lia].
Qed.

Lemma prefix_app (a b : string) : String.prefix a (a +s+ b) = true.
Proof.
  induction a as [|x a IH]; [by destruct b|]. rewrite string_app_cons. cbn.
  rewrite IH. by destruct (Ascii.ascii_dec x x).
Qed.

Lemma decimal_not_char (c : ascii) (s : string) :
  is_decimal_char c = false -> all_chars is_decimal_char s = true ->
  all_chars (fun x => negb (Ascii.eqb x c)) s = true.
Proof.
  intros Hc. induction s as [|x s IH]; cbn; [done|]. intros [Hx Hs]%andb_prop.
  rewrite IH by done. destruct (Ascii.eqb_spec x c); [subst; congruence | done].
Qed.

(** [str_find] from a position past a prefix ignores the prefix. *)
Lemma str_find_app_skip (c : ascii) (a b : string) (k : nat) :
  str_find c (a +s+ b) (String.length a + k) = Nat.add (String.length a) <$> str_find c b k.
Proof.
  induction a as [|x a IH].
  - rewrite string_app_nil_l. cbn [String.length Nat.add]. by destruct (str_find c b k).
  - rewrite string_app_cons. cbn [str_find String.length Nat.add]. rewrite IH.
    by destruct (str_find c b k).
Qed.

Lemma str_find_here (c : ascii) (s : string) : str_find c (String c s) 0 = Some O.
Proof. cbn. by rewrite Ascii.eqb_refl. Qed.

Lemma erase_char_app (c : ascii) (a b : string) :
  erase_char c (a +s+ b) = erase_char c a +s+ erase_char c b.
Proof.
  induction a as [|x a IH]; [done|]. rewrite string_app_cons. cbn.
  rewrite IH. by destruct (Ascii.eqb x c).
Qed.

Lemma erase_char_id (c : ascii) (s : string) :
  all_chars (fun x => negb (Ascii.eqb x c)) s = true -> erase_char c s = s.
Proof.
  induction s as [|x s IH]; cbn; [done|]. intros [Hx Hs]%andb_prop.
  apply negb_true_iff in Hx. by rewrite Hx, IH.
Qed.

(** [s.substr(pos, n)] of a field placed after a prefix. *)
Lemma substr_field (pre t post : string) :
  substr (pre +s+ t +s+ post) (String.length pre) (Some (String.length t)) = Some t.
Proof.
  unfold substr. rewrite !string_length_app.
  rewrite (proj2 (Nat.leb_le _ _)) by lia. f_equal.
  rewrite <- (Nat.add_0_r (String.length pre)) at 1.
  by rewrite substring_app_l, substring_0_app.
Qed.

(** [s.substr(pos)] of the suffix after a prefix. *)
Lemma substr_suffix (pre t : string) :
  substr (pre +s+ t) (String.length pre) None = Some t.
Proof.
  unfold substr. rewrite string_length_app.
  rewrite (proj2 (Nat.leb_le _ _)) by lia. f_equal.
  rewrite <- (Nat.add_0_r (String.length pre)) at 1.
  rewrite substring_app_l. apply substring_0_all. lia.
Qed.
