(* ===== verification/Double.v ===== *)
(** * Double: the IEEE-754 binary64 arithmetic of the admission rule

    [handle_request] computes [static_cast<int>(local_queue * 68.71)]: an
    [int] converted to [double], multiplied by the [double] nearest to
    68.71, and truncated back to [int].  This file models that arithmetic
    with the Standard Library's [SpecFloat] (binary64 is [prec = 53],
    [emax = 1024]; every operation is ordinary Gallina, so results compute
    with [vm_compute]).  The literal is the correctly rounded quotient
    6871/100, which is how the compiler reads a decimal literal.
    [static_cast<int>] of an out-of-range value is undefined in C++; the
    EC runs on the Kria board (AArch64), whose [fcvtzs] truncates toward
    zero and saturates, and NaN gives 0: [cast_int] models that.

    The main lemma, [mul_int_floor], says that truncating the rounded
    product of a non-negative [int] by a positive double never falls below
    the floor of the exact product: rounding to nearest only loses less
    than one unit in the last place, and that unit is below 1 here. *)

From S2P Require Import Prelude.
From Stdlib Require Import SpecFloat.

Open Scope Z_scope.

(** ** The binary64 format and the operations the code uses *)

Definition prec : Z := 53.
Definition emax : Z := 1024.

(** [(double) z] for an [int] [z]. *)
Definition double_of_int (z : Z) : spec_float := binary_normalize prec emax z 0 false.

(** [d1 * d2]. *)
Definition dmul (x y : spec_float) : spec_float := SFmul prec emax x y.

(** The literal [68.71]: the double nearest to 6871/100. *)
Definition lit_68_71 : spec_float := SFdiv prec emax (double_of_int 6871) (double_of_int 100).

(** The integer part toward zero of a finite double. *)
Definition trunc_finite (s : bool) (m : positive) (e : Z) : Z :=
  cond_Zopp s (if 0 <=? e then Z.pos m * 2 ^ e else Z.pos m / 2 ^ (- e)).

(** [static_cast<int>(d)] as executed by AArch64 [fcvtzs]. *)
Definition cast_int (d : spec_float) : Z :=
  match d with
  | S754_zero _ | S754_nan => 0
  | S754_infinity s => if s then INT_MIN else INT_MAX
  | S754_finite s m e => Z.max INT_MIN (Z.min INT_MAX (trunc_finite s m e))
  end.

(** The integer part toward zero of any double ([0] for a zero). *)
Definition trunc_double (d : spec_float) : option Z :=
  match d with
  | S754_zero _ => Some 0
  | S754_finite s m e => Some (trunc_finite s m e)
  | _ => None
  end.

(** [d1 + d2]. *)
Definition dadd (x y : spec_float) : spec_float := SFadd prec emax x y.

(** [d1 / d2]. *)
Definition ddiv (x y : spec_float) : spec_float := SFdiv prec emax x y.

(** [d1 >= d2]: false when either is a NaN. *)
Definition dge (x y : spec_float) : bool :=
  match SFcompare x y with Some Gt | Some Eq => true | _ => false end.

(** ** Lemmas on the rounding machinery of [SpecFloat] *)

Lemma digits2_pos_log2 (m : positive) : Z.pos (digits2_pos m) = Z.log2 (Z.pos m) + 1.
Proof.
  induction m as [m IH|m IH|]; [| |done]; simpl digits2_pos;
    rewrite Pos2Z.inj_succ, IH;
    [rewrite (Pos2Z.inj_xI m), Z.log2_succ_double | rewrite (Pos2Z.inj_xO m), Z.log2_double];
    lia.
Qed.

Lemma Zdigits2_bounds (m : positive) :
  2 ^ (Zdigits2 (Z.pos m) - 1) <= Z.pos m < 2 ^ Zdigits2 (Z.pos m).
Proof.
  cbn [Zdigits2]. rewrite digits2_pos_log2, Z.add_simpl_r.
  apply Z.log2_spec. lia.
Qed.

(** One step of the sticky right shift halves a non-negative mantissa. *)
Lemma shr_1_m (r : shr_record) : 0 <= shr_m r -> shr_m (shr_1 r) = shr_m r / 2.
Proof.
  destruct r as [[|[p|p|]|p] rb sb]; cbn; intros H;
    try (exfalso; apply H; reflexivity);
    rewrite ?(Pos2Z.inj_xI p), ?(Pos2Z.inj_xO p); zdiv_lia.
Qed.

Lemma pow2_pos (n : Z) : 0 <= n -> 0 < 2 ^ n.
Proof. intros Hn. by apply Z.pow_pos_nonneg. Qed.

Lemma div_pow2_div_pow2 (a m n : Z) :
  0 <= m -> 0 <= n -> a / 2 ^ m / 2 ^ n = a / 2 ^ (m + n).
Proof.
  intros Hm Hn. pose proof (pow2_pos m Hm). pose proof (pow2_pos n Hn).
  rewrite Z.div_div by lia. by rewrite <- Z.pow_add_r.
Qed.

Lemma iter_shr_1_m (n : positive) (r : shr_record) :
  0 <= shr_m r -> shr_m (iter_pos shr_1 n r) = shr_m r / 2 ^ Z.pos n.
Proof.
  revert r. induction n as [n IH|n IH|]; intros r Hr; cbn [iter_pos].
  - pose proof (shr_1_m r Hr) as H1.
    assert (0 <= shr_m (shr_1 r)) as H1p by (rewrite H1; apply Z.div_pos; lia).
    pose proof (IH (shr_1 r) H1p) as H2.
    rewrite IH by (rewrite H2; apply Z.div_pos; [lia | apply pow2_pos; lia]).
    rewrite H2, H1. change (shr_m r / 2) with (shr_m r / 2 ^ 1).
    rewrite !div_pow2_div_pow2 by lia. f_equal. f_equal. lia.
  - pose proof (IH r Hr) as H2.
    rewrite IH by (rewrite H2; apply Z.div_pos; [lia | apply pow2_pos; lia]).
    rewrite H2, div_pow2_div_pow2 by lia. f_equal. f_equal. lia.
  - by rewrite shr_1_m.
Qed.

(** [shr] by [n]: a floor division by [2^n] when [n > 0], nothing else. *)
Lemma shr_spec (r : shr_record) (e n : Z) :
  0 <= shr_m r ->
  shr_m (fst (shr r e n)) = shr_m r / 2 ^ Z.max 0 n /\ snd (shr r e n) = e + Z.max 0 n.
Proof.
  intros Hr. destruct n as [|n|n]; cbn [shr fst snd].
  - rewrite Z.div_1_r. lia.
  - rewrite iter_shr_1_m by done. split; [f_equal|]; lia.
  - rewrite Z.div_1_r. lia.
Qed.

Lemma round_nearest_even_ge (m : Z) (l : location) : m <= round_nearest_even m l.
Proof.
  destruct l as [|[]]; cbn; try lia. destruct (Z.even m); lia.
Qed.

Lemma fexp_eq (x : Z) : fexp prec emax x = Z.max (x - 53) (-1074).
Proof. reflexivity. Qed.

(** [shr_fexp] shifts right by the excess over the precision. *)
Lemma shr_fexp_spec (m e : Z) (l : location) (r : shr_record) (e' : Z) :
  0 <= m -> shr_fexp prec emax m e l = (r, e') ->
  shr_m r = m / 2 ^ Z.max 0 (fexp prec emax (Zdigits2 m + e) - e) /\
  e' = e + Z.max 0 (fexp prec emax (Zdigits2 m + e) - e).
Proof.
  intros Hm H. unfold shr_fexp in H.
  assert (shr_m (shr_record_of_loc m l) = m) as Hr by (destruct l as [|[]]; done).
  pose proof (shr_spec (shr_record_of_loc m l) e
                (fexp prec emax (Zdigits2 m + e) - e) ltac:(lia)) as [H1 H2].
  rewrite H in H1, H2. cbn [fst snd] in H1, H2. rewrite Hr in H1. by split.
Qed.

(** Digits of a positive number bounded by a power of two. *)
Lemma Zdigits2_le (m : Z) (n : Z) : 0 < m -> 0 <= n -> m <= 2 ^ n -> Zdigits2 m <= n + 1.
Proof.
  intros Hm Hn Hle. destruct m as [|p|p]; try lia.
  pose proof (Zdigits2_bounds p) as [Hlo _].
  assert (2 ^ (Zdigits2 (Z.pos p) - 1) <= 2 ^ n) as Hp by lia.
  apply Z.pow_le_mono_r_iff in Hp; lia.
Qed.

(** Rounding a positive value [M * 2^E] below [2^52] to nearest gives a
    zero or a finite double whose integer part is at least the floor of
    the exact value. *)
Lemma round_aux_floor (M : positive) (E : Z) :
  E <= 0 -> Z.pos M < 2 ^ (52 - E) ->
  exists t, trunc_double (binary_round_aux prec emax false (Z.pos M) E loc_Exact) = Some t /\
            Z.pos M / 2 ^ (- E) <= t.
Proof.
  intros HE HM. unfold binary_round_aux.
  destruct (shr_fexp prec emax (Z.pos M) E loc_Exact) as [r1 e1] eqn:H1.
  apply shr_fexp_spec in H1 as [Hr1 He1]; [|lia].
  set (mr := round_nearest_even (shr_m r1) (loc_of_shr_record r1)).
  destruct (shr_fexp prec emax mr e1 loc_Exact) as [r2 e2] eqn:H2.
  assert (shr_m r1 <= mr) by apply round_nearest_even_ge.
  assert (mr <= shr_m r1 + 1) by
    (unfold mr; destruct (loc_of_shr_record r1) as [|[]]; cbn; repeat case_match; lia).
  assert (0 <= shr_m r1) by (rewrite Hr1; apply Z.div_pos; lia).
  apply shr_fexp_spec in H2 as [Hr2 He2]; [|lia].
  rewrite fexp_eq in He1, He2, Hr1, Hr2.
  remember (Z.max 0 (Z.max (Zdigits2 (Z.pos M) + E - 53) (-1074) - E)) as k eqn:Hk.
  remember (Z.max 0 (Z.max (Zdigits2 mr + e1 - 53) (-1074) - e1)) as k2 eqn:Hk2.
  pose proof (Zdigits2_bounds M) as [HdM _].
  assert (Zdigits2 (Z.pos M) - 1 < 52 - E) by
    (apply (Z.pow_lt_mono_r_iff 2); try lia; cbn [Zdigits2]; lia).
  assert (e1 <= 0) by lia.
  assert (shr_m r1 < 2 ^ (52 - e1)).
  { rewrite Hr1. apply Z.div_lt_upper_bound; [apply Z.pow_pos_nonneg; lia|].
    rewrite <- Z.pow_add_r by lia. replace (k + (52 - e1)) with (52 - E) by lia. lia. }
  assert (e2 <= 0).
  { destruct (Z.le_gt_cases mr 0).
    - assert (Zdigits2 mr = 0) by (replace mr with 0 by lia; reflexivity). lia.
    - assert (Zdigits2 mr <= 52 - e1 + 1) by (apply Zdigits2_le; lia). lia. }
  assert (0 <= shr_m r2) by (rewrite Hr2; apply Z.div_pos; [|apply Z.pow_pos_nonneg]; lia).
  assert (Z.pos M / 2 ^ (- E) <= shr_m r2 / 2 ^ (- e2)) as Hchain.
  { rewrite Hr2, Z.div_div, <- Z.pow_add_r by lia.
    replace (k2 + - e2) with (- e1) by lia.
    transitivity (shr_m r1 / 2 ^ (- e1)); [|apply Z.div_le_mono; [apply Z.pow_pos_nonneg|]; lia].
    rewrite Hr1, Z.div_div, <- Z.pow_add_r by lia.
    replace (k + - e1) with (- E) by lia. lia. }
  destruct (shr_m r2) as [|m2|m2]; [| |lia].
  - exists 0. split; [done|]. by rewrite Z.div_0_l in Hchain by (apply Z.pow_nonzero; lia).
  - assert ((e2 <=? emax - prec) = true) as -> by (apply Z.leb_le; unfold emax, prec; lia).
    eexists. split; [done|]. unfold trunc_finite, cond_Zopp.
    destruct (Z.leb_spec 0 e2); [|done].
    replace e2 with 0 in * by lia.
    rewrite Z.pow_0_r, Z.mul_1_r. rewrite Z.opp_0, Z.pow_0_r, Z.div_1_r in Hchain. lia.
Qed.

Lemma iter_xO (p d : positive) : Z.pos (Pos.iter xO p d) = Z.pos p * 2 ^ Z.pos d.
Proof.
  induction d as [|d IH] using Pos.peano_ind; [cbn; lia|].
  rewrite Pos.iter_succ, Pos2Z.inj_xO, IH, Pos2Z.inj_succ, Z.pow_succ_r by lia. ring.
Qed.

(** A mantissa already in canonical form is returned unchanged. *)
Lemma round_aux_exact (M : positive) (E : Z) :
  fexp prec emax (Zdigits2 (Z.pos M) + E) <= E -> E <= emax - prec ->
  binary_round_aux prec emax false (Z.pos M) E loc_Exact = S754_finite false M E.
Proof.
  intros Hc Hb. unfold binary_round_aux, shr_fexp.
  assert (forall r n, n <= 0 -> shr r E n = (r, E)) as Hshr by (intros r [|n|n] Hn; [done|lia|done]).
  rewrite Hshr by lia. cbn [shr_record_of_loc loc_of_shr_record shr_m round_nearest_even].
  rewrite Hshr by lia. cbn [shr_m shr_record_of_loc].
  apply Z.leb_le in Hb. by rewrite Hb.
Qed.

(** [(double) p] is exact for [0 < p < 2^53]. *)
Lemma double_of_int_exact (p : Z) :
  0 < p < 2 ^ 53 ->
  exists mp ep, double_of_int p = S754_finite false mp ep /\ ep <= 0 /\ Z.pos mp = p * 2 ^ (- ep).
Proof.
  intros Hp. destruct p as [|p|p]; try lia.
  assert (Z.pos (digits2_pos p) <= 53).
  { rewrite digits2_pos_log2. pose proof (Z.log2_lt_pow2 (Z.pos p) 53 ltac:(lia)). lia. }
  unfold double_of_int, binary_normalize, binary_round, shl_align.
  rewrite Z.add_0_r, Z.sub_0_r, fexp_eq.
  rewrite Z.max_l by (rewrite digits2_pos_log2; pose proof (Z.log2_nonneg (Z.pos p)); lia).
  destruct (Z.pos (digits2_pos p) - 53) as [|d|d] eqn:Hd; try lia.
  - rewrite round_aux_exact; [eexists _, _; split; [done|]; cbn; lia| |unfold emax, prec; lia].
    cbn [Zdigits2]. rewrite fexp_eq. lia.
  - assert (Zdigits2 (Z.pos (Pos.iter xO p d)) = Z.pos (digits2_pos p) + Z.pos d) as Hdig.
    { cbn [Zdigits2]. rewrite !digits2_pos_log2, iter_xO, Z.log2_mul_pow2; lia. }
    rewrite round_aux_exact; [| rewrite Hdig, fexp_eq; lia | unfold emax, prec; lia].
    eexists _, _. split; [done|]. rewrite iter_xO. split; [lia|]. reflexivity.
Qed.

(** The literal computes to [4835036412447293 * 2^-46]. *)
Lemma lit_68_71_eq : lit_68_71 = S754_finite false 4835036412447293 (-46).
Proof. vm_compute. reflexivity. Qed.

(** ** The product of an [int] by a positive double *)

(** Truncating [(double) p * c] toward zero never falls below the floor of
    the exact product [p * mc * 2^ec], for [0 < p < 2^31] and a double
    [c = mc * 2^ec] below [2^21]. *)
Lemma mul_int_floor (p : Z) (mc : positive) (ec : Z) :
  0 < p < 2 ^ 31 -> ec <= 0 -> Z.pos mc < 2 ^ (21 - ec) ->
  exists t, trunc_double (dmul (double_of_int p) (S754_finite false mc ec)) = Some t /\
            p * Z.pos mc / 2 ^ (- ec) <= t.
Proof.
  intros Hp Hec Hmc.
  destruct (double_of_int_exact p ltac:(lia)) as (mp & ep & Hd & Hep & Hmp).
  rewrite Hd. unfold dmul, SFmul. cbn [xorb].
  destruct (round_aux_floor (mp * mc) (ep + ec)) as (t & Ht & Hle); [lia| |].
  - rewrite Pos2Z.inj_mul, Hmp.
    replace (52 - (ep + ec)) with ((- ep) + (31 + (21 - ec))) by lia.
    rewrite !Z.pow_add_r by lia.
    assert (0 < 2 ^ (- ep)) by (apply Z.pow_pos_nonneg; lia).
    assert (0 <= p) by lia.
    nia.
  - exists t. split; [done|]. etransitivity; [|exact Hle].
    rewrite Pos2Z.inj_mul, Hmp, Z.opp_add_distr, Z.pow_add_r by lia.
    replace (p * 2 ^ (- ep) * Z.pos mc) with (p * Z.pos mc * 2 ^ (- ep)) by ring.
    rewrite (Z.mul_comm (2 ^ (- ep))), Z.div_mul_cancel_r; [lia| |];
      apply Z.pow_nonzero; lia.
Qed.

(** [static_cast<int>] of a zero or finite double clamps its integer part. *)
Lemma cast_int_trunc (d : spec_float) (t : Z) :
  trunc_double d = Some t -> cast_int d = Z.max INT_MIN (Z.min INT_MAX t).
Proof. destruct d; cbn; intros H; inversion H; done. Qed.
