(* ===== verification/Strtod.v ===== *)
(** * Strtod: [std::stod] and the [strtod] grammar it relies on

    [std::stod(str)] (libstdc++) calls glibc's [strtod(str.c_str(), &end)]
    and throws [std::invalid_argument] when nothing was converted
    ([end == str]) and [std::out_of_range] when [errno == ERANGE].  The
    code calls it on the cells of a CSV file ([read_power.cpp], line 31)
    and on the inference-time field of the helper's report
    ([ed_oms_parallel_rn50_bwaj.cpp], line 119).

    This file models, over [String.string], the C-locale grammar of
    [strtod]: leading [isspace], an optional sign, then [inf]/[infinity]
    or [nan] (case-insensitive), a hexadecimal mantissa after [0x]/[0X]
    with an optional binary exponent [p], or a decimal mantissa (digits
    with an optional ['.'], at least one digit) with an optional decimal
    exponent [e]; an exponent marker not followed by digits is not
    consumed.  The converted value is exact ([mant * 10^k] or
    [mant * 2^k]) and rounded once to nearest-even binary64 by the
    division core of [SpecFloat] (the rounding of [Double.ddiv]).
    [ERANGE] is set on overflow (the exact value is at least
    [2^1024 - 2^970], the first value that rounds to infinity) and on
    underflow (the exact value is below [DBL_MIN = 2^-1022] and the result
    is inexact), glibc's rule with tininess detected before rounding.
    [SpecFloat] NaNs carry no sign, so ["-nan"] and ["nan"] give the same
    value; the payload of [nan(...)] is ignored, as its characters only
    move [end].

    The main result is the round trip [stod (to_string z) = inr (double z)]
    for every [long] [z], through [round_ratio_int]: rounding [num / 1]
    is the integer rounding [(double) num] of [Double]. *)

From Stdlib Require Import SpecFloat.
From S2P Require Import Prelude CppString Double.

Open Scope oms_scope.

(** ** The grammar *)

(** [tolower] on ASCII. *)
Definition lower (a : ascii) : ascii :=
  let n := nat_of_ascii a in
  if Nat.leb 65 n && Nat.leb n 90 then ascii_of_nat (n + 32) else a.

(** [s] starts with the lower-case word [w], ignoring case. *)
Fixpoint prefix_ci (w s : string) : bool :=
  match w, s with
  | EmptyString, _ => true
  | String c w', String a s' => Ascii.eqb (lower a) c && prefix_ci w' s'
  | String _ _, EmptyString => false
  end.

(** Hexadecimal digit value ([isxdigit]). *)
Definition hex_val (a : ascii) : option Z :=
  match digit_val a with
  | Some d => Some d
  | None =>
      let n := nat_of_ascii (lower a) in
      if Nat.leb 97 n && Nat.leb n 102 then Some (Z.of_nat n - 87) else None
  end.

(** The longest prefix of digits of base [base], accumulated onto [acc],
    with the number of digits read added to [n], and the rest. *)
Fixpoint scan_digits (dv : ascii -> option Z) (base : Z) (s : string) (acc : Z) (n : nat)
    : Z * nat * string :=
  match s with
  | String a s' =>
      match dv a with
      | Some d => scan_digits dv base s' (acc * base + d) (S n)
      | None => (acc, n, s)
      end
  | EmptyString => (acc, n, EmptyString)
  end.

(** Digits, an optional ['.'] and more digits: the value of all the digits
    as one integer, the numbers of digits before and after the point, and
    the rest. *)
Definition scan_mantissa (dv : ascii -> option Z) (base : Z) (s : string)
    : Z * nat * nat * string :=
  let '(i, ni, r1) := scan_digits dv base s 0 0 in
  match r1 with
  | String "." r2 => let '(v, nf, r3) := scan_digits dv base r2 i 0 in (v, ni, nf, r3)
  | _ => (i, ni, O, r1)
  end.

Definition is_e (a : ascii) : bool := Ascii.eqb a "e" || Ascii.eqb a "E".
Definition is_p (a : ascii) : bool := Ascii.eqb a "p" || Ascii.eqb a "P".

(** The optional exponent after a mantissa: the marker, an optional sign
    and at least one decimal digit; [0] when absent. *)
Definition scan_exp (marker : ascii -> bool) (s : string) : Z :=
  match s with
  | String a r =>
      if marker a then
        let '(neg, r') :=
          match r with
          | String "-" r' => (true, r')
          | String "+" r' => (false, r')
          | _ => (false, r)
          end in
        let '(v, n, _) := scan_digits digit_val 10 r' 0 0 in
        if (n =? 0)%nat then 0 else if neg then - v else v
      else 0
  | EmptyString => 0
  end.

(** What [strtod] converted, before rounding. *)
Inductive strtod_num :=
  | NumDec (mant : Z) (exp10 : Z)   (* mant * 10 ^ exp10 *)
  | NumHex (mant : Z) (exp2 : Z)    (* mant * 2 ^ exp2 *)
  | NumInf
  | NumNaN.

(** [0x] or [0X] followed by a hexadecimal mantissa with at least one
    digit; [None] sends the string to the decimal grammar, which then
    reads the leading [0] alone. *)
Definition scan_hex (s : string) : option strtod_num :=
  match s with
  | String "0" (String x r) =>
      if Ascii.eqb x "x" || Ascii.eqb x "X" then
        let '(m, ni, nf, r') := scan_mantissa hex_val 16 r in
        if (ni + nf =? 0)%nat then None
        else Some (NumHex m (scan_exp is_p r' - 4 * Z.of_nat nf))
      else None
  | _ => None
  end.

(** The sign and the number [strtod] reads from [s]; [None] when it
    converts nothing. *)
Definition strtod_parse (s : string) : option (bool * strtod_num) :=
  let s1 := skip_space s in
  let '(neg, s2) :=
    match s1 with
    | String "-" r => (true, r)
    | String "+" r => (false, r)
    | _ => (false, s1)
    end in
  if prefix_ci "inf" s2 then Some (neg, NumInf)
  else if prefix_ci "nan" s2 then Some (neg, NumNaN)
  else match scan_hex s2 with
       | Some n => Some (neg, n)
       | None =>
           let '(m, ni, nf, r) := scan_mantissa digit_val 10 s2 in
           if (ni + nf =? 0)%nat then None
           else Some (neg, NumDec m (scan_exp is_e r - Z.of_nat nf))
       end.

(** ** Rounding and [ERANGE] *)

(** The exact value [num / den] ([num, den > 0]) rounded to nearest-even
    binary64 with sign [sign], as [SpecFloat] rounds a quotient. *)
Definition round_ratio (sign : bool) (num den : Z) : spec_float :=
  let '(m, e, l) := SFdiv_core_binary prec emax num 0 den 0 in
  binary_round_aux prec emax sign m e l.

(** [num / den] is at least [2^1024 - 2^970]: it rounds to infinity. *)
Definition overflows (num den : Z) : bool := (2 ^ 1024 - 2 ^ 970) * den <=? num.

(** [num / den] is below [DBL_MIN = 2^-1022]. *)
Definition tiny (num den : Z) : bool := num * 2 ^ 1022 <? den.

(** The rounded [r] is exactly [num / den]. *)
Definition exact_ratio (r : spec_float) (num den : Z) : bool :=
  match r with
  | S754_finite _ m e =>
      if 0 <=? e then Z.pos m * 2 ^ e * den =? num else Z.pos m * den =? num * 2 ^ (- e)
  | _ => false
  end.

(** [strtod] followed by the [errno] test of [std::stod]. *)
Definition convert (sign : bool) (num den : Z) : conv_error + spec_float :=
  if num =? 0 then inr (S754_zero sign)
  else if overflows num den then inl OutOfRange
  else
    let r := round_ratio sign num den in
    if tiny num den && negb (exact_ratio r num den) then inl OutOfRange else inr r.

(** The exact value [mant * base ^ k] as a fraction. *)
Definition ratio_of (base mant k : Z) : Z * Z :=
  if 0 <=? k then (mant * base ^ k, 1) else (mant, base ^ (- k)).

(** [std::stod(s)]. *)
Definition stod (s : string) : conv_error + spec_float :=
  match strtod_parse s with
  | None => inl InvalidArgument
  | Some (sign, NumInf) => inr (S754_infinity sign)
  | Some (_, NumNaN) => inr S754_nan
  | Some (sign, NumDec m k) => let '(num, den) := ratio_of 10 m k in convert sign num den
  | Some (sign, NumHex m k) => let '(num, den) := ratio_of 2 m k in convert sign num den
  end.

(** ** Lemmas: scanning *)

(** [scan_digits] in base 10 reads what [read_digits] reads, counting the
    digits: at least one when the string starts with a digit. *)
Lemma scan_digits_read (s : string) (acc : Z) (n : nat) :
  exists c, scan_digits digit_val 10 s acc n = ((read_digits s acc).1, (n + c)%nat, (read_digits s acc).2) /\
            (stops_digits s = false -> (1 <= c)%nat).
Proof.
  revert acc n. induction s as [|a s IH]; intros acc n.
  - exists O. rewrite Nat.add_0_r. by split.
  - cbn [scan_digits read_digits stops_digits]. destruct (digit_val a) as [d|].
    + destruct (IH (acc * 10 + d) (S n)) as (c & -> & _). exists (S c).
      split; [f_equal; f_equal; lia | lia].
    + exists O. rewrite Nat.add_0_r. by split.
Qed.

(** A character [std::to_string] prints is not the [x] of a [0x] prefix. *)
Lemma decimal_char_not_x (x : ascii) :
  is_decimal_char x = true -> Ascii.eqb x "x" || Ascii.eqb x "X" = false.
Proof.
  intros Hx. destruct (Ascii.eqb_spec x "x") as [->|]; [discriminate|].
  destruct (Ascii.eqb_spec x "X") as [->|]; [discriminate|done].
Qed.

(** [strtod] on a string of decimal characters that starts with a digit,
    optionally after a minus sign, takes the decimal branch. *)
Lemma strtod_parse_digits (neg : bool) (d : Z) (r : string) :
  0 <= d < 10 -> all_chars is_decimal_char r = true ->
  strtod_parse ((if neg then String "-" EmptyString else EmptyString) +s+ String (digit_char d) r) =
  let '(m, ni, nf, rest) := scan_mantissa digit_val 10 (String (digit_char d) r) in
  if (ni + nf =? 0)%nat then None else Some (neg, NumDec m (scan_exp is_e rest - Z.of_nat nf)).
Proof.
  intros Hd Hr.
  unfold strtod_parse. destruct neg; digit_cases d; rewrite ?string_app_cons, ?string_app_nil_l; simpl;
    try reflexivity; destruct r as [|x r]; try reflexivity;
    cbn [all_chars] in Hr; apply andb_prop in Hr as [Hx _]; apply decimal_char_not_x in Hx;
    rewrite Hx; reflexivity.
Qed.

(** [strtod] reads back what [std::to_string] printed. *)
Lemma strtod_parse_to_string (z : Z) :
  int64 z -> strtod_parse (to_string z) = Some (z <? 0, NumDec (Z.abs z) 0).
Proof.
  intros Hz. assert (0 <= Z.abs z < 10 ^ 20) as Hn by (widths; lia).
  pose proof (to_string_chars z) as Hc.
  rewrite <- (string_app_nil_r (to_string z)), to_string_app in Hc |- *.
  destruct (dec_digits_head 19 (Z.abs z) EmptyString) as (d & r & Hd & Heq).
  pose proof (read_digits_to_string_body (Z.abs z) EmptyString Hn eq_refl) as Hread.
  rewrite Heq in Hc, Hread |- *. rewrite all_chars_app in Hc. apply andb_prop in Hc as [_ Hc].
  rewrite strtod_parse_digits by (try done; cbn [all_chars] in Hc; by apply andb_prop in Hc as [_ Hc]).
  destruct (scan_digits_read (String (digit_char d) r) 0 0) as (c & Hs & Hc1).
  unfold scan_mantissa. rewrite Hs, Hread. cbn [fst snd].
  assert (stops_digits (String (digit_char d) r) = false) as Hst by (cbn; by rewrite digit_val_digit_char).
  specialize (Hc1 Hst). destruct (0 + c + 0)%nat eqn:Hcnt; [lia|]. reflexivity.
Qed.

(** ** Lemmas: rounding *)

(** One more zero bit below a mantissa of exactly the precision changes
    nothing: the first shift drops it exactly. *)
Lemma round_aux_double (s : bool) (p : positive) (e : Z) :
  fexp prec emax (Zdigits2 (Z.pos p) + e) = e ->
  binary_round_aux prec emax s (Z.pos (xO p)) (e - 1) loc_Exact = binary_round_aux prec emax s (Z.pos p) e loc_Exact.
Proof.
  intros He. unfold binary_round_aux.
  assert (shr_fexp prec emax (Z.pos (xO p)) (e - 1) loc_Exact = shr_fexp prec emax (Z.pos p) e loc_Exact) as ->;
    [|done].
  unfold shr_fexp. cbn [Zdigits2 digits2_pos shr_record_of_loc].
  rewrite Pos2Z.inj_succ. replace (Z.succ (Z.pos (digits2_pos p)) + (e - 1)) with (Zdigits2 (Z.pos p) + e) by (cbn; lia).
  rewrite He. change (Z.pos (digits2_pos p)) with (Zdigits2 (Z.pos p)). rewrite He, Z.sub_diag.
  replace (e - (e - 1)) with 1 by lia. cbn. f_equal. lia.
Qed.

Lemma shiftl_pos (p d : positive) : Z.shiftl (Z.pos p) (Z.pos d) = Z.pos (Pos.iter xO p d).
Proof. cbn. symmetry. by apply (Pos.iter_swap_gen _ _ Z.pos xO (Z.mul 2)). Qed.

Lemma div_eucl_1 (a : Z) : Z.div_eucl a 1 = (a, 0).
Proof.
  transitivity (a / 1, a mod 1); [unfold Z.div, Z.modulo; by destruct (Z.div_eucl a 1)|].
  by rewrite Z.div_1_r, Z.mod_1_r.
Qed.

Lemma digits2_iter_xO (p d : positive) :
  Z.pos (digits2_pos (Pos.iter xO p d)) = Z.pos (digits2_pos p) + Z.pos d.
Proof. rewrite !digits2_pos_log2, iter_xO, Z.log2_mul_pow2; lia. Qed.

(** Rounding [num / 1] is the rounding of the integer [num], the
    conversion [(double) num]. *)
Lemma round_ratio_int (sign : bool) (n : positive) :
  round_ratio sign (Z.pos n) 1 = binary_normalize prec emax (cond_Zopp sign (Z.pos n)) 0 false.
Proof.
  assert (binary_normalize prec emax (cond_Zopp sign (Z.pos n)) 0 false = binary_round prec emax sign n 0) as ->
    by (destruct sign; reflexivity).
  unfold round_ratio, SFdiv_core_binary, binary_round, shl_align.
  change (Zdigits2 1) with 1. change (Zdigits2 (Z.pos n)) with (Z.pos (digits2_pos n)).
  rewrite !fexp_eq. pose proof (digits2_pos_log2 n). pose proof (Z.log2_nonneg (Z.pos n)).
  set (D := Z.pos (digits2_pos n)) in *.
  destruct (Z.le_gt_cases D 53) as [Hd|Hd].
  - replace (0 - 0 - Z.min (Z.max (D + 0 - (1 + 0) - 53) (-1074)) (0 - 0)) with (54 - D) by lia.
    replace (Z.max (D + 0 - 53) (-1074) - 0) with (D - 53) by lia.
    replace (Z.max (D + 0 - 53) (-1074)) with (D - 53) by lia.
    replace (Z.min (Z.max (D + 0 - (1 + 0) - 53) (-1074)) (0 - 0)) with ((D - 53) - 1) by lia.
    destruct (54 - D) as [|k|k] eqn:Hk; try lia.
    rewrite shiftl_pos, div_eucl_1. cbn [new_location Z.even new_location_odd Z.eqb].
    destruct (D - 53) as [|d|d] eqn:Hd'; try lia.
    + assert (k = 1%positive) as -> by lia. cbn [Pos.iter].
      apply round_aux_double. rewrite fexp_eq. cbn [Zdigits2]. fold D. lia.
    + assert (k = Pos.succ d) as -> by lia. rewrite Pos.iter_succ.
      apply round_aux_double. rewrite fexp_eq. cbn [Zdigits2]. rewrite digits2_iter_xO. fold D. lia.
  - replace (0 - 0 - Z.min (Z.max (D + 0 - (1 + 0) - 53) (-1074)) (0 - 0)) with 0 by lia.
    replace (Z.min (Z.max (D + 0 - (1 + 0) - 53) (-1074)) (0 - 0)) with 0 by lia.
    replace (Z.max (D + 0 - 53) (-1074) - 0) with (D - 53) by lia.
    rewrite div_eucl_1. destruct (D - 53) as [|d|d] eqn:Hd'; try lia. reflexivity.
Qed.

(** ** Theorems *)

(** [std::stod] reads back every [long] that [std::to_string] printed, as
    the double [(double) z]: nothing is lost but the rounding of the
    conversion itself. *)
Theorem stod_to_string (z : Z) : int64 z -> stod (to_string z) = inr (double_of_int z).
Proof.
  intros Hz. unfold stod. rewrite strtod_parse_to_string by done.
  unfold ratio_of, convert. cbn -[Z.pow round_ratio]. rewrite Z.mul_1_r.
  destruct (Z.eqb_spec (Z.abs z) 0) as [H0|H0].
  - assert (z = 0) as -> by lia. reflexivity.
  - assert (Z.abs z <= 2 ^ 63) by (widths; lia).
    assert (2 ^ 63 < (2 ^ 1024 - 2 ^ 970) * 1) by (vm_compute; reflexivity).
    unfold overflows, tiny. rewrite (proj2 (Z.leb_gt _ _)) by lia.
    assert (1 <= 2 ^ 1022) by (vm_compute; discriminate).
    rewrite (proj2 (Z.ltb_ge _ _)) by nia. cbn [andb].
    destruct (Z.abs z) as [|n|n] eqn:Ha; [lia| |lia].
    rewrite round_ratio_int. unfold double_of_int. f_equal. f_equal.
    destruct (Z.ltb_spec z 0); cbn; lia.
Qed.

Lemma stod_to_string_witness : int64 (-2500) /\ stod (to_string (-2500)) = inr (double_of_int (-2500)).
Proof. split; [reflexivity|]. apply stod_to_string. reflexivity. Defined.
