(* ===== verification/Admission.v ===== *)
(** * Admission: the broker's admission decision

    In [handle_request] (EC_OMS_May15_YOLOv5s6.cpp, lines 39-46) a request
    that got position [local_queue] from the shared counter computes
    [wait_ms = static_cast<int>(local_queue * 68.71)] and is granted iff
    [wait_ms <= 550].  [wait_ms] and [admits] are that code over the
    binary64 model of [Double].  The theorems show the decision is the
    threshold the spec states (positions 0..8 granted, 9 and beyond
    refused, for every [int] position, including those whose product
    overflows [int]), and give the [AdmissionRule] interface through which
    the [Broker] model uses the decision. *)

From S2P Require Import Prelude Double.

Open Scope Z_scope.

(** ** The code *)

(** [int wait_ms = static_cast<int>(local_queue * 68.71);] *)
Definition wait_ms (local_queue : Z) : Z :=
  cast_int (dmul (double_of_int local_queue) lit_68_71).

(** [if (wait_ms <= 550)]: the grant branch. *)
Definition admits (local_queue : Z) : bool := wait_ms local_queue <=? 550.

(** ** What the broker relies on *)

(** An admission rule grants exactly the positions below [grant_limit]. *)
Class AdmissionRule := {
  grants : Z -> bool;
  grant_limit : Z;
  grant_limit_pos : 0 < grant_limit;
  grant_spec : forall p, 0 <= p <= INT_MAX -> grants p = true <-> p < grant_limit
}.

(** ** Lemmas *)

(** Above the threshold the product is at least the floor of the exact one. *)
Lemma wait_ms_lower (p : Z) :
  0 < p <= INT_MAX -> Z.min INT_MAX (p * 4835036412447293 / 2 ^ 46) <= wait_ms p.
Proof.
  intros Hp. unfold wait_ms. rewrite lit_68_71_eq.
  destruct (mul_int_floor p 4835036412447293 (-46)) as (t & Ht & Hle);
    [unfold INT_MAX in Hp; lia | lia | reflexivity |].
  rewrite (cast_int_trunc _ _ Ht). change (2 ^ (- -46)) with (2 ^ 46) in Hle.
  remember (p * 4835036412447293 / 2 ^ 46) as x.
  unfold INT_MIN, INT_MAX in *. lia.
Qed.

Lemma wait_ms_small : map wait_ms [0; 1; 2; 3; 4; 5; 6; 7; 8] =
  [0; 68; 137; 206; 274; 343; 412; 480; 549].
Proof. vm_compute. reflexivity. Qed.

(** ** Theorems *)

(** The spec's example: position 8 waits 549 ms and is granted,
    position 9 waits 618 ms and is refused. *)
Example admission_spec_example :
  wait_ms 8 = 549 /\ admits 8 = true /\ wait_ms 9 = 618 /\ admits 9 = false.
Proof. vm_compute. repeat split. Qed.

Lemma admits_threshold (p : Z) :
  0 <= p <= INT_MAX -> admits p = true <-> p <= 8.
Proof.
  intros Hp. unfold admits. rewrite Z.leb_le.
  destruct (Z.le_gt_cases p 8) as [Hle|Hgt].
  - split; [lia|intros _].
    assert (In p [0; 1; 2; 3; 4; 5; 6; 7; 8]) as Hin.
    { assert (p = 0 \/ p = 1 \/ p = 2 \/ p = 3 \/ p = 4 \/ p = 5 \/ p = 6 \/ p = 7 \/ p = 8)
        as Hc by lia.
      repeat destruct Hc as [-> | Hc]; subst; simpl; tauto. }
    apply (in_map wait_ms) in Hin. rewrite wait_ms_small in Hin.
    repeat destruct Hin as [<- | Hin]; try lia; contradiction.
  - pose proof (wait_ms_lower p ltac:(lia)) as Hw.
    assert (9 * 4835036412447293 / 2 ^ 46 <= p * 4835036412447293 / 2 ^ 46)
      by (apply Z.div_le_mono; [|nia]; apply Z.pow_pos_nonneg; lia).
    assert (9 * 4835036412447293 / 2 ^ 46 = 618) as H618 by reflexivity.
    unfold INT_MAX in *. split; [lia | intros; lia].
Qed.

(** C1: for every [int] position [p >= 0], the double computation of
    [handle_request] grants [p] iff [p <= 8]. *)
Theorem admits_iff (p : Z) :
  0 <= p <= INT_MAX -> admits p = true <-> p <= 8.
Proof. apply admits_threshold. Qed.

Lemma admits_iff_witness : 0 <= 8 <= INT_MAX /\ (admits 8 = true <-> 8 <= 8).
Proof. split; [unfold INT_MAX; lia | apply (admits_iff 8); unfold INT_MAX; lia]. Defined.

(** The code's rule is an [AdmissionRule] with limit 9. *)
#[export] Program Instance code_admission : AdmissionRule := {
  grants := admits;
  grant_limit := 9
}.
Next Obligation. lia. Qed.
Next Obligation. intros p Hp. rewrite (admits_threshold p Hp). lia. Qed.
