(* ===== verification/Wire.v ===== *)
(** * Wire: the text frames exchanged by the ED client and the EC broker

    Frames are built with [std::string] concatenation and [std::to_string]
    and parsed with [rfind], [find] and [substr] (see [CppString]).  This
    file gives each frame the code builds and each parse the code applies:

    - the client's request [REQ:<id>:resnet_50:PI5] and acknowledgement
      [OK:<token_ec>:<id>] (ed_oms_parallel_rn50_fallback_sequencial.cpp,
      lines 149 and 163);
    - the broker's [GRANT:<p>], [DROP] and [DONE] (EC_OMS_May15_YOLOv5s6.cpp,
      lines 48, 75 and 87);
    - how each side turns the bytes of one [recv] into a [std::string]: the
      broker through a zeroed C buffer ([std::string request(buffer)]
      stops at the first NUL), the client with an explicit length;
    - the broker's extraction of the client id (lines 35-37), with the
      [size_t] wrap-around of [npos + 1] and [npos - pos - 1] written out;
    - the client's classification of a reply (lines 160-161 and 200).

    The theorems are the round trips each side relies on: the broker reads
    back the id the client sent, the client reads back the position the
    broker granted, and each reply frame is classified as intended. *)

From S2P Require Import Prelude CppString.

Open Scope oms_scope.

(** ** Frames *)

Definition NUL : ascii := ascii_of_nat 0.

(** ["REQ:" + std::to_string(token_ed) + ":resnet_50:PI5"] *)
Definition req_msg (token_ed : Z) : string :=
  "REQ:" +s+ to_string token_ed +s+ ":resnet_50:PI5".

(** ["GRANT:" + std::to_string(token_ec)] *)
Definition grant_msg (token_ec : Z) : string := "GRANT:" +s+ to_string token_ec.

Definition drop_msg : string := "DROP".
Definition done_msg : string := "DONE".

(** ["OK:" + token_ec + ":" + std::to_string(token_ed)] *)
Definition ok_msg (token_ec : string) (token_ed : Z) : string :=
  "OK:" +s+ token_ec +s+ ":" +s+ to_string token_ed.

(** ** From received bytes to [std::string] *)

Fixpoint upto_nul (s : string) : string :=
  match s with
  | EmptyString => EmptyString
  | String a s' => if Ascii.eqb a NUL then EmptyString else String a (upto_nul s')
  end.

(** [char buf[cap + 1] = {0}; recv(sock, buf, cap, 0); std::string str(buf);]
    A failed [recv] leaves the buffer zeroed, i.e. [bytes] is empty. *)
Definition recv_cstring (cap : nat) (bytes : string) : string :=
  upto_nul (String.substring 0 cap bytes).

(** [int n = recv(sock, buf, cap, 0); std::string str(buf, n);] *)
Definition recv_bytes (cap : nat) (bytes : string) : string := String.substring 0 cap bytes.

(** ** The broker's parse of a request (lines 34-37) *)

(** [pos + 1] on a [size_t] position: [npos + 1] wraps to 0. *)
Definition npos_succ (pos : option nat) : nat :=
  match pos with Some p => S p | None => O end.

(** [token_ed = request.substr(pos1 + 1, pos2 - pos1 - 1)] with
    [pos1 = request.find(':')] and [pos2 = request.find(':', pos1 + 1)].
    The length is computed modulo 2^64: [npos - pos1 - 1] is at least the
    remaining length (to the end), [pos2 - npos - 1] wraps to [pos2]. *)
Definition req_token (request : string) : option string :=
  let pos1 := str_find ":" request 0 in
  let pos2 := str_find ":" request (npos_succ pos1) in
  let len :=
    match pos1, pos2 with
    | Some p1, Some p2 => Some (p2 - p1 - 1)%nat
    | Some _, None => None
    | None, Some p2 => Some p2
    | None, None => None
    end in
  substr request (npos_succ pos1) len.

(** ** The client's classification of a reply (lines 161-162, 200) *)

Inductive reply :=
  | RGrant (token_ec : string)   (** [response.rfind("GRANT:", 0) == 0] *)
  | RDrop                        (** [response == "DROP"] *)
  | ROther.                      (** anything else: no branch is taken *)

Definition classify (response : string) : reply :=
  if starts_with "GRANT:" response then
    match substr response 6 None with
    | Some token_ec => RGrant token_ec
    | None => ROther  (** unreachable: the prefix has length 6 *)
    end
  else if String.eqb response drop_msg then RDrop
  else ROther.

(** ** Lemmas *)

Lemma upto_nul_id (s : string) :
  all_chars (fun x => negb (Ascii.eqb x NUL)) s = true -> upto_nul s = s.
Proof.
  induction s as [|x s IH]; cbn; [done|]. intros [Hx Hs]%andb_prop.
  apply negb_true_iff in Hx. by rewrite Hx, IH.
Qed.

Lemma to_string_no (c : ascii) (z : Z) :
  is_decimal_char c = false -> all_chars (fun x => negb (Ascii.eqb x c)) (to_string z) = true.
Proof. intros Hc. apply decimal_not_char; [done | apply to_string_chars]. Qed.

(** A frame made of literals and decimal numbers arrives whole as a C string. *)
Lemma recv_cstring_whole (s : string) :
  (String.length s <= 255)%nat -> all_chars (fun x => negb (Ascii.eqb x NUL)) s = true ->
  recv_cstring 255 s = s.
Proof. intros Hl Hc. unfold recv_cstring. rewrite substring_0_all by done. by apply upto_nul_id. Qed.

Lemma req_msg_length (id : Z) : (String.length (req_msg id) <= 255)%nat.
Proof.
  unfold req_msg. rewrite !string_length_app. pose proof (to_string_length id). cbn. lia.
Qed.

Lemma req_msg_no_nul (id : Z) : all_chars (fun x => negb (Ascii.eqb x NUL)) (req_msg id) = true.
Proof. unfold req_msg. rewrite !all_chars_app, to_string_no by reflexivity. reflexivity. Qed.

Lemma to_string_colon_free (z : Z) (rest : string) :
  str_find ":" (to_string z +s+ String ":" rest) 0 = Some (String.length (to_string z)).
Proof.
  rewrite str_find_app_none by (apply to_string_no; reflexivity). cbn. f_equal. lia.
Qed.

(** ** Theorems *)

(** C2: the broker recognises the client's request frame and reads back,
    as [token_ed], exactly the decimal id the client printed. *)
Theorem broker_reads_request (id : Z) :
  starts_with "REQ:" (recv_cstring 255 (req_msg id)) = true /\
  req_token (recv_cstring 255 (req_msg id)) = Some (to_string id).
Proof.
  rewrite recv_cstring_whole by (apply req_msg_length || apply req_msg_no_nul).
  split; [apply prefix_app|].
  unfold req_token, req_msg. rewrite !string_app_cons, string_app_nil_l.
  cbn [str_find Ascii.eqb npos_succ]. cbn.
  rewrite to_string_colon_free. cbn.
  by rewrite Nat.sub_0_r, substring_0_app.
Qed.

Lemma grant_msg_length (p : Z) : (String.length (grant_msg p) <= 255)%nat.
Proof. unfold grant_msg. rewrite string_length_app. pose proof (to_string_length p). cbn. lia. Qed.

Lemma ok_msg_length (t : string) (id : Z) :
  (String.length t <= 200)%nat -> (String.length (ok_msg t id) <= 255)%nat.
Proof.
  intros Ht. unfold ok_msg. rewrite !string_length_app. pose proof (to_string_length id). cbn. lia.
Qed.

Lemma prefix_length (a b : string) : String.prefix a b = true -> (String.length a <= String.length b)%nat.
Proof.
  revert b. induction a as [|x a IH]; intros [|y b]; cbn; try done; [lia|].
  destruct (Ascii.ascii_dec x y); [intros H; specialize (IH b H); lia | done].
Qed.

(** [classify] takes the grant branch exactly when the answer starts with
    [GRANT:]. *)
Lemma classify_grant (r : string) :
  starts_with "GRANT:" r = true <-> exists t, classify r = RGrant t.
Proof.
  unfold classify. split.
  - intros H. rewrite H. unfold substr. apply prefix_length in H. cbn in H.
    rewrite (proj2 (Nat.leb_le _ _)) by lia. eauto.
  - destruct (starts_with "GRANT:" r); [done|]. destruct (String.eqb r drop_msg); by intros [t ?].
Qed.

(** The grant handshake round trip: the client classifies the broker's
    [GRANT:<p>] as a grant carrying the decimal [p], the acknowledgement it
    builds from that token passes the broker's [OK:] test, and the [DROP]
    and [DONE] frames are classified as a refusal and as no reply. *)
Theorem grant_handshake (p id : Z) :
  classify (recv_bytes 255 (grant_msg p)) = RGrant (to_string p) /\
  starts_with "OK:" (recv_cstring 255 (ok_msg (to_string p) id)) = true /\
  classify (recv_bytes 255 drop_msg) = RDrop /\
  classify (recv_bytes 255 done_msg) = ROther.
Proof.
  split; [|split; [|split; reflexivity]].
  - unfold recv_bytes. rewrite substring_0_all by apply grant_msg_length.
    unfold classify, starts_with, grant_msg. rewrite prefix_app.
    by rewrite (substr_suffix "GRANT:").
  - rewrite recv_cstring_whole.
    + apply prefix_app.
    + apply ok_msg_length. pose proof (to_string_length p). lia.
    + unfold ok_msg. rewrite !all_chars_app, !to_string_no by reflexivity. reflexivity.
Qed.
