(* ===== verification/Broker.v ===== *)
(** * Broker: the EC offload server as a concurrent transition system

    Source: src/Experiment_May15/EC_OMS_May15_YOLOv5s6.cpp.  [main]
    accepts connections forever and starts one detached thread per
    connection running [handle_request].  The threads share [queue_size],
    [tasks_on_ec] and [tasks_dropped], always updated under
    [queue_mutex].  The model keeps

    - [shared]: the three counters;
    - one [conn] per accepted connection: the program counter of its
      [handle_request] thread, with the position [p] it drew;
    - [ec_sent]: every frame the broker wrote, tagged by connection.

    An [ec_event] is one atomic step of one thread: the part of
    [handle_request] between two accesses to shared state or to the
    socket.  Socket reads and the inference touch only thread-local data,
    so merging each with the following locked block does not hide any
    interleaving.  [ec_step] is a partial function: it is undefined
    ([None]) when the thread is not at that point, and when the C++ would
    overflow a signed [int] (undefined behaviour), so every reachable
    state is one the C++ program can reach without undefined behaviour.

    The sections are generic in the [AdmissionRule] interface of
    [Admission]; [code_admission] instantiates it with the code's double
    computation. *)

From S2P Require Import Prelude CppString Admission Wire.

Open Scope oms_scope.

Section Broker.
Context `{AR : AdmissionRule}.

(** ** State *)

(** How a [handle_request] thread reached [close(client_socket)]. *)
Inductive close_reason :=
  | NotRequest            (** the request lacked the [REQ:] prefix (line 34) *)
  | Served (p : Z)        (** [DONE] sent and the counters updated (lines 75-82) *)
  | Dropped (p : Z)       (** [DROP] sent and the counters updated (lines 87-95) *)
  | NoAck (p : Z).        (** [GRANT] sent, the reply lacked [OK:] (line 56): no release *)

(** The program counter of one [handle_request] thread. *)
Inductive conn :=
  | AwaitRequest                          (** before [recv] of the request (line 31) *)
  | Positioned (token_ed : string) (p : Z) (** [local_queue = queue_size++] done (lines 39-43) *)
  | AwaitAck (token_ed : string) (p : Z)   (** [GRANT:p] sent (line 49) *)
  | Running (token_ed : string) (p : Z)    (** [OK:] received; inference (lines 57-73) *)
  | Finishing (token_ed : string) (p : Z)  (** [DONE] sent (line 76) *)
  | Dropping (token_ed : string) (p : Z)   (** [DROP] sent (line 88) *)
  | Closed (why : close_reason).          (** [close(client_socket)] (line 103) *)

(** The globals of lines 22-24. *)
Record shared := {
  queue_size : Z;
  tasks_on_ec : Z;
  tasks_dropped : Z
}.

Record ec_state := {
  ec_shared : shared;
  ec_conns : list conn;
  ec_sent : list (nat * string)
}.

Definition ec_init : ec_state :=
  {| ec_shared := {| queue_size := 0; tasks_on_ec := 0; tasks_dropped := 0 |};
     ec_conns := []; ec_sent := [] |}.

(** ** Steps *)

Inductive ec_event :=
  | Accept                              (** [accept] and [std::thread(...).detach()] (136-139) *)
  | RecvRequest (i : nat) (bytes : string) (** lines 30-43 *)
  | Decide (i : nat)                    (** lines 45-50 or 86-89 *)
  | RecvAck (i : nat) (bytes : string)  (** lines 52-56 *)
  | Infer (i : nat)                     (** lines 57-76: [model->run], send [DONE] *)
  | Release (i : nat).                  (** lines 78-82 or 91-95, then [close] *)

Definition set_conn (s : ec_state) (i : nat) (c : conn) : ec_state :=
  {| ec_shared := ec_shared s; ec_conns := <[i:=c]> (ec_conns s); ec_sent := ec_sent s |}.

Definition send (s : ec_state) (i : nat) (frame : string) : ec_state :=
  {| ec_shared := ec_shared s; ec_conns := ec_conns s; ec_sent := ec_sent s ++ [(i, frame)] |}.

Definition set_shared (s : ec_state) (sh : shared) : ec_state :=
  {| ec_shared := sh; ec_conns := ec_conns s; ec_sent := ec_sent s |}.

(** The token printed in the log; [None] cannot occur after the prefix test. *)
Definition token_of (request : string) : string := default EmptyString (req_token request).

Definition ec_step (s : ec_state) (ev : ec_event) : option ec_state :=
  let sh := ec_shared s in
  match ev with
  | Accept =>
      Some {| ec_shared := sh; ec_conns := ec_conns s ++ [AwaitRequest]; ec_sent := ec_sent s |}
  | RecvRequest i bytes =>
      match ec_conns s !! i with
      | Some AwaitRequest =>
          let request := recv_cstring 255 bytes in
          if starts_with "REQ:" request then
            let local_queue := queue_size sh in
            if local_queue <? INT_MAX then
              Some (set_shared (set_conn s i (Positioned (token_of request) local_queue))
                      {| queue_size := local_queue + 1; tasks_on_ec := tasks_on_ec sh;
                         tasks_dropped := tasks_dropped sh |})
            else None
          else Some (set_conn s i (Closed NotRequest))
      | _ => None
      end
  | Decide i =>
      match ec_conns s !! i with
      | Some (Positioned t p) =>
          if grants p then Some (send (set_conn s i (AwaitAck t p)) i (grant_msg p))
          else Some (send (set_conn s i (Dropping t p)) i drop_msg)
      | _ => None
      end
  | RecvAck i bytes =>
      match ec_conns s !! i with
      | Some (AwaitAck t p) =>
          if starts_with "OK:" (recv_cstring 255 bytes) then Some (set_conn s i (Running t p))
          else Some (set_conn s i (Closed (NoAck p)))
      | _ => None
      end
  | Infer i =>
      match ec_conns s !! i with
      | Some (Running t p) => Some (send (set_conn s i (Finishing t p)) i done_msg)
      | _ => None
      end
  | Release i =>
      match ec_conns s !! i with
      | Some (Finishing t p) =>
          if tasks_on_ec sh <? INT_MAX then
            Some (set_shared (set_conn s i (Closed (Served p)))
                    {| queue_size := queue_size sh - 1; tasks_on_ec := tasks_on_ec sh + 1;
                       tasks_dropped := tasks_dropped sh |})
          else None
      | Some (Dropping t p) =>
          if tasks_dropped sh <? INT_MAX then
            Some (set_shared (set_conn s i (Closed (Dropped p)))
                    {| queue_size := queue_size sh - 1; tasks_on_ec := tasks_on_ec sh;
                       tasks_dropped := tasks_dropped sh + 1 |})
          else None
      | _ => None
      end
  end.

(** A run of events from a state, failing at the first disabled one. *)
Fixpoint ec_run (s : ec_state) (evs : list ec_event) : option ec_state :=
  match evs with
  | [] => Some s
  | ev :: evs' => match ec_step s ev with Some s' => ec_run s' evs' | None => None end
  end.

Definition ec_steps (s s' : ec_state) : Prop := exists ev, ec_step s ev = Some s'.

Definition ec_reachable (s : ec_state) : Prop := rtc ec_steps ec_init s.

(** ** Observations *)

(** The queue position a thread holds in [queue_size]. *)
Definition holds (c : conn) : nat :=
  match c with
  | Positioned _ _ | AwaitAck _ _ | Running _ _ | Finishing _ _ | Dropping _ _
  | Closed (NoAck _) => 1
  | _ => 0
  end%nat.

Definition position (c : conn) : option Z :=
  match c with
  | Positioned _ p | AwaitAck _ p | Running _ p | Finishing _ p | Dropping _ p
  | Closed (NoAck p) => Some p
  | _ => None
  end.

(** Holders of a position below [k]. *)
Definition holds_below (k : Z) (c : conn) : nat :=
  match position c with Some p => if p <? k then 1%nat else 0%nat | None => 0%nat end.

(** A granted task still in flight on the EC. *)
Definition in_flight (c : conn) : nat :=
  match c with AwaitAck _ _ | Running _ _ | Finishing _ _ => 1 | _ => 0 end%nat.

Definition is_served (c : conn) : nat :=
  match c with Closed (Served _) => 1 | _ => 0 end%nat.
Definition is_dropped (c : conn) : nat :=
  match c with Closed (Dropped _) => 1 | _ => 0 end%nat.
Definition is_leaked (c : conn) : nat :=
  match c with Closed (NoAck _) => 1 | _ => 0 end%nat.

(** The frames a thread has written, from its program counter. *)
Definition frames_of (c : conn) : list string :=
  match c with
  | AwaitRequest | Positioned _ _ | Closed NotRequest => []
  | AwaitAck _ p | Running _ p | Closed (NoAck p) => [grant_msg p]
  | Finishing _ p | Closed (Served p) => [grant_msg p; done_msg]
  | Dropping _ _ | Closed (Dropped _) => [drop_msg]
  end.

(** The frames written on connection [i], in order. *)
Definition frames_on (i : nat) (sent : list (nat * string)) : list string :=
  snd <$> filter (fun x => x.1 = i) sent.

(** ** The invariant *)

Definition conn_wf (c : conn) : Prop :=
  match c with
  | AwaitAck _ p | Running _ p | Finishing _ p | Closed (NoAck p) | Closed (Served p) =>
      0 <= p < INT_MAX /\ grants p = true
  | Positioned _ p | Dropping _ p => 0 <= p < INT_MAX
  | _ => True
  end.

Definition ec_inv (s : ec_state) : Prop :=
  queue_size (ec_shared s) = Z.of_nat (sum_list_with holds (ec_conns s)) /\
  tasks_on_ec (ec_shared s) = Z.of_nat (sum_list_with is_served (ec_conns s)) /\
  tasks_dropped (ec_shared s) = Z.of_nat (sum_list_with is_dropped (ec_conns s)) /\
  (forall k, 0 <= k -> Z.of_nat (sum_list_with (holds_below k) (ec_conns s)) <= k) /\
  Forall conn_wf (ec_conns s) /\
  (forall j, frames_on j (ec_sent s) = default [] (frames_of <$> ec_conns s !! j)).

(** ** Per-thread transitions *)

(** The moves of one [handle_request] thread and the frames each writes;
    [q] is the value of [queue_size] when the move happens. *)
Inductive conn_move (q : Z) : conn -> conn -> list string -> Prop :=
  | mv_position t : conn_move q AwaitRequest (Positioned t q) []
  | mv_not_request : conn_move q AwaitRequest (Closed NotRequest) []
  | mv_grant t p : grants p = true -> conn_move q (Positioned t p) (AwaitAck t p) [grant_msg p]
  | mv_drop t p : grants p = false -> conn_move q (Positioned t p) (Dropping t p) [drop_msg]
  | mv_ack t p : conn_move q (AwaitAck t p) (Running t p) []
  | mv_no_ack t p : conn_move q (AwaitAck t p) (Closed (NoAck p)) []
  | mv_infer t p : conn_move q (Running t p) (Finishing t p) [done_msg]
  | mv_served t p : conn_move q (Finishing t p) (Closed (Served p)) []
  | mv_dropped t p : conn_move q (Dropping t p) (Closed (Dropped p)) [].

(** ** Leaked slots *)

(** Pending decisions hold positions the rule refuses. *)
Definition pos_refused (c : conn) : Prop :=
  match c with Positioned _ p => grant_limit <= p | _ => True end.

Definition no_grant_frames (l : list (nat * string)) : Prop :=
  Forall (fun x => starts_with "GRANT:" x.2 = false) l.

(** Pending decisions below the limit. *)
Definition pending_below (c : conn) : nat :=
  match c with Positioned _ p => if (p <? grant_limit)%Z then 1%nat else 0%nat | _ => 0%nat end.

End Broker.

(** ** Sample runs with the code's admission rule *)

(** A short run: two clients; the first is granted, acknowledges and runs. *)
Definition demo_events : list ec_event :=
  [Accept; Accept; RecvRequest 0 (req_msg 0); RecvRequest 1 (req_msg 1);
   Decide 0; Decide 1; RecvAck 0 (ok_msg "0" 0); Infer 0].

Definition demo_state : ec_state :=
  default ec_init (@ec_run code_admission ec_init demo_events).

(** A client whose acknowledgement does not start with [OK:] (here: an
    empty read, e.g. the client closed the socket). *)
Definition leak_events (i : nat) : list ec_event :=
  [Accept; RecvRequest i (req_msg (Z.of_nat i)); Decide i; RecvAck i EmptyString].

Definition leaked_state : ec_state :=
  default ec_init (@ec_run code_admission ec_init (flat_map leak_events (seq 0 9))).

(** The tenth client: it is refused and the thread releases its slot. *)
Definition tenth_client : list ec_event :=
  [Accept; RecvRequest 9 (req_msg 9); Decide 9; Release 9].

(** Two clients whose tasks are on the EC at the same time under the same
    position: client 0 takes position 0, client 1 position 1, client 0
    finishes and releases, client 2 then draws position 1 again. *)
Definition collide_events : list ec_event :=
  [Accept; RecvRequest 0 (req_msg 0); Decide 0;
   Accept; RecvRequest 1 (req_msg 1); Decide 1;
   RecvAck 0 (ok_msg (to_string 0) 0); Infer 0; Release 0;
   Accept; RecvRequest 2 (req_msg 2); Decide 2].

Section BrokerProofs.
Context `{AR : AdmissionRule}.

(** ** Lemmas *)

Lemma frames_on_snoc (i j : nat) (sent : list (nat * string)) (extra : list string) :
  frames_on j (sent ++ ((fun f => (i, f)) <$> extra)) =
  frames_on j sent ++ (if decide (i = j) then extra else []).
Proof.
  unfold frames_on. rewrite filter_app, fmap_app. f_equal.
  induction extra as [|f extra IH].
  - cbn. by case_decide.
  - rewrite fmap_cons, filter_cons. cbn [fst].
    destruct (decide (i = j)) as [<-|Hne].
    + cbn. by f_equal.
    + done.
Qed.

Lemma holds_below_le_holds (k : Z) (c : conn) : (holds_below k c <= holds c)%nat.
Proof. destruct c as [| | | | | |[]]; cbn; repeat case_match; lia. Qed.

Lemma sum_below_le_holds (k : Z) (cs : list conn) :
  (sum_list_with (holds_below k) cs <= sum_list_with holds cs)%nat.
Proof. apply sum_list_with_le. intros c _. apply holds_below_le_holds. Qed.

(** A thread that keeps (or gives up) its position keeps the bound. *)
Lemma below_keep (cs : list conn) (i : nat) (old new : conn) :
  cs !! i = Some old -> (position new = position old \/ position new = None) ->
  (forall k, 0 <= k -> Z.of_nat (sum_list_with (holds_below k) cs) <= k) ->
  forall k, 0 <= k -> Z.of_nat (sum_list_with (holds_below k) (<[i:=new]> cs)) <= k.
Proof.
  intros Hi Hpos Hb k Hk. specialize (Hb k Hk).
  pose proof (sum_list_with_insert (holds_below k) cs i old new Hi).
  assert (holds_below k new <= holds_below k old)%nat
    by (unfold holds_below; destruct Hpos as [-> | ->]; [lia | case_match; lia]).
  lia.
Qed.

(** A thread drawing the next position [queue_size] keeps the bound. *)
Lemma below_fresh (cs : list conn) (i : nat) (old new : conn) :
  cs !! i = Some old -> position old = None ->
  position new = Some (Z.of_nat (sum_list_with holds cs)) ->
  (forall k, 0 <= k -> Z.of_nat (sum_list_with (holds_below k) cs) <= k) ->
  forall k, 0 <= k -> Z.of_nat (sum_list_with (holds_below k) (<[i:=new]> cs)) <= k.
Proof.
  intros Hi Hold Hnew Hb k Hk. specialize (Hb k Hk).
  pose proof (sum_list_with_insert (holds_below k) cs i old new Hi).
  pose proof (sum_below_le_holds k cs).
  unfold holds_below in *. rewrite Hold, Hnew in *.
  destruct (Z.ltb_spec (Z.of_nat (sum_list_with holds cs)) k); lia.
Qed.

(** One thread moves from [old] to [new], the counters move accordingly
    and the thread writes [extra]: the invariant is kept. *)
Lemma inv_update (s : ec_state) (i : nat) (old new : conn) (sh' : shared) (extra : list string) :
  ec_inv s -> ec_conns s !! i = Some old ->
  queue_size sh' + Z.of_nat (holds old) = queue_size (ec_shared s) + Z.of_nat (holds new) ->
  tasks_on_ec sh' + Z.of_nat (is_served old) = tasks_on_ec (ec_shared s) + Z.of_nat (is_served new) ->
  tasks_dropped sh' + Z.of_nat (is_dropped old) =
    tasks_dropped (ec_shared s) + Z.of_nat (is_dropped new) ->
  (forall k, 0 <= k -> Z.of_nat (sum_list_with (holds_below k) (<[i:=new]> (ec_conns s))) <= k) ->
  conn_wf new -> frames_of new = frames_of old ++ extra ->
  ec_inv {| ec_shared := sh'; ec_conns := <[i:=new]> (ec_conns s);
            ec_sent := ec_sent s ++ ((fun f => (i, f)) <$> extra) |}.
Proof.
  intros (Hq & Hs & Hd & _ & Hwf & Hf) Hi Hq' Hs' Hd' Hb Hwf' Hfr.
  unfold ec_inv. cbn [ec_shared ec_conns ec_sent].
  pose proof (sum_list_with_insert holds _ i old new Hi).
  pose proof (sum_list_with_insert is_served _ i old new Hi).
  pose proof (sum_list_with_insert is_dropped _ i old new Hi).
  split; [lia|]. split; [lia|]. split; [lia|]. split; [done|].
  split; [by apply Forall_insert|].
  intros j. rewrite frames_on_snoc, Hf.
  destruct (decide (i = j)) as [<-|Hne].
  - rewrite list_lookup_insert_eq by (eapply lookup_lt_Some; eauto).
    rewrite Hi. cbn. by rewrite Hfr.
  - rewrite list_lookup_insert_ne by done. by rewrite app_nil_r.
Qed.

Lemma inv_update0 (s : ec_state) (i : nat) (old new : conn) (sh' : shared) :
  ec_inv s -> ec_conns s !! i = Some old ->
  queue_size sh' + Z.of_nat (holds old) = queue_size (ec_shared s) + Z.of_nat (holds new) ->
  tasks_on_ec sh' + Z.of_nat (is_served old) = tasks_on_ec (ec_shared s) + Z.of_nat (is_served new) ->
  tasks_dropped sh' + Z.of_nat (is_dropped old) =
    tasks_dropped (ec_shared s) + Z.of_nat (is_dropped new) ->
  (forall k, 0 <= k -> Z.of_nat (sum_list_with (holds_below k) (<[i:=new]> (ec_conns s))) <= k) ->
  conn_wf new -> frames_of new = frames_of old ->
  ec_inv {| ec_shared := sh'; ec_conns := <[i:=new]> (ec_conns s); ec_sent := ec_sent s |}.
Proof.
  intros. rewrite <- (app_nil_r (ec_sent s)).
  apply (inv_update s i old new sh' []); [done..|]. by rewrite app_nil_r.
Qed.

Lemma inv_init : ec_inv ec_init.
Proof.
  unfold ec_inv. cbn. split; [done|]. split; [done|]. split; [done|].
  split; [intros; lia|]. split; [constructor|]. intros j. by destruct j.
Qed.

Lemma inv_accept (s : ec_state) :
  ec_inv s ->
  ec_inv {| ec_shared := ec_shared s; ec_conns := ec_conns s ++ [AwaitRequest]; ec_sent := ec_sent s |}.
Proof.
  intros (Hq & Hs & Hd & Hb & Hwf & Hf). unfold ec_inv. cbn [ec_shared ec_conns ec_sent].
  rewrite !sum_list_with_snoc. cbn [holds is_served is_dropped].
  split; [lia|]. split; [lia|]. split; [lia|]. split.
  { intros k Hk. rewrite sum_list_with_snoc. cbn. specialize (Hb k Hk). lia. }
  split; [apply Forall_app; split; [done | by constructor]|].
  intros j. rewrite Hf, lookup_app.
  destruct (ec_conns s !! j) eqn:E; [done|]. cbn.
  by destruct (j - List.length (ec_conns s))%nat.
Qed.

Ltac side_conds := cbn; try lia; try done; try (split; [lia | done]); try tauto.

Ltac wf_of Hwf Hi := pose proof (Forall_lookup_1 _ _ _ _ Hwf Hi); cbn in *.

(** Every event keeps the invariant. *)
Lemma ec_step_inv (s s' : ec_state) (ev : ec_event) :
  ec_inv s -> ec_step s ev = Some s' -> ec_inv s'.
Proof.
  intros Hinv Hstep. pose proof Hinv as (Hq & Hs & Hd & Hb & Hwf & Hf).
  destruct ev as [|i bytes|i|i bytes|i|i]; cbn in Hstep.
  - injection Hstep as <-. by apply inv_accept.
  - destruct (ec_conns s !! i) as [[| | | | | |]|] eqn:Hi; try discriminate.
    destruct (starts_with "REQ:" (recv_cstring 255 bytes)).
    + destruct (Z.ltb_spec (queue_size (ec_shared s)) INT_MAX); [|discriminate].
      injection Hstep as <-.
      apply (inv_update0 s i AwaitRequest _ _ Hinv Hi); side_conds.
      apply (below_fresh _ _ AwaitRequest); [done|done|cbn; by rewrite Hq|done].
    + injection Hstep as <-. apply (inv_update0 s i AwaitRequest _ _ Hinv Hi); side_conds.
      apply (below_keep _ _ AwaitRequest); auto.
  - destruct (ec_conns s !! i) as [[| t p | | | | |]|] eqn:Hi; try discriminate.
    wf_of Hwf Hi. destruct (grants p) eqn:Hg; injection Hstep as <-.
    + apply (inv_update s i (Positioned t p) _ _ [grant_msg p] Hinv Hi); side_conds.
      apply (below_keep _ _ (Positioned t p)); auto.
    + apply (inv_update s i (Positioned t p) _ _ [drop_msg] Hinv Hi); side_conds.
      apply (below_keep _ _ (Positioned t p)); auto.
  - destruct (ec_conns s !! i) as [[| | t p | | | |]|] eqn:Hi; try discriminate.
    wf_of Hwf Hi. destruct (starts_with "OK:" _); injection Hstep as <-.
    + apply (inv_update0 s i (AwaitAck t p) _ _ Hinv Hi); side_conds.
      apply (below_keep _ _ (AwaitAck t p)); auto.
    + apply (inv_update0 s i (AwaitAck t p) _ _ Hinv Hi); side_conds.
      apply (below_keep _ _ (AwaitAck t p)); auto.
  - destruct (ec_conns s !! i) as [[| | | t p | | |]|] eqn:Hi; try discriminate.
    wf_of Hwf Hi. injection Hstep as <-.
    apply (inv_update s i (Running t p) _ _ [done_msg] Hinv Hi); side_conds.
    apply (below_keep _ _ (Running t p)); auto.
  - destruct (ec_conns s !! i) as [[| | | | t p | t p |]|] eqn:Hi; try discriminate;
      wf_of Hwf Hi.
    + destruct (Z.ltb_spec (tasks_on_ec (ec_shared s)) INT_MAX); [|discriminate].
      injection Hstep as <-.
      apply (inv_update0 s i (Finishing t p) _ _ Hinv Hi); side_conds.
      apply (below_keep _ _ (Finishing t p)); auto.
    + destruct (Z.ltb_spec (tasks_dropped (ec_shared s)) INT_MAX); [|discriminate].
      injection Hstep as <-.
      apply (inv_update0 s i (Dropping t p) _ _ Hinv Hi); side_conds.
      apply (below_keep _ _ (Dropping t p)); auto.
Qed.

Lemma ec_reachable_inv (s : ec_state) : ec_reachable s -> ec_inv s.
Proof.
  unfold ec_reachable. intros H.
  apply (rtc_ind_r (R:=ec_steps) ec_inv ec_init); [apply inv_init| |done].
  intros y z _ [ev Hev] Hy. by apply (ec_step_inv y z ev).
Qed.

(** Every event either accepts a connection or moves one thread. *)
Lemma ec_step_shape (s s' : ec_state) (ev : ec_event) :
  ec_step s ev = Some s' ->
  (ec_conns s' = ec_conns s ++ [AwaitRequest] /\ ec_sent s' = ec_sent s) \/
  exists i old new extra,
    ec_conns s !! i = Some old /\ ec_conns s' = <[i:=new]> (ec_conns s) /\
    conn_move (queue_size (ec_shared s)) old new extra /\
    ec_sent s' = ec_sent s ++ ((fun f => (i, f)) <$> extra).
Proof.
  intros Hstep.
  destruct ev as [|i bytes|i|i bytes|i|i]; cbn in Hstep;
    [injection Hstep as <-; by left|..]; right;
    destruct (ec_conns s !! i) as [[| t p | t p | t p | t p | t p |]|] eqn:Hi; try discriminate;
    repeat case_match; simplify_eq; eexists i, _, _, _; cbn;
    (split; [done|]); (split; [done|]); (split; [by constructor|]);
    by rewrite ?app_nil_r.
Qed.

Lemma ec_run_reachable_from (s s' : ec_state) (evs : list ec_event) :
  ec_run s evs = Some s' -> rtc ec_steps s s'.
Proof.
  revert s. induction evs as [|ev evs IH]; intros s H; cbn in H.
  - injection H as <-. apply rtc_refl.
  - destruct (ec_step s ev) as [s1|] eqn:E; [|discriminate].
    eapply rtc_l; [by exists ev | by apply IH].
Qed.

Lemma ec_run_reachable (s : ec_state) (evs : list ec_event) :
  ec_run ec_init evs = Some s -> ec_reachable s.
Proof. apply ec_run_reachable_from. Qed.

Lemma in_flight_le_below (c : conn) :
  conn_wf c -> (in_flight c <= holds_below grant_limit c)%nat.
Proof.
  intros Hwf. unfold holds_below.
  destruct c as [|t p|t p|t p|t p|t p|[]]; cbn in *; try lia;
    destruct Hwf as [Hp Hg];
    assert (p < grant_limit) by (apply grant_spec; [unfold INT_MAX in *; lia | done]);
    destruct (Z.ltb_spec p grant_limit); lia.
Qed.

Lemma in_flight_bounded (s : ec_state) :
  ec_reachable s -> Z.of_nat (sum_list_with in_flight (ec_conns s)) <= grant_limit.
Proof.
  intros Hr. destruct (ec_reachable_inv s Hr) as (_ & _ & _ & Hb & Hwf & _).
  pose proof (grant_limit_pos).
  assert (sum_list_with in_flight (ec_conns s) <= sum_list_with (holds_below grant_limit) (ec_conns s))%nat.
  { apply sum_list_with_le. intros c Hc. apply in_flight_le_below.
    by eapply Forall_forall in Hwf. }
  assert (Hk : 0 <= grant_limit) by lia. pose proof (Hb _ Hk). lia.
Qed.

End BrokerProofs.

(** ** Theorems about the broker with the code's admission rule *)

Lemma frames_of_cases (c : conn) :
  @conn_wf code_admission c ->
  frames_of c = [] \/ frames_of c = [drop_msg] \/
  exists p, 0 <= p <= 8 /\ (frames_of c = [grant_msg p] \/ frames_of c = [grant_msg p; done_msg]).
Proof.
  destruct c as [|t p|t p|t p|t p|t p|[|p|p|p]]; cbn; intros Hwf; auto;
    right; right; exists p; (split; [|auto]);
    destruct Hwf as [Hp Hg]; apply admits_threshold in Hg; unfold INT_MAX in *; lia.
Qed.

(** C3: [queue_size] is never negative and is exactly the number of
    threads holding a position: those deciding, granted and in flight,
    dropping, and those closed after a grant that was never acknowledged
    (their slot is never released). *)
Theorem queue_size_exact (s : ec_state) :
  @ec_reachable code_admission s ->
  queue_size (ec_shared s) = Z.of_nat (sum_list_with holds (ec_conns s)) /\
  0 <= queue_size (ec_shared s).
Proof.
  intros Hr. destruct (ec_reachable_inv s Hr) as (Hq & _). split; [done | lia].
Qed.

Lemma queue_size_exact_witness :
  @ec_reachable code_admission demo_state /\
  queue_size (ec_shared demo_state) = Z.of_nat (sum_list_with holds (ec_conns demo_state)) /\
  0 <= queue_size (ec_shared demo_state).
Proof.
  split; [apply (ec_run_reachable _ demo_events); vm_compute; reflexivity|].
  apply queue_size_exact. apply (ec_run_reachable _ demo_events). vm_compute. reflexivity.
Defined.

(** C4: however the handler threads interleave, at most 9 granted tasks
    are in flight on the EC at any time (granted and not yet released):
    the read-and-increment of [queue_size] is atomic, so two requests can
    never both be granted from the same free slot. *)
Theorem in_flight_at_most_9 (s : ec_state) :
  @ec_reachable code_admission s -> Z.of_nat (sum_list_with in_flight (ec_conns s)) <= 9.
Proof. apply (@in_flight_bounded code_admission). Qed.

Lemma in_flight_at_most_9_witness :
  @ec_reachable code_admission demo_state /\
  Z.of_nat (sum_list_with in_flight (ec_conns demo_state)) <= 9.
Proof.
  split; [apply (ec_run_reachable _ demo_events); vm_compute; reflexivity|].
  apply in_flight_at_most_9. apply (ec_run_reachable _ demo_events). vm_compute. reflexivity.
Defined.

(** C5: on every connection the broker writes nothing, or [DROP], or
    [GRANT:p] possibly followed by [DONE], with [0 <= p <= 8]: never both
    a grant and a drop, and [DONE] only after a grant. *)
Theorem broker_frames (s : ec_state) (i : nat) :
  @ec_reachable code_admission s ->
  frames_on i (ec_sent s) = [] \/ frames_on i (ec_sent s) = [drop_msg] \/
  exists p, 0 <= p <= 8 /\
    (frames_on i (ec_sent s) = [grant_msg p] \/ frames_on i (ec_sent s) = [grant_msg p; done_msg]).
Proof.
  intros Hr. destruct (ec_reachable_inv s Hr) as (_ & _ & _ & _ & Hwf & Hf).
  rewrite Hf. destruct (ec_conns s !! i) as [c|] eqn:Hi; cbn; [|by left].
  apply frames_of_cases. by eapply Forall_lookup_1.
Qed.

Lemma broker_frames_witness :
  @ec_reachable code_admission demo_state /\
  (frames_on 0 (ec_sent demo_state) = [] \/ frames_on 0 (ec_sent demo_state) = [drop_msg] \/
   exists p, 0 <= p <= 8 /\
     (frames_on 0 (ec_sent demo_state) = [grant_msg p] \/
      frames_on 0 (ec_sent demo_state) = [grant_msg p; done_msg])).
Proof.
  split; [apply (ec_run_reachable _ demo_events); vm_compute; reflexivity|].
  apply broker_frames. apply (ec_run_reachable _ demo_events). vm_compute. reflexivity.
Defined.

(** C6: [tasks_on_ec] and [tasks_dropped] count exactly the threads that
    completed the served path and the drop path. *)
Theorem broker_counters_exact (s : ec_state) :
  @ec_reachable code_admission s ->
  tasks_on_ec (ec_shared s) = Z.of_nat (sum_list_with is_served (ec_conns s)) /\
  tasks_dropped (ec_shared s) = Z.of_nat (sum_list_with is_dropped (ec_conns s)).
Proof. intros Hr. destruct (ec_reachable_inv s Hr) as (_ & Hs & Hd & _). done. Qed.

Lemma broker_counters_exact_witness :
  @ec_reachable code_admission demo_state /\
  tasks_on_ec (ec_shared demo_state) = Z.of_nat (sum_list_with is_served (ec_conns demo_state)) /\
  tasks_dropped (ec_shared demo_state) = Z.of_nat (sum_list_with is_dropped (ec_conns demo_state)).
Proof.
  split; [apply (ec_run_reachable _ demo_events); vm_compute; reflexivity|].
  apply broker_counters_exact. apply (ec_run_reachable _ demo_events). vm_compute. reflexivity.
Defined.

(** ** Leaked slots: lemmas *)

Section Leak.
Context `{AR : AdmissionRule}.

Lemma is_leaked_le_holds (c : conn) : (is_leaked c <= holds c)%nat.
Proof. destruct c as [| | | | | |[]]; cbn; lia. Qed.

Lemma leaked_pending_le_below (c : conn) :
  conn_wf c -> (is_leaked c + pending_below c <= holds_below grant_limit c)%nat.
Proof.
  intros Hwf. destruct c as [| | | | | |[]]; cbn in *; repeat case_match; try lia.
  destruct Hwf as [Hp Hg]. apply grant_spec in Hg; [lia | unfold INT_MAX in *; lia].
Qed.

(** With [grant_limit] slots leaked, every pending decision is a refusal:
    the positions below the limit are all held by leaked threads. *)
Lemma leaked_refuses_pending (y : ec_state) :
  ec_inv y -> grant_limit <= Z.of_nat (sum_list_with is_leaked (ec_conns y)) ->
  Forall pos_refused (ec_conns y).
Proof.
  intros (_ & _ & _ & Hb & Hwf & _) Hl.
  pose proof (sum_list_with_le (fun c => is_leaked c + pending_below c)%nat _ (ec_conns y)
    (fun c Hc => leaked_pending_le_below c (proj1 (Forall_forall _ _) Hwf c Hc))) as H.
  rewrite sum_list_with_add in H. pose proof grant_limit_pos as Hpos. assert (0 <= grant_limit) as Hk by lia.
  specialize (Hb grant_limit Hk).
  assert (sum_list_with pending_below (ec_conns y) = 0%nat) as H0%sum_list_with_zero by lia.
  eapply Forall_impl; [exact H0|]. intros [| t p | | | | |] Hc; cbn in *; try done.
  destruct (Z.ltb_spec p grant_limit); lia.
Qed.

(** One step from a state with at least [grant_limit] leaked slots writes
    no grant and keeps the situation. *)
Lemma leak_step (y z : ec_state) (ev : ec_event) :
  ec_inv y -> ec_step y ev = Some z ->
  grant_limit <= Z.of_nat (sum_list_with is_leaked (ec_conns y)) ->
  (sum_list_with is_leaked (ec_conns y) <= sum_list_with is_leaked (ec_conns z))%nat /\
  exists extra, ec_sent z = ec_sent y ++ extra /\ no_grant_frames extra.
Proof.
  intros Hinv Hstep Hl. pose proof (leaked_refuses_pending y Hinv Hl) as Hpos.
  pose proof Hinv as (_ & _ & _ & _ & Hwf & _).
  destruct (ec_step_shape y z ev Hstep) as [[Hc Hs] | (i & old & new & extra & Hi & Hc & Hm & Hs)].
  - rewrite Hc, Hs, sum_list_with_snoc. split; [lia|].
    exists []. split; [by rewrite app_nil_r | constructor].
  - pose proof (sum_list_with_insert is_leaked _ i old new Hi) as Hsum.
    pose proof (Forall_lookup_1 _ _ _ _ Hpos Hi) as Hold.
    pose proof (Forall_lookup_1 _ _ _ _ Hwf Hi) as Hwold.
    rewrite Hc, Hs.
    inversion Hm as [t|t|t p Hg|t p Hg|t p|t p|t p|t p|t p]; subst; cbn [is_leaked] in Hsum;
      try (exfalso; cbn in Hold, Hwold; apply grant_spec in Hg;
           [lia | unfold INT_MAX in *; lia]);
      (split; [lia|]);
      (eexists; split; [reflexivity | unfold no_grant_frames; cbn; rewrite ?Forall_cons, ?Forall_nil; repeat split]).
Qed.

(** From a reachable state with [grant_limit] leaked slots, no run ever
    writes a grant again. *)
Lemma leak_blocks (s s' : ec_state) :
  ec_reachable s -> grant_limit <= Z.of_nat (sum_list_with is_leaked (ec_conns s)) ->
  rtc ec_steps s s' ->
  exists extra, ec_sent s' = ec_sent s ++ extra /\ no_grant_frames extra.
Proof.
  intros Hr Hl Hss.
  cut (ec_reachable s' /\ grant_limit <= Z.of_nat (sum_list_with is_leaked (ec_conns s')) /\
       exists extra, ec_sent s' = ec_sent s ++ extra /\ no_grant_frames extra); [tauto|].
  refine (rtc_ind_r (R:=ec_steps) (fun s' => ec_reachable s' /\
       grant_limit <= Z.of_nat (sum_list_with is_leaked (ec_conns s')) /\
       exists extra, ec_sent s' = ec_sent s ++ extra /\ no_grant_frames extra) s _ _ s' Hss).
  - split; [done|]. split; [done|]. exists []. split; [by rewrite app_nil_r | constructor].
  - intros y z _ Hyz (Hry & Hly & extra & Hsy & Hny). destruct Hyz as [ev Hev].
    destruct (leak_step y z ev (ec_reachable_inv y Hry) Hev Hly) as (Hle & extra' & Hsz & Hnz).
    split; [eapply rtc_r; [done | by exists ev]|]. split; [lia|].
    exists (extra ++ extra'). rewrite Hsz, Hsy, app_assoc. split; [done|].
    by apply Forall_app.
Qed.

End Leak.

(** C7: once nine granted requests went unacknowledged, the code's broker
    never sends [GRANT] again, whatever happens next: every later request
    is answered [DROP] (the slots of [Closed (NoAck p)] threads are never
    released, EC_OMS_May15_YOLOv5s6.cpp line 56). *)
Theorem nine_unacknowledged_grants_block (s s' : ec_state) :
  @ec_reachable code_admission s -> (9 <= sum_list_with is_leaked (ec_conns s))%nat ->
  rtc (@ec_steps code_admission) s s' ->
  exists extra, ec_sent s' = ec_sent s ++ extra /\ no_grant_frames extra.
Proof. intros Hr Hl Hss. apply (leak_blocks s s' Hr); [cbn; lia | done]. Qed.

Lemma nine_unacknowledged_grants_block_witness :
  @ec_reachable code_admission leaked_state /\
  (9 <= sum_list_with is_leaked (ec_conns leaked_state))%nat /\
  rtc (@ec_steps code_admission) leaked_state
    (default ec_init (@ec_run code_admission leaked_state tenth_client)) /\
  exists extra, ec_sent (default ec_init (@ec_run code_admission leaked_state tenth_client)) =
    ec_sent leaked_state ++ extra /\ no_grant_frames extra.
Proof.
  assert (@ec_reachable code_admission leaked_state) as Hr
    by (apply (ec_run_reachable _ (flat_map leak_events (seq 0 9))); vm_compute; reflexivity).
  assert (rtc (@ec_steps code_admission) leaked_state
    (default ec_init (@ec_run code_admission leaked_state tenth_client))) as Hss
    by (apply (ec_run_reachable_from _ _ tenth_client); vm_compute; reflexivity).
  split; [exact Hr|]. split; [vm_compute; lia|]. split; [exact Hss|].
  apply nine_unacknowledged_grants_block; [exact Hr | vm_compute; lia | exact Hss].
Defined.

(** The [GRANT] token is not unique among the tasks in flight: two
    connections can hold the same position and both receive [GRANT:1]. *)
Theorem grant_tokens_collide :
  exists s, @ec_reachable code_admission s /\
    frames_on 1 (ec_sent s) = [grant_msg 1] /\ frames_on 2 (ec_sent s) = [grant_msg 1] /\
    sum_list_with in_flight (ec_conns s) = 2%nat.
Proof.
  exists (default ec_init (@ec_run code_admission ec_init collide_events)).
  split; [apply (ec_run_reachable _ collide_events); vm_compute; reflexivity|].
  vm_compute. repeat split.
Qed.
