(* ===== verification/Client.v ===== *)
(** * Client: one offload attempt of the ED, [run_request]

    Source: src/Experiment_May15/ed_oms_parallel_rn50_fallback_sequencial.cpp,
    [enqueue_local_run] (lines 60-73), [log_result] (44-48) and
    [run_request] (128-211).

    [run_request] reads no shared state: it talks to its own socket and
    then updates the globals in separate locked blocks.  The model makes
    this explicit: [run_request token env] is a pure function of the token
    and of what the system calls return ([req_env]); it yields the frames
    the client writes and the list of [ed_effect]s, one per locked block,
    in program order.  [apply_effect] is the effect of one block on the
    shared state [ed_shared]; [Driver] interleaves the effects of the 32
    worker threads.  The theorems classify every branch of [run_request]
    by the counters it moves and the local run it queues. *)

From S2P Require Import Prelude CppString Wire.

Open Scope oms_scope.

(** ** Shared state of the ED process (lines 29-42) *)

Record ed_stats := {
  completed_tasks : Z;     (** [int] *)
  ran_on_ed : Z;           (** [int] *)
  sent_to_ec : Z;          (** [int] *)
  total_latency_ms : Z     (** [long] *)
}.

Record ed_shared := {
  ed_stats_of : ed_stats;                 (** under [stats_mutex] *)
  local_queue : list string;              (** [std::queue<std::string>], front first *)
  stop_local : bool;
  local_task_start_ms : gmap Z Z;         (** [std::unordered_map<int, long>] *)
  local_task_end_ms : gmap Z Z;
  ed_log : list string                    (** lines appended to [ed_task_log.txt] *)
}.

Definition stats0 : ed_stats :=
  {| completed_tasks := 0; ran_on_ed := 0; sent_to_ec := 0; total_latency_ms := 0 |}.

Definition ed_shared0 : ed_shared :=
  {| ed_stats_of := stats0; local_queue := []; stop_local := false;
     local_task_start_ms := ∅; local_task_end_ms := ∅; ed_log := [] |}.

(** ** One locked block *)

Inductive ed_effect :=
  | PushLocal (task_info : string)  (** [local_queue.push(task_info)] (lines 62-65) *)
  | SetStart (token : Z) (ms : Z)   (** [local_task_start_ms[token_ed] = start_ms] (66-71) *)
  | CountSent (duration : Z)        (** lines 190-195 *)
  | CountFallback                   (** lines 202-206 *)
  | SetEnd (token : Z) (ms : Z)     (** [local_task_end_ms[token] = done_time] (114-117) *)
  | Log (entry : string).           (** [log_result(entry)] (44-48) *)

(** Field updates of [ed_shared]. *)
Definition set_stats (s : ed_shared) (st : ed_stats) : ed_shared :=
  {| ed_stats_of := st; local_queue := local_queue s; stop_local := stop_local s;
     local_task_start_ms := local_task_start_ms s; local_task_end_ms := local_task_end_ms s;
     ed_log := ed_log s |}.
Definition set_queue (s : ed_shared) (q : list string) : ed_shared :=
  {| ed_stats_of := ed_stats_of s; local_queue := q; stop_local := stop_local s;
     local_task_start_ms := local_task_start_ms s; local_task_end_ms := local_task_end_ms s;
     ed_log := ed_log s |}.
Definition set_start (s : ed_shared) (m : gmap Z Z) : ed_shared :=
  {| ed_stats_of := ed_stats_of s; local_queue := local_queue s; stop_local := stop_local s;
     local_task_start_ms := m; local_task_end_ms := local_task_end_ms s; ed_log := ed_log s |}.
Definition set_end (s : ed_shared) (m : gmap Z Z) : ed_shared :=
  {| ed_stats_of := ed_stats_of s; local_queue := local_queue s; stop_local := stop_local s;
     local_task_start_ms := local_task_start_ms s; local_task_end_ms := m; ed_log := ed_log s |}.
Definition set_log (s : ed_shared) (l : list string) : ed_shared :=
  {| ed_stats_of := ed_stats_of s; local_queue := local_queue s; stop_local := stop_local s;
     local_task_start_ms := local_task_start_ms s; local_task_end_ms := local_task_end_ms s;
     ed_log := l |}.
Definition set_stop (s : ed_shared) (b : bool) : ed_shared :=
  {| ed_stats_of := ed_stats_of s; local_queue := local_queue s; stop_local := b;
     local_task_start_ms := local_task_start_ms s; local_task_end_ms := local_task_end_ms s;
     ed_log := ed_log s |}.

(** [None]: a signed overflow of an [int] or [long] counter. *)
Definition apply_effect (s : ed_shared) (e : ed_effect) : option ed_shared :=
  let st := ed_stats_of s in
  match e with
  | PushLocal t => Some (set_queue s (local_queue s ++ [t]))
  | SetStart tok ms => Some (set_start s (<[tok:=ms]> (local_task_start_ms s)))
  | SetEnd tok ms => Some (set_end s (<[tok:=ms]> (local_task_end_ms s)))
  | Log entry => Some (set_log s (ed_log s ++ [entry]))
  | CountSent d =>
      if (completed_tasks st <? INT_MAX) && (sent_to_ec st <? INT_MAX)
         && in_long (total_latency_ms st + d) then
        Some (set_stats s {| completed_tasks := completed_tasks st + 1;
                                     ran_on_ed := ran_on_ed st;
                                     sent_to_ec := sent_to_ec st + 1;
                                     total_latency_ms := total_latency_ms st + d |})
      else None
  | CountFallback =>
      if (completed_tasks st <? INT_MAX) && (ran_on_ed st <? INT_MAX) then
        Some (set_stats s {| completed_tasks := completed_tasks st + 1;
                                     ran_on_ed := ran_on_ed st + 1;
                                     sent_to_ec := sent_to_ec st;
                                     total_latency_ms := total_latency_ms st |})
      else None
  end.

Fixpoint apply_effects (s : ed_shared) (es : list ed_effect) : option ed_shared :=
  match es with
  | [] => Some s
  | e :: es' => match apply_effect s e with Some s' => apply_effects s' es' | None => None end
  end.

(** ** [enqueue_local_run] and [run_request] *)

Definition IMAGE : string := "COCO_test_1220/000000006321.jpg".

(** [std::chrono::duration_cast<std::chrono::milliseconds>(d).count()]
    of a duration of [ns] nanoseconds: truncation toward zero. *)
Definition to_ms (ns : Z) : Z := Z.quot ns 1000000.

(** Lines 60-73: two locked blocks; [now_ns] is [system_clock::now()]. *)
Definition enqueue_local_run (token_ed : Z) (now_ns : Z) : list ed_effect :=
  [PushLocal (to_string token_ed +s+ ":" +s+ IMAGE); SetStart token_ed (to_ms now_ns)].

(** What the system calls of one [run_request] return.  A [recv] result
    [<= 0] is an empty byte string; [reply] and [done_reply] are the bytes
    a successful [recv] delivered. *)
Record req_env := {
  socket_ok : bool;        (** [socket(...) >= 0] (line 131) *)
  connect_ok : bool;       (** [connect(...) >= 0] (line 142) *)
  reply : string;          (** first [recv] (line 153) *)
  image_ok : bool;         (** [std::ifstream file(IMAGE)] opened (line 167) *)
  done_reply : string;     (** second [recv] (line 181) *)
  start_ns : Z;            (** [high_resolution_clock::now()] at line 129 *)
  end_ns : Z;              (** ... at line 187 *)
  enqueue_ns : Z           (** [system_clock::now()] inside [enqueue_local_run] *)
}.

(** The frames written on the socket (the image bytes apart) and the
    locked blocks executed, in order. *)
Record req_result := {
  req_frames : list string;
  req_effects : list ed_effect
}.

Definition run_request (token_ed : Z) (env : req_env) : req_result :=
  let fallback := enqueue_local_run token_ed (enqueue_ns env) in
  if negb (socket_ok env) then {| req_frames := []; req_effects := fallback |}
  else if negb (connect_ok env) then {| req_frames := []; req_effects := fallback |}
  else
    let req := req_msg token_ed in
    let response := recv_bytes 255 (reply env) in
    if String.eqb response EmptyString then {| req_frames := [req]; req_effects := fallback |}
    else
      match classify response with
      | RGrant token_ec =>
          let ok := ok_msg token_ec token_ed in
          if negb (image_ok env) then {| req_frames := [req; ok]; req_effects := [] |}
          else if String.eqb (recv_bytes 15 (done_reply env)) EmptyString then
            {| req_frames := [req; ok]; req_effects := [] |}
          else
            let duration := to_ms (end_ns env - start_ns env) in
            {| req_frames := [req; ok];
               req_effects :=
                 [CountSent duration;
                  Log ("[ED_SENT] token_ed=" +s+ to_string token_ed +s+ " token_ec=" +s+ token_ec
                       +s+ " duration=" +s+ to_string duration +s+ " ms")] |}
      | RDrop =>
          {| req_frames := [req];
             req_effects := fallback ++
               [CountFallback;
                Log ("[ED_FALLBACK] token_ed=" +s+ to_string token_ed +s+ " fallback initiated")] |}
      | ROther => {| req_frames := [req]; req_effects := [] |}
      end.

(** ** Observations *)

Definition is_sent (e : ed_effect) : nat := match e with CountSent _ => 1 | _ => 0 end%nat.
Definition is_fallback (e : ed_effect) : nat := match e with CountFallback => 1 | _ => 0 end%nat.

(** The tasks handed to the local runner. *)
Definition local_runs (es : list ed_effect) : list string :=
  omap (fun e => match e with PushLocal t => Some t | _ => None end) es.

Definition task_info (token_ed : Z) : string := to_string token_ed +s+ ":" +s+ IMAGE.

(** The tasks a list of blocks counts as sent, counts as run locally,
    and queues for the local runner. *)
Definition counts (es : list ed_effect) : nat * nat * nat :=
  (sum_list_with is_sent es, sum_list_with is_fallback es, List.length (local_runs es)).

(** The counters are consistent and within their C++ types. *)
Definition stats_inv (st : ed_stats) : Prop :=
  completed_tasks st = ran_on_ed st + sent_to_ec st /\
  0 <= ran_on_ed st /\ 0 <= sent_to_ec st /\ completed_tasks st <= INT_MAX /\
  in_long (total_latency_ms st) = true.

(** What a list of locked blocks does to the task: EC completions counted,
    local fallbacks counted, local runs queued. *)
Definition tally (es : list ed_effect) : nat * nat * list string :=
  (sum_list_with is_sent es, sum_list_with is_fallback es, local_runs es).

(** ** The spec's Offload Client (spec sections 4.2 and 8)

    Any answer but [GRANT] (a [DROP], an unknown or malformed answer, a
    connection or transport error) sends the task to the local executor
    and counts it as run locally; a [GRANT] followed by the payload and
    the reply [DONE] counts it as sent; an unreadable payload is a
    payload error; a [GRANT] whose reply after the payload is not [DONE]
    ends the task in the terminal classification [failed] of section 8,
    which the spec keeps apart from the remote and local counters. *)
Inductive spec_outcome := RemoteCompleted | LocalFallback | PayloadError | Failed.

Definition spec_tally (token_ed : Z) (o : spec_outcome) : nat * nat * list string :=
  match o with
  | RemoteCompleted => (1, 0, [])
  | LocalFallback => (0, 1, [task_info token_ed])
  | PayloadError | Failed => (0, 0, [])
  end%nat.

(** The outcome the spec assigns to the answers of the system calls. *)
Definition spec_outcome_of (env : req_env) : spec_outcome :=
  let resp := recv_bytes 255 (reply env) in
  if negb (socket_ok env && connect_ok env) || String.eqb resp EmptyString then LocalFallback
  else match classify resp with
       | RGrant _ =>
           if negb (image_ok env) then PayloadError
           else if String.eqb (recv_bytes 15 (done_reply env)) "DONE" then RemoteCompleted
           else Failed
       | RDrop | ROther => LocalFallback
       end.

(** The EC granted on a working connection, the image was read and the
    [recv] after it returned some bytes. *)
Definition offloaded (env : req_env) : bool :=
  socket_ok env && connect_ok env && negb (String.eqb (recv_bytes 255 (reply env)) EmptyString)
  && match classify (recv_bytes 255 (reply env)) with
     | RGrant _ => image_ok env && negb (String.eqb (recv_bytes 15 (done_reply env)) EmptyString)
     | _ => false
     end.

(** The EC answered [DROP] on a working connection. *)
Definition refused (env : req_env) : bool :=
  socket_ok env && connect_ok env && negb (String.eqb (recv_bytes 255 (reply env)) EmptyString)
  && match classify (recv_bytes 255 (reply env)) with RDrop => true | _ => false end.

(** ** Sample environments *)

Definition drop_env : req_env :=
  {| socket_ok := true; connect_ok := true; reply := "DROP"; image_ok := true;
     done_reply := EmptyString; start_ns := 0; end_ns := 0; enqueue_ns := 5000000 |}.

(** The EC is unreachable: [connect] fails. *)
Definition refused_env : req_env :=
  {| socket_ok := true; connect_ok := false; reply := EmptyString; image_ok := true;
     done_reply := EmptyString; start_ns := 0; end_ns := 0; enqueue_ns := 5000000 |}.

(** The EC grants, the image is sent, and the reply to it is [ERR]. *)
Definition grant_err_env : req_env :=
  {| socket_ok := true; connect_ok := true; reply := "GRANT:3"; image_ok := true;
     done_reply := "ERR"; start_ns := 0; end_ns := 2000000; enqueue_ns := 0 |}.

(** The first [recv] returns only the first bytes of [GRANT:3]. *)
Definition split_grant_env : req_env :=
  {| socket_ok := true; connect_ok := true; reply := "GRA"; image_ok := true;
     done_reply := "DONE"; start_ns := 0; end_ns := 0; enqueue_ns := 0 |}.

(** ** Lemmas *)

Lemma stats_inv_stats0 : stats_inv stats0.
Proof. unfold stats_inv. cbn. split; [lia|]. split; [lia|]. split; [lia|]. split; [unfold INT_MAX; lia | reflexivity]. Qed.

Lemma apply_effect_stats_inv (s s' : ed_shared) (e : ed_effect) :
  stats_inv (ed_stats_of s) -> apply_effect s e = Some s' ->
  stats_inv (ed_stats_of s') /\
  completed_tasks (ed_stats_of s') = completed_tasks (ed_stats_of s) + Z.of_nat (is_sent e + is_fallback e) /\
  sent_to_ec (ed_stats_of s') = sent_to_ec (ed_stats_of s) + Z.of_nat (is_sent e) /\
  ran_on_ed (ed_stats_of s') = ran_on_ed (ed_stats_of s) + Z.of_nat (is_fallback e).
Proof.
  unfold stats_inv. intros (Hc & Hr & Hs & Hm & Hl) Hstep.
  destruct e; cbn in Hstep; repeat case_match; simplify_eq; cbn;
    rewrite ?andb_true_iff, ?Z.ltb_lt in *; destruct_and?; repeat split; widths; lia.
Qed.

Lemma apply_effects_app (s : ed_shared) (es1 es2 : list ed_effect) :
  apply_effects s (es1 ++ es2) = s1 ← apply_effects s es1; apply_effects s1 es2.
Proof.
  revert s. induction es1 as [|e es1 IH]; intros s; cbn; [done|].
  destruct (apply_effect s e); [apply IH | done].
Qed.

Lemma apply_effects_stats_inv (s s' : ed_shared) (es : list ed_effect) :
  stats_inv (ed_stats_of s) -> apply_effects s es = Some s' ->
  stats_inv (ed_stats_of s') /\
  completed_tasks (ed_stats_of s') =
    completed_tasks (ed_stats_of s) + Z.of_nat (sum_list_with is_sent es + sum_list_with is_fallback es) /\
  sent_to_ec (ed_stats_of s') = sent_to_ec (ed_stats_of s) + Z.of_nat (sum_list_with is_sent es) /\
  ran_on_ed (ed_stats_of s') = ran_on_ed (ed_stats_of s) + Z.of_nat (sum_list_with is_fallback es).
Proof.
  revert s. induction es as [|e es IH]; intros s Hinv Hrun; cbn in Hrun.
  - injection Hrun as <-. cbn. split; [done | lia].
  - destruct (apply_effect s e) as [s1|] eqn:He; [|discriminate].
    destruct (apply_effect_stats_inv s s1 e Hinv He) as (Hinv1 & H1 & H2 & H3).
    destruct (IH s1 Hinv1 Hrun) as (Hinv' & H1' & H2' & H3'). cbn. split; [done | lia].
Qed.

Lemma run_request_transport_failed (token_ed : Z) (env : req_env) :
  negb (socket_ok env && connect_ok env) || String.eqb (recv_bytes 255 (reply env)) EmptyString = true ->
  req_effects (run_request token_ed env) = enqueue_local_run token_ed (enqueue_ns env).
Proof.
  unfold run_request. destruct (socket_ok env), (connect_ok env); cbn; try done.
  intros ->. done.
Qed.

Lemma run_request_connected (token_ed : Z) (env : req_env) :
  socket_ok env && connect_ok env = true -> String.eqb (recv_bytes 255 (reply env)) EmptyString = false ->
  run_request token_ed env =
  match classify (recv_bytes 255 (reply env)) with
  | RGrant token_ec =>
      if negb (image_ok env) then {| req_frames := [req_msg token_ed; ok_msg token_ec token_ed]; req_effects := [] |}
      else if String.eqb (recv_bytes 15 (done_reply env)) EmptyString then
        {| req_frames := [req_msg token_ed; ok_msg token_ec token_ed]; req_effects := [] |}
      else
        let duration := to_ms (end_ns env - start_ns env) in
        {| req_frames := [req_msg token_ed; ok_msg token_ec token_ed];
           req_effects :=
             [CountSent duration;
              Log ("[ED_SENT] token_ed=" +s+ to_string token_ed +s+ " token_ec=" +s+ token_ec
                   +s+ " duration=" +s+ to_string duration +s+ " ms")] |}
  | RDrop =>
      {| req_frames := [req_msg token_ed];
         req_effects := enqueue_local_run token_ed (enqueue_ns env) ++
           [CountFallback;
            Log ("[ED_FALLBACK] token_ed=" +s+ to_string token_ed +s+ " fallback initiated")] |}
  | ROther => {| req_frames := [req_msg token_ed]; req_effects := [] |}
  end.
Proof.
  unfold run_request. destruct (socket_ok env), (connect_ok env); cbn; try discriminate.
  intros _ ->. done.
Qed.

(** ** Theorems *)

(** C8: where the answer is [GRANT] or [DROP] on a working connection
    and the spec does not classify the task as failed, [run_request]
    refines the spec's client: a [GRANT] answered by [DONE] is counted
    as sent, an unreadable image is counted nowhere, a [DROP] is counted
    as run locally and queued once for the local runner. *)
Theorem run_request_refines_spec (token_ed : Z) (env : req_env) :
  socket_ok env && connect_ok env = true ->
  String.eqb (recv_bytes 255 (reply env)) EmptyString = false ->
  classify (recv_bytes 255 (reply env)) <> ROther ->
  spec_outcome_of env <> Failed ->
  tally (req_effects (run_request token_ed env)) = spec_tally token_ed (spec_outcome_of env).
Proof.
  intros Hc He Ho. rewrite (run_request_connected token_ed env Hc He).
  unfold spec_outcome_of. rewrite Hc, He. cbn.
  destruct (classify _); [|done|done].
  destruct (image_ok env); [|done]. cbn.
  destruct (String.eqb_spec (recv_bytes 15 (done_reply env)) "DONE") as [->|]; [done|congruence].
Qed.

(** C9: a [GRANT] whose reply after the image is not [DONE], which the spec
    classifies as failed: [run_request] records no failure; when the
    [recv] returns nothing the task is counted nowhere and vanishes from
    the totals, and any other reply (an error text, a cut frame) is
    counted as a completed offload. *)
Theorem grant_without_done_miscounted (token_ed : Z) (env : req_env) :
  spec_outcome_of env = Failed ->
  tally (req_effects (run_request token_ed env)) =
    if String.eqb (recv_bytes 15 (done_reply env)) EmptyString then (0%nat, 0%nat, [])
    else (1%nat, 0%nat, []).
Proof.
  unfold spec_outcome_of. intros Hf.
  destruct (negb (socket_ok env && connect_ok env) || String.eqb (recv_bytes 255 (reply env)) EmptyString) eqn:Ht;
    [done|].
  apply orb_false_iff in Ht as [Hc He]. apply negb_false_iff in Hc.
  rewrite (run_request_connected token_ed env Hc He).
  destruct (classify _); [|done|done]. destruct (image_ok env); [|done]. cbn.
  by destruct (String.eqb (recv_bytes 15 (done_reply env)) EmptyString).
Qed.

Lemma run_request_refines_spec_witness :
  socket_ok drop_env && connect_ok drop_env = true /\
  String.eqb (recv_bytes 255 (reply drop_env)) EmptyString = false /\
  classify (recv_bytes 255 (reply drop_env)) <> ROther /\
  spec_outcome_of drop_env <> Failed /\
  tally (req_effects (run_request 7 drop_env)) = spec_tally 7 (spec_outcome_of drop_env).
Proof.
  split; [reflexivity|]. split; [reflexivity|]. split; [discriminate|]. split; [discriminate|].
  apply run_request_refines_spec; [reflexivity | reflexivity | discriminate | discriminate].
Defined.

Lemma grant_without_done_miscounted_witness :
  spec_outcome_of grant_err_env = Failed /\
  tally (req_effects (run_request 5 grant_err_env)) = (1%nat, 0%nat, []).
Proof.
  assert (H : spec_outcome_of grant_err_env = Failed) by (vm_compute; reflexivity).
  split; [exact H|]. exact (grant_without_done_miscounted 5 grant_err_env H).
Defined.

(** C10: when [socket], [connect] or the first [recv] fails, the task is
    queued for the local runner with its start time, but neither
    [completed_tasks] nor [ran_on_ed] counts it, whereas the spec counts
    every fallback as run locally at enqueue time. *)
Theorem transport_failure_uncounted (token_ed : Z) (env : req_env) :
  negb (socket_ok env && connect_ok env) || String.eqb (recv_bytes 255 (reply env)) EmptyString = true ->
  tally (req_effects (run_request token_ed env)) = (0%nat, 0%nat, [task_info token_ed]) /\
  spec_tally token_ed (spec_outcome_of env) = (0%nat, 1%nat, [task_info token_ed]).
Proof.
  intros Hf. rewrite run_request_transport_failed by done.
  unfold spec_outcome_of. rewrite Hf. done.
Qed.

(** C11: an answer that is neither [GRANT:...] nor exactly [DROP] (for
    instance a [GRANT] frame split by TCP, [GRA]) makes the task vanish:
    no local run, no counter; the spec sends it to the local executor. *)
Theorem unknown_reply_loses_task (token_ed : Z) (env : req_env) :
  socket_ok env && connect_ok env = true ->
  String.eqb (recv_bytes 255 (reply env)) EmptyString = false ->
  classify (recv_bytes 255 (reply env)) = ROther ->
  req_effects (run_request token_ed env) = [] /\
  spec_tally token_ed (spec_outcome_of env) = (0%nat, 1%nat, [task_info token_ed]).
Proof.
  intros Hc He Ho. rewrite (run_request_connected token_ed env Hc He), Ho.
  unfold spec_outcome_of. rewrite Hc, He, Ho. done.
Qed.


Lemma transport_failure_uncounted_witness :
  negb (socket_ok refused_env && connect_ok refused_env) ||
    String.eqb (recv_bytes 255 (reply refused_env)) EmptyString = true /\
  tally (req_effects (run_request 3 refused_env)) = (0%nat, 0%nat, [task_info 3]) /\
  spec_tally 3 (spec_outcome_of refused_env) = (0%nat, 1%nat, [task_info 3]).
Proof. split; [reflexivity|]. apply transport_failure_uncounted. reflexivity. Defined.

Lemma unknown_reply_loses_task_witness :
  socket_ok split_grant_env && connect_ok split_grant_env = true /\
  String.eqb (recv_bytes 255 (reply split_grant_env)) EmptyString = false /\
  classify (recv_bytes 255 (reply split_grant_env)) = ROther /\
  req_effects (run_request 3 split_grant_env) = [] /\
  spec_tally 3 (spec_outcome_of split_grant_env) = (0%nat, 1%nat, [task_info 3]).
Proof.
  split; [reflexivity|]. split; [reflexivity|]. split; [reflexivity|].
  apply unknown_reply_loses_task; reflexivity.
Defined.

(** [run_request] counts a task as sent exactly when the spec's outcome
    is a completed offload, and as run locally exactly when the EC
    answered [DROP]. *)
Lemma run_request_counts (token_ed : Z) (env : req_env) :
  sum_list_with is_sent (req_effects (run_request token_ed env)) = (if offloaded env then 1 else 0)%nat /\
  sum_list_with is_fallback (req_effects (run_request token_ed env)) = (if refused env then 1 else 0)%nat.
Proof.
  unfold offloaded, refused.
  destruct (socket_ok env && connect_ok env) eqn:Hc; cbn [negb orb andb].
  - destruct (String.eqb (recv_bytes 255 (reply env)) EmptyString) eqn:He; cbn [negb orb andb].
    + by rewrite run_request_transport_failed by (rewrite He; apply orb_true_r).
    + rewrite (run_request_connected token_ed env Hc He).
      destruct (classify _); [|done|done].
      destruct (image_ok env); [|done]. cbn. by case_match.
  - rewrite run_request_transport_failed by (by rewrite Hc). done.
Qed.

(** [run_request] executes at most four locked blocks. *)
Lemma run_request_effects_length (token_ed : Z) (env : req_env) :
  (List.length (req_effects (run_request token_ed env)) <= 4)%nat.
Proof. unfold run_request. repeat case_match; cbn; lia. Qed.

(** Only [PushLocal] lengthens the local queue. *)
Lemma apply_effect_queue (s s' : ed_shared) (e : ed_effect) :
  apply_effect s e = Some s' ->
  local_queue s' = local_queue s ++ match e with PushLocal t => [t] | _ => [] end.
Proof. destruct e; cbn; repeat case_match; intros; simplify_eq/=; by rewrite ?app_nil_r. Qed.

(** Only [SetStart] writes [local_task_start_ms]. *)
Lemma apply_effect_start (s s' : ed_shared) (e : ed_effect) :
  apply_effect s e = Some s' ->
  local_task_start_ms s' = match e with SetStart t ms => <[t:=ms]> (local_task_start_ms s) | _ => local_task_start_ms s end.
Proof. destruct e; cbn; repeat case_match; intros; simplify_eq/=; done. Qed.

(** The only task [run_request] queues is its own id's [task_info]. *)
Lemma run_request_pushes (token_ed : Z) (env : req_env) (x : string) :
  PushLocal x ∈ req_effects (run_request token_ed env) -> x = task_info token_ed.
Proof.
  unfold run_request, enqueue_local_run, task_info.
  repeat case_match; cbn; rewrite ?elem_of_app, ?elem_of_cons, ?elem_of_nil; intros; naive_solver.
Qed.
