(* ===== verification/LocalExec.v ===== *)
(** * LocalExec: the local fallback executor and the completion listener

    Source: src/Experiment_May15/ed_oms_parallel_rn50_fallback_sequencial.cpp,
    [local_run_dispatch] (lines 75-88) and [start_done_listener] (91-125).

    - The dispatcher pops [local_queue] under [queue_mutex] and writes one
      line per task to the Python helper's standard input; it waits while
      the queue is empty and leaves only when [stop_local] is set and the
      queue is empty.  [dispatch_step] is one turn of its loop.
    - The listener reads the notification FIFO with [fgets] into a
      512-byte buffer, strips the newlines, splits the line at its first
      two commas and parses the id with [std::stoi] and the completion time
      with [std::stol]; lines with fewer than two commas are skipped.  An
      exception of [stoi]/[stol] is not caught: it leaves the thread and
      [std::terminate] ends the process.  [listen] runs the loop over the
      whole byte stream the FIFO delivers, with fuel.

    The helper's record format [<id>,<infer_ms>,<epoch_ms>] is taken from
    the spec (section 6): the helper itself is not part of the repository. *)

From S2P Require Import Prelude CppString Wire Client.

Open Scope oms_scope.

(** ** The dispatcher *)

Inductive dispatch_result :=
  | DWrite (line : string) (s' : ed_shared)  (** [fprintf(py, "%s\n", task)] *)
  | DExit                                    (** [break] (line 79) *)
  | DBlocked.                                (** [queue_cv.wait] does not return *)

Definition newline : string := String "010"%char EmptyString.

Definition dispatch_step (s : ed_shared) : dispatch_result :=
  match local_queue s with
  | task :: rest => DWrite (task +s+ newline) (set_queue s rest)
  | [] => if stop_local s then DExit else DBlocked
  end.

(** The dispatcher alone, for at most [fuel] turns: the lines written,
    the final state and whether it left its loop. *)
Fixpoint dispatch_run (fuel : nat) (s : ed_shared) : list string * ed_shared * bool :=
  match fuel with
  | O => ([], s, false)
  | S f =>
      match dispatch_step s with
      | DWrite line s' => let '(out, s'', ex) := dispatch_run f s' in (line :: out, s'', ex)
      | DExit => ([], s, true)
      | DBlocked => ([], s, false)
      end
  end.

(** ** The listener *)

(** [fgets(buffer, 512, fifo)]: at most 511 bytes, up to and including
    the first newline; [None] at end of file with nothing read. *)
Fixpoint fgets_chunk (n : nat) (s : string) : string * string :=
  match n, s with
  | O, _ => (EmptyString, s)
  | S _, EmptyString => (EmptyString, EmptyString)
  | S n', String a s' =>
      if Ascii.eqb a "010"%char then (String a EmptyString, s')
      else let '(c, r) := fgets_chunk n' s' in (String a c, r)
  end.

Definition fgets (s : string) : option (string * string) :=
  match s with
  | EmptyString => None
  | _ => Some (fgets_chunk 511 s)
  end.

(** An exception leaving the listener thread. *)
Inductive listener_exn :=
  | ConvFailed (e : conv_error)   (** from [std::stoi] / [std::stol] *)
  | SubstrOutOfRange.             (** from [substr] (cannot occur, see below) *)

Inductive line_result :=
  | LSkip                                   (** [continue] (line 108) *)
  | LRecord (token : Z) (infer : string) (done_time : Z)
  | LThrow (e : listener_exn).

Definition on_substr (r : option string) (k : string -> line_result) : line_result :=
  match r with Some x => k x | None => LThrow SubstrOutOfRange end.

Definition on_conv (r : conv_error + Z) (k : Z -> line_result) : line_result :=
  match r with inr v => k v | inl e => LThrow (ConvFailed e) end.

(** Lines 103-112. *)
Definition process_line (chunk : string) : line_result :=
  let line := erase_char "010"%char (upto_nul chunk) in
  let first := str_find "," line 0 in
  let second := str_find "," line (npos_succ first) in
  match first, second with
  | Some f, Some sc =>
      on_substr (substr line 0 (Some f)) (fun tok_s =>
      on_conv (stoi tok_s) (fun token =>
      on_substr (substr line (S f) (Some (sc - f - 1)%nat)) (fun infer =>
      on_substr (substr line (S sc) None) (fun done_s =>
      on_conv (stol done_s) (fun done_time => LRecord token infer done_time)))))
  | _, _ => LSkip
  end.

(** Lines 114-121: the record's two locked blocks. *)
Definition record_effects (token : Z) (infer : string) (done_time : Z) : list ed_effect :=
  [SetEnd token done_time;
   Log ("[ED_DONE] token_ed=" +s+ to_string token +s+ " latency=" +s+ infer
        +s+ " ms done_time=" +s+ to_string done_time)].

(** The loop of lines 102-122 over the bytes the FIFO delivers until its
    writer closes it: the locked blocks executed, and the exception that
    terminated the process, if any. *)
Fixpoint listen (fuel : nat) (stream : string) : list ed_effect * option listener_exn :=
  match fuel with
  | O => ([], None)
  | S f =>
      match fgets stream with
      | None => ([], None)
      | Some (chunk, rest) =>
          match process_line chunk with
          | LSkip => listen f rest
          | LRecord token infer done_time =>
              let '(es, ex) := listen f rest in (record_effects token infer done_time ++ es, ex)
          | LThrow e => ([], Some e)
          end
      end
  end.

(** The whole stream: each [fgets] consumes at least one byte, so one
    turn per byte and one for the end of file suffice. *)
Definition listen_all (stream : string) : list ed_effect * option listener_exn :=
  listen (S (String.length stream)) stream.

(** The helper's notification record (spec section 6). *)
Definition done_record (token : Z) (infer : string) (done_time : Z) : string :=
  to_string token +s+ "," +s+ infer +s+ "," +s+ to_string done_time +s+ newline.

(** [s] holds no [c]. *)
Definition lacks (c : ascii) (s : string) : bool := all_chars (fun x => negb (Ascii.eqb x c)) s.

(** The three comma-separated fields of a line. *)
Definition fields_line (a b c : string) : string := a +s+ "," +s+ b +s+ "," +s+ c.

(** A record the listener is meant to accept: an [int] id, a [long]
    time, an [infer] field without separator, and a line that fits the
    [fgets] buffer. *)
Definition record_ok (r : Z * string * Z) : bool :=
  let '(token, infer, done_time) := r in
  in_int token && in_long done_time && lacks "," infer && lacks NUL infer
  && lacks "010"%char infer
  && (String.length (fields_line (to_string token) infer (to_string done_time)) <? 511)%nat.

Definition done_stream (rs : list (Z * string * Z)) : string :=
  foldr (fun '(t, i, d) acc => done_record t i d +s+ acc) EmptyString rs.

Definition record_effects_of (rs : list (Z * string * Z)) : list ed_effect :=
  flat_map (fun '(t, i, d) => record_effects t i d) rs.

(** ** Lemmas *)

Lemma fgets_chunk_line (n : nat) (a rest : string) :
  lacks "010"%char a = true -> (String.length a < n)%nat ->
  fgets_chunk n (a +s+ newline +s+ rest) = (a +s+ newline, rest).
Proof.
  revert n. induction a as [|x a IH]; intros n Ha Hn; destruct n as [|n]; cbn in Hn; try lia.
  - done.
  - cbn in Ha. apply andb_prop in Ha as [Hx Ha]. apply negb_true_iff in Hx.
    rewrite !string_app_cons. cbn [fgets_chunk]. rewrite Hx, IH by (done || lia). done.
Qed.

Lemma fgets_line (a rest : string) :
  lacks "010"%char a = true -> (String.length a < 511)%nat ->
  fgets (a +s+ newline +s+ rest) = Some (a +s+ newline, rest).
Proof.
  intros Ha Hn. rewrite <- (fgets_chunk_line 511 a rest Ha Hn).
  by destruct a.
Qed.

Lemma line_of_chunk (a : string) :
  lacks NUL a = true -> lacks "010"%char a = true ->
  erase_char "010"%char (upto_nul (a +s+ newline)) = a.
Proof.
  intros Hn Hl. induction a as [|x a IH]; [done|].
  cbn in Hn, Hl. apply andb_prop in Hn as [Hxn Hn]. apply andb_prop in Hl as [Hxl Hl].
  apply negb_true_iff in Hxn, Hxl. rewrite string_app_cons. cbn. rewrite Hxn. cbn.
  rewrite Hxl, IH by done. done.
Qed.

Lemma lacks_app (c : ascii) (a b : string) : lacks c (a +s+ b) = lacks c a && lacks c b.
Proof. apply all_chars_app. Qed.

(** The parse of lines 106-112 on a line with three fields. *)
Lemma process_fields (a b c : string) :
  lacks "," a = true -> lacks "," b = true ->
  lacks NUL (fields_line a b c) = true -> lacks "010"%char (fields_line a b c) = true ->
  process_line (fields_line a b c +s+ newline) =
  on_conv (stoi a) (fun token => on_conv (stol c) (fun done_time => LRecord token b done_time)).
Proof.
  intros Ha Hb Hn Hl. unfold process_line. rewrite line_of_chunk by done.
  unfold fields_line.
  assert (str_find "," (a +s+ "," +s+ b +s+ "," +s+ c) 0 = Some (String.length a)) as H1.
  { rewrite str_find_app_none by done. rewrite string_app_cons, string_app_nil_l, str_find_here.
    cbn [fmap option_fmap option_map]. by rewrite Nat.add_0_r. }
  assert (a +s+ "," +s+ b +s+ "," +s+ c = (a +s+ ",") +s+ b +s+ "," +s+ c) as Hassoc
    by (by rewrite string_app_assoc).
  assert (str_find "," (a +s+ "," +s+ b +s+ "," +s+ c) (S (String.length a)) =
          Some (String.length a + 1 + String.length b)%nat) as H2.
  { rewrite Hassoc.
    replace (S (String.length a)) with (String.length (a +s+ ",") + 0)%nat
      by (rewrite string_length_app; cbn; lia).
    rewrite str_find_app_skip, str_find_app_none by done.
    rewrite string_app_cons, string_app_nil_l, str_find_here.
    cbn [fmap option_fmap option_map]. rewrite string_length_app. cbn [String.length]. f_equal. lia. }
  rewrite H1. cbn [npos_succ]. rewrite H2.
  replace (String.length a + 1 + String.length b - String.length a - 1)%nat
    with (String.length b) by lia.
  rewrite <- (string_app_nil_l (a +s+ _)), (substr_field EmptyString a), string_app_nil_l.
  cbn [on_substr]. destruct (stoi a) as [e|token]; cbn [on_conv]; [done|].
  rewrite !Hassoc.
  replace (S (String.length a)) with (String.length (a +s+ ",")) by (rewrite string_length_app; cbn; lia).
  rewrite substr_field. cbn [on_substr].
  replace (S (String.length a + 1 + String.length b)) with (String.length ((a +s+ ",") +s+ b +s+ ","))
    by (rewrite !string_length_app; cbn; lia).
  assert ((a +s+ ",") +s+ b +s+ "," +s+ c = ((a +s+ ",") +s+ b +s+ ",") +s+ c) as ->
    by (by rewrite !string_app_assoc).
  by rewrite substr_suffix.
Qed.

Lemma fgets_chunk_le (n : nat) (s : string) : (String.length (fgets_chunk n s).2 <= String.length s)%nat.
Proof.
  revert n. induction s as [|x s IH]; intros [|n]; cbn; try lia.
  destruct (Ascii.eqb x "010"%char); cbn; [lia|].
  specialize (IH n). destruct (fgets_chunk n s). cbn in *. lia.
Qed.

Lemma fgets_chunk_shorter (n : nat) (x : ascii) (s : string) :
  (String.length (fgets_chunk (S n) (String x s)).2 < S (String.length s))%nat.
Proof.
  cbn [fgets_chunk]. pose proof (fgets_chunk_le n s).
  case_match; [cbn; lia|]. destruct (fgets_chunk n s); cbn in *; lia.
Qed.

Lemma fgets_shorter (s chunk rest : string) :
  fgets s = Some (chunk, rest) -> (String.length rest < String.length s)%nat.
Proof.
  destruct s as [|x s]; [discriminate|]. intros H.
  pose proof (f_equal (default (EmptyString, EmptyString)) H) as Hp.
  change (fgets_chunk 511 (String x s) = (chunk, rest)) in Hp.
  pose proof (fgets_chunk_shorter 510 x s) as Hl. rewrite Hp in Hl. cbn [String.length snd] in *. lia.
Qed.

(** More fuel than bytes does not change the result. *)
Lemma listen_fuel (f1 f2 : nat) (s : string) :
  (String.length s < f1)%nat -> (String.length s < f2)%nat -> listen f1 s = listen f2 s.
Proof.
  revert f2 s. induction f1 as [|f1 IH]; intros [|f2] s H1 H2; try lia. cbn.
  destruct (fgets s) as [[chunk rest]|] eqn:E; [|done].
  pose proof (fgets_shorter s chunk rest E).
  destruct (process_line chunk); [| |done]; rewrite (IH f2) by lia; done.
Qed.

Lemma lacks_to_string (c : ascii) (z : Z) : is_decimal_char c = false -> lacks c (to_string z) = true.
Proof. apply to_string_no. Qed.

Lemma done_record_fields (t : Z) (i : string) (d : Z) :
  done_record t i d = fields_line (to_string t) i (to_string d) +s+ newline.
Proof. unfold done_record, fields_line. by rewrite !string_app_assoc. Qed.

Ltac lacks_solve :=
  unfold fields_line; rewrite ?lacks_app, ?lacks_to_string by reflexivity;
  repeat (apply andb_true_intro; split); try assumption; reflexivity.

(** One well-formed record is parsed back. *)
Lemma process_done_record (t : Z) (i : string) (d : Z) :
  record_ok (t, i, d) = true -> process_line (done_record t i d) = LRecord t i d.
Proof.
  unfold record_ok. intros H. repeat apply andb_prop in H as [H ?].
  rewrite done_record_fields, process_fields; cycle 1.
  - by apply lacks_to_string.
  - done.
  - lacks_solve.
  - lacks_solve.
  - rewrite stoi_to_string, stol_to_string
      by (done || (unfold in_int; apply andb_true_intro; split; assumption)).
    done.
Qed.

Lemma listen_records (rs : list (Z * string * Z)) (fuel : nat) :
  Forall (fun r => record_ok r = true) rs -> (String.length (done_stream rs) < fuel)%nat ->
  listen fuel (done_stream rs) = (record_effects_of rs, None).
Proof.
  revert fuel. induction rs as [|[[t i] d] rs IH]; intros [|fuel] Hok Hf.
  1-3: cbn in Hf |- *; try lia; done.
  change (done_stream ((t, i, d) :: rs)) with (done_record t i d +s+ done_stream rs) in Hf |- *.
  apply Forall_cons in Hok as [Hr Hok].
  pose proof Hr as Hr'. unfold record_ok in Hr'. repeat apply andb_prop in Hr' as [Hr' ?].
  rewrite done_record_fields, string_app_assoc. cbn [listen]. rewrite fgets_line.
  - rewrite <- done_record_fields, process_done_record by done.
    rewrite IH; [done|done|]. rewrite string_length_app, done_record_fields, string_length_app in Hf. cbn [String.length newline] in Hf. lia.
  - lacks_solve.
  - by apply Nat.ltb_lt.
Qed.

Lemma set_queue_idem (s : ed_shared) (q1 q2 : list string) :
  set_queue (set_queue s q1) q2 = set_queue s q2.
Proof. done. Qed.

Lemma dispatch_run_drain (fuel : nat) (s : ed_shared) :
  stop_local s = true -> (List.length (local_queue s) < fuel)%nat ->
  dispatch_run fuel s = ((fun t => t +s+ newline) <$> local_queue s, set_queue s [], true).
Proof.
  revert s. induction fuel as [|fuel IH]; intros s Hstop Hf; [lia|].
  cbn [dispatch_run]. unfold dispatch_step.
  destruct (local_queue s) as [|t q] eqn:Hq; cbn in Hf.
  - rewrite Hstop. f_equal. f_equal. destruct s; cbn in *; by subst.
  - rewrite IH by (cbn; done || lia). done.
Qed.

(** The dispatcher leaves its loop only when [stop_local] is set and the
    queue is empty. *)
Lemma dispatch_run_exit (fuel : nat) (s s' : ed_shared) (out : list string) :
  dispatch_run fuel s = (out, s', true) -> stop_local s' = true /\ local_queue s' = [].
Proof.
  revert s out. induction fuel as [|fuel IH]; intros s out H; cbn in H; [discriminate|].
  unfold dispatch_step in H. destruct (local_queue s) as [|t q] eqn:Hq.
  - destruct (stop_local s) eqn:Hs; simplify_eq. done.
  - destruct (dispatch_run fuel (set_queue s q)) as [[o s''] ex] eqn:E. simplify_eq.
    by apply (IH (set_queue s q) o).
Qed.

Lemma process_line_throws (a b c : string) (e : conv_error) :
  lacks "," a = true -> lacks "," b = true ->
  lacks NUL (fields_line a b c) = true -> lacks "010"%char (fields_line a b c) = true ->
  stoi a = inl e -> process_line (fields_line a b c +s+ newline) = LThrow (ConvFailed e).
Proof. intros Ha Hb Hn Hl He. rewrite process_fields by done. by rewrite He. Qed.

(** ** Theorems *)

(** Once [stop_local] is set, the dispatcher writes every queued
    task to the Python helper, one line each, in FIFO order, and then
    leaves its loop: it terminates within one turn per queued task plus
    one. *)
Theorem dispatcher_drains_in_order (s : ed_shared) (fuel : nat) :
  stop_local s = true -> (List.length (local_queue s) < fuel)%nat ->
  dispatch_run fuel s = ((fun t => t +s+ newline) <$> local_queue s, set_queue s [], true).
Proof. apply dispatch_run_drain. Qed.

Lemma dispatcher_drains_in_order_witness :
  stop_local (set_stop (set_queue ed_shared0 ["1:a"; "2:b"]) true) = true /\
  (List.length (local_queue (set_stop (set_queue ed_shared0 ["1:a"; "2:b"]) true)) < 3)%nat /\
  dispatch_run 3 (set_stop (set_queue ed_shared0 ["1:a"; "2:b"]) true) =
    ((fun t => t +s+ newline) <$> ["1:a"; "2:b"],
     set_queue (set_stop (set_queue ed_shared0 ["1:a"; "2:b"]) true) [], true).
Proof. split; [reflexivity|]. split; [cbn; lia|]. apply dispatcher_drains_in_order; [reflexivity | cbn; lia]. Defined.

(** C12: the listener reads back every well-formed notification record
    [<id>,<infer_ms>,<epoch_ms>] the helper writes, in order: it records
    [local_task_end_ms[id] = epoch_ms] and logs [infer_ms] for each, and
    ends without exception when the FIFO closes. *)
Theorem listener_reads_records (rs : list (Z * string * Z)) :
  Forall (fun r => record_ok r = true) rs ->
  listen_all (done_stream rs) = (record_effects_of rs, None).
Proof. intros Hok. apply listen_records; [done | lia]. Qed.

Lemma listener_reads_records_witness :
  Forall (fun r => record_ok r = true) [(3, "41.5", 1700000000123); (7, "39", 1700000000456)] /\
  listen_all (done_stream [(3, "41.5", 1700000000123); (7, "39", 1700000000456)]) =
    (record_effects_of [(3, "41.5", 1700000000123); (7, "39", 1700000000456)], None).
Proof.
  assert (Forall (fun r => record_ok r = true) [(3, "41.5", 1700000000123); (7, "39", 1700000000456)])
    as H by (repeat constructor).
  split; [exact H | apply listener_reads_records; exact H].
Defined.

(** C13: a line whose first field is not a number (for instance a CSV
    header) makes [std::stoi] throw; the exception is not caught, so the
    listener, and with it the process, ends there, and no later record is
    read.  The spec treats malformed records as tolerated. *)
Theorem nonnumeric_id_kills_listener (a b c rest : string) (e : conv_error) :
  lacks "," a = true -> lacks "," b = true ->
  lacks NUL (fields_line a b c) = true -> lacks "010"%char (fields_line a b c) = true ->
  (String.length (fields_line a b c) < 511)%nat -> stoi a = inl e ->
  listen_all (fields_line a b c +s+ newline +s+ rest) = ([], Some (ConvFailed e)).
Proof.
  intros Ha Hb Hn Hl Hlen He. unfold listen_all. cbn [listen].
  rewrite fgets_line by done. by rewrite (process_line_throws a b c e).
Qed.

Lemma nonnumeric_id_kills_listener_witness :
  lacks "," "token" = true /\ lacks "," "infer_ms" = true /\
  lacks NUL (fields_line "token" "infer_ms" "done_ms") = true /\
  lacks "010"%char (fields_line "token" "infer_ms" "done_ms") = true /\
  (String.length (fields_line "token" "infer_ms" "done_ms") < 511)%nat /\
  stoi "token" = inl InvalidArgument /\
  listen_all (fields_line "token" "infer_ms" "done_ms" +s+ newline +s+ done_record 3 "41.5" 1700000000123) =
    ([], Some (ConvFailed InvalidArgument)).
Proof.
  assert ((String.length (fields_line "token" "infer_ms" "done_ms") < 511)%nat) as Hlen
    by (apply Nat.ltb_lt; reflexivity).
  do 4 (split; [reflexivity|]). split; [exact Hlen|]. split; [reflexivity|].
  apply nonnumeric_id_kills_listener; (reflexivity || exact Hlen).
Defined.
