(* ===== verification/Driver.v ===== *)
(** * Driver: the ED process as a concurrent transition system

    Source: src/Experiment_May15/ed_oms_parallel_rn50_fallback_sequencial.cpp,
    [main] (lines 214-277).  The process runs

    - the generator thread (lines 235-246), pushing the ids
      [0 .. total_requests - 1] on [task_queue] and then setting
      [all_generated];
    - [thread_pool_size = 32] workers (lines 249-265), each popping an id
      and running [run_request] on it, until the queue is empty and
      [all_generated] is set;
    - the dispatcher [local_run_dispatch] ([LocalExec.dispatch_step]);
    - the Python helper and the listener: the helper takes the lines the
      dispatcher wrote, in order, and reports a record for each, which the
      listener turns into [record_effects] ([LocalExec.listener_reads_records]
      shows that the listener's parse of the record is exactly this);
    - the main thread, which after joining the generator and the workers
      sets [stop_local] (lines 270-274) and, once the dispatcher and the
      helper are done, prints the statistics ([Stats]).

    A worker's [run_request] is split into its locked blocks
    ([Client.run_request]); each block is one step, so the blocks of
    different workers interleave arbitrarily.  Two ghost components record
    the history: [taken], the ids popped by the workers in order, and
    [applied], the blocks the workers executed, tagged by id.  The section
    [Driver] is parameterised by [total_requests] and by what a variant
    does differently: [effects_of t], the blocks of [run_request(t)],
    [record_effects_of], the listener's blocks for one record, and
    [gen_effects_of t], the generator's locked block when it pushes [t]
    ([no_gen_effects] here, a time stamp in [Rn50Bwaj]).  Its theorems
    hold of every variant whose blocks obey the section's hypotheses; the
    section [Sequential] instantiates it with this file's [run_request]
    ([seq_effects]), [Arrivals] relates the time-driven generator of the
    Poisson variants to [total_requests]. *)

From S2P Require Import Prelude CppString Wire Client LocalExec.

Open Scope oms_scope.

(** ** State *)

Inductive worker :=
  | WIdle                                      (** waiting on [task_queue_cv] *)
  | WBusy (token : Z) (pending : list ed_effect) (** inside [run_request(token)] *)
  | WExited.                                   (** returned (line 258) *)

Record sys := {
  sys_sh : ed_shared;
  task_queue : list Z;           (** [std::queue<int>], front first *)
  gen_i : Z;                     (** the generator's loop variable *)
  all_generated : bool;
  workers : list worker;
  disp_exited : bool;            (** [local_run_dispatch] returned *)
  py_in : list string;           (** lines written to the helper *)
  py_done : nat;                 (** lines the helper has reported *)
  stopped : bool;                (** the main thread passed line 273 *)
  taken : list Z;                (** ghost: ids popped, in order *)
  applied : list (Z * ed_effect) (** ghost: worker blocks executed, in order *)
}.

Definition thread_pool_size : nat := 32.

Definition sys_init : sys :=
  {| sys_sh := ed_shared0; task_queue := []; gen_i := 0; all_generated := false;
     workers := replicate thread_pool_size WIdle; disp_exited := false; py_in := [];
     py_done := 0; stopped := false; taken := []; applied := [] |}.

Inductive sys_event :=
  | Gen                          (** one iteration of the generator loop *)
  | GenEnd                       (** [all_generated = true] *)
  | Take (w : nat)               (** worker [w] pops an id *)
  | Block (w : nat)              (** worker [w] executes its next locked block *)
  | Finish (w : nat)             (** [run_request] returns *)
  | Exit (w : nat)               (** worker [w] returns *)
  | Dispatch                     (** one turn of [local_run_dispatch] *)
  | HelperDone (infer : string) (done_time : Z) (** the helper reports its next line *)
  | Stop.                        (** main: [stop_local = true] *)

(** Field updates of [sys]. *)
Definition upd_sh (s : sys) (sh : ed_shared) : sys :=
  {| sys_sh := sh; task_queue := task_queue s; gen_i := gen_i s; all_generated := all_generated s;
     workers := workers s; disp_exited := disp_exited s; py_in := py_in s; py_done := py_done s;
     stopped := stopped s; taken := taken s; applied := applied s |}.
Definition upd_gen (s : sys) (q : list Z) (i : Z) (allg : bool) : sys :=
  {| sys_sh := sys_sh s; task_queue := q; gen_i := i; all_generated := allg;
     workers := workers s; disp_exited := disp_exited s; py_in := py_in s; py_done := py_done s;
     stopped := stopped s; taken := taken s; applied := applied s |}.
Definition upd_worker (s : sys) (w : nat) (x : worker) : sys :=
  {| sys_sh := sys_sh s; task_queue := task_queue s; gen_i := gen_i s;
     all_generated := all_generated s; workers := <[w:=x]> (workers s);
     disp_exited := disp_exited s; py_in := py_in s; py_done := py_done s;
     stopped := stopped s; taken := taken s; applied := applied s |}.
Definition upd_take (s : sys) (q : list Z) (t : Z) : sys :=
  {| sys_sh := sys_sh s; task_queue := q; gen_i := gen_i s; all_generated := all_generated s;
     workers := workers s; disp_exited := disp_exited s; py_in := py_in s; py_done := py_done s;
     stopped := stopped s; taken := taken s ++ [t]; applied := applied s |}.
Definition upd_applied (s : sys) (a : Z * ed_effect) : sys :=
  {| sys_sh := sys_sh s; task_queue := task_queue s; gen_i := gen_i s;
     all_generated := all_generated s; workers := workers s; disp_exited := disp_exited s;
     py_in := py_in s; py_done := py_done s; stopped := stopped s; taken := taken s;
     applied := applied s ++ [a] |}.
Definition upd_disp (s : sys) (out : list string) (ex : bool) : sys :=
  {| sys_sh := sys_sh s; task_queue := task_queue s; gen_i := gen_i s;
     all_generated := all_generated s; workers := workers s; disp_exited := ex;
     py_in := py_in s ++ out; py_done := py_done s; stopped := stopped s; taken := taken s;
     applied := applied s |}.
Definition upd_helper (s : sys) (n : nat) : sys :=
  {| sys_sh := sys_sh s; task_queue := task_queue s; gen_i := gen_i s;
     all_generated := all_generated s; workers := workers s; disp_exited := disp_exited s;
     py_in := py_in s; py_done := n; stopped := stopped s; taken := taken s;
     applied := applied s |}.
Definition upd_stopped (s : sys) : sys :=
  {| sys_sh := sys_sh s; task_queue := task_queue s; gen_i := gen_i s;
     all_generated := all_generated s; workers := workers s; disp_exited := disp_exited s;
     py_in := py_in s; py_done := py_done s; stopped := true; taken := taken s;
     applied := applied s |}.

(** The helper reads the id in front of the [':'] of its input line
    (spec section 4.3: one task description per line). *)
Definition helper_token (line : string) : option Z :=
  match stoi line with inr t => Some t | inl _ => None end.

(** A run with two ids: the EC refuses id 0, the connection fails for id 1;
    worker 0 handles both, the helper reports both local runs. *)
Definition demo_env (t : Z) : req_env := if t =? 0 then drop_env else refused_env.

Definition demo_events : list sys_event :=
  [Gen; Gen; GenEnd; Take 0; Block 0; Block 0; Block 0; Block 0; Finish 0;
   Take 0; Block 0; Block 0; Finish 0] ++ (Exit <$> seq 0 thread_pool_size) ++
  [Stop; Dispatch; Dispatch; Dispatch; HelperDone "40" 1700000000100; HelperDone "41" 1700000000200].

(** The locked blocks of this variant's [run_request(token)], for the
    system-call answers [env]. *)
Definition seq_effects (env : Z -> req_env) (token : Z) : list ed_effect :=
  req_effects (run_request token (env token)).

(** The generator of the sequential variants only pushes the id
    (lines 236-241): it executes no block of the ED's shared state. *)
Definition no_gen_effects (token : Z) : list ed_effect := [].

(** The lines [local_run_dispatch] writes for queued tasks. *)
Definition task_lines (l : list string) : list string := (fun x => x +s+ newline) <$> l.

(** Blocks that neither count a task nor queue a local run. *)
Definition quiet_effect (e : ed_effect) : bool :=
  match e with SetStart _ _ | SetEnd _ _ | Log _ => true | _ => false end.

(** The time-driven generator of the Poisson variants (for instance
    [ed_oms_parallel_rn50_fallback_sequencial_poission_pi3.cpp], lines
    217-238): [while (true) { if (elapsed >= duration_sec) break;
    task_queue.push(token); ...; token++; }].  [stop k] is the outcome of
    the [k]-th clock check; [gen_pushes] is the ids pushed, for at most
    [fuel] checks, and [first_stop] the id at which the loop breaks. *)
Fixpoint gen_pushes (fuel : nat) (stop : Z -> bool) (token : Z) : list Z :=
  match fuel with
  | O => []
  | S f => if stop token then [] else token :: gen_pushes f stop (token + 1)
  end.

Fixpoint first_stop (fuel : nat) (stop : Z -> bool) (token : Z) : Z :=
  match fuel with
  | O => token
  | S f => if stop token then token else first_stop f stop (token + 1)
  end.

(** Case analysis of a step: the guards and the matches of [sys_step]. *)
Ltac step_cases H :=
  repeat (case_match ||
          match type of H with
          | mbind _ _ = Some _ => apply bind_Some in H as (? & ? & H)
          end);
  simplify_eq/=;
  rewrite ?andb_true_iff, ?negb_true_iff, ?Z.ltb_lt, ?Z.ltb_ge in *; destruct_and?.

(** The process is parameterised by what the ED variants that share this
    [main] do differently: [effects_of t], the locked blocks of
    [run_request(t)], and [record_effects_of], the listener's locked blocks
    for one notification record. *)
Section Driver.
Variable total_requests : Z.
Variable effects_of : Z -> list ed_effect.
Variable record_effects_of : Z -> string -> Z -> list ed_effect.
Variable gen_effects_of : Z -> list ed_effect.

Definition sys_step (s : sys) (ev : sys_event) : option sys :=
  match ev with
  | Gen =>
      if negb (all_generated s) && (gen_i s <? total_requests) then
        sh' ← apply_effects (sys_sh s) (gen_effects_of (gen_i s));
        Some (upd_sh (upd_gen s (task_queue s ++ [gen_i s]) (gen_i s + 1) false) sh')
      else None
  | GenEnd =>
      if negb (all_generated s) && negb (gen_i s <? total_requests) then
        Some (upd_gen s (task_queue s) (gen_i s) true)
      else None
  | Take w =>
      match workers s !! w, task_queue s with
      | Some WIdle, t :: q => Some (upd_worker (upd_take s q t) w (WBusy t (effects_of t)))
      | _, _ => None
      end
  | Block w =>
      match workers s !! w with
      | Some (WBusy t (e :: es)) =>
          sh' ← apply_effect (sys_sh s) e;
          Some (upd_applied (upd_worker (upd_sh s sh') w (WBusy t es)) (t, e))
      | _ => None
      end
  | Finish w =>
      match workers s !! w with
      | Some (WBusy _ []) => Some (upd_worker s w WIdle)
      | _ => None
      end
  | Exit w =>
      match workers s !! w, task_queue s with
      | Some WIdle, [] => if all_generated s then Some (upd_worker s w WExited) else None
      | _, _ => None
      end
  | Dispatch =>
      if disp_exited s then None
      else match dispatch_step (sys_sh s) with
           | DWrite line sh' => Some (upd_disp (upd_sh s sh') [line] false)
           | DExit => Some (upd_disp s [] true)
           | DBlocked => None
           end
  | HelperDone infer done_time =>
      match py_in s !! py_done s with
      | Some line =>
          match helper_token line with
          | Some t =>
              if record_ok (t, infer, done_time) then
                sh' ← apply_effects (sys_sh s) (record_effects_of t infer done_time);
                Some (upd_helper (upd_sh s sh') (S (py_done s)))
              else None
          | None => None
          end
      | None => None
      end
  | Stop =>
      if all_generated s && forallb (fun x => match x with WExited => true | _ => false end) (workers s)
         && negb (stopped s) then
        Some (upd_stopped (upd_sh s (set_stop (sys_sh s) true)))
      else None
  end.

Fixpoint sys_run (s : sys) (evs : list sys_event) : option sys :=
  match evs with
  | [] => Some s
  | ev :: evs' => s' ← sys_step s ev; sys_run s' evs'
  end.

Definition sys_steps (s s' : sys) : Prop := exists ev, sys_step s ev = Some s'.
Definition sys_reachable (s : sys) : Prop := rtc sys_steps sys_init s.

(** Every thread has returned, the helper has reported every line. *)
Definition sys_final (s : sys) : bool :=
  stopped s && disp_exited s && (py_done s =? List.length (py_in s))%nat.

(** ** Invariants *)

(** The blocks executed for [t] so far. *)
Definition applied_for (t : Z) (l : list (Z * ed_effect)) : list ed_effect :=
  snd <$> filter (fun a => a.1 = t) l.

(** Every id is in [taken] or in [task_queue], in generation order. *)
Definition inv_tokens (s : sys) : Prop :=
  taken s ++ task_queue s = seqZ 0 (gen_i s) /\ 0 <= gen_i s <= Z.max 0 total_requests /\
  (all_generated s = true -> total_requests <= gen_i s).

(** A busy worker has executed a prefix of its request's blocks; an id no
    worker holds any more has executed all of them. *)
Definition inv_workers (s : sys) : Prop :=
  List.length (workers s) = thread_pool_size /\
  (forall w t es, workers s !! w = Some (WBusy t es) ->
     t ∈ taken s /\ effects_of t = applied_for t (applied s) ++ es /\
     forall w' es', workers s !! w' = Some (WBusy t es') -> w' = w) /\
  (forall t, t ∈ taken s -> (forall w es, workers s !! w <> Some (WBusy t es)) ->
     applied_for t (applied s) = effects_of t) /\
  Forall (fun a => a.1 ∈ taken s) (applied s) /\
  (forall w, workers s !! w = Some WExited -> all_generated s = true /\ task_queue s = []) /\
  (stopped s = true -> Forall (fun x => x = WExited) (workers s)).

(** The counters are the count of the executed blocks. *)
Definition inv_stats (s : sys) : Prop :=
  stats_inv (ed_stats_of (sys_sh s)) /\
  sent_to_ec (ed_stats_of (sys_sh s)) = Z.of_nat (sum_list_with is_sent (snd <$> applied s)) /\
  ran_on_ed (ed_stats_of (sys_sh s)) = Z.of_nat (sum_list_with is_fallback (snd <$> applied s)).

Definition sys_inv (s : sys) : Prop := inv_tokens s /\ inv_workers s /\ inv_stats s.

(** Every executed block belongs to its id's request. *)
Definition inv_applied (s : sys) : Prop := Forall (fun a => a.2 ∈ effects_of a.1) (applied s).

(** The tasks the workers queued, as lines, are the lines written to the
    helper followed by those still in [local_queue]: nothing is lost,
    duplicated or reordered between [enqueue_local_run] and [fprintf]. *)
Definition inv_lines (s : sys) : Prop :=
  task_lines (local_runs (snd <$> applied s)) = py_in s ++ task_lines (local_queue (sys_sh s)).

(** ** A measure for termination *)

Definition worker_weight (x : worker) : nat :=
  match x with WIdle => 1 | WBusy _ es => 2 + 4 * List.length es | WExited => 0 end%nat.

(** Each id still to generate is worth 21, each queued id 20, each
    pending block 4, each task queued for local execution 3 and each
    line the helper has not reported 1; a flag not yet set is worth 1. *)
Definition sys_measure (s : sys) : nat :=
  (21 * Z.to_nat (total_requests - gen_i s) + (if all_generated s then 0 else 1)
   + 20 * List.length (task_queue s) + sum_list_with worker_weight (workers s)
   + 3 * List.length (local_queue (sys_sh s)) + (if disp_exited s then 0 else 1)
   + (List.length (py_in s) - py_done s) + (if stopped s then 0 else 1))%nat.

(** ** Lemmas *)

(** What the variant must satisfy: a request has at most four locked
    blocks, and the listener's blocks neither count nor queue. *)
Hypothesis effects_short : forall t, (List.length (effects_of t) <= 4)%nat.
Hypothesis record_quiet : forall t i d, forallb quiet_effect (record_effects_of t i d) = true.
Hypothesis gen_quiet : forall t, forallb quiet_effect (gen_effects_of t) = true.

Lemma inv_tokens_init : inv_tokens sys_init.
Proof. unfold inv_tokens. cbn. split; [done|]. split; [lia | discriminate]. Qed.

Lemma inv_tokens_step (s s' : sys) (ev : sys_event) :
  inv_tokens s -> sys_step s ev = Some s' -> inv_tokens s'.
Proof.
  unfold inv_tokens. intros (Ht & Hg & Ha) Hstep.
  destruct ev; cbn in Hstep; step_cases Hstep;
    try (split; [done | split; [lia | intros; auto]]).
  - rewrite app_assoc, Ht, seqZ_snoc by lia. split; [done|]. split; [lia | discriminate].
  - rewrite <- app_assoc. cbn. split; [done|]. split; [lia | done].
  - match goal with Hq : task_queue s = [] |- _ => rewrite Hq end.
    split; [done|]. split; [lia | auto].
Qed.

Lemma applied_for_snoc (t t' : Z) (e : ed_effect) (l : list (Z * ed_effect)) :
  applied_for t (l ++ [(t', e)]) = applied_for t l ++ (if decide (t' = t) then [e] else []).
Proof.
  unfold applied_for. rewrite filter_app, fmap_app. f_equal.
  rewrite filter_cons, filter_nil. cbn. by case_decide.
Qed.

Lemma applied_for_absent (t : Z) (l : list (Z * ed_effect)) (T : list Z) :
  Forall (fun a => a.1 ∈ T) l -> t ∉ T -> applied_for t l = [].
Proof.
  intros Hl Ht. unfold applied_for. induction Hl as [|a l Ha Hl IH]; [done|].
  rewrite filter_cons. case_decide as E; [subst; contradiction | done].
Qed.

(** The id a worker pops is new. *)
Lemma take_fresh (s : sys) (z : Z) (l : list Z) :
  inv_tokens s -> task_queue s = z :: l -> z ∉ taken s.
Proof.
  intros (Ht & _) Hq. rewrite Hq in Ht. pose proof (NoDup_seqZ 0 (gen_i s)) as Hnd.
  rewrite <- Ht in Hnd. apply NoDup_app in Hnd as (_ & Hd & _). intros Hz.
  apply (Hd z Hz). by left.
Qed.

Lemma inv_workers_take (s : sys) (w : nat) (z : Z) (l : list Z) :
  inv_tokens s -> inv_workers s -> workers s !! w = Some WIdle -> task_queue s = z :: l ->
  inv_workers (upd_worker (upd_take s l z) w (WBusy z (effects_of z))).
Proof.
  intros Htok (Hlen & Hbusy & Hidle & Hkeys & Hexit & Hstop) Hw Hq.
  pose proof (take_fresh s z l Htok Hq) as Hz.
  pose proof (applied_for_absent z _ _ Hkeys Hz) as Hz0.
  unfold inv_workers; cbn [workers taken applied upd_worker upd_take all_generated task_queue stopped].
  split; [by rewrite length_insert|]. split; [|split; [|split; [|split]]].
  - intros w' t es [(<- & [= <- <-] & _) | (Hne & Hw')]%list_lookup_insert_Some.
    + split; [set_solver|]. split; [by rewrite Hz0|].
      intros w'' es' [(-> & _) | (Hne & Hw'')]%list_lookup_insert_Some; [done|].
      destruct (Hbusy _ _ _ Hw'') as (Hin & _). contradiction.
    + destruct (Hbusy _ _ _ Hw') as (Hin & Heq & Huniq). split; [set_solver|]. split; [done|].
      intros w'' es' [(<- & [= -> _] & _) | (Hne' & Hw'')]%list_lookup_insert_Some; [contradiction|].
      by apply (Huniq w'' es').
  - intros t Ht Hnb. apply elem_of_app in Ht as [Ht | ->%list_elem_of_singleton].
    + apply Hidle; [done|]. intros w' es Hw'. destruct (decide (w' = w)) as [->|Hne].
      * congruence.
      * apply (Hnb w' es). by rewrite list_lookup_insert_ne.
    + exfalso. apply (Hnb w (effects_of z)). apply list_lookup_insert_eq. by eapply lookup_lt_Some.
  - eapply Forall_impl; [exact Hkeys|]. set_solver.
  - intros w' [(<- & [=] & _) | (_ & Hw')]%list_lookup_insert_Some. destruct (Hexit w' Hw') as [_ Hq'].
    congruence.
  - intros Hs. specialize (Hstop Hs). pose proof (Forall_lookup_1 _ _ _ _ Hstop Hw). discriminate.
Qed.

Lemma inv_workers_block (s : sys) (w : nat) (t : Z) (e : ed_effect) (es : list ed_effect) (sh' : ed_shared) :
  inv_workers s -> workers s !! w = Some (WBusy t (e :: es)) ->
  inv_workers (upd_applied (upd_worker (upd_sh s sh') w (WBusy t es)) (t, e)).
Proof.
  intros (Hlen & Hbusy & Hidle & Hkeys & Hexit & Hstop) Hw.
  destruct (Hbusy _ _ _ Hw) as (Ht & Heq & Huniq).
  unfold inv_workers; cbn [workers taken applied upd_worker upd_sh upd_applied all_generated task_queue stopped].
  split; [by rewrite length_insert|]. split; [|split; [|split; [|split]]].
  - intros w' t' es' [(<- & [= <- <-] & _) | (Hne & Hw')]%list_lookup_insert_Some.
    + split; [done|]. split.
      * rewrite applied_for_snoc, decide_True, <- app_assoc by done. done.
      * intros w'' es'' [(-> & _) | (Hne & Hw'')]%list_lookup_insert_Some; [done|].
        exfalso. apply Hne. symmetry. by apply (Huniq w'' es'').
    + destruct (Hbusy _ _ _ Hw') as (Hin & Heq' & Huniq').
      assert (t <> t') as Htt by (intros <-; apply Hne; symmetry; by apply (Huniq w' es')).
      split; [done|]. split; [by rewrite applied_for_snoc, decide_False, app_nil_r|].
      intros w'' es'' [(<- & [= <- _] & _) | (_ & Hw'')]%list_lookup_insert_Some; [done|].
      by apply (Huniq' w'' es'').
  - intros t' Ht' Hnb. destruct (decide (t = t')) as [<-|Htt].
    + exfalso. apply (Hnb w es). apply list_lookup_insert_eq. by eapply lookup_lt_Some.
    + rewrite applied_for_snoc, decide_False, app_nil_r by done. apply Hidle; [done|].
      intros w' es' Hw'. destruct (decide (w' = w)) as [->|Hne]; [congruence|].
      apply (Hnb w' es'). by rewrite list_lookup_insert_ne.
  - apply Forall_app. split; [done|]. by constructor.
  - intros w' [(<- & [=] & _) | (_ & Hw')]%list_lookup_insert_Some. by apply (Hexit w').
  - intros Hs. pose proof (Forall_lookup_1 _ _ _ _ (Hstop Hs) Hw). discriminate.
Qed.

Lemma inv_workers_finish (s : sys) (w : nat) (t : Z) :
  inv_workers s -> workers s !! w = Some (WBusy t []) -> inv_workers (upd_worker s w WIdle).
Proof.
  intros (Hlen & Hbusy & Hidle & Hkeys & Hexit & Hstop) Hw.
  destruct (Hbusy _ _ _ Hw) as (Ht & Heq & Huniq).
  unfold inv_workers; cbn [workers taken applied upd_worker all_generated task_queue stopped].
  split; [by rewrite length_insert|]. split; [|split; [|split; [|split]]].
  - intros w' t' es' [(<- & [=] & _) | (Hne & Hw')]%list_lookup_insert_Some.
    destruct (Hbusy _ _ _ Hw') as (Hin & Heq' & Huniq'). split; [done|]. split; [done|].
    intros w'' es'' [(<- & [=] & _) | (_ & Hw'')]%list_lookup_insert_Some. by apply (Huniq' w'' es'').
  - intros t' Ht' Hnb. destruct (decide (t = t')) as [<-|Htt]; [by rewrite Heq, app_nil_r|].
    apply Hidle; [done|]. intros w' es' Hw'. destruct (decide (w' = w)) as [->|Hne]; [congruence|].
    apply (Hnb w' es'). by rewrite list_lookup_insert_ne.
  - done.
  - intros w' [(<- & [=] & _) | (_ & Hw')]%list_lookup_insert_Some. by apply (Hexit w').
  - intros Hs. pose proof (Forall_lookup_1 _ _ _ _ (Hstop Hs) Hw). discriminate.
Qed.

Lemma inv_workers_exit (s : sys) (w : nat) :
  inv_workers s -> workers s !! w = Some WIdle -> all_generated s = true -> task_queue s = [] ->
  inv_workers (upd_worker s w WExited).
Proof.
  intros (Hlen & Hbusy & Hidle & Hkeys & Hexit & Hstop) Hw Hg Hq.
  unfold inv_workers; cbn [workers taken applied upd_worker all_generated task_queue stopped].
  split; [by rewrite length_insert|]. split; [|split; [|split; [|split]]].
  - intros w' t' es' [(<- & [=] & _) | (Hne & Hw')]%list_lookup_insert_Some.
    destruct (Hbusy _ _ _ Hw') as (Hin & Heq' & Huniq'). split; [done|]. split; [done|].
    intros w'' es'' [(<- & [=] & _) | (_ & Hw'')]%list_lookup_insert_Some. by apply (Huniq' w'' es'').
  - intros t' Ht' Hnb. apply Hidle; [done|]. intros w' es' Hw'.
    destruct (decide (w' = w)) as [->|Hne]; [congruence|].
    apply (Hnb w' es'). by rewrite list_lookup_insert_ne.
  - done.
  - intros w' [(<- & _ & _) | (_ & Hw')]%list_lookup_insert_Some; [done|]. by apply (Hexit w').
  - intros Hs. pose proof (Forall_lookup_1 _ _ _ _ (Hstop Hs) Hw). discriminate.
Qed.

(** A step that leaves the workers and the ghost history alone. *)
Lemma inv_workers_frame (s s' : sys) :
  inv_workers s -> workers s' = workers s -> taken s' = taken s -> applied s' = applied s ->
  (forall w, workers s !! w = Some WExited -> all_generated s' = true /\ task_queue s' = []) ->
  (stopped s' = true -> Forall (fun x => x = WExited) (workers s)) ->
  inv_workers s'.
Proof.
  intros (Hlen & Hbusy & Hidle & Hkeys & _ & _) Hws Hts Has Hexit Hstop.
  unfold inv_workers. rewrite Hws, Hts, Has. done.
Qed.

Lemma forallb_exited (ws : list worker) :
  forallb (fun x => match x with WExited => true | _ => false end) ws = true ->
  Forall (fun x => x = WExited) ws.
Proof.
  induction ws as [|x ws IH]; cbn; intros H; constructor.
  - destruct x; [discriminate..|done].
  - apply IH. by apply andb_prop in H as [_ H].
Qed.

Lemma inv_workers_init : inv_workers sys_init.
Proof.
  unfold inv_workers. cbn [workers sys_init taken applied stopped]. split; [by rewrite length_replicate|].
  split; [intros w t es [[=] _]%lookup_replicate|]. split; [intros t Ht; by apply elem_of_nil in Ht|].
  split; [constructor|]. split; [intros w [[=] _]%lookup_replicate | discriminate].
Qed.

Lemma inv_workers_step (s s' : sys) (ev : sys_event) :
  inv_tokens s -> inv_workers s -> sys_step s ev = Some s' -> inv_workers s'.
Proof.
  intros Htok Hw Hstep. pose proof Hw as (_ & _ & _ & _ & Hexit & Hstop).
  destruct ev; cbn in Hstep; step_cases Hstep.
  - apply (inv_workers_frame s); [done..| |cbn; intros Hs; by apply Hstop].
    intros w Hx. destruct (Hexit w Hx). congruence.
  - apply (inv_workers_frame s); [done..| |cbn; intros Hs; by apply Hstop].
    intros w Hx. destruct (Hexit w Hx). done.
  - by eapply inv_workers_take.
  - by eapply inv_workers_block.
  - by eapply inv_workers_finish.
  - by eapply inv_workers_exit.
  - apply (inv_workers_frame s); [done..|intros w Hx; by apply (Hexit w)|cbn; intros Hs; by apply Hstop].
  - apply (inv_workers_frame s); [done..|intros w Hx; by apply (Hexit w)|cbn; intros Hs; by apply Hstop].
  - apply (inv_workers_frame s); [done..|intros w Hx; by apply (Hexit w)|cbn; intros Hs; by apply Hstop].
  - apply (inv_workers_frame s); [done..|intros w Hx; by apply (Hexit w)|]. intros _. by apply forallb_exited.
Qed.

Lemma dispatch_step_stats (sh sh' : ed_shared) (line : string) :
  dispatch_step sh = DWrite line sh' -> ed_stats_of sh' = ed_stats_of sh.
Proof. unfold dispatch_step. repeat case_match; by intros [= _ <-]. Qed.

Lemma quiet_uncounted (es : list ed_effect) :
  forallb quiet_effect es = true ->
  sum_list_with is_sent es = 0%nat /\ sum_list_with is_fallback es = 0%nat.
Proof. induction es as [|[] es IH]; cbn; try done. all: intros H; destruct (IH H); lia. Qed.

Lemma quiet_queue (sh sh' : ed_shared) (es : list ed_effect) :
  forallb quiet_effect es = true -> apply_effects sh es = Some sh' -> local_queue sh' = local_queue sh.
Proof.
  revert sh. induction es as [|[] es IH]; intros sh Hq H; cbn in *; try done; [by injection H as <-|..];
    apply IH in H; done.
Qed.

Lemma inv_stats_init : inv_stats sys_init.
Proof. unfold inv_stats. cbn. split; [apply stats_inv_stats0 | done]. Qed.

Lemma inv_stats_step (s s' : sys) (ev : sys_event) :
  inv_stats s -> sys_step s ev = Some s' -> inv_stats s'.
Proof.
  unfold inv_stats. intros (Hinv & Hs & Hr) Hstep.
  destruct ev; cbn in Hstep; step_cases Hstep; try done.
  all: try match goal with
    | H : apply_effect _ _ = Some _ |- _ =>
        destruct (apply_effect_stats_inv _ _ _ Hinv H) as (Hinv' & _ & Hs' & Hr');
        rewrite fmap_app, !sum_list_with_app; cbn; split; [done | lia]
    | H : dispatch_step _ = DWrite _ _ |- _ => by erewrite dispatch_step_stats by exact H
    | H : apply_effects _ (record_effects_of ?t ?i ?d) = Some _ |- _ =>
        destruct (apply_effects_stats_inv _ _ _ Hinv H) as (Hinv' & _ & Hs' & Hr');
        destruct (quiet_uncounted _ (record_quiet t i d)) as [H0s H0f];
        rewrite H0s in Hs'; rewrite H0f in Hr'; split; [done | lia]
    | H : apply_effects _ (gen_effects_of ?t) = Some _ |- _ =>
        destruct (apply_effects_stats_inv _ _ _ Hinv H) as (Hinv' & _ & Hs' & Hr');
        destruct (quiet_uncounted _ (gen_quiet t)) as [H0s H0f];
        rewrite H0s in Hs'; rewrite H0f in Hr'; split; [done | lia]
    end.
Qed.

Lemma sys_step_inv (s s' : sys) (ev : sys_event) :
  sys_inv s -> sys_step s ev = Some s' -> sys_inv s'.
Proof.
  intros (Ht & Hw & Hs) Hstep. split; [|split].
  - by eapply inv_tokens_step.
  - by eapply inv_workers_step.
  - by eapply inv_stats_step.
Qed.

Lemma sys_reachable_inv (s : sys) : sys_reachable s -> sys_inv s.
Proof.
  intros H. apply (rtc_ind_r (R:=sys_steps) sys_inv sys_init); [|intros y z _ [ev Hev] Hy; by eapply sys_step_inv|done].
  split; [apply inv_tokens_init | split; [apply inv_workers_init | apply inv_stats_init]].
Qed.

Lemma dispatch_step_line (sh sh' : ed_shared) (line : string) :
  dispatch_step sh = DWrite line sh' -> exists x, local_queue sh = x :: local_queue sh' /\ line = x +s+ newline.
Proof. unfold dispatch_step. repeat case_match; intros [= <- <-]; eauto. Qed.

Lemma local_runs_snoc (l : list ed_effect) (e : ed_effect) :
  local_runs (l ++ [e]) = local_runs l ++ match e with PushLocal x => [x] | _ => [] end.
Proof. unfold local_runs. rewrite omap_app. by destruct e. Qed.

Lemma inv_applied_step (s s' : sys) (ev : sys_event) :
  inv_workers s -> inv_applied s -> sys_step s ev = Some s' -> inv_applied s'.
Proof.
  intros (_ & Hbusy & _) Ha Hstep. destruct ev; cbn in Hstep; step_cases Hstep; try exact Ha.
  unfold inv_applied. cbn. apply Forall_app. split; [done|]. repeat constructor. cbn.
  match goal with Hw : workers s !! _ = Some (WBusy _ _) |- _ => destruct (Hbusy _ _ _ Hw) as (_ & -> & _) end.
  apply elem_of_app. right. by left.
Qed.

Lemma inv_lines_step (s s' : sys) (ev : sys_event) :
  inv_lines s -> sys_step s ev = Some s' -> inv_lines s'.
Proof.
  unfold inv_lines. intros H Hstep. destruct ev; cbn in Hstep; step_cases Hstep; try exact H.
  - erewrite (quiet_queue _ _ _ (gen_quiet _)) by eassumption. exact H.
  - rewrite fmap_app. cbn [fmap list_fmap snd]. rewrite local_runs_snoc. erewrite apply_effect_queue by eassumption.
    unfold task_lines in *. rewrite !fmap_app, H, <- app_assoc. by destruct e.
  - match goal with Hd : dispatch_step _ = DWrite _ _ |- _ => destruct (dispatch_step_line _ _ _ Hd) as (x & Hq & ->) end.
    rewrite H, Hq, <- app_assoc. done.
  - by rewrite app_nil_r.
  - erewrite (quiet_queue _ _ _ (record_quiet _ _ _)) by eassumption. exact H.
Qed.

(** In every reachable state, each line written to the helper is a task
    queued by the request of an id a worker has taken. *)
Lemma sys_py_in_runs (s : sys) (line : string) :
  sys_reachable s -> line ∈ py_in s ->
  exists t x, t ∈ taken s /\ PushLocal x ∈ effects_of t /\ line = x +s+ newline.
Proof.
  intros Hr Hl.
  assert (Hal : inv_applied s /\ inv_lines s).
  { revert Hr. apply (rtc_ind_r (fun s => inv_applied s /\ inv_lines s) sys_init); [split; [constructor | reflexivity]|].
    intros y z Hy [ev Hev] [Ha Hli]. destruct (sys_reachable_inv y Hy) as (_ & Hw & _).
    split; [by eapply inv_applied_step | by eapply inv_lines_step]. }
  destruct Hal as [Ha Hli]. destruct (sys_reachable_inv s Hr) as (_ & (_ & _ & _ & Hkeys & _) & _).
  assert (Hin : line ∈ task_lines (local_runs (snd <$> applied s))) by (rewrite Hli; apply elem_of_app; by left).
  unfold task_lines, local_runs in Hin.
  apply list_elem_of_fmap in Hin as (x & -> & Hx). apply list_elem_of_omap in Hx as (e & He & Hex).
  destruct e; try discriminate. injection Hex as ->.
  apply list_elem_of_fmap in He as ([t e] & Heq & Hte). cbn in Heq. subst e.
  exists t, x. split_and!; [exact (proj1 (Forall_forall _ _) Hkeys _ Hte) | exact (proj1 (Forall_forall _ _) Ha _ Hte) | done].
Qed.

(** Every id a worker has taken is one the generator pushed. *)
Lemma sys_taken_range (s : sys) (t : Z) :
  sys_reachable s -> t ∈ taken s -> 0 <= t < Z.max 0 total_requests.
Proof.
  intros Hr Ht. destruct (sys_reachable_inv s Hr) as ((Hts & Hg & _) & _).
  assert (Hs : t ∈ seqZ 0 (gen_i s)) by (rewrite <- Hts; apply elem_of_app; by left).
  apply elem_of_seqZ in Hs. lia.
Qed.

Lemma sys_run_reachable_from (s s' : sys) (evs : list sys_event) :
  sys_run s evs = Some s' -> rtc sys_steps s s'.
Proof.
  revert s. induction evs as [|ev evs IH]; intros s H; cbn in H; [by injection H as <-|].
  destruct (sys_step s ev) as [s1|] eqn:E; [|discriminate]. cbn in H.
  eapply rtc_l; [by exists ev | by apply IH].
Qed.

(** At the end no worker is inside [run_request] and the queue is empty. *)
Lemma final_quiescent (s : sys) :
  sys_inv s -> sys_final s = true ->
  taken s = seqZ 0 (Z.max 0 total_requests) /\ forall w t es, workers s !! w <> Some (WBusy t es).
Proof.
  intros ((Ht & Hg & Ha) & (Hlen & _ & _ & _ & Hexit & Hstop) & _) Hf.
  unfold sys_final in Hf. apply andb_prop in Hf as [Hf _]. apply andb_prop in Hf as [Hs _].
  pose proof (Hstop Hs) as Hall.
  assert (workers s !! 0%nat = Some WExited) as H0.
  { destruct (workers s) as [|x ws] eqn:E; [by cbn in Hlen|]. apply Forall_cons in Hall as [-> _]. done. }
  destruct (Hexit 0%nat H0) as [Hag Hq]. specialize (Ha Hag).
  rewrite Hq, app_nil_r in Ht. split.
  - rewrite Ht. f_equal. lia.
  - intros w t es Hw. pose proof (Forall_lookup_1 _ _ _ _ Hall Hw). discriminate.
Qed.

(** At the end the generator has pushed exactly [0 .. total_requests - 1]. *)
Lemma final_gen_i (s : sys) :
  sys_inv s -> sys_final s = true -> gen_i s = Z.max 0 total_requests.
Proof.
  intros Hinv Hf. destruct (final_quiescent s Hinv Hf) as [Htk _].
  destruct Hinv as ((Ht & Hg & _) & _).
  apply (f_equal List.length) in Ht. rewrite length_app, Htk, !length_seqZ in Ht. lia.
Qed.

(** Once no worker is busy, a count over the executed blocks is the sum,
    id by id, of the count over that id's blocks. *)
Lemma count_by_id (f : ed_effect -> nat) (s : sys) :
  sys_inv s -> (forall w t es, workers s !! w <> Some (WBusy t es)) ->
  sum_list_with f (snd <$> applied s) = sum_list_with (fun t => sum_list_with f (effects_of t)) (taken s).
Proof.
  intros ((Ht & _) & (_ & _ & Hidle & Hkeys & _) & _) Hnb.
  assert (NoDup (taken s)) as Hnd.
  { pose proof (NoDup_seqZ 0 (gen_i s)) as H. rewrite <- Ht in H. by apply NoDup_app in H as [? _]. }
  rewrite (sum_list_with_by_key f (applied s) (taken s) Hnd Hkeys).
  apply sum_list_with_ext. intros t Hin. fold (applied_for t (applied s)). by rewrite Hidle.
Qed.

Lemma dispatch_step_queue (sh sh' : ed_shared) (line : string) :
  dispatch_step sh = DWrite line sh' ->
  List.length (local_queue sh) = S (List.length (local_queue sh')).
Proof. unfold dispatch_step. repeat case_match; intros; simplify_eq/=. done. Qed.

(** Every step lowers the measure. *)
Lemma sys_measure_step (s s' : sys) (ev : sys_event) :
  sys_step s ev = Some s' -> (sys_measure s' < sys_measure s)%nat.
Proof.
  intros Hstep. destruct ev; cbn in Hstep; step_cases Hstep; unfold sys_measure;
    cbn [gen_i all_generated task_queue workers sys_sh disp_exited py_in py_done stopped
         upd_gen upd_take upd_worker upd_sh upd_applied upd_disp upd_helper upd_stopped
         set_stop local_queue];
    repeat match goal with
    | H : ?b = false |- context [if ?b then _ else _] => rewrite H
    | H : ?b = true |- context [if ?b then _ else _] => rewrite H
    end.
  - erewrite (quiet_queue _ _ _ (gen_quiet _)) by eassumption.
    rewrite length_app. cbn [List.length]. lia.
  - lia.
  - pose proof (sum_list_with_insert worker_weight _ w _ (WBusy z (effects_of z)) H) as Hs.
    pose proof (effects_short z). rewrite H1. cbn [worker_weight List.length] in *. lia.
  - pose proof (sum_list_with_insert worker_weight _ w _ (WBusy token l) H) as Hs.
    pose proof (apply_effect_queue _ _ _ H2) as Hq. rewrite Hq, length_app.
    cbn [worker_weight List.length] in *. destruct e; cbn [List.length]; lia.
  - pose proof (sum_list_with_insert worker_weight _ w _ WIdle H) as Hs.
    cbn [worker_weight List.length] in *. lia.
  - pose proof (sum_list_with_insert worker_weight _ w _ WExited H) as Hs.
    cbn [worker_weight] in *. lia.
  - pose proof (dispatch_step_queue _ _ _ H0). rewrite length_app. cbn [List.length]. lia.
  - rewrite app_nil_r. lia.
  - pose proof (lookup_lt_Some _ _ _ H). erewrite (quiet_queue _ _ _ (record_quiet _ _ _)) by eassumption.
    lia.
  - lia.
Qed.


Lemma sys_run_measure (s s' : sys) (evs : list sys_event) :
  sys_run s evs = Some s' -> (List.length evs + sys_measure s' <= sys_measure s)%nat.
Proof.
  revert s. induction evs as [|ev evs IH]; intros s H; cbn in H; [injection H as <-; cbn; lia|].
  destruct (sys_step s ev) as [s1|] eqn:E; [|discriminate]. cbn in H.
  pose proof (sys_measure_step s s1 ev E). specialize (IH s1 H). cbn [List.length]. lia.
Qed.

Lemma sys_measure_init : sys_measure sys_init = (21 * Z.to_nat total_requests + 35)%nat.
Proof.
  unfold sys_measure. cbn [sys_init gen_i all_generated task_queue workers sys_sh disp_exited
    py_in py_done stopped ed_shared0 local_queue List.length].
  rewrite Z.sub_0_r. change (sum_list_with worker_weight (replicate thread_pool_size WIdle)) with 32%nat.
  lia.
Qed.

(** ** The process of any variant *)

(** When the process ends, the workers have popped every id exactly
    once, in order. *)
Lemma sys_ids_taken (s : sys) :
  sys_reachable s -> sys_final s = true -> taken s = seqZ 0 (Z.max 0 total_requests).
Proof. intros Hr Hf. apply (final_quiescent s (sys_reachable_inv s Hr) Hf). Qed.

Lemma sys_run_bounded (evs : list sys_event) (s : sys) :
  sys_run sys_init evs = Some s -> (List.length evs <= 21 * Z.to_nat total_requests + 35)%nat.
Proof. intros H. pose proof (sys_run_measure _ _ _ H). rewrite sys_measure_init in *. lia. Qed.

(** When the process ends, each counter is the sum over the ids of what
    the id's [run_request] blocks add to it. *)
Lemma sys_final_counts (s : sys) :
  sys_reachable s -> sys_final s = true ->
  sent_to_ec (ed_stats_of (sys_sh s)) =
    Z.of_nat (sum_list_with (fun t => sum_list_with is_sent (effects_of t)) (seqZ 0 (Z.max 0 total_requests))) /\
  ran_on_ed (ed_stats_of (sys_sh s)) =
    Z.of_nat (sum_list_with (fun t => sum_list_with is_fallback (effects_of t)) (seqZ 0 (Z.max 0 total_requests))) /\
  completed_tasks (ed_stats_of (sys_sh s)) =
    ran_on_ed (ed_stats_of (sys_sh s)) + sent_to_ec (ed_stats_of (sys_sh s)).
Proof.
  intros Hr Hf. pose proof (sys_reachable_inv s Hr) as Hinv.
  destruct (final_quiescent s Hinv Hf) as [Ht Hnb].
  pose proof Hinv as (_ & _ & (Hst & Hs & Hrn)).
  rewrite <- Ht, <- !(count_by_id _ s Hinv Hnb). split_and!; [done|done|apply Hst].
Qed.

(** The same, for a variant whose [run_request] counts an id as sent
    when [sentp] holds of it and as run locally when [ranp] holds. *)
Lemma sys_final_by_outcome (sentp ranp : Z -> bool) (s : sys) :
  (forall t, sum_list_with is_sent (effects_of t) = if sentp t then 1%nat else 0%nat) ->
  (forall t, sum_list_with is_fallback (effects_of t) = if ranp t then 1%nat else 0%nat) ->
  sys_reachable s -> sys_final s = true ->
  sent_to_ec (ed_stats_of (sys_sh s)) =
    Z.of_nat (List.length (filter (fun t => sentp t = true) (seqZ 0 (Z.max 0 total_requests)))) /\
  ran_on_ed (ed_stats_of (sys_sh s)) =
    Z.of_nat (List.length (filter (fun t => ranp t = true) (seqZ 0 (Z.max 0 total_requests)))) /\
  completed_tasks (ed_stats_of (sys_sh s)) =
    ran_on_ed (ed_stats_of (sys_sh s)) + sent_to_ec (ed_stats_of (sys_sh s)).
Proof.
  intros Hs Hr Hreach Hf. destruct (sys_final_counts s Hreach Hf) as (Es & Er & Ec).
  split_and!; [rewrite Es | rewrite Er | exact Ec].
  - by rewrite (sum_list_with_ext _ (fun t => if sentp t then 1%nat else 0%nat)), sum_list_with_indicator
      by (intros t _; auto).
  - by rewrite (sum_list_with_ext _ (fun t => if ranp t then 1%nat else 0%nat)), sum_list_with_indicator
      by (intros t _; auto).
Qed.

End Driver.

(** ** The time-driven generator *)

Section Arrivals.
Variable stop : Z -> bool.
Variable N : Z.
Hypothesis stop_at_N : stop N = true.
Hypothesis run_before_N : forall j, 0 <= j < N -> stop j = false.

(** With enough checks, the loop breaks at [N], having pushed
    [0 .. N - 1]. *)
Lemma gen_pushes_first_stop (fuel : nat) (k : Z) :
  0 <= k <= N -> (Z.to_nat (N - k) < fuel)%nat ->
  gen_pushes fuel stop k = seqZ k (N - k) /\ first_stop fuel stop k = N.
Proof.
  revert k. induction fuel as [|f IH]; intros k Hk Hf; [lia|]. cbn.
  destruct (decide (k = N)) as [->|Hne].
  - rewrite stop_at_N, Z.sub_diag. by rewrite seqZ_nil by lia.
  - rewrite run_before_N by lia. destruct (IH (k + 1)) as [Hp Hs]; [lia|lia|].
    rewrite Hp, Hs. split; [|done]. rewrite (seqZ_cons k (N - k)) by lia.
    do 2 f_equal. lia.
Qed.

End Arrivals.

(** A variant with a time-driven generator: when the clock check first
    fails at [N], the workers have popped the ids pushed before, each
    once and in order, and the counters count them by outcome. *)
Lemma timed_final_by_outcome (stop : Z -> bool) (N : Z) (effects_of : Z -> list ed_effect)
    (record_effects_of : Z -> string -> Z -> list ed_effect) (gen_effects_of : Z -> list ed_effect)
    (sentp ranp : Z -> bool) (s : sys) :
  (forall t, (List.length (effects_of t) <= 4)%nat) ->
  (forall t i d, forallb quiet_effect (record_effects_of t i d) = true) ->
  (forall t, forallb quiet_effect (gen_effects_of t) = true) ->
  (forall t, sum_list_with is_sent (effects_of t) = if sentp t then 1%nat else 0%nat) ->
  (forall t, sum_list_with is_fallback (effects_of t) = if ranp t then 1%nat else 0%nat) ->
  0 <= N -> stop N = true -> (forall j, 0 <= j < N -> stop j = false) ->
  sys_reachable (first_stop (S (Z.to_nat N)) stop 0) effects_of record_effects_of gen_effects_of s ->
  sys_final s = true ->
  taken s = gen_pushes (S (Z.to_nat N)) stop 0 /\
  sent_to_ec (ed_stats_of (sys_sh s)) = Z.of_nat (List.length (filter (fun t => sentp t = true) (taken s))) /\
  ran_on_ed (ed_stats_of (sys_sh s)) = Z.of_nat (List.length (filter (fun t => ranp t = true) (taken s))) /\
  completed_tasks (ed_stats_of (sys_sh s)) = ran_on_ed (ed_stats_of (sys_sh s)) + sent_to_ec (ed_stats_of (sys_sh s)).
Proof.
  intros Hshort Hquiet Hgen Hs Hr HN Hstop Hbefore Hreach Hf.
  destruct (gen_pushes_first_stop _ N Hstop Hbefore (S (Z.to_nat N)) 0) as [Hp Hfs]; [lia|lia|].
  rewrite Hfs in Hreach. rewrite Hp, Z.sub_0_r, (sys_ids_taken N _ _ _ Hshort Hquiet Hgen s Hreach Hf).
  split; [f_equal; lia|]. by apply (sys_final_by_outcome N _ _ _ Hshort Hquiet Hgen).
Qed.

(** ** The sequential-fallback variant *)

Section Sequential.
Variable total_requests : Z.
Variable env : Z -> req_env.

Local Abbreviation step_of := (sys_step total_requests (seq_effects env) record_effects no_gen_effects).

Lemma seq_effects_short (t : Z) : (List.length (seq_effects env t) <= 4)%nat.
Proof. apply run_request_effects_length. Qed.

Lemma record_effects_quiet (t : Z) (i : string) (d : Z) : forallb quiet_effect (record_effects t i d) = true.
Proof. done. Qed.

Lemma no_gen_quiet (t : Z) : forallb quiet_effect (no_gen_effects t) = true.
Proof. done. Qed.

(** The helper reads back the id of a task line. *)
Lemma helper_token_task_line (t : Z) : int32 t -> helper_token (task_info t +s+ newline) = Some t.
Proof.
  intros Ht. unfold helper_token, stoi, task_info. rewrite !string_app_assoc.
  rewrite strtol_core_to_string by (auto with oms || reflexivity). by rewrite Ht.
Qed.

(** ** Theorems *)

(** C17: the helper's input is well formed: in every reachable state of
    the process, each line the dispatcher has written to the Python
    helper is [<id>:<IMAGE>] and a newline, for an id a worker has taken,
    and the helper reads that id back from it. *)
Theorem helper_lines_well_formed (s : sys) :
  total_requests <= INT_MAX ->
  sys_reachable total_requests (seq_effects env) record_effects no_gen_effects s ->
  Forall (fun line => exists t, t ∈ taken s /\ line = task_info t +s+ newline /\ helper_token line = Some t) (py_in s).
Proof.
  intros HN Hr. apply Forall_forall. intros line Hl.
  destruct (sys_py_in_runs total_requests (seq_effects env) record_effects no_gen_effects
              seq_effects_short record_effects_quiet no_gen_quiet s line Hr Hl) as (t & x & Ht & Hx & ->).
  apply run_request_pushes in Hx as ->. exists t. split_and!; [done|done|].
  apply helper_token_task_line. pose proof (sys_taken_range _ _ _ _ seq_effects_short record_effects_quiet no_gen_quiet s t Hr Ht).
  apply in_int_iff. unfold INT_MIN. lia.
Qed.

(** C14: when the process ends, the workers have popped every id
    [0 .. total_requests - 1] exactly once, in increasing order, whatever
    the interleaving of the generator and the 32 workers. *)
Theorem ids_taken_exactly_once (s : sys) :
  sys_reachable total_requests (seq_effects env) record_effects no_gen_effects s -> sys_final s = true ->
  taken s = seqZ 0 (Z.max 0 total_requests).
Proof. apply sys_ids_taken; first [exact seq_effects_short | exact record_effects_quiet | exact no_gen_quiet]. Qed.

(** C16: the ED process terminates: every run from the initial state,
    whatever the interleaving, has at most [21 * total_requests + 35]
    steps (a step being one locked block or one loop turn of a thread). *)
Theorem every_run_is_bounded (evs : list sys_event) (s : sys) :
  sys_run total_requests (seq_effects env) record_effects no_gen_effects sys_init evs = Some s ->
  (List.length evs <= 21 * Z.to_nat total_requests + 35)%nat.
Proof. apply sys_run_bounded; first [exact seq_effects_short | exact record_effects_quiet | exact no_gen_quiet]. Qed.

(** C15: whatever the interleaving, the final [sent_to_ec] is the number
    of ids whose offload completed (the spec's [RemoteCompleted]), the
    final [ran_on_ed] the number of ids the EC answered [DROP], and
    [completed_tasks] their sum. *)
Theorem final_counters_by_outcome (s : sys) :
  sys_reachable total_requests (seq_effects env) record_effects no_gen_effects s -> sys_final s = true ->
  sent_to_ec (ed_stats_of (sys_sh s)) =
    Z.of_nat (List.length (filter (fun t => offloaded (env t) = true) (seqZ 0 (Z.max 0 total_requests)))) /\
  ran_on_ed (ed_stats_of (sys_sh s)) =
    Z.of_nat (List.length (filter (fun t => refused (env t) = true) (seqZ 0 (Z.max 0 total_requests)))) /\
  completed_tasks (ed_stats_of (sys_sh s)) =
    ran_on_ed (ed_stats_of (sys_sh s)) + sent_to_ec (ed_stats_of (sys_sh s)).
Proof.
  apply sys_final_by_outcome; try first [exact seq_effects_short | exact record_effects_quiet | exact no_gen_quiet];
    intros t; apply run_request_counts.
Qed.

End Sequential.

Local Abbreviation demo_final := (default sys_init (sys_run 2 (seq_effects demo_env) record_effects no_gen_effects sys_init demo_events)).

Lemma demo_final_reachable : sys_reachable 2 (seq_effects demo_env) record_effects no_gen_effects demo_final.
Proof. apply (sys_run_reachable_from 2 (seq_effects demo_env) record_effects no_gen_effects sys_init _ demo_events). vm_compute. reflexivity. Qed.

Lemma ids_taken_exactly_once_witness :
  sys_reachable 2 (seq_effects demo_env) record_effects no_gen_effects demo_final /\ sys_final demo_final = true /\
  taken demo_final = seqZ 0 (Z.max 0 2).
Proof.
  split; [apply demo_final_reachable|]. split; [vm_compute; reflexivity|].
  apply (ids_taken_exactly_once 2 demo_env); [apply demo_final_reachable | vm_compute; reflexivity].
Defined.

Lemma final_counters_by_outcome_witness :
  sys_reachable 2 (seq_effects demo_env) record_effects no_gen_effects demo_final /\ sys_final demo_final = true /\
  sent_to_ec (ed_stats_of (sys_sh demo_final)) =
    Z.of_nat (List.length (filter (fun t => offloaded (demo_env t) = true) (seqZ 0 (Z.max 0 2)))) /\
  ran_on_ed (ed_stats_of (sys_sh demo_final)) =
    Z.of_nat (List.length (filter (fun t => refused (demo_env t) = true) (seqZ 0 (Z.max 0 2)))) /\
  completed_tasks (ed_stats_of (sys_sh demo_final)) =
    ran_on_ed (ed_stats_of (sys_sh demo_final)) + sent_to_ec (ed_stats_of (sys_sh demo_final)).
Proof.
  split; [apply demo_final_reachable|]. split; [vm_compute; reflexivity|].
  apply (final_counters_by_outcome 2 demo_env); [apply demo_final_reachable | vm_compute; reflexivity].
Defined.

Lemma every_run_is_bounded_witness :
  sys_run 2 (seq_effects demo_env) record_effects no_gen_effects sys_init demo_events = Some demo_final /\
  (List.length demo_events <= 21 * Z.to_nat 2 + 35)%nat.
Proof.
  assert (sys_run 2 (seq_effects demo_env) record_effects no_gen_effects sys_init demo_events = Some demo_final) as H by (vm_compute; reflexivity).
  split; [exact H | exact (every_run_is_bounded 2 demo_env demo_events demo_final H)].
Defined.

Lemma helper_lines_well_formed_witness :
  2 <= INT_MAX /\ sys_reachable 2 (seq_effects demo_env) record_effects no_gen_effects demo_final /\
  List.length (py_in demo_final) = 2%nat /\
  Forall (fun line => exists t, t ∈ taken demo_final /\ line = task_info t +s+ newline /\ helper_token line = Some t)
    (py_in demo_final).
Proof.
  assert (H : 2 <= INT_MAX) by (unfold INT_MAX; lia).
  split; [exact H|]. split; [apply demo_final_reachable|]. split; [vm_compute; reflexivity|].
  exact (helper_lines_well_formed 2 demo_env demo_final H demo_final_reachable).
Defined.
