(* ===== verification/Stats.v ===== *)
(** * Stats: the final statistics of the ED

    Source: src/Experiment_May15/ed_oms_parallel_rn50_fallback_sequencial.cpp,
    [main], lines 279-310.  Under [stats_mutex] the code prints the three
    counters, the two percentages [100.0 * part / completed_tasks] (C++
    doubles, [Double]), and the average latency: [total_latency_ms] (the
    EC round trips) plus, for every entry [(token, end_time)] of
    [local_task_end_ms] whose [token] has a start time, the [long]
    [end_time - local_task_start_ms[token]], divided by [completed_tasks].

    The [std::unordered_map] is iterated in an unspecified order; the model
    iterates the entries of a [gmap] in any order given as a list, and a
    signed [long] overflow (undefined behaviour) yields [None].  The
    theorems show the sum does not depend on the iteration order and
    compare the average with the spec's reconciled average (spec 4.4). *)

From Stdlib Require Import SpecFloat.
From S2P Require Import Prelude CppString Double Wire Client LocalExec Driver.

Open Scope oms_scope.

(** ** The code *)

(** [(100.0 * part) / whole] when [whole != 0], else [0.0] (lines 287-288). *)
Definition percent (part whole : Z) : spec_float :=
  if whole =? 0 then S754_zero false
  else ddiv (dmul (double_of_int 100) (double_of_int part)) (double_of_int whole).

(** The loop of lines 298-303 over the entries [entries] of
    [local_task_end_ms], from the accumulator [acc]. *)
Fixpoint reconcile (start : gmap Z Z) (entries : list (Z * Z)) (acc : Z) : option Z :=
  match entries with
  | [] => Some acc
  | (token, end_time) :: rest =>
      match start !! token with
      | None => reconcile start rest acc
      | Some st =>
          let latency := end_time - st in
          if in_long latency && in_long (acc + latency) then reconcile start rest (acc + latency)
          else None
      end
  end.

(** [corrected_total_latency_ms], iterating the end-time map in the order
    [order] (a permutation of its entries). *)
Definition corrected_total (sh : ed_shared) (order : list (Z * Z)) : option Z :=
  reconcile (local_task_start_ms sh) order (total_latency_ms (ed_stats_of sh)).

(** [avg_latency = total_count ? corrected / total_count : 0] (line 306);
    [long / int] truncates toward zero. *)
Definition avg_latency (sh : ed_shared) (order : list (Z * Z)) : option Z :=
  c ← corrected_total sh order;
  let n := completed_tasks (ed_stats_of sh) in
  Some (if n =? 0 then 0 else Z.quot c n).

(** What [main] prints under [stats_mutex] (lines 279-310): the three
    counters, the two percentages and the average latency; [None] when a
    [long] sum overflows. *)
Record ed_report := {
  rep_completed : Z;
  rep_sent : Z;
  rep_ran : Z;
  rep_pct_ed : spec_float;
  rep_pct_ec : spec_float;
  rep_avg : Z
}.

Definition final_report (sh : ed_shared) (order : list (Z * Z)) : option ed_report :=
  avg ← avg_latency sh order;
  let st := ed_stats_of sh in
  Some {| rep_completed := completed_tasks st; rep_sent := sent_to_ec st; rep_ran := ran_on_ed st;
          rep_pct_ed := percent (ran_on_ed st) (completed_tasks st);
          rep_pct_ec := percent (sent_to_ec st) (completed_tasks st);
          rep_avg := avg |}.

(** The time-driven variants print, before the same lines, the number of
    ids generated and the run time. *)
Record timed_report := {
  rep_generated : Z;
  rep_time_ms : Z;
  rep_stats : ed_report
}.

(** ** The spec's reconciled average (spec 4.4) *)

Definition zsum (l : list Z) : Z := foldr Z.add 0 l.

(** The local latencies of the ids with both time stamps. *)
Definition matched_latencies (start : gmap Z Z) (entries : list (Z * Z)) : list Z :=
  omap (fun '(token, end_time) => (fun st => end_time - st) <$> start !! token) entries.

(** Remote latencies and complete local pairs, over the number of both. *)
Definition spec_avg_latency (sh : ed_shared) : Z :=
  let local := matched_latencies (local_task_start_ms sh) (map_to_list (local_task_end_ms sh)) in
  let n := sent_to_ec (ed_stats_of sh) + Z.of_nat (List.length local) in
  if n =? 0 then 0 else Z.quot (total_latency_ms (ed_stats_of sh) + zsum local) n.

(** ** A run where the average is skewed

    Id 0 is offloaded and completes on the EC in 100 ms; the connection of
    id 1 fails, it runs locally and the helper reports it 900 ms after its
    start. *)
Definition ec_ok_env : req_env :=
  {| socket_ok := true; connect_ok := true; reply := "GRANT:0"; image_ok := true;
     done_reply := "DONE"; start_ns := 0; end_ns := 100000000; enqueue_ns := 0 |}.

Definition skew_env (t : Z) : req_env := if t =? 0 then ec_ok_env else refused_env.

Definition skew_events : list sys_event :=
  [Gen; Gen; GenEnd; Take 0; Block 0; Block 0; Finish 0; Take 0; Block 0; Block 0; Finish 0]
  ++ (Exit <$> seq 0 thread_pool_size) ++ [Stop; Dispatch; Dispatch; HelperDone "900" 905].

(** ** Lemmas *)

#[export] Instance zsum_Permutation : Proper ((≡ₚ) ==> eq) zsum.
Proof. intros l1 l2 H. unfold zsum. induction H; cbn in *; lia. Qed.

Lemma zsum_abs_nonneg (l : list Z) : 0 <= zsum (Z.abs <$> l).
Proof. unfold zsum. induction l; cbn in *; lia. Qed.

Lemma matched_cons (start : gmap Z Z) (token end_time : Z) (rest : list (Z * Z)) :
  matched_latencies start ((token, end_time) :: rest) =
  match start !! token with
  | Some st => (end_time - st) :: matched_latencies start rest
  | None => matched_latencies start rest
  end.
Proof. unfold matched_latencies. cbn. by destruct (start !! token). Qed.

Lemma zsum_cons (x : Z) (l : list Z) : zsum (x :: l) = x + zsum l.
Proof. done. Qed.

Lemma reconcile_sum (start : gmap Z Z) (entries : list (Z * Z)) (acc : Z) :
  Z.abs acc + zsum (Z.abs <$> matched_latencies start entries) <= LONG_MAX ->
  reconcile start entries acc = Some (acc + zsum (matched_latencies start entries)).
Proof.
  revert acc. induction entries as [|[token end_time] rest IH]; intros acc Hb.
  - cbn. f_equal. lia.
  - rewrite matched_cons in *. cbn [reconcile].
    destruct (start !! token) as [st|]; [|by apply IH].
    rewrite fmap_cons, !zsum_cons in *.
    pose proof (zsum_abs_nonneg (matched_latencies start rest)).
    rewrite (proj2 (in_long_iff _)), (proj2 (in_long_iff (acc + _))) by (unfold LONG_MIN, LONG_MAX in *; lia).
    cbn. rewrite IH by lia. f_equal. lia.
Qed.

Lemma matched_Permutation (start : gmap Z Z) (l1 l2 : list (Z * Z)) :
  l1 ≡ₚ l2 -> matched_latencies start l1 ≡ₚ matched_latencies start l2.
Proof. intros H. unfold matched_latencies. by rewrite H. Qed.

(** Without overflow, [main] prints its report, with the counters of
    the shared state and the reconciled total over [completed_tasks]. *)
Lemma final_report_some (sh : ed_shared) (order : list (Z * Z)) :
  order ≡ₚ map_to_list (local_task_end_ms sh) ->
  Z.abs (total_latency_ms (ed_stats_of sh)) +
    zsum (Z.abs <$> matched_latencies (local_task_start_ms sh) (map_to_list (local_task_end_ms sh))) <= LONG_MAX ->
  exists r, final_report sh order = Some r /\
    rep_completed r = completed_tasks (ed_stats_of sh) /\ rep_sent r = sent_to_ec (ed_stats_of sh) /\
    rep_ran r = ran_on_ed (ed_stats_of sh) /\
    rep_avg r = (let n := completed_tasks (ed_stats_of sh) in
                 if n =? 0 then 0
                 else Z.quot (total_latency_ms (ed_stats_of sh) +
                              zsum (matched_latencies (local_task_start_ms sh) (map_to_list (local_task_end_ms sh)))) n).
Proof.
  intros Hperm Hb. pose proof (matched_Permutation (local_task_start_ms sh) _ _ Hperm) as Hm.
  unfold final_report, avg_latency, corrected_total. rewrite reconcile_sum by (by rewrite Hm).
  assert (zsum (matched_latencies (local_task_start_ms sh) order) =
          zsum (matched_latencies (local_task_start_ms sh) (map_to_list (local_task_end_ms sh)))) as Hz
    by (by rewrite Hm).
  cbn -[zsum]. rewrite Hz. by eexists.
Qed.

(** ** Theorems *)

(** C18: whatever order [std::unordered_map] iterates [local_task_end_ms]
    in, and provided no [long] overflows, [corrected_total_latency_ms] is
    [total_latency_ms] plus the local latency [end - start] of every id
    that has both time stamps (ids without a start are skipped). *)
Theorem corrected_total_any_order (sh : ed_shared) (order : list (Z * Z)) :
  order ≡ₚ map_to_list (local_task_end_ms sh) ->
  Z.abs (total_latency_ms (ed_stats_of sh)) +
    zsum (Z.abs <$> matched_latencies (local_task_start_ms sh) (map_to_list (local_task_end_ms sh)))
    <= LONG_MAX ->
  corrected_total sh order =
    Some (total_latency_ms (ed_stats_of sh) +
          zsum (matched_latencies (local_task_start_ms sh) (map_to_list (local_task_end_ms sh)))).
Proof.
  intros Hperm Hb. pose proof (matched_Permutation (local_task_start_ms sh) _ _ Hperm) as Hm.
  unfold corrected_total. rewrite reconcile_sum; [by rewrite Hm|]. by rewrite Hm.
Qed.

Local Abbreviation skew_final := (default sys_init (sys_run 2 (seq_effects skew_env) record_effects no_gen_effects sys_init skew_events)).

Lemma corrected_total_any_order_witness :
  reverse (map_to_list (local_task_end_ms (sys_sh skew_final))) ≡ₚ
    map_to_list (local_task_end_ms (sys_sh skew_final)) /\
  Z.abs (total_latency_ms (ed_stats_of (sys_sh skew_final))) +
    zsum (Z.abs <$> matched_latencies (local_task_start_ms (sys_sh skew_final))
                      (map_to_list (local_task_end_ms (sys_sh skew_final)))) <= LONG_MAX /\
  corrected_total (sys_sh skew_final) (reverse (map_to_list (local_task_end_ms (sys_sh skew_final)))) =
    Some (total_latency_ms (ed_stats_of (sys_sh skew_final)) +
          zsum (matched_latencies (local_task_start_ms (sys_sh skew_final))
                  (map_to_list (local_task_end_ms (sys_sh skew_final))))).
Proof.
  assert (reverse (map_to_list (local_task_end_ms (sys_sh skew_final))) ≡ₚ
          map_to_list (local_task_end_ms (sys_sh skew_final))) as Hp by apply reverse_Permutation.
  assert (Z.abs (total_latency_ms (ed_stats_of (sys_sh skew_final))) +
    zsum (Z.abs <$> matched_latencies (local_task_start_ms (sys_sh skew_final))
                      (map_to_list (local_task_end_ms (sys_sh skew_final)))) <= LONG_MAX) as Hb
    by (vm_compute; discriminate).
  split; [exact Hp|]. split; [exact Hb|]. exact (corrected_total_any_order _ _ Hp Hb).
Defined.

(** The printed average is not the spec's reconciled average: in a
    run where id 0 completes on the EC in 100 ms and id 1, whose
    connection failed, completes locally in 900 ms, the code divides the
    1000 ms of both by [completed_tasks = 1] and prints 1000 ms, where the
    spec's average over the two completed tasks is 500 ms. *)
Example avg_latency_skewed :
  sys_reachable 2 (seq_effects skew_env) record_effects no_gen_effects skew_final /\ sys_final skew_final = true /\
  avg_latency (sys_sh skew_final) (map_to_list (local_task_end_ms (sys_sh skew_final))) = Some 1000 /\
  spec_avg_latency (sys_sh skew_final) = 500.
Proof.
  split; [apply (sys_run_reachable_from 2 (seq_effects skew_env) record_effects no_gen_effects sys_init _ skew_events); vm_compute; reflexivity|].
  vm_compute. repeat split.
Qed.
