(* ===== verification/Framing.v ===== *)
(** * Framing: the length-prefixed image transfer of the COCO test tools

    Sources: src/coco_test_to_ec.cpp (the ED sender, [main], lines 28-85)
    and src/coco_test_from_ed.cpp (the EC receiver, [main], lines 15-79).

    For each image the sender opens one TCP connection and writes the
    image size as a 4-byte big-endian [uint32_t] ([htonl] of
    [static_cast<uint32_t>(size)]) followed by the image bytes.  The
    receiver reads the 4-byte size with one [recv], then loops on [recv]
    until it has the announced number of bytes or the peer closes, and
    counts the image as received when the byte counts match.

    A byte is a [Z] in [0, 256).  TCP is modelled by the list of segments
    in which the bytes of a connection arrive: one [recv(n)] returns the
    first [min n (length seg)] bytes of the current segment (and 0 bytes,
    the peer's close, when no segment is left).  The segmentation is chosen
    by the network, so the theorems quantify over it.  The directory
    listing of [get_image_files] is a list of (regular file?, name) pairs
    in [readdir] order; the receiver's [socket], [bind] and [listen]
    results are inputs of [from_ed_main].

    The theorems show the single-image round trip over any segmentation
    ([receive_image]) and its composition: the receiver's [main] counts
    every image the sender's [main] streams ([coco_transfer_counts]). *)

From S2P Require Import Prelude.

Open Scope Z_scope.

Definition byte := Z.

(** ** Sender *)

(** [htonl(x)] written to the socket: the four bytes of [x], most
    significant first. *)
Definition be32_encode (x : Z) : list byte :=
  [Z.land (Z.shiftr x 24) 255; Z.land (Z.shiftr x 16) 255; Z.land (Z.shiftr x 8) 255; Z.land x 255].

(** [static_cast<uint32_t>(size)] of a 64-bit [size_t]. *)
Definition to_uint32 (n : Z) : Z := n mod 2 ^ 32.

(** The bytes written on the connection of one image (lines 67-71). *)
Definition image_stream (contents : list byte) : list byte :=
  be32_encode (to_uint32 (Z.of_nat (List.length contents))) ++ contents.

(** The outcome of the sender's loop body for one image. *)
Inductive send_step :=
  | Skipped              (** [!file]: [continue] (lines 40-43) *)
  | Sent (bytes : list byte)
  | Aborted.             (** [socket] or [connect] failed: [return 1] *)

(** One image: [None] when the file cannot be opened; [net_ok] is the
    success of [socket] and [connect]. *)
Definition send_image (file : option (list byte)) (net_ok : bool) : send_step :=
  match file with
  | None => Skipped
  | Some contents => if net_ok then Sent (image_stream contents) else Aborted
  end.

(** The loop of lines 37-73 over the images: the streams sent, and whether
    the program stopped early. *)
Fixpoint send_all (images : list (option (list byte) * bool)) : list (list byte) * bool :=
  match images with
  | [] => ([], false)
  | (file, ok) :: rest =>
      match send_image file ok with
      | Skipped => send_all rest
      | Sent b => let '(out, ab) := send_all rest in (b :: out, ab)
      | Aborted => ([], true)
      end
  end.

(** [get_image_files(dir_path)] (lines 15-27): the entries [readdir]
    lists with [d_type == DT_REG], in its order, each prefixed by the
    directory; [listing] gives each entry's regular-file flag and name,
    [None] when [opendir] fails. *)
Definition get_image_files (dir_path : string) (listing : option (list (bool * string))) : list string :=
  match listing with
  | None => []
  | Some entries => (fun e => (dir_path ++ "/" ++ e.2)%string) <$> filter (fun e => e.1 = true) entries
  end.

Definition IMAGE_DIR : string := "COCO_test_1220".

(** [main] (lines 28-85): [None] is the [return 1] when the directory
    has no image; otherwise the images are sent in the directory's order.
    [file p] is the content of [p] ([None] when it cannot be opened) and
    [net_ok p] the success of [socket] and [connect] for it. *)
Definition to_ec_main (listing : option (list (bool * string))) (file : string -> option (list byte))
    (net_ok : string -> bool) : option (list (list byte) * bool) :=
  match get_image_files IMAGE_DIR listing with
  | [] => None
  | images => Some (send_all ((fun p => (file p, net_ok p)) <$> images))
  end.

(** ** Receiver *)

(** [ntohl] of four bytes. *)
Definition be32_decode (b : list byte) : Z :=
  match b with
  | [b0; b1; b2; b3] => b0 * 2 ^ 24 + b1 * 2 ^ 16 + b2 * 2 ^ 8 + b3
  | _ => 0
  end.

(** One [recv(sock, buf, n, 0)] on a connection whose remaining bytes
    arrive in the segments [segs]. *)
Definition recv_seg (n : nat) (segs : list (list byte)) : list byte * list (list byte) :=
  match segs with
  | [] => ([], [])
  | seg :: rest =>
      if (List.length seg <=? n)%nat then (seg, rest) else (take n seg, drop n seg :: rest)
  end.

(** Lines 60-65: [recv] until [img_size] bytes or a [recv] of 0 bytes;
    [fuel] bounds the number of [recv] calls. *)
Fixpoint recv_loop (fuel : nat) (remaining : nat) (segs : list (list byte)) (acc : list byte) :
    list byte :=
  match fuel with
  | O => acc
  | S f =>
      if (remaining =? 0)%nat then acc
      else
        let '(chunk, segs') := recv_seg remaining segs in
        match chunk with
        | [] => acc
        | _ => recv_loop f (remaining - List.length chunk) segs' (acc ++ chunk)
        end
  end.

Inductive recv_result :=
  | BadHeader                  (** [bytes_read != sizeof(net_size)] (lines 52-56) *)
  | Incomplete (got : list byte)
  | Received (image : list byte).

(** One accepted connection (lines 50-74); each [recv] consumes at least
    one byte, so one turn per byte of the segments is enough fuel. *)
Definition receive (segs : list (list byte)) : recv_result :=
  let '(hdr, segs1) := recv_seg 4 segs in
  if negb (List.length hdr =? 4)%nat then BadHeader
  else
    let img_size := be32_decode hdr in
    let data := recv_loop (S (List.length (List.concat segs1))) (Z.to_nat img_size) segs1 [] in
    if (List.length data =? Z.to_nat img_size)%nat then Received data else Incomplete data.

(** [received_images++] over the accepted connections ([None]: the [int]
    counter would overflow). *)
Fixpoint count_received (n : Z) (conns : list (list (list byte))) : option Z :=
  match conns with
  | [] => Some n
  | c :: rest =>
      match receive c with
      | Received _ => if n <? INT_MAX then count_received (n + 1) rest else None
      | _ => count_received n rest
      end
  end.

(** The receiver's [main] (lines 15-79): [inl 1] when the set-up fails,
    else the accept loop.  The [socket] check compares the descriptor with
    [0] (line 17), not with [-1]: a failed [socket] passes it and the
    failure shows at [bind] (line 31), which then fails on the invalid
    descriptor; [bind_ok] is the result of [bind] on [server_fd]. *)
Definition from_ed_main (server_fd : Z) (bind_ok listen_ok : bool) (conns : list (list (list byte)))
    : Z + option Z :=
  if server_fd =? 0 then inl 1
  else if negb bind_ok then inl 1
  else if negb listen_ok then inl 1
  else inr (count_received 0 conns).

(** TCP never delivers an empty segment. *)
Definition nonempty_segs (segs : list (list byte)) : Prop := Forall (fun seg => seg <> []) segs.

(** ** Lemmas *)

Lemma land_255_mod (x : Z) : Z.land x 255 = x mod 256.
Proof. change 255 with (Z.ones 8). by rewrite Z.land_ones by lia. Qed.

Lemma be32_roundtrip (x : Z) : 0 <= x < 2 ^ 32 -> be32_decode (be32_encode x) = x.
Proof.
  intros Hx. unfold be32_encode, be32_decode. rewrite !land_255_mod, !Z.shiftr_div_pow2 by lia.
  change (2 ^ 24) with 16777216 in *. change (2 ^ 16) with 65536 in *. change (2 ^ 8) with 256 in *.
  change (2 ^ 32) with 4294967296 in *. zdiv_lia.
Qed.

Lemma be32_encode_length (x : Z) : List.length (be32_encode x) = 4%nat.
Proof. done. Qed.

Lemma to_uint32_range (n : Z) : 0 <= to_uint32 n < 2 ^ 32.
Proof. unfold to_uint32. apply Z.mod_pos_bound. lia. Qed.

(** The receive loop collects the first [n] bytes of the segments. *)
Lemma recv_loop_take (fuel n : nat) (segs : list (list byte)) (acc : list byte) :
  nonempty_segs segs -> (List.length (List.concat segs) < fuel)%nat ->
  recv_loop fuel n segs acc = acc ++ take n (List.concat segs).
Proof.
  revert n segs acc. induction fuel as [|fuel IH]; intros n segs acc Hne Hf; [lia|].
  cbn [recv_loop]. destruct (Nat.eqb_spec n 0) as [->|Hn]; [by rewrite take_0, app_nil_r|].
  destruct segs as [|seg rest]; cbn [recv_seg List.concat]; [by rewrite ?take_nil, app_nil_r|].
  apply Forall_cons in Hne as [Hseg Hrest]. cbn [List.concat] in Hf. rewrite length_app in Hf.
  destruct (Nat.leb_spec (List.length seg) n) as [Hle|Hgt].
  - destruct seg as [|b seg']; [done|]. cbn [List.length] in Hf. rewrite IH by (done || lia).
    rewrite <- app_assoc, take_app, (take_ge (b :: seg') n) by lia. done.
  - destruct (take n seg) as [|b c] eqn:Ht.
    + apply (f_equal List.length) in Ht. rewrite length_take in Ht. cbn in Ht. lia.
    + rewrite <- Ht. rewrite IH.
      * rewrite length_take_le by lia. rewrite Nat.sub_diag, take_0, app_nil_r.
        by rewrite take_app_le by lia.
      * constructor; [|done]. intros Hd. apply (f_equal List.length) in Hd.
        rewrite length_drop in Hd. cbn in Hd. lia.
      * cbn [List.concat]. rewrite length_app, length_drop. lia.
Qed.

(** A [recv(4)] on a first segment of at least four bytes. *)
Lemma recv_seg_header (seg : list byte) (rest : list (list byte)) :
  (4 <= List.length seg)%nat -> nonempty_segs rest ->
  exists segs1, recv_seg 4 (seg :: rest) = (take 4 seg, segs1) /\ nonempty_segs segs1 /\
    List.concat segs1 = drop 4 seg ++ List.concat rest.
Proof.
  intros Hl Hrest. cbn [recv_seg]. destruct (Nat.leb_spec (List.length seg) 4) as [Hle|Hgt].
  - exists rest. rewrite take_ge, drop_ge by lia. done.
  - exists (drop 4 seg :: rest). split; [done|]. split; [|done].
    constructor; [|done]. intros Hd. apply (f_equal List.length) in Hd. rewrite length_drop in Hd.
    cbn in Hd. lia.
Qed.

Lemma to_uint32_le (n : Z) : 0 <= n -> to_uint32 n <= n.
Proof. intros Hn. unfold to_uint32. apply Z.mod_le; lia. Qed.

Lemma receive_stream (contents : list byte) (segs : list (list byte)) :
  nonempty_segs segs -> List.concat segs = image_stream contents ->
  (4 <= List.length (List.hd [] segs))%nat ->
  receive segs = Received (take (Z.to_nat (to_uint32 (Z.of_nat (List.length contents)))) contents).
Proof.
  intros Hne Hcat Hhd. destruct segs as [|seg rest]; [cbn in Hhd; lia|]. cbn in Hhd.
  apply Forall_cons in Hne as [Hseg Hrest]. cbn [List.concat] in Hcat. unfold image_stream in Hcat.
  set (x := to_uint32 (Z.of_nat (List.length contents))) in *.
  assert (take 4 seg = be32_encode x) as Hh.
  { rewrite <- (take_app_le seg (List.concat rest) 4), Hcat by lia. by rewrite take_app_length'. }
  assert (drop 4 seg ++ List.concat rest = contents) as Hc.
  { rewrite <- drop_app_le, Hcat by lia. by rewrite drop_app_length'. }
  destruct (recv_seg_header seg rest Hhd Hrest) as (segs1 & Hr & Hne1 & Hcat1).
  unfold receive. rewrite Hr, Hh, be32_encode_length. cbn [Nat.eqb negb].
  rewrite be32_roundtrip by apply to_uint32_range.
  rewrite recv_loop_take by (done || lia). rewrite app_nil_l, Hcat1, Hc.
  pose proof (to_uint32_le (Z.of_nat (List.length contents)) ltac:(lia)).
  pose proof (to_uint32_range (Z.of_nat (List.length contents))).
  rewrite length_take_le by lia. by rewrite Nat.eqb_refl.
Qed.

(** Every image that opens is sent, in order, when the network works. *)
Lemma send_all_opened (file : string -> option (list byte)) (ps : list string) :
  Forall (fun p => is_Some (file p)) ps ->
  send_all ((fun p => (file p, true)) <$> ps) = ((fun p => image_stream (default [] (file p))) <$> ps, false).
Proof.
  induction 1 as [|p ps [c Hc] _ IH]; [done|]. cbn [fmap list_fmap send_all]. rewrite Hc. cbn.
  by rewrite IH.
Qed.

(** Connections that each deliver an image stream are each counted. *)
Lemma count_received_streams (file : string -> option (list byte)) (n : Z) (conns : list (list (list byte)))
    (ps : list string) :
  Forall2 (fun segs p => nonempty_segs segs /\ List.concat segs = image_stream (default [] (file p)) /\
                         (4 <= List.length (List.hd [] segs))%nat) conns ps ->
  0 <= n -> n + Z.of_nat (List.length ps) <= INT_MAX ->
  count_received n conns = Some (n + Z.of_nat (List.length ps)).
Proof.
  intros H. revert n. induction H as [|segs p conns ps [Hn [Hc Hl]] _ IH]; intros n H0 Hb.
  - cbn. f_equal. lia.
  - cbn [count_received]. rewrite (receive_stream _ _ Hn Hc Hl).
    cbn [List.length] in Hb. rewrite (proj2 (Z.ltb_lt _ _)) by lia.
    rewrite IH by lia. f_equal. cbn [List.length]. lia.
Qed.

(** ** Theorems *)

(** C30: however TCP splits the stream of one image into segments, as
    long as the first segment carries the four size bytes, the receiver
    stores the first [size mod 2^32] bytes of the image and counts it as
    received: the whole image when it is smaller than 4 GiB, a silently
    truncated one otherwise (the [uint32_t] cast of line 68). *)
Theorem receive_image (contents : list byte) (segs : list (list byte)) :
  nonempty_segs segs -> List.concat segs = image_stream contents ->
  (4 <= List.length (List.hd [] segs))%nat ->
  receive segs = Received (take (Z.to_nat (to_uint32 (Z.of_nat (List.length contents)))) contents).
Proof. apply receive_stream. Qed.

Lemma receive_image_witness :
  nonempty_segs [[0; 0; 0; 5; 1; 2]; [3; 4; 5]] /\
  List.concat [[0; 0; 0; 5; 1; 2]; [3; 4; 5]] = image_stream [1; 2; 3; 4; 5] /\
  (4 <= List.length (List.hd [] [[0; 0; 0; 5; 1; 2]; [3; 4; 5]]))%nat /\
  receive [[0; 0; 0; 5; 1; 2]; [3; 4; 5]] =
    Received (take (Z.to_nat (to_uint32 (Z.of_nat (List.length [1; 2; 3; 4; 5])))) [1; 2; 3; 4; 5]).
Proof.
  assert (nonempty_segs [[0; 0; 0; 5; 1; 2]; [3; 4; 5]]) as Hn by (repeat constructor; discriminate).
  assert (List.concat [[0; 0; 0; 5; 1; 2]; [3; 4; 5]] = image_stream [1; 2; 3; 4; 5]) as Hc
    by reflexivity.
  assert (4 <= List.length (List.hd [] [[0; 0; 0; 5; 1; 2]; [3; 4; 5]]))%nat as Hl by (cbn; lia).
  split; [exact Hn|]. split; [exact Hc|]. split; [exact Hl|].
  exact (receive_image _ _ Hn Hc Hl).
Defined.

(** When TCP delivers the four size bytes in two segments, the
    single [recv(&net_size, 4)] returns fewer than four bytes and the
    receiver drops the connection as "Failed to read image size", although
    every byte of the image arrives. *)
Theorem split_header_rejected (contents : list byte) (segs : list (list byte)) :
  nonempty_segs segs -> List.concat segs = image_stream contents ->
  (List.length (List.hd [] segs) < 4)%nat -> receive segs = BadHeader.
Proof.
  intros Hne Hcat Hhd. destruct segs as [|seg rest]; [discriminate|]. cbn in Hhd.
  unfold receive. cbn [recv_seg]. rewrite (proj2 (Nat.leb_le _ _)) by lia.
  cbn [negb]. by rewrite (proj2 (Nat.eqb_neq _ _)) by lia.
Qed.

Lemma split_header_rejected_witness :
  nonempty_segs [[0; 0]; [0; 5; 1; 2; 3; 4; 5]] /\
  List.concat [[0; 0]; [0; 5; 1; 2; 3; 4; 5]] = image_stream [1; 2; 3; 4; 5] /\
  (List.length (List.hd [] [[0; 0]; [0; 5; 1; 2; 3; 4; 5]]) < 4)%nat /\
  receive [[0; 0]; [0; 5; 1; 2; 3; 4; 5]] = BadHeader.
Proof.
  assert (nonempty_segs [[0; 0]; [0; 5; 1; 2; 3; 4; 5]]) as Hn by (repeat constructor; discriminate).
  assert (List.concat [[0; 0]; [0; 5; 1; 2; 3; 4; 5]] = image_stream [1; 2; 3; 4; 5]) as Hc
    by reflexivity.
  assert (List.length (List.hd [] [[0; 0]; [0; 5; 1; 2; 3; 4; 5]]) < 4)%nat as Hl by (cbn; lia).
  split; [exact Hn|]. split; [exact Hc|]. split; [exact Hl|].
  exact (split_header_rejected _ _ Hn Hc Hl).
Defined.

(** C31: the two programs together: when the sender's directory has images,
    each opens and the network works, the sender writes one stream per
    image in directory order; a receiver whose set-up succeeded, getting
    each stream as its own connection with the four size bytes in the
    first segment, counts every one of them. *)
Theorem coco_transfer_counts (listing : option (list (bool * string))) (file : string -> option (list byte))
    (server_fd : Z) (conns : list (list (list byte))) :
  get_image_files IMAGE_DIR listing <> [] ->
  Forall (fun p => is_Some (file p)) (get_image_files IMAGE_DIR listing) ->
  Z.of_nat (List.length (get_image_files IMAGE_DIR listing)) <= INT_MAX ->
  server_fd <> 0 ->
  Forall2 (fun segs p => nonempty_segs segs /\ List.concat segs = image_stream (default [] (file p)) /\
                         (4 <= List.length (List.hd [] segs))%nat) conns (get_image_files IMAGE_DIR listing) ->
  to_ec_main listing file (fun _ => true) =
    Some ((fun p => image_stream (default [] (file p))) <$> get_image_files IMAGE_DIR listing, false) /\
  from_ed_main server_fd true true conns = inr (Some (Z.of_nat (List.length (get_image_files IMAGE_DIR listing)))).
Proof.
  intros Hne Hopen Hb Hfd Hconns. split.
  - unfold to_ec_main. destruct (get_image_files IMAGE_DIR listing) as [|p ps] eqn:E; [done|].
    by rewrite send_all_opened.
  - unfold from_ed_main. rewrite (proj2 (Z.eqb_neq _ _)) by done. cbn [negb].
    rewrite (count_received_streams file 0 conns _ Hconns) by lia. done.
Qed.

Definition sample_listing : option (list (bool * string)) := Some [(true, "a.jpg"); (false, "sub")].

Definition sample_file (p : string) : option (list byte) :=
  if String.eqb p "COCO_test_1220/a.jpg" then Some [1; 2; 3] else None.

Lemma coco_transfer_counts_witness :
  get_image_files IMAGE_DIR sample_listing <> [] /\
  Forall (fun p => is_Some (sample_file p)) (get_image_files IMAGE_DIR sample_listing) /\
  Z.of_nat (List.length (get_image_files IMAGE_DIR sample_listing)) <= INT_MAX /\
  Forall2 (fun segs p => nonempty_segs segs /\ List.concat segs = image_stream (default [] (sample_file p)) /\
                         (4 <= List.length (List.hd [] segs))%nat)
    [[[0; 0; 0; 3; 1]; [2; 3]]] (get_image_files IMAGE_DIR sample_listing) /\
  from_ed_main 3 true true [[[0; 0; 0; 3; 1]; [2; 3]]] =
    inr (Some (Z.of_nat (List.length (get_image_files IMAGE_DIR sample_listing)))).
Proof.
  assert (E : get_image_files IMAGE_DIR sample_listing = ["COCO_test_1220/a.jpg"]) by reflexivity.
  assert (H1 : get_image_files IMAGE_DIR sample_listing <> []) by (rewrite E; discriminate).
  assert (H2 : Forall (fun p => is_Some (sample_file p)) (get_image_files IMAGE_DIR sample_listing)).
  { rewrite E. apply Forall_singleton. eexists. reflexivity. }
  assert (H3 : Z.of_nat (List.length (get_image_files IMAGE_DIR sample_listing)) <= INT_MAX)
    by (rewrite E; unfold INT_MAX; cbn; lia).
  assert (H4 : Forall2 (fun segs p => nonempty_segs segs /\ List.concat segs = image_stream (default [] (sample_file p)) /\
                         (4 <= List.length (List.hd [] segs))%nat)
    [[[0; 0; 0; 3; 1]; [2; 3]]] (get_image_files IMAGE_DIR sample_listing)).
  { rewrite E. cbn. constructor; [|constructor]. split; [repeat constructor; discriminate|]. split; [reflexivity|cbn; lia]. }
  split; [exact H1|]. split; [exact H2|]. split; [exact H3|]. split; [exact H4|].
  exact (proj2 (coco_transfer_counts sample_listing sample_file 3 [[[0; 0; 0; 3; 1]; [2; 3]]]
                  H1 H2 H3 ltac:(discriminate) H4)).
Defined.
