(* ===== verification/Energy.v ===== *)
(** * Energy: the image transfer tools used for the energy measurements

    Sources (src/Experiment_May15/):
    - image_energy_latency_ED_QIDK.cpp: the ED client, [send_images]
      (mode SEND, lines 14-49) and [receive_images] (mode GET, 51-89);
    - image_energy_latency_EC.cpp: the EC server, [handle_client]
      (lines 14-74) and its accept loop [main] (76-92);
    - image_energy_latency_EC_get1kB.cpp: the EC variant whose GET answers
      one 1024-byte result (lines 50-72);
    - image_energy_latency_ED_get1kB.cpp: the ED variant that asks 1220
      times for that result, [receive_one_result] (53-98) and [main].

    The wire format is the same in both directions: a decimal count in a
    16-byte field, then for each file an 8-byte decimal name length, the
    name, a 16-byte decimal size and the bytes.  A field is written with
    [send(sock, s.c_str(), w, 0)]: the [w] bytes starting at the digits,
    i.e. the digits, the terminating NUL and then whatever the [std::string]
    object holds after it; the model takes those trailing bytes as an
    arbitrary [junk] string, so every theorem holds for all of them.

    TCP is modelled as in [Framing]: the receiver sees the bytes in the
    segments the network chose, and one [recv(n)] returns at most [n]
    bytes of the current segment.  Uncaught C++ exceptions are values of
    [cpp_exn]; the receiving functions run in a small error monad.  The
    1 kB EC's accept loop is [ec1k_main]; the QIDK ED's argument dispatch
    is [ed_main], which returns the command it runs and its exit status. *)

From S2P Require Import Prelude CppString Wire.

Open Scope oms_scope.

(** ** Errors *)

Inductive cpp_exn :=
  | StoiFailed (e : conv_error)   (** [std::stoi]: invalid_argument / out_of_range *)
  | SubstrOutOfRange              (** [std::string::substr] *)
  | LengthError.                  (** a negative size passed to a [size_t] constructor *)

Definition throws (A : Type) : Type := cpp_exn + A.

Definition ret {A} (x : A) : throws A := inr x.
Definition bind {A B} (r : throws A) (k : A -> throws B) : throws B :=
  match r with inl e => inl e | inr x => k x end.

Declare Scope throws_scope.
Notation "x <-? r ; k" := (bind r (fun x => k)) (at level 100, r at next level, right associativity)
  : throws_scope.
Open Scope throws_scope.

Definition stoi_exn (s : string) : throws Z :=
  match stoi s with inl e => inl (StoiFailed e) | inr z => inr z end.

Definition substr_exn (s : string) (pos : nat) (count : option nat) : throws string :=
  match substr s pos count with Some r => inr r | None => inl SubstrOutOfRange end.

(** ** Sending *)

(** [k] NUL bytes: what [std::string(k, 0)] and [std::vector<char>(k)]
    hold where nothing was received. *)
Fixpoint nuls (k : nat) : string :=
  match k with O => EmptyString | S k' => String NUL (nuls k') end.

(** [send(sock, s.c_str(), w, 0)]: [w] bytes from the digits on: the
    digits, their NUL, then the bytes [junk] that follow in memory (zeros
    past the end of [junk], so that every [w]-byte content is some [junk]). *)
Definition field (w : nat) (s junk : string) : string :=
  String.substring 0 w (s +s+ String NUL (junk +s+ nuls w)).

(** The sends for one file ([send_images], lines 34-43; [handle_client]'s
    GET branch, lines 64-70): name length, name, size, bytes. *)
Definition file_sends (junk8 junk16 : string) (fname data : string) : list string :=
  [field 8 (to_string (Z.of_nat (String.length fname))) junk8; fname;
   field 16 (to_string (Z.of_nat (String.length data))) junk16; data].

(** The files from the [i]-th on; [junk k] is what follows the digits of
    the [k]-th field sent. *)
Fixpoint files_body (junk : nat -> string) (i : nat) (files : list (string * string)) : list string :=
  match files with
  | [] => []
  | (fname, data) :: rest =>
      file_sends (junk (2 * i + 1)%nat) (junk (2 * i + 2)%nat) fname data ++ files_body junk (S i) rest
  end.

(** The count and the files, in order. *)
Definition files_sends (junk : nat -> string) (files : list (string * string)) : list string :=
  field 16 (to_string (Z.of_nat (List.length files))) (junk O) :: files_body junk O files.

(** [send_images] (lines 14-49): the init message, then the files. *)
Definition send_images_sends (junk : nat -> string) (remote_dir : string)
    (files : list (string * string)) : list string :=
  ("SEND " +s+ remote_dir) :: files_sends junk files.

Definition is_jpg (name : string) : bool :=
  (4 <? String.length name)%nat &&
  String.eqb (String.substring (String.length name - 4) 4 name) ".jpg".

(** [fs::path(name).extension() == ".jpg"] on a file name: the name ends
    with [.jpg] after at least one other character (a leading dot starts
    no extension). *)
Definition jpg_files (entries : list (string * string)) : list (string * string) :=
  filter (fun e => is_jpg e.1 = true) entries.

(** ** Receiving *)

(** An uninitialised [char buf[cap]] holding [stale] (zeros past its end). *)
Definition uninit (cap : nat) (stale : string) : string :=
  String.substring 0 cap (stale +s+ nuls cap).

(** One [recv(sock, p, n, 0)]: at most [n] bytes of the current segment;
    the empty string when the peer has closed. *)
Definition e_recv_seg (n : nat) (segs : list string) : string * list string :=
  match segs with
  | [] => (EmptyString, [])
  | seg :: rest =>
      if (String.length seg <=? n)%nat then (seg, rest)
      else (String.substring 0 n seg, String.substring n (String.length seg - n) seg :: rest)
  end.

(** [recv(sock, buf, n, 0)] into a buffer holding [old]: the bytes
    received overwrite its first bytes, the rest keeps [old]. *)
Definition recv_into (old : string) (n : nat) (segs : list string) : string * list string :=
  let '(got, rest) := e_recv_seg n segs in
  (got +s+ String.substring (String.length got) (String.length old - String.length got) old, rest).

(** [while (received < fsize) { chunk = recv(.., fsize - received, 0);
    if (chunk <= 0) break; received += chunk; }]; every turn receives at
    least one byte, so [remaining] turns suffice ([recv_data_fuel]). *)
Fixpoint recv_data (fuel remaining : nat) (segs : list string) (acc : string)
    : string * list string :=
  match fuel, remaining with
  | O, _ | _, O => (acc, segs)
  | S f, _ =>
      let '(chunk, rest) := e_recv_seg remaining segs in
      if (String.length chunk =? 0)%nat then (acc, rest)
      else recv_data f (remaining - String.length chunk) rest (acc +s+ chunk)
  end.

(** [std::string fname(name_len, 0); recv(sock, fname.data(), name_len, 0);]
    A negative [int] converts to a huge [size_t]: [std::length_error]. *)
Definition recv_name (name_len : Z) (segs : list string) : throws (string * list string) :=
  if name_len <? 0 then inl LengthError
  else let '(got, rest) := e_recv_seg (Z.to_nat name_len) segs in
       ret (got +s+ nuls (Z.to_nat name_len - String.length got), rest).

(** [std::vector<char> file_data(fsize);] and the receive loop; the file
    written has [fsize] bytes, zeros where the loop stopped early. *)
Definition recv_payload (fsize : Z) (segs : list string) : throws (string * list string) :=
  if fsize <? 0 then inl LengthError
  else let '(got, rest) := recv_data (Z.to_nat fsize) (Z.to_nat fsize) segs EmptyString in
       ret (got +s+ nuls (Z.to_nat fsize - String.length got), rest).

(** ** The EC ([image_energy_latency_EC.cpp]) *)

(** What a connection leaves behind: the directories created, the files
    written (path and bytes, in order) and the sends made. *)
Record ec_out := {
  ec_dirs : list string;
  ec_writes : list (string * string);
  ec_sends : list string
}.

Definition no_out : ec_out := {| ec_dirs := []; ec_writes := []; ec_sends := [] |}.

(** The file system as the EC sees it: [fs::create_directories] and the
    [.jpg]-or-not entries [(filename, bytes)] of a directory, in the order
    [fs::directory_iterator] yields them ([None]: it throws). *)
Record ec_fs := {
  mkdir_ok : string -> bool;
  listing : string -> option (list (string * string))
}.

Inductive ec_exn := Cpp (e : cpp_exn) | FilesystemError.

(** One file of the SEND branch (lines 28-48): [len_buf] and [size_buf]
    are uninitialised, holding [stale]. *)
Definition ec_recv_file (stale : string) (segs : list string)
    : throws (string * string * list string) :=
  let '(len_buf, s1) := recv_into (uninit 8 stale) 8 segs in
  name_len <-? stoi_exn len_buf;
  r1 <-? recv_name name_len s1;
  let '(size_buf, s2) := recv_into (uninit 16 stale) 16 r1.2 in
  fsize <-? stoi_exn size_buf;
  r2 <-? recv_payload fsize s2;
  ret (r1.1, r2.1, r2.2).

(** [for (int i = 0; i < num_files; ++i)]: the files received before an
    exception are written. *)
Fixpoint ec_recv_files (stale : string) (k : nat) (segs : list string)
    : list (string * string) * option cpp_exn :=
  match k with
  | O => ([], None)
  | S k' =>
      match ec_recv_file stale segs with
      | inl e => ([], Some e)
      | inr (fname, data, rest) =>
          let '(fs, e) := ec_recv_files stale k' rest in ((fname, data) :: fs, e)
      end
  end.

Definition under (dir : string) (files : list (string * string)) : list (string * string) :=
  map (fun '(f, d) => (dir +s+ "/" +s+ f, d)) files.

Definition lift (e : option cpp_exn) : option ec_exn := Cpp <$> e.

(** The SEND branch (lines 20-49), from the bytes after the init message. *)
Definition ec_send_branch (fs : ec_fs) (stale : string) (mode : string) (segs : list string)
    : ec_out * option ec_exn :=
  match substr_exn mode 5 None with
  | inl e => (no_out, Some (Cpp e))
  | inr dir =>
      if negb (mkdir_ok fs dir) then (no_out, Some FilesystemError) else
      let '(num_buf, s1) := recv_into (uninit 16 stale) 16 segs in
      match stoi_exn (upto_nul num_buf) with
      | inl e => ({| ec_dirs := [dir]; ec_writes := []; ec_sends := [] |}, Some (Cpp e))
      | inr n =>
          let '(files, e) := ec_recv_files stale (Z.to_nat n) s1 in
          ({| ec_dirs := [dir]; ec_writes := under dir files; ec_sends := [] |}, lift e)
      end
  end.

(** [handle_client] (lines 14-74).  [buffer] is zeroed, so [mode] is the
    first segment up to a NUL; [find("SEND") == 0] is a prefix test. *)
Definition ec_handle_client (fs : ec_fs) (junk : nat -> string) (stale : string)
    (segs : list string) : ec_out * option ec_exn :=
  let '(m, s1) := e_recv_seg 1024 segs in
  let mode := upto_nul m in
  if starts_with "SEND" mode then ec_send_branch fs stale mode s1
  else if starts_with "GET" mode then
    match substr_exn mode 4 None with
    | inl e => (no_out, Some (Cpp e))
    | inr dir =>
        match listing fs dir with
        | None => (no_out, Some FilesystemError)
        | Some entries =>
            ({| ec_dirs := []; ec_writes := []; ec_sends := files_sends junk (jpg_files entries) |},
             None)
        end
    end
  else (no_out, None).

(** [main] (lines 87-90): one connection after the other; an uncaught
    exception terminates the server, and no later connection is served. *)
Fixpoint ec_serve (handle : list string -> ec_out * option ec_exn) (conns : list (list string))
    : list ec_out * option ec_exn :=
  match conns with
  | [] => ([], None)
  | c :: rest =>
      let '(o, e) := handle c in
      match e with
      | Some _ => ([o], e)
      | None => let '(os, e') := ec_serve handle rest in (o :: os, e')
      end
  end.

(** ** The EC variant answering one 1 kB result ([..._EC_get1kB.cpp]) *)

(** [while (payload.size() < 1024) payload += "ABCD";] (lines 57-59). *)
Fixpoint grow_payload (fuel : nat) (payload : string) : string :=
  match fuel with
  | O => payload
  | S f => if (String.length payload <? 1024)%nat then grow_payload f (payload +s+ "ABCD") else payload
  end.

Definition payload_1kB : string := grow_payload 256 EmptyString.

(** [handle_client] (lines 14-75): the SEND branch is the EC's; GET sends
    the count 1 and the file [result.txt] (lines 50-72). *)
Definition ec1k_handle_client (fs : ec_fs) (junk : nat -> string) (stale : string)
    (segs : list string) : ec_out * option ec_exn :=
  let '(m, s1) := e_recv_seg 1024 segs in
  let mode := upto_nul m in
  if starts_with "SEND" mode then ec_send_branch fs stale mode s1
  else if starts_with "GET" mode then
    ({| ec_dirs := []; ec_writes := [];
        ec_sends := field 16 (to_string 1) (junk O) ::
                    file_sends (junk 1%nat) (junk 2%nat) "result.txt" payload_1kB |}, None)
  else (no_out, None).

(** The get1kB EC's [main] (lines 77-94): the accept loop serving each
    connection with its [handle_client], until an exception ends it. *)
Definition ec1k_main (fs : ec_fs) (junk : nat -> string) (stale : string) (conns : list (list string))
    : list ec_out * option ec_exn :=
  ec_serve (ec1k_handle_client fs junk stale) conns.

(** ** The ED ([image_energy_latency_ED_QIDK.cpp]) *)

(** [send_images] (lines 14-49) on the entries of [local_dir]. *)
Definition ed_send_images (junk : nat -> string) (remote_dir : string)
    (local : list (string * string)) : list string :=
  send_images_sends junk remote_dir (jpg_files local).

(** One file of [receive_images] (lines 68-83): the one [char buf[16]]
    serves the name length (its first 8 bytes) and the size. *)
Definition ed_recv_file (buf : string) (segs : list string)
    : throws (string * string * string * list string) :=
  let '(buf1, s1) := recv_into buf 8 segs in
  name_len <-? stoi_exn (String.substring 0 8 buf1);
  r1 <-? recv_name name_len s1;
  let '(buf2, s2) := recv_into buf1 16 r1.2 in
  fsize <-? stoi_exn buf2;
  r2 <-? recv_payload fsize s2;
  ret (r1.1, r2.1, buf2, r2.2).

Fixpoint ed_recv_files (buf : string) (k : nat) (segs : list string)
    : list (string * string) * option cpp_exn :=
  match k with
  | O => ([], None)
  | S k' =>
      match ed_recv_file buf segs with
      | inl e => ([], Some e)
      | inr (fname, data, buf', rest) =>
          let '(fs, e) := ed_recv_files buf' k' rest in ((fname, data) :: fs, e)
      end
  end.

(** [receive_images] (lines 51-89): sends ["GET " + remote_dir], then
    reads the count with [std::stoi(buf)] (up to a NUL) and the files,
    written under [local_dir]; [stale] is what [buf] holds at first. *)
Definition ed_receive_images (stale : string) (local_dir : string) (segs : list string)
    : list (string * string) * option cpp_exn :=
  let '(buf, s1) := recv_into (uninit 16 stale) 16 segs in
  match stoi_exn (upto_nul buf) with
  | inl e => ([], Some e)
  | inr n => let '(files, e) := ed_recv_files buf (Z.to_nat n) s1 in (under local_dir files, e)
  end.

Definition ed_get_request (remote_dir : string) : string := "GET " +s+ remote_dir.

(** What the ED's [main] (lines 91-104) runs, from [argv] without the
    program name, and its exit status: [send_images(local, remote, ip)],
    [receive_images(remote, local, ip)], or nothing after a message on
    [std::cerr]. *)
Inductive ed_cmd :=
  | EdSend (local_dir remote_dir ec_ip : string)
  | EdGet (remote_dir local_dir ec_ip : string)
  | EdInvalidMode
  | EdUsage.

Definition ed_main (args : list string) : ed_cmd * Z :=
  match args with
  | [mode; a; b; ip] =>
      (if String.eqb mode "SEND" then EdSend a b ip
       else if String.eqb mode "GET" then EdGet a b ip else EdInvalidMode, 0)
  | _ => (EdUsage, 1)
  end.

(** ** The ED variant fetching 1220 results ([..._ED_get1kB.cpp]) *)

(** [receive_one_result(ec_ip, file_idx)] (lines 53-97) after its send of
    ["GET"]: a count other than 1 writes nothing. *)
Definition ed1k_receive_one (stale : string) (file_idx : Z) (segs : list string)
    : option (string * string) * option cpp_exn :=
  let '(buf, s1) := recv_into (uninit 16 stale) 16 segs in
  match stoi_exn (upto_nul buf) with
  | inl e => (None, Some e)
  | inr n =>
      if negb (n =? 1) then (None, None) else
      match ed_recv_file buf s1 with
      | inl e => (None, Some e)
      | inr (_, data, _, _) => (Some ("result_" +s+ to_string file_idx +s+ ".txt", data), None)
      end
  end.

Definition ed1k_request : string := "GET".

Definition total_files : Z := 1220.

(** [main] (lines 99-125): the connections [0 .. total_files - 1] in
    turn, [answer i] the segments of the [i]-th; an exception ends it. *)
Fixpoint ed1k_loop (stale : string) (answer : Z -> list string) (i : Z) (k : nat)
    : list (string * string) * option cpp_exn :=
  match k with
  | O => ([], None)
  | S k' =>
      match ed1k_receive_one stale i (answer i) with
      | (_, Some e) => ([], Some e)
      | (w, None) => let '(ws, e) := ed1k_loop stale answer (i + 1) k' in (option_list w ++ ws, e)
      end
  end.

Definition ed1k_main (stale : string) (answer : Z -> list string) : list (string * string) * option cpp_exn :=
  ed1k_loop stale answer 0 (Z.to_nat total_files).

(** ** Delivery and bounds *)

(** Each non-empty send arriving as a segment of its own (an empty send
    puts nothing on the wire). *)
Definition deliver (sends : list string) : list string :=
  filter (fun s => String.length s <> 0%nat) sends.

Definition no_nul (s : string) : bool := all_chars (fun x => negb (Ascii.eqb x NUL)) s.

(** A file whose name length prints in the 8-byte field (with its NUL)
    and whose size is an [int]. *)
Definition file_fits (f : string * string) : bool :=
  (Z.of_nat (String.length f.1) <? 10 ^ 7) && (Z.of_nat (String.length f.2) <=? INT_MAX).

(** Nagle's algorithm joining the init message and the count field into
    one segment, the later sends arriving one by one. *)
Definition coalesce2 (sends : list string) : list string :=
  match sends with
  | a :: b :: rest => (a +s+ b) :: deliver rest
  | _ => deliver sends
  end.

(** ** Sample inputs *)

Definition sample_local : list (string * string) :=
  [("a.jpg", "xy"); ("notes.txt", "n"); ("b.jpg", EmptyString)].

Definition sample_fs : ec_fs :=
  {| mkdir_ok := fun _ => true;
     listing := fun d => if String.eqb d "imgs" then Some sample_local else None |}.

Definition zero_junk : nat -> string := fun _ => EmptyString.

(** A [Forall] of boolean tests over a concrete list, test by test. *)
Ltac forall_refl :=
  cbn -[file_fits]; repeat (apply List.Forall_cons; [reflexivity|]); apply List.Forall_nil.

(** ** Lemmas: strings *)

Lemma length_nuls (k : nat) : String.length (nuls k) = k.
Proof. induction k; cbn; congruence. Qed.

Lemma substring_0_app_ge (a b : string) (n : nat) :
  String.substring 0 (String.length a + n) (a +s+ b) = a +s+ String.substring 0 n b.
Proof. induction a as [|x a IH]; [done|]. rewrite string_app_cons. cbn. by rewrite IH. Qed.

Lemma length_substring_0 (n : nat) (s : string) :
  (n <= String.length s)%nat -> String.length (String.substring 0 n s) = n.
Proof.
  revert n. induction s as [|x s IH]; intros [|n] Hn; cbn in *; try lia.
  rewrite IH; lia.
Qed.

Lemma length_substring_le (n m : nat) (s : string) :
  (String.length (String.substring n m s) <= m)%nat.
Proof.
  revert n m. induction s as [|x s IH]; intros [|n] [|m]; cbn; try lia; try apply IH.
  specialize (IH 0%nat m). lia.
Qed.

Lemma substring_len_0 (n : nat) (s : string) : String.substring n 0 s = EmptyString.
Proof. revert s. induction n; intros [|x s]; cbn; auto. Qed.

Lemma field_eq (w : nat) (s junk : string) :
  (String.length s < w)%nat ->
  field w s junk =
  s +s+ String NUL (String.substring 0 (w - String.length s - 1) (junk +s+ nuls w)).
Proof.
  intros Hw. unfold field.
  replace w with (String.length s + S (w - String.length s - 1))%nat at 1 by lia.
  by rewrite substring_0_app_ge.
Qed.

Lemma field_length (w : nat) (s junk : string) : String.length (field w s junk) = w.
Proof.
  unfold field. apply length_substring_0.
  rewrite string_length_app. cbn. rewrite string_length_app, length_nuls. lia.
Qed.

Lemma uninit_length (cap : nat) (stale : string) : String.length (uninit cap stale) = cap.
Proof.
  unfold uninit. apply length_substring_0. rewrite string_length_app, length_nuls. lia.
Qed.

Lemma upto_nul_app_nul (s r : string) :
  no_nul s = true -> upto_nul (s +s+ String NUL r) = s.
Proof.
  unfold no_nul. induction s as [|x s IH]; [done|]. rewrite string_app_cons. cbn.
  intros [Hx Hs]%andb_prop. apply negb_true_iff in Hx. by rewrite Hx, IH.
Qed.

Lemma no_nul_to_string (z : Z) : no_nul (to_string z) = true.
Proof. apply decimal_not_char; [reflexivity | apply to_string_chars]. Qed.

Lemma no_nul_app (a b : string) : no_nul (a +s+ b) = no_nul a && no_nul b.
Proof. apply all_chars_app. Qed.

(** A number field parses back, both as [std::string(buf, w)] and as the
    C string [buf]. *)
Lemma stoi_field (w : nat) (z : Z) (junk : string) :
  0 <= z <= INT_MAX -> (String.length (to_string z) < w)%nat ->
  stoi_exn (field w (to_string z) junk) = inr z.
Proof.
  intros Hz Hw. rewrite field_eq by done. unfold stoi_exn, stoi.
  rewrite strtol_core_to_string by (done || (widths; lia)).
  by rewrite (proj2 (in_int_iff z)) by (unfold INT_MIN; lia).
Qed.

Lemma upto_nul_field (w : nat) (s junk : string) :
  no_nul s = true -> (String.length s < w)%nat -> upto_nul (field w s junk) = s.
Proof. intros Hs Hw. rewrite field_eq by done. by apply upto_nul_app_nul. Qed.

(** The fields of a file that fits hold its numbers in fewer digits than
    their width. *)
Lemma file_fits_digits (f : string * string) :
  file_fits f = true ->
  (String.length (to_string (Z.of_nat (String.length f.1))) < 8)%nat /\
  (String.length (to_string (Z.of_nat (String.length f.2))) < 16)%nat /\
  Z.of_nat (String.length f.1) <= INT_MAX /\ Z.of_nat (String.length f.2) <= INT_MAX.
Proof.
  unfold file_fits. intros [H1 H2]%andb_prop. apply Z.ltb_lt in H1. apply Z.leb_le in H2.
  unfold INT_MAX in *.
  pose proof (to_string_length_lt (Z.of_nat (String.length f.1)) 7 ltac:(cbn; lia) ltac:(lia)).
  pose proof (to_string_length_lt (Z.of_nat (String.length f.2)) 10 ltac:(cbn; lia) ltac:(lia)).
  lia.
Qed.

(** ** Lemmas: receiving what was sent *)

Lemma deliver_cons_nonempty (a : string) (l : list string) :
  String.length a <> 0%nat -> deliver (a :: l) = a :: deliver l.
Proof. intros H. unfold deliver. by rewrite filter_cons_True. Qed.

Lemma deliver_cons_empty (l : list string) : deliver (EmptyString :: l) = deliver l.
Proof. unfold deliver. rewrite filter_cons_False; [done | cbn; lia]. Qed.

Lemma deliver_app (a b : list string) : deliver (a ++ b) = deliver a ++ deliver b.
Proof. apply filter_app. Qed.

Lemma deliver_nonempty (l : list string) : Forall (fun s => String.length s <> 0%nat) (deliver l).
Proof. apply Forall_forall. intros x Hx. by apply list_elem_of_filter in Hx as [? _]. Qed.

(** [recv(.., 0, 0)] returns at once. *)
Lemma recv_seg_0 (segs : list string) :
  Forall (fun s => String.length s <> 0%nat) segs -> e_recv_seg 0 segs = (EmptyString, segs).
Proof.
  intros Hs. destruct segs as [|b r]; [done|]. apply Forall_cons in Hs as [Hb _].
  cbn [e_recv_seg]. rewrite (proj2 (Nat.leb_gt _ _)) by lia.
  rewrite Nat.sub_0_r, (substring_0_all b (String.length b)) by lia. by destruct b.
Qed.

(** A receive of exactly the size of the next send returns that send. *)
Lemma recv_seg_deliver (n : nat) (a : string) (l : list string) :
  String.length a = n -> e_recv_seg n (deliver (a :: l)) = (a, deliver l).
Proof.
  intros <-. destruct (decide (String.length a = 0%nat)) as [H0|H0].
  - destruct a; [|done]. rewrite deliver_cons_empty. apply recv_seg_0, deliver_nonempty.
  - rewrite deliver_cons_nonempty by done. cbn [e_recv_seg]. by rewrite Nat.leb_refl.
Qed.

Lemma recv_into_deliver (old : string) (n : nat) (a : string) (l : list string) :
  String.length a = n ->
  recv_into old n (deliver (a :: l)) =
  (a +s+ String.substring n (String.length old - n) old, deliver l).
Proof. intros Ha. unfold recv_into. rewrite recv_seg_deliver by done. by subst n. Qed.

(** ... into a buffer no larger than the send: the buffer is the send. *)
Lemma recv_into_full (old : string) (n : nat) (a : string) (l : list string) :
  String.length a = n -> (String.length old <= n)%nat ->
  recv_into old n (deliver (a :: l)) = (a, deliver l).
Proof.
  intros Ha Hold. rewrite recv_into_deliver by done.
  replace (String.length old - n)%nat with 0%nat by lia.
  by rewrite substring_len_0, string_app_nil_r.
Qed.

Lemma recv_data_deliver (d : string) (l : list string) :
  recv_data (String.length d) (String.length d) (deliver (d :: l)) EmptyString = (d, deliver l).
Proof.
  destruct d as [|x d]; [by rewrite deliver_cons_empty|].
  rewrite deliver_cons_nonempty by done.
  cbn [recv_data String.length e_recv_seg]. rewrite Nat.leb_refl.
  cbn [String.length Nat.eqb]. rewrite Nat.sub_diag. by destruct d.
Qed.

(** The receive loop gives the same result for any fuel of at least
    [remaining]: every turn that does not stop receives a byte. *)
Lemma recv_data_fuel (f1 f2 remaining : nat) (segs : list string) (acc : string) :
  (remaining <= f1)%nat -> (remaining <= f2)%nat ->
  recv_data f1 remaining segs acc = recv_data f2 remaining segs acc.
Proof.
  revert f2 remaining segs acc. induction f1 as [|f1 IH]; intros [|f2] [|rem] segs acc H1 H2; try lia; try done.
  cbn [recv_data]. destruct (e_recv_seg (S rem) segs) as [chunk rest].
  destruct (String.length chunk =? 0)%nat eqn:E; [done|]. apply Nat.eqb_neq in E.
  apply IH; lia.
Qed.

Lemma recv_name_deliver (name : string) (l : list string) :
  recv_name (Z.of_nat (String.length name)) (deliver (name :: l)) = inr (name, deliver l).
Proof.
  unfold recv_name. rewrite (proj2 (Z.ltb_ge _ _)) by lia. rewrite Nat2Z.id.
  rewrite recv_seg_deliver by done. cbn. by rewrite Nat.sub_diag, string_app_nil_r.
Qed.

Lemma recv_payload_deliver (data : string) (l : list string) :
  recv_payload (Z.of_nat (String.length data)) (deliver (data :: l)) = inr (data, deliver l).
Proof.
  unfold recv_payload. rewrite (proj2 (Z.ltb_ge _ _)) by lia. rewrite Nat2Z.id.
  rewrite recv_data_deliver. cbn. by rewrite Nat.sub_diag, string_app_nil_r.
Qed.

(** The four sends of a file that fits, received by the EC. *)
Lemma ec_recv_file_deliver (stale j8 j16 name data : string) (l : list string) :
  file_fits (name, data) = true ->
  ec_recv_file stale (deliver (file_sends j8 j16 name data ++ l)) = inr (name, data, deliver l).
Proof.
  intros Hf. destruct (file_fits_digits _ Hf) as (H8 & H16 & Hn & Hd). cbn [fst snd] in *.
  unfold ec_recv_file, file_sends. cbn [app].
  rewrite recv_into_full by (rewrite ?field_length, ?uninit_length; lia).
  rewrite stoi_field by (done || lia). cbn [bind].
  rewrite recv_name_deliver. cbn [bind fst snd].
  rewrite recv_into_full by (rewrite ?field_length, ?uninit_length; lia).
  rewrite stoi_field by (done || lia). cbn [bind].
  by rewrite recv_payload_deliver.
Qed.

Lemma ec_recv_files_deliver (stale : string) (junk : nat -> string) (i : nat)
    (files : list (string * string)) (l : list string) :
  Forall (fun f => file_fits f = true) files ->
  ec_recv_files stale (List.length files) (deliver (files_body junk i files ++ l)) = (files, None).
Proof.
  revert i. induction files as [|[name data] files IH]; intros i Hf; [done|].
  apply Forall_cons in Hf as [Hf Hfs]. cbn [files_body List.length ec_recv_files].
  rewrite <- app_assoc, ec_recv_file_deliver by done. cbn. by rewrite IH.
Qed.

(** The same sends received by the ED into its one 16-byte buffer, which
    is left holding the size field. *)
Lemma ed_recv_file_deliver (buf j8 j16 name data : string) (l : list string) :
  String.length buf = 16%nat -> file_fits (name, data) = true ->
  ed_recv_file buf (deliver (file_sends j8 j16 name data ++ l)) =
  inr (name, data, field 16 (to_string (Z.of_nat (String.length data))) j16, deliver l).
Proof.
  intros Hb Hf. destruct (file_fits_digits _ Hf) as (H8 & H16 & Hn & Hd). cbn [fst snd] in *.
  unfold ed_recv_file, file_sends. cbn [app].
  rewrite recv_into_deliver by apply field_length.
  set (f8 := field 8 (to_string (Z.of_nat (String.length name))) j8).
  assert (forall x, String.substring 0 8 (f8 +s+ x) = f8) as ->.
  { intros x. rewrite <- (field_length 8 (to_string (Z.of_nat (String.length name))) j8) at 1.
    apply substring_0_app. }
  subst f8. rewrite stoi_field by (done || lia). cbn [bind].
  rewrite recv_name_deliver. cbn [bind fst snd].
  rewrite recv_into_full; [| by rewrite field_length |].
  2: { rewrite string_length_app, field_length.
       pose proof (length_substring_le 8 (String.length buf - 8) buf). lia. }
  rewrite stoi_field by (done || lia). cbn [bind].
  by rewrite recv_payload_deliver.
Qed.

Lemma ed_recv_files_deliver (buf : string) (junk : nat -> string) (i : nat)
    (files : list (string * string)) (l : list string) :
  String.length buf = 16%nat -> Forall (fun f => file_fits f = true) files ->
  ed_recv_files buf (List.length files) (deliver (files_body junk i files ++ l)) = (files, None).
Proof.
  revert i buf. induction files as [|[name data] files IH]; intros i buf Hb Hf; [done|].
  apply Forall_cons in Hf as [Hf Hfs]. cbn [files_body List.length ed_recv_files].
  rewrite <- app_assoc, ed_recv_file_deliver by done. cbn.
  rewrite IH by (rewrite ?field_length; done). done.
Qed.

(** A first receive that takes a whole first send. *)
Lemma recv_seg_first (n : nat) (a : string) (l : list string) :
  String.length a <> 0%nat -> (String.length a <= n)%nat ->
  e_recv_seg n (a :: l) = (a, l).
Proof. intros _ H. cbn [e_recv_seg]. by rewrite (proj2 (Nat.leb_le _ _)) by done. Qed.

Lemma stoi_count_field (n : nat) (j : string) :
  Z.of_nat n <= INT_MAX ->
  stoi_exn (upto_nul (field 16 (to_string (Z.of_nat n)) j)) = inr (Z.of_nat n).
Proof.
  intros Hn. unfold INT_MAX in Hn.
  pose proof (to_string_length_lt (Z.of_nat n) 10 ltac:(cbn; lia) ltac:(lia)).
  rewrite upto_nul_field by (apply no_nul_to_string || lia).
  unfold stoi_exn. rewrite stoi_to_string; [done|]. apply in_int_iff. unfold INT_MIN, INT_MAX. lia.
Qed.

(** [mode.substr(5)] of ["SEND " + dir]. *)
Lemma send_mode (dir : string) :
  no_nul dir = true ->
  upto_nul ("SEND " +s+ dir) = "SEND " +s+ dir /\ starts_with "SEND" ("SEND " +s+ dir) = true /\
  substr_exn ("SEND " +s+ dir) 5 None = inr dir.
Proof.
  intros Hd. split; [apply upto_nul_id; exact Hd|]. split.
  - change ("SEND " +s+ dir) with ("SEND" +s+ (" " +s+ dir)). apply prefix_app.
  - unfold substr_exn. by rewrite (substr_suffix "SEND ").
Qed.

(** [mode.substr(4)] of ["GET " + dir]. *)
Lemma get_mode (dir : string) :
  no_nul dir = true ->
  upto_nul ("GET " +s+ dir) = "GET " +s+ dir /\ starts_with "SEND" ("GET " +s+ dir) = false /\
  starts_with "GET" ("GET " +s+ dir) = true /\ substr_exn ("GET " +s+ dir) 4 None = inr dir.
Proof.
  intros Hd. split; [apply upto_nul_id; exact Hd|]. split; [reflexivity|]. split.
  - change ("GET " +s+ dir) with ("GET" +s+ (" " +s+ dir)). apply prefix_app.
  - unfold substr_exn. by rewrite (substr_suffix "GET ").
Qed.

(** The main loop of [ed1k_main] when every connection yields a result. *)
Lemma ed1k_loop_all (stale : string) (answer : Z -> list string) (f : Z -> string * string)
    (i : Z) (k : nat) :
  (forall j, ed1k_receive_one stale j (answer j) = (Some (f j), None)) ->
  ed1k_loop stale answer i k = (map f (seqZ i (Z.of_nat k)), None).
Proof.
  intros Hall. revert i. induction k as [|k IH]; intros i; [done|].
  cbn [ed1k_loop]. rewrite Hall. cbn -[seqZ]. rewrite IH.
  rewrite (seqZ_cons i (Z.of_nat (S k))) by lia. cbn -[seqZ].
  by rewrite Nat2Z.inj_succ, Z.pred_succ, Z.add_1_r.
Qed.

(** ** Theorems *)

(** C32: SEND round trip.  When every non-empty send of the ED's
    [send_images] arrives as a segment of its own, the EC's [handle_client]
    creates [remote_dir] and writes, in order, exactly the [.jpg] files of
    the ED's directory under it, with their bytes, and throws nothing;
    whatever bytes follow the NUL of each number field and whatever the
    EC's uninitialised buffers hold.  It needs a directory name without
    NUL whose init message fits the 1024-byte buffer, names shorter than
    10^7 bytes and sizes and a count that are [int]s. *)
Theorem send_images_received (fs : ec_fs) (junk junk' : nat -> string) (stale dir : string)
    (local : list (string * string)) :
  no_nul dir = true -> (String.length dir <= 1019)%nat -> mkdir_ok fs dir = true ->
  Forall (fun f => file_fits f = true) (jpg_files local) ->
  Z.of_nat (List.length (jpg_files local)) <= INT_MAX ->
  ec_handle_client fs junk' stale (deliver (ed_send_images junk dir local)) =
  ({| ec_dirs := [dir]; ec_writes := under dir (jpg_files local); ec_sends := [] |}, None).
Proof.
  intros Hd Hlen Hmk Hfit Hn. destruct (send_mode dir Hd) as (Hm & Hs & Hsub).
  unfold ed_send_images, send_images_sends, files_sends, ec_handle_client.
  rewrite deliver_cons_nonempty, recv_seg_first
    by (rewrite string_length_app; cbn; lia).
  rewrite Hm, Hs. unfold ec_send_branch. rewrite Hsub, Hmk. cbn [negb].
  rewrite recv_into_full by (rewrite ?field_length, ?uninit_length; lia).
  rewrite stoi_count_field, Nat2Z.id by done.
  rewrite <- (app_nil_r (files_body junk 0 (jpg_files local))), ec_recv_files_deliver by done.
  done.
Qed.

(** GET round trip.  The EC answers ["GET " + remote_dir] with the
    [.jpg] files of [remote_dir], and the ED's [receive_images], reading
    them into its one 16-byte buffer, writes exactly those files, in
    order, under [local_dir], for any junk after the number fields and
    any initial contents of the buffers. *)
Theorem get_images_received (fs : ec_fs) (junk : nat -> string) (stale stale' dir local_dir : string)
    (entries : list (string * string)) :
  no_nul dir = true -> (String.length dir <= 1020)%nat -> listing fs dir = Some entries ->
  Forall (fun f => file_fits f = true) (jpg_files entries) ->
  Z.of_nat (List.length (jpg_files entries)) <= INT_MAX ->
  (ec_handle_client fs junk stale [ed_get_request dir]).2 = None /\
  ed_receive_images stale' local_dir (deliver (ec_sends (ec_handle_client fs junk stale [ed_get_request dir]).1)) =
  (under local_dir (jpg_files entries), None).
Proof.
  intros Hd Hlen Hl Hfit Hn. unfold ec_handle_client, ed_get_request.
  rewrite recv_seg_first by (rewrite string_length_app; cbn; lia).
  destruct (get_mode dir Hd) as (-> & -> & -> & ->). rewrite Hl. split; [done|].
  cbn [ec_sends fst]. unfold files_sends, ed_receive_images.
  rewrite recv_into_full by (rewrite ?field_length, ?uninit_length; lia).
  rewrite stoi_count_field, Nat2Z.id by done.
  rewrite <- (app_nil_r (files_body junk 0 (jpg_files entries))), ed_recv_files_deliver
    by (rewrite ?field_length; done).
  done.
Qed.

(** The init message has no delimiter.  When the network joins the
    init message and the count field into one segment (Nagle's algorithm
    may), the EC reads the count's digits as part of [remote_dir]: it
    creates [remote_dir] followed by the decimal count, not [remote_dir],
    whatever it then makes of the remaining bytes. *)
Theorem coalesced_count_joins_dir (fs : ec_fs) (junk junk' : nat -> string) (stale dir : string)
    (local : list (string * string)) :
  no_nul dir = true -> (String.length dir <= 1003)%nat ->
  Z.of_nat (List.length (jpg_files local)) <= INT_MAX ->
  mkdir_ok fs (dir +s+ to_string (Z.of_nat (List.length (jpg_files local)))) = true ->
  ec_dirs (ec_handle_client fs junk' stale (coalesce2 (ed_send_images junk dir local))).1 =
  [dir +s+ to_string (Z.of_nat (List.length (jpg_files local)))].
Proof.
  intros Hd Hlen Hn Hmk. set (c := to_string (Z.of_nat (List.length (jpg_files local)))). fold c in Hmk.
  assert (String.length c < 16)%nat.
  { pose proof (to_string_length_lt (Z.of_nat (List.length (jpg_files local))) 10).
    unfold INT_MAX in Hn. subst c. cbn in *. lia. }
  assert (no_nul (dir +s+ c) = true) as Hdc by (rewrite no_nul_app, Hd; apply no_nul_to_string).
  destruct (send_mode (dir +s+ c) Hdc) as (_ & Hs & Hsub).
  unfold ed_send_images, send_images_sends, files_sends, coalesce2, ec_handle_client. fold c.
  rewrite recv_seg_first
    by (rewrite !string_length_app, field_length; cbn; lia).
  rewrite field_eq, !string_app_assoc by done.
  rewrite <- (string_app_assoc dir c), <- (string_app_assoc "SEND " (dir +s+ c)).
  rewrite upto_nul_app_nul by (rewrite no_nul_app, Hdc; reflexivity).
  rewrite Hs. unfold ec_send_branch. rewrite Hsub, Hmk. cbn [negb].
  destruct (recv_into _ _ _) as [num_buf s1]. destruct (stoi_exn _); [done|].
  by destruct (ec_recv_files _ _ _).
Qed.

(** The 1 kB ED sends the bare ["GET"], and the EC of
    [image_energy_latency_EC.cpp] answers it with [mode.substr(4)] on a
    3-character string: [std::out_of_range] escapes [handle_client] and
    ends the server, so none of the later connections is served. *)
Theorem bare_get_stops_ec (fs : ec_fs) (junk : nat -> string) (stale : string)
    (conns : list (list string)) :
  ec_serve (ec_handle_client fs junk stale) ([ed1k_request] :: conns) =
  ([no_out], Some (Cpp SubstrOutOfRange)).
Proof. reflexivity. Qed.

(** Against its own EC variant, the 1 kB ED's [main] writes
    [result_0.txt] ... [result_1219.txt], each holding the EC's payload
    of 1024 bytes, and throws nothing, whatever the junk after the number
    fields and the initial contents of the buffers. *)
Theorem ed1k_receives_all (fs : ec_fs) (junk : nat -> string) (stale stale' : string) :
  String.length payload_1kB = 1024%nat /\
  ed1k_main stale' (fun _ => deliver (ec_sends (ec1k_handle_client fs junk stale [ed1k_request]).1)) =
  (map (fun i => ("result_" +s+ to_string i +s+ ".txt", payload_1kB)) (seqZ 0 total_files), None).
Proof.
  split; [reflexivity|]. unfold ed1k_main. rewrite <- (Z2Nat.id total_files) at 2 by done.
  apply ed1k_loop_all. intros j. cbn [ec1k_handle_client e_recv_seg ed1k_request].
  change (ec_sends _) with
    (field 16 (to_string (Z.of_nat 1)) (junk O) ::
     file_sends (junk 1%nat) (junk 2%nat) "result.txt" payload_1kB ++ []).
  unfold ed1k_receive_one.
  rewrite recv_into_full by (rewrite ?field_length, ?uninit_length; lia).
  rewrite stoi_count_field by (unfold INT_MAX; lia). cbn -[ed_recv_file deliver field file_sends app payload_1kB].
  rewrite ed_recv_file_deliver by (apply field_length || (vm_compute; reflexivity)).
  done.
Qed.

Lemma send_images_received_witness :
  no_nul "imgs" = true /\ (String.length "imgs" <= 1019)%nat /\ mkdir_ok sample_fs "imgs" = true /\
  Forall (fun f => file_fits f = true) (jpg_files sample_local) /\
  Z.of_nat (List.length (jpg_files sample_local)) <= INT_MAX /\
  ec_handle_client sample_fs zero_junk EmptyString
    (deliver (ed_send_images zero_junk "imgs" sample_local)) =
  ({| ec_dirs := ["imgs"]; ec_writes := under "imgs" (jpg_files sample_local); ec_sends := [] |}, None).
Proof.
  assert (no_nul "imgs" = true) as H1 by reflexivity.
  assert (String.length "imgs" <= 1019)%nat as H2 by (cbn; lia).
  assert (mkdir_ok sample_fs "imgs" = true) as H3 by reflexivity.
  assert (Forall (fun f => file_fits f = true) (jpg_files sample_local)) as H4
    by forall_refl.
  assert (Z.of_nat (List.length (jpg_files sample_local)) <= INT_MAX) as H5 by (vm_compute; discriminate).
  split; [exact H1|]. split; [exact H2|]. split; [exact H3|]. split; [exact H4|]. split; [exact H5|].
  exact (send_images_received sample_fs zero_junk zero_junk EmptyString "imgs" sample_local H1 H2 H3 H4 H5).
Defined.

Lemma get_images_received_witness :
  no_nul "imgs" = true /\ (String.length "imgs" <= 1020)%nat /\
  listing sample_fs "imgs" = Some sample_local /\
  Forall (fun f => file_fits f = true) (jpg_files sample_local) /\
  Z.of_nat (List.length (jpg_files sample_local)) <= INT_MAX /\
  (ec_handle_client sample_fs zero_junk EmptyString [ed_get_request "imgs"]).2 = None /\
  ed_receive_images EmptyString "local"
    (deliver (ec_sends (ec_handle_client sample_fs zero_junk EmptyString [ed_get_request "imgs"]).1)) =
  (under "local" (jpg_files sample_local), None).
Proof.
  assert (no_nul "imgs" = true) as H1 by reflexivity.
  assert (String.length "imgs" <= 1020)%nat as H2 by (cbn; lia).
  assert (listing sample_fs "imgs" = Some sample_local) as H3 by reflexivity.
  assert (Forall (fun f => file_fits f = true) (jpg_files sample_local)) as H4
    by forall_refl.
  assert (Z.of_nat (List.length (jpg_files sample_local)) <= INT_MAX) as H5 by (vm_compute; discriminate).
  split; [exact H1|]. split; [exact H2|]. split; [exact H3|]. split; [exact H4|]. split; [exact H5|].
  exact (get_images_received sample_fs zero_junk EmptyString EmptyString "imgs" "local" sample_local
           H1 H2 H3 H4 H5).
Defined.

Lemma coalesced_count_joins_dir_witness :
  no_nul "imgs" = true /\ (String.length "imgs" <= 1003)%nat /\
  Z.of_nat (List.length (jpg_files sample_local)) <= INT_MAX /\
  mkdir_ok sample_fs ("imgs" +s+ to_string (Z.of_nat (List.length (jpg_files sample_local)))) = true /\
  ec_dirs (ec_handle_client sample_fs zero_junk EmptyString
             (coalesce2 (ed_send_images zero_junk "imgs" sample_local))).1 =
  ["imgs" +s+ to_string (Z.of_nat (List.length (jpg_files sample_local)))].
Proof.
  assert (no_nul "imgs" = true) as H1 by reflexivity.
  assert (String.length "imgs" <= 1003)%nat as H2 by (cbn; lia).
  assert (Z.of_nat (List.length (jpg_files sample_local)) <= INT_MAX) as H3 by (vm_compute; discriminate).
  assert (mkdir_ok sample_fs ("imgs" +s+ to_string (Z.of_nat (List.length (jpg_files sample_local))))
          = true) as H4 by reflexivity.
  split; [exact H1|]. split; [exact H2|]. split; [exact H3|]. split; [exact H4|].
  exact (coalesced_count_joins_dir sample_fs zero_junk zero_junk EmptyString "imgs" sample_local
           H1 H2 H3 H4).
Defined.
