(* ===== verification/Pressure.v ===== *)
(** * Pressure: the ED variant that starts one thread per request

    Source: src/Experiment_May15/ed_oms_parallel_rn50_fallabck_pressure.cpp.
    [main] starts the Python helper and its feeder thread [py_thread]
    (lines 138-150), then one thread per request running [run_request]
    (lines 69-124, started at 154-158), joins them, sets [stop_local]
    under [queue_mutex] (162-166) and joins the feeder.

    Every locked block is one atomic step.  [sent_to_ec++] (line 108) is
    executed without [stats_mutex]: it is a load followed by a store, two
    steps between which other threads may run (the data race of C++,
    executed the way the compiled increment runs).  The state is
    [pstate]; a thread's program counter [ppc] records where it is in
    [run_request], and [p_step] is a partial step function ([None]: the
    step is not enabled, or would overflow an [int]).

    The theorems show that the locked counters are exact under every
    interleaving, that the racy [sent_to_ec] ends between 1 and the number
    of granted requests, that it can lose updates, and that the tasks whose
    socket failed or whose reply was not understood are counted nowhere. *)

From S2P Require Import Prelude CppString Wire.

Open Scope oms_scope.

(** ** State *)

(** What the network does for one request: [socket()] fails, [connect]
    fails after [dur] ms, or the EC's reply (the bytes of the first
    [recv], empty when it fails) arrives, the task having taken [dur] ms
    when a fallback is counted. *)
Inductive p_outcome :=
  | SocketFail
  | ConnectFail (dur : Z)
  | Reply (bytes : string) (dur : Z).

(** How a thread left [run_request]. *)
Inductive ended :=
  | EndNoSocket             (** [sock < 0]: [return] (line 74) *)
  | EndGranted              (** after [sent_to_ec++] *)
  | EndFallback (dur : Z)   (** after the fallback block and its log line *)
  | EndIgnored.             (** a failed [recv] or a reply neither GRANT nor DROP *)

#[export] Instance ended_eq_dec : EqDecision ended.
Proof. solve_decision. Defined.

Inductive ppc :=
  | PNew                            (** started, not yet run *)
  | PEnq (tag : string) (dur : Z)   (** about to [enqueue_local_run(IMAGE)] *)
  | PCount (tag : string) (dur : Z) (** about to update the counters *)
  | PLog (tag : string) (dur : Z)   (** about to [log_result] *)
  | PLoad                           (** about to read [sent_to_ec] *)
  | PStore (v : Z)                  (** read [v], about to write [v + 1] *)
  | PEnd (e : ended).

Record pstate := {
  p_completed : Z;
  p_ran : Z;
  p_sent : Z;
  p_total : Z;                  (** [total_latency_ms], a [long] *)
  p_queue : list string;        (** [local_queue] *)
  p_log : list string;          (** the lines appended to ed_task_log.txt *)
  p_threads : list ppc;         (** thread [i] runs [run_request(i)] *)
  p_py_in : list string;        (** the lines written to the helper *)
  p_stop : bool;                (** [stop_local] *)
  p_py_exited : bool            (** [py_thread] left its loop *)
}.

Definition p_init : pstate :=
  {| p_completed := 0; p_ran := 0; p_sent := 0; p_total := 0; p_queue := []; p_log := [];
     p_threads := []; p_py_in := []; p_stop := false; p_py_exited := false |}.

Definition p_IMAGE : string := "COCO_test_1220/000000006321.jpg".

(** The [\n] of [fprintf(py, "%s\n", ..)]. *)
Definition lf : string := String (ascii_of_nat 10) EmptyString.

(** The events of a run: [main] starts the next thread, thread [i] takes
    a step, the feeder takes a turn, [main] (after joining every thread)
    sets [stop_local]. *)
Inductive p_event := PSpawn | PThread (i : nat) | PDispatch | PJoin.

(** ** Operations *)

Definition set_thread (s : pstate) (i : nat) (pc : ppc) : pstate :=
  {| p_completed := p_completed s; p_ran := p_ran s; p_sent := p_sent s; p_total := p_total s;
     p_queue := p_queue s; p_log := p_log s; p_threads := <[i := pc]> (p_threads s);
     p_py_in := p_py_in s; p_stop := p_stop s; p_py_exited := p_py_exited s |}.

(** [threads.emplace_back(run_request, i)] for the next [i]. *)
Definition spawn (s : pstate) : pstate :=
  {| p_completed := p_completed s; p_ran := p_ran s; p_sent := p_sent s; p_total := p_total s;
     p_queue := p_queue s; p_log := p_log s; p_threads := p_threads s ++ [PNew];
     p_py_in := p_py_in s; p_stop := p_stop s; p_py_exited := p_py_exited s |}.

Definition p_set_queue (s : pstate) (q : list string) : pstate :=
  {| p_completed := p_completed s; p_ran := p_ran s; p_sent := p_sent s; p_total := p_total s;
     p_queue := q; p_log := p_log s; p_threads := p_threads s;
     p_py_in := p_py_in s; p_stop := p_stop s; p_py_exited := p_py_exited s |}.

(** The locked block of lines 87-92 and 114-119. *)
Definition count_fallback (s : pstate) (dur : Z) : pstate :=
  {| p_completed := p_completed s + 1; p_ran := p_ran s + 1; p_sent := p_sent s;
     p_total := p_total s + dur; p_queue := p_queue s; p_log := p_log s;
     p_threads := p_threads s; p_py_in := p_py_in s; p_stop := p_stop s;
     p_py_exited := p_py_exited s |}.

Definition p_add_log (s : pstate) (entry : string) : pstate :=
  {| p_completed := p_completed s; p_ran := p_ran s; p_sent := p_sent s; p_total := p_total s;
     p_queue := p_queue s; p_log := p_log s ++ [entry]; p_threads := p_threads s;
     p_py_in := p_py_in s; p_stop := p_stop s; p_py_exited := p_py_exited s |}.

Definition store_sent (s : pstate) (v : Z) : pstate :=
  {| p_completed := p_completed s; p_ran := p_ran s; p_sent := v; p_total := p_total s;
     p_queue := p_queue s; p_log := p_log s; p_threads := p_threads s;
     p_py_in := p_py_in s; p_stop := p_stop s; p_py_exited := p_py_exited s |}.

Definition p_feed (s : pstate) (q : list string) (line : string) : pstate :=
  {| p_completed := p_completed s; p_ran := p_ran s; p_sent := p_sent s; p_total := p_total s;
     p_queue := q; p_log := p_log s; p_threads := p_threads s;
     p_py_in := p_py_in s ++ [line]; p_stop := p_stop s; p_py_exited := p_py_exited s |}.

Definition p_set_flags (s : pstate) (stop exited : bool) : pstate :=
  {| p_completed := p_completed s; p_ran := p_ran s; p_sent := p_sent s; p_total := p_total s;
     p_queue := p_queue s; p_log := p_log s; p_threads := p_threads s;
     p_py_in := p_py_in s; p_stop := stop; p_py_exited := exited |}.

(** [run_request(token_ed)] up to its first shared access: the socket,
    the connection, the request and the classification of the reply
    ([char buf[256]], [recv(.., 255, 0)], [resp(buf, n)]). *)
Definition p_begin (out : p_outcome) : ppc :=
  match out with
  | SocketFail => PEnd EndNoSocket
  | ConnectFail dur => PEnq "[ED_LOCAL]" dur
  | Reply bytes dur =>
      let resp := recv_bytes 255 bytes in
      if (String.length resp =? 0)%nat then PEnd EndIgnored
      else if starts_with "GRANT:" resp then PLoad
      else if String.eqb resp "DROP" then PEnq "[ED_DROP]" dur
      else PEnd EndIgnored
  end.

(** The log line of a fallback (lines 93 and 120). *)
Definition log_entry (tag : string) (token : Z) (dur : Z) : string :=
  tag +s+ " token=" +s+ to_string token +s+ " dur=" +s+ to_string dur.

Section Pressure.

Variable total_requests : Z.
Variable env : Z -> p_outcome.

(** One step of thread [i] at [pc]. *)
Definition thread_step (s : pstate) (i : nat) (pc : ppc) : option pstate :=
  match pc with
  | PNew => Some (set_thread s i (p_begin (env (Z.of_nat i))))
  | PEnq tag dur => Some (set_thread (p_set_queue s (p_queue s ++ [p_IMAGE])) i (PCount tag dur))
  | PCount tag dur =>
      if in_int (p_completed s + 1) && in_int (p_ran s + 1) && in_long (p_total s + dur)
      then Some (set_thread (count_fallback s dur) i (PLog tag dur))
      else None
  | PLog tag dur =>
      Some (set_thread (p_add_log s (log_entry tag (Z.of_nat i) dur)) i (PEnd (EndFallback dur)))
  | PLoad => Some (set_thread s i (PStore (p_sent s)))
  | PStore v => if in_int (v + 1) then Some (set_thread (store_sent s (v + 1)) i (PEnd EndGranted)) else None
  | PEnd _ => None
  end.

Definition is_ended (pc : ppc) : bool := match pc with PEnd _ => true | _ => false end.

Definition p_step (s : pstate) (ev : p_event) : option pstate :=
  match ev with
  | PSpawn =>
      if Z.of_nat (List.length (p_threads s)) <? total_requests
      then Some (spawn s)
      else None
  | PThread i => pc ← p_threads s !! i; thread_step s i pc
  | PDispatch =>
      if p_py_exited s then None else
      match p_queue s with
      | img :: q => Some (p_feed s q (img +s+ lf))
      | [] => if p_stop s then Some (p_set_flags s true true) else None
      end
  | PJoin =>
      if negb (Z.of_nat (List.length (p_threads s)) <? total_requests) &&
         forallb is_ended (p_threads s) && negb (p_stop s)
      then Some (p_set_flags s true (p_py_exited s))
      else None
  end.

Fixpoint p_run (s : pstate) (evs : list p_event) : option pstate :=
  match evs with
  | [] => Some s
  | ev :: evs' => s' ← p_step s ev; p_run s' evs'
  end.

Definition p_steps (s s' : pstate) : Prop := exists ev, p_step s ev = Some s'.
Definition p_reachable (s : pstate) : Prop := rtc p_steps p_init s.

(** [main] has joined the feeder: the process prints its statistics. *)
Definition p_final (s : pstate) : bool := p_stop s && p_py_exited s.

End Pressure.

(** What [main] prints under [stats_mutex] (lines 179-186): the three
    counters and [total_latency_ms / completed_tasks] ([long / int],
    truncated toward zero; [0] when nothing completed).  The helper's
    resource usage (lines 170-175, [getrusage] and [sysconf]) is an
    operating-system measurement and is not modelled. *)
Record p_report := { pr_completed : Z; pr_ran : Z; pr_sent : Z; pr_avg : Z }.

Definition p_final_report (s : pstate) : p_report :=
  {| pr_completed := p_completed s; pr_ran := p_ran s; pr_sent := p_sent s;
     pr_avg := if p_completed s =? 0 then 0 else Z.quot (p_total s) (p_completed s) |}.

(** ** Observations and invariants *)

#[export] Instance ppc_eq_dec : EqDecision ppc.
Proof. solve_decision. Defined.

(** Where [run_request] ends for a given network outcome. *)
Definition end_of (out : p_outcome) : ended :=
  match p_begin out with
  | PEnd e => e
  | PLoad => EndGranted
  | PEnq _ dur => EndFallback dur
  | _ => EndIgnored
  end.

(** [pc] lies on the path [run_request] takes for [out]. *)
Definition on_path (out : p_outcome) (pc : ppc) : bool :=
  match pc with
  | PNew => true
  | PEnq tag dur | PCount tag dur | PLog tag dur => bool_decide (p_begin out = PEnq tag dur)
  | PLoad | PStore _ => bool_decide (p_begin out = PLoad)
  | PEnd e => bool_decide (e = end_of out)
  end.

(** Threads past the fallback counters, their durations, threads past
    [enqueue_local_run], threads past [sent_to_ec++]. *)
Definition fb_count (pc : ppc) : nat :=
  match pc with PLog _ _ | PEnd (EndFallback _) => 1 | _ => 0 end.
Definition fb_dur (pc : ppc) : Z :=
  match pc with PLog _ d | PEnd (EndFallback d) => d | _ => 0 end.
Definition enq_count (pc : ppc) : nat :=
  match pc with PCount _ _ | PLog _ _ | PEnd (EndFallback _) => 1 | _ => 0 end.
Definition grant_done (pc : ppc) : nat :=
  match pc with PEnd EndGranted => 1 | _ => 0 end.

Definition granted_done (s : pstate) : Z := Z.of_nat (sum_list_with grant_done (p_threads s)).

Section Invariant.

Variable total_requests : Z.
Variable env : Z -> p_outcome.

Definition inv_threads (s : pstate) : Prop :=
  Z.of_nat (List.length (p_threads s)) <= Z.max 0 total_requests /\
  forall i pc, p_threads s !! i = Some pc -> on_path (env (Z.of_nat i)) pc = true.

Definition inv_counts (s : pstate) : Prop :=
  p_completed s = Z.of_nat (sum_list_with fb_count (p_threads s)) /\
  p_ran s = p_completed s /\ p_total s = zsum_with fb_dur (p_threads s).

Definition inv_queue (s : pstate) : Prop :=
  (List.length (p_queue s) + List.length (p_py_in s) = sum_list_with enq_count (p_threads s))%nat /\
  p_queue s = replicate (List.length (p_queue s)) p_IMAGE /\
  p_py_in s = replicate (List.length (p_py_in s)) (p_IMAGE +s+ lf).

(** The racy counter: never above the increments done, at least 1 once
    one is done, and every loaded value is such a value. *)
Definition inv_sent (s : pstate) : Prop :=
  0 <= p_sent s <= granted_done s /\ (1 <= granted_done s -> 1 <= p_sent s) /\
  forall i v, p_threads s !! i = Some (PStore v) -> 0 <= v <= granted_done s.

Definition inv_flags (s : pstate) : Prop :=
  (p_stop s = true ->
     forallb is_ended (p_threads s) = true /\ ~ Z.of_nat (List.length (p_threads s)) < total_requests) /\
  (p_py_exited s = true -> p_stop s = true /\ p_queue s = []).

Definition p_inv (s : pstate) : Prop :=
  inv_threads s /\ inv_counts s /\ inv_queue s /\ inv_sent s /\ inv_flags s.

End Invariant.

(** ** The ids by outcome, and a measure of the work left *)

Definition fb_dur_of (out : p_outcome) : Z :=
  match end_of out with EndFallback d => d | _ => 0 end.

Definition is_fallback (out : p_outcome) : bool :=
  match end_of out with EndFallback _ => true | _ => false end.

Definition is_granted (out : p_outcome) : bool :=
  match end_of out with EndGranted => true | _ => false end.

Definition ids (total_requests : Z) : list Z := seqZ 0 (Z.max 0 total_requests).

Definition count_ids (total_requests : Z) (env : Z -> p_outcome) (f : p_outcome -> bool) : Z :=
  Z.of_nat (List.length (filter (fun t => f (env t) = true) (ids total_requests))).

(** Steps a thread may still take, its possible line to the helper
    included. *)
Definition pc_weight (pc : ppc) : nat :=
  match pc with
  | PNew => 5 | PEnq _ _ => 4 | PCount _ _ => 2 | PLog _ _ => 1
  | PLoad => 2 | PStore _ => 1 | PEnd _ => 0
  end.

Definition p_measure (total_requests : Z) (s : pstate) : nat :=
  (6 * (Z.to_nat total_requests - List.length (p_threads s)) + sum_list_with pc_weight (p_threads s)
   + List.length (p_queue s) + (if p_stop s then 0 else 1) + (if p_py_exited s then 0 else 1))%nat.

(** ** Sample runs *)

(** Two requests, both granted. *)
Definition grant_env : Z -> p_outcome := fun _ => Reply "GRANT:0" 5.

(** Both threads read [sent_to_ec] before either writes it back. *)
Definition lost_update_events : list p_event :=
  [PSpawn; PSpawn; PThread 0; PThread 1; PThread 0; PThread 1; PThread 0; PThread 1; PJoin; PDispatch].

(** A grant, a DROP, a refused connection, a failed socket. *)
Definition mixed_env (t : Z) : p_outcome :=
  if t =? 0 then Reply "GRANT:0" 40
  else if t =? 1 then Reply "DROP" 12
  else if t =? 2 then ConnectFail 7
  else SocketFail.

Definition mixed_events : list p_event :=
  [PSpawn; PSpawn; PSpawn; PSpawn;
   PThread 0; PThread 0; PThread 0;
   PThread 1; PThread 1; PThread 1; PThread 1;
   PThread 2; PThread 2; PThread 2; PThread 2; PThread 3;
   PDispatch; PDispatch; PJoin; PDispatch].

(** ** Lemmas *)

(** [run_request] reaches no shared state before its first step. *)
Lemma p_begin_uncounted (out : p_outcome) :
  fb_count (p_begin out) = 0%nat /\ fb_dur (p_begin out) = 0 /\ enq_count (p_begin out) = 0%nat /\
  grant_done (p_begin out) = 0%nat /\ (forall v, p_begin out <> PStore v).
Proof. destruct out; cbn; repeat case_match; split_and!; try done; by intros ? ?. Qed.

Lemma on_path_begin (out : p_outcome) : on_path out (p_begin out) = true.
Proof.
  unfold on_path, end_of. destruct out; cbn; repeat case_match; try done; by apply bool_decide_eq_true.
Qed.

Section Steps.

Variable total_requests : Z.
Variable env : Z -> p_outcome.

Local Abbreviation inv := (p_inv total_requests env).

(** A running thread means [main] has not set [stop_local] yet. *)
Lemma running_not_stopped (s : pstate) (i : nat) (pc : ppc) :
  inv s -> p_threads s !! i = Some pc -> is_ended pc = false ->
  p_stop s = false /\ p_py_exited s = false.
Proof.
  intros (_ & _ & _ & _ & Hstop & Hexit) Hi Hpc.
  destruct (p_stop s) eqn:Es; [|destruct (p_py_exited s) eqn:Ee; [by destruct (Hexit eq_refl)|done]].
  destruct (Hstop eq_refl) as [Hall _]. by rewrite (forallb_lookup_false _ _ i pc) in Hall.
Qed.

(** The racy counter after a step of thread [i] from [pc] to [pc'] that
    neither reads nor writes it. *)
Lemma quiet_sent (s s0 : pstate) (i : nat) (pc pc' : ppc) :
  inv_sent s -> p_threads s !! i = Some pc ->
  grant_done pc = 0%nat -> grant_done pc' = 0%nat -> (forall v, pc' <> PStore v) ->
  p_threads s0 = p_threads s -> p_sent s0 = p_sent s ->
  inv_sent (set_thread s0 i pc').
Proof.
  intros (Hs0 & Hs1 & Hs2) Hi Hg Hg' Hst Ht Hsent. unfold inv_sent, granted_done in *.
  cbn [set_thread p_threads p_sent]. rewrite Ht, Hsent, (sum_set grant_done _ _ _ pc' Hi), Hg, Hg'.
  split_and!; try lia.
  intros j v [[_ [Heq _]] | [_ Hj]]%list_lookup_insert_Some; [by destruct (Hst v) |].
  specialize (Hs2 j v Hj). lia.
Qed.

(** [sent_to_ec] read by thread [i]. *)
Lemma load_sent (s : pstate) (i : nat) :
  inv_sent s -> p_threads s !! i = Some PLoad -> inv_sent (set_thread s i (PStore (p_sent s))).
Proof.
  intros (Hs0 & Hs1 & Hs2) Hi. unfold inv_sent, granted_done in *.
  cbn [set_thread p_threads p_sent]. rewrite (sum_set grant_done _ _ _ _ Hi). cbn [grant_done].
  split_and!; try lia.
  intros j v [[_ [Heq _]] | [_ Hj]]%list_lookup_insert_Some; [simplify_eq; lia|].
  specialize (Hs2 j v Hj). lia.
Qed.

(** [v + 1] written back by thread [i]: whatever the others wrote
    meanwhile is overwritten, but [v] was at most the increments done. *)
Lemma store_sent_inv (s : pstate) (i : nat) (v : Z) :
  inv_sent s -> p_threads s !! i = Some (PStore v) ->
  inv_sent (set_thread (store_sent s (v + 1)) i (PEnd EndGranted)).
Proof.
  intros (Hs0 & Hs1 & Hs2) Hi. pose proof (Hs2 i v Hi). unfold inv_sent, granted_done in *.
  cbn [set_thread store_sent p_threads p_sent]. rewrite (sum_set grant_done _ _ _ _ Hi). cbn [grant_done].
  split_and!; try lia.
  intros j w [[_ [Heq _]] | [_ Hj]]%list_lookup_insert_Some; [done|].
  specialize (Hs2 j w Hj). lia.
Qed.

(** A thread step keeps the invariant when the shared state moves as
    the counted positions of the thread and the racy counter is fine. *)
Lemma set_thread_inv (s s0 : pstate) (i : nat) (pc pc' : ppc) :
  inv s -> p_threads s !! i = Some pc -> is_ended pc = false ->
  on_path (env (Z.of_nat i)) pc' = true ->
  p_threads s0 = p_threads s -> p_stop s0 = p_stop s -> p_py_exited s0 = p_py_exited s ->
  p_completed s0 + Z.of_nat (fb_count pc) = p_completed s + Z.of_nat (fb_count pc') ->
  p_ran s0 - p_completed s0 = p_ran s - p_completed s ->
  p_total s0 + fb_dur pc = p_total s + fb_dur pc' ->
  (List.length (p_queue s0) + List.length (p_py_in s0) + enq_count pc =
   List.length (p_queue s) + List.length (p_py_in s) + enq_count pc')%nat ->
  p_queue s0 = replicate (List.length (p_queue s0)) p_IMAGE ->
  p_py_in s0 = replicate (List.length (p_py_in s0)) (p_IMAGE +s+ lf) ->
  inv_sent (set_thread s0 i pc') ->
  inv (set_thread s0 i pc').
Proof.
  intros Hinv Hi Hpc Hpath Ht Hs He Hc Hr Htot Hq Hq1 Hq2 Hsent.
  destruct (running_not_stopped s i pc Hinv Hi Hpc) as [Hstop Hexit].
  destruct Hinv as ([Hlen Hon] & (Hc0 & Hr0 & Ht0) & (Hq0 & _ & _) & _ & _).
  unfold p_inv, inv_threads, inv_counts, inv_queue, inv_flags in *.
  cbn [set_thread p_threads p_completed p_ran p_total p_queue p_py_in p_stop p_py_exited].
  rewrite Ht. pose proof (sum_set fb_count _ _ _ pc' Hi).
  pose proof (sum_list_with_insert enq_count _ _ _ pc' Hi).
  pose proof (zsum_with_insert fb_dur _ _ _ pc' Hi).
  split_and!; try lia; try done.
  - by rewrite length_insert.
  - intros j pc'' [[<- [<- _]] | [_ Hj]]%list_lookup_insert_Some; [done | by apply Hon].
  - intros H'. rewrite Hs, Hstop in H'. discriminate.
  - intros H'. rewrite He, Hexit in H'. discriminate.
Qed.

Lemma on_path_fallback_end (out : p_outcome) (tag : string) (dur : Z) :
  on_path out (PLog tag dur) = true -> on_path out (PEnd (EndFallback dur)) = true.
Proof.
  cbn. intros H%bool_decide_eq_true. apply bool_decide_eq_true. unfold end_of. by rewrite H.
Qed.

Lemma on_path_grant_end (out : p_outcome) (v : Z) :
  on_path out (PStore v) = true -> on_path out (PEnd EndGranted) = true.
Proof.
  cbn. intros H%bool_decide_eq_true. apply bool_decide_eq_true. unfold end_of. by rewrite H.
Qed.

Lemma thread_step_inv (s s' : pstate) (i : nat) (pc : ppc) :
  inv s -> p_threads s !! i = Some pc -> thread_step env s i pc = Some s' -> inv s'.
Proof.
  intros Hinv Hi Hstep. pose proof Hinv as (Hth & _ & (_ & Hq1 & Hq2) & Hsent & _).
  pose proof (proj2 Hth i pc Hi) as Hon.
  destruct pc as [|tag dur|tag dur|tag dur| |v|e]; cbn [thread_step] in Hstep; simplify_eq.
  - destruct (p_begin_uncounted (env (Z.of_nat i))) as (H1 & H2 & H3 & H4 & H5).
    eapply set_thread_inv; eauto using on_path_begin; rewrite ?H1, ?H2, ?H3; cbn; try lia.
    eapply quiet_sent; eauto.
  - eapply set_thread_inv; eauto; cbn [p_set_queue p_threads p_stop p_py_exited p_completed p_ran
      p_total p_queue p_py_in fb_count fb_dur enq_count]; rewrite ?length_app; cbn; try lia.
    + rewrite Nat.add_1_r. by apply replicate_snoc.
    + eapply quiet_sent; eauto.
  - case_match eqn:Hg; simplify_eq. rewrite !andb_true_iff in Hg.
    eapply set_thread_inv; eauto; cbn; try lia; try done.
    eapply quiet_sent; eauto.
  - eapply set_thread_inv; eauto using on_path_fallback_end; cbn; try lia; try done.
    eapply quiet_sent; eauto.
  - eapply set_thread_inv; eauto; cbn; try lia; try done. by apply load_sent.
  - case_match; simplify_eq.
    eapply set_thread_inv; eauto using on_path_grant_end; cbn; try lia; try done.
    by apply store_sent_inv.
Qed.

Lemma spawn_inv (s : pstate) :
  inv s -> Z.of_nat (List.length (p_threads s)) < total_requests -> inv (spawn s).
Proof.
  intros ([Hlen Hon] & (Hc & Hr & Ht) & (Hq & Hq1 & Hq2) & (Hs0 & Hs1 & Hs2) & (Hstop & Hexit)) Hlt.
  unfold p_inv, inv_threads, inv_counts, inv_queue, inv_sent, inv_flags, granted_done in *.
  cbn [spawn p_threads p_completed p_ran p_total p_queue p_py_in p_sent p_stop p_py_exited].
  rewrite !sum_list_with_snoc, zsum_with_snoc, length_app.
  cbn [fb_count fb_dur enq_count grant_done List.length].
  assert (forall j pc, (p_threads s ++ [PNew]) !! j = Some pc -> p_threads s !! j = Some pc \/ pc = PNew)
    as Hl by (intros j pc [Hj | [_ Hj]]%lookup_app_Some; [by left | right; by apply list_lookup_singleton_Some in Hj as [_ ->]]).
  split_and!; try lia; try done.
  all: try (intros j pc [Hj | ->]%Hl; [by apply Hon | done]).
  all: try (intros j v [Hj | ?]%Hl; [specialize (Hs2 j v Hj); lia | done]).
  all: try (intros H; destruct (Hstop H) as [_ Hn]; lia).
  all: intros H; destruct (Hexit H) as [H' _]; destruct (Hstop H') as [_ Hn]; lia.
Qed.

Lemma dispatch_inv (s s' : pstate) :
  inv s -> p_step total_requests env s PDispatch = Some s' -> inv s'.
Proof.
  intros ([Hlen Hon] & (Hc & Hr & Ht) & (Hq & Hq1 & Hq2) & Hsent & (Hstop & Hexit)) Hstep.
  cbn [p_step] in Hstep. destruct (p_py_exited s) eqn:Ee; [done|].
  destruct (p_queue s) as [|img q] eqn:Eq.
  - destruct (p_stop s) eqn:Es; simplify_eq.
    unfold p_inv, inv_threads, inv_counts, inv_queue, inv_flags in *.
    cbn [p_set_flags p_threads p_completed p_ran p_total p_queue p_py_in p_sent p_stop p_py_exited].
    rewrite Eq. split_and!; done || exact Hsent.
  - simplify_eq. cbn in Hq1. injection Hq1 as -> Hq1.
    unfold p_inv, inv_threads, inv_counts, inv_queue, inv_flags in *.
    cbn [p_feed p_threads p_completed p_ran p_total p_queue p_py_in p_sent p_stop p_py_exited].
    rewrite length_app. cbn [List.length] in Hq |- *. split_and!; try done; try lia; try exact Hsent.
    + rewrite Hq2 at 1. rewrite Nat.add_1_r. by apply replicate_snoc.
    + rewrite Ee. done.
Qed.

Lemma join_inv (s s' : pstate) :
  inv s -> p_step total_requests env s PJoin = Some s' -> inv s'.
Proof.
  intros (Hth & Hcnt & Hq & Hsent & (Hstop & Hexit)) Hstep.
  cbn [p_step] in Hstep. case_match eqn:Hg; simplify_eq.
  apply andb_true_iff in Hg as [[Hn Hall]%andb_true_iff Hs]. apply negb_true_iff in Hn, Hs.
  apply Z.ltb_ge in Hn. split_and!; try done. split; cbn.
  - intros _. split; [done | lia].
  - intros He. destruct (Hexit He) as [Hs' _]. congruence.
Qed.

Lemma p_step_inv (s s' : pstate) (ev : p_event) :
  inv s -> p_step total_requests env s ev = Some s' -> inv s'.
Proof.
  intros Hinv Hstep. destruct ev as [| i | |].
  - cbn [p_step] in Hstep. case_match eqn:Hg; simplify_eq. apply Z.ltb_lt in Hg. by apply spawn_inv.
  - cbn [p_step] in Hstep. apply bind_Some in Hstep as (pc & Hi & Hstep). by eapply thread_step_inv.
  - by eapply dispatch_inv.
  - by eapply join_inv.
Qed.

Lemma p_init_inv : inv p_init.
Proof.
  unfold p_inv, inv_threads, inv_counts, inv_queue, inv_sent, inv_flags, granted_done.
  cbn. split_and!; try done; try lia; intros ? ? H; by rewrite lookup_nil in H.
Qed.

Lemma p_reachable_inv (s : pstate) : p_reachable total_requests env s -> inv s.
Proof.
  intros H. refine (rtc_ind_r (R:=p_steps total_requests env) inv p_init _ _ s H);
    [apply p_init_inv | intros y z _ [ev Hev] Hy; by eapply p_step_inv].
Qed.

Lemma p_run_reachable_from (s s' : pstate) (evs : list p_event) :
  p_run total_requests env s evs = Some s' -> rtc (p_steps total_requests env) s s'.
Proof.
  revert s. induction evs as [|ev evs IH]; intros s H; cbn in H; [by simplify_eq|].
  apply bind_Some in H as (s1 & H1 & H2). eapply rtc_l; [by exists ev | by apply IH].
Qed.

(** At the end every thread has returned where its outcome leads. *)
Lemma final_threads (s : pstate) :
  inv s -> p_final s = true ->
  p_threads s = (fun t => PEnd (end_of (env t))) <$> ids total_requests.
Proof.
  intros ([Hlen Hon] & _ & _ & _ & (Hstop & _)) Hf. apply andb_true_iff in Hf as [Hs _].
  destruct (Hstop Hs) as [Hall Hn].
  assert (List.length (p_threads s) = Z.to_nat (Z.max 0 total_requests)) as Hl by lia.
  apply list_eq. intros j. rewrite list_lookup_fmap. unfold ids.
  destruct (p_threads s !! j) as [pc|] eqn:Ej.
  - pose proof (lookup_lt_Some _ _ _ Ej) as Hj.
    rewrite lookup_seqZ_lt by lia. cbn. rewrite Z.add_0_l.
    pose proof (forallb_lookup _ _ _ _ Hall Ej) as He. pose proof (Hon j pc Ej) as Hp.
    destruct pc; try discriminate. cbn in Hp. apply bool_decide_eq_true in Hp. by subst.
  - apply lookup_ge_None in Ej. rewrite lookup_ge_None_2; [done|]. rewrite length_seqZ. lia.
Qed.

(** The counts of a final state, id by id. *)
Lemma final_counts (s : pstate) :
  inv s -> p_final s = true ->
  Z.of_nat (sum_list_with fb_count (p_threads s)) = count_ids total_requests env is_fallback /\
  (sum_list_with enq_count (p_threads s) = sum_list_with fb_count (p_threads s))%nat /\
  granted_done s = count_ids total_requests env is_granted /\
  zsum_with fb_dur (p_threads s) = zsum_with (fun t => fb_dur_of (env t)) (ids total_requests).
Proof.
  intros Hinv Hf. unfold granted_done, count_ids. rewrite (final_threads s Hinv Hf).
  rewrite !sum_list_with_fmap, zsum_with_fmap, <- !sum_list_with_indicator.
  unfold is_fallback, is_granted, fb_dur_of.
  split_and!; [f_equal; apply sum_list_with_ext; intros t _; by destruct (end_of (env t))..|].
  done.
Qed.

Lemma p_begin_weight (out : p_outcome) : (pc_weight (p_begin out) <= 4)%nat.
Proof. destruct out; cbn; repeat case_match; cbn; lia. Qed.

(** Every step uses up some of the work left. *)
Lemma p_measure_step (s s' : pstate) (ev : p_event) :
  p_step total_requests env s ev = Some s' -> (p_measure total_requests s' < p_measure total_requests s)%nat.
Proof.
  unfold p_measure. intros Hstep. destruct ev as [| i | |]; cbn [p_step] in Hstep.
  - case_match eqn:Hg; simplify_eq. apply Z.ltb_lt in Hg. cbn.
    rewrite sum_list_with_snoc, length_app. cbn. lia.
  - apply bind_Some in Hstep as (pc & Hi & Hstep).
    destruct pc as [|tag dur|tag dur|tag dur| |v|e]; cbn [thread_step] in Hstep;
      repeat match type of Hstep with context [if ?b then _ else _] => destruct b end;
      simplify_eq; cbn;
      match goal with |- context [<[i:=?y]> _] => pose proof (sum_list_with_insert pc_weight _ i _ y Hi) as Hw end;
      rewrite ?length_insert, ?length_app; cbn in Hw |- *;
      pose proof (p_begin_weight (env (Z.of_nat i)));
      destruct (p_stop s), (p_py_exited s); lia.
  - destruct (p_py_exited s) eqn:Ee; [done|].
    destruct (p_queue s) as [|img q] eqn:Eq, (p_stop s) eqn:Es; simplify_eq; cbn;
      rewrite ?Ee, ?Eq, ?Es; cbn; lia.
  - case_match eqn:Hg; simplify_eq. apply andb_true_iff in Hg as [_ Hs].
    apply negb_true_iff in Hs. cbn. rewrite Hs. lia.
Qed.

Lemma p_run_measure (s s' : pstate) (evs : list p_event) :
  p_run total_requests env s evs = Some s' ->
  (List.length evs + p_measure total_requests s' <= p_measure total_requests s)%nat.
Proof.
  revert s. induction evs as [|ev evs IH]; intros s H; cbn in H; [simplify_eq; cbn [List.length]; lia|].
  apply bind_Some in H as (s1 & H1 & H2). pose proof (p_measure_step _ _ _ H1).
  specialize (IH _ H2). cbn [List.length]. lia.
Qed.
End Steps.

(** ** Theorems *)

(** C34: under every interleaving of the request threads, the feeder and
    [main], the counters updated under [stats_mutex] are exact when the
    process ends: [completed_tasks] and [ran_on_ed] are the number of ids
    whose connection failed or that the EC refused with DROP,
    [total_latency_ms] is the sum of their durations, and the helper was
    given exactly one line [IMAGE\n] per such id. *)
Theorem pressure_locked_counters_exact (total_requests : Z) (env : Z -> p_outcome) (s : pstate) :
  p_reachable total_requests env s -> p_final s = true ->
  p_completed s = count_ids total_requests env is_fallback /\ p_ran s = p_completed s /\
  p_total s = zsum_with (fun t => fb_dur_of (env t)) (ids total_requests) /\
  p_py_in s = replicate (Z.to_nat (count_ids total_requests env is_fallback)) (p_IMAGE +s+ lf).
Proof.
  intros Hr Hf. pose proof (p_reachable_inv total_requests env s Hr) as Hinv.
  destruct (final_counts total_requests env s Hinv Hf) as (Hfb & Henq & _ & Hdur).
  destruct Hinv as (_ & (Hc & Hran & Ht) & (Hq & _ & Hpy) & _ & (_ & Hexit)).
  apply andb_true_iff in Hf as [_ He]. destruct (Hexit He) as [_ Hq0].
  rewrite Hq0 in Hq. cbn in Hq. rewrite Hpy, <- Hfb, Nat2Z.id. split_and!; try congruence.
Qed.

(** C35: the unlocked [sent_to_ec++] can lose increments but never
    invents one: when the process ends, [sent_to_ec] is at most the number
    of granted ids, and at least 1 when some id was granted. *)
Theorem pressure_sent_bounds (total_requests : Z) (env : Z -> p_outcome) (s : pstate) :
  p_reachable total_requests env s -> p_final s = true ->
  Z.min 1 (count_ids total_requests env is_granted) <= p_sent s <= count_ids total_requests env is_granted.
Proof.
  intros Hr Hf. pose proof (p_reachable_inv total_requests env s Hr) as Hinv.
  destruct (final_counts total_requests env s Hinv Hf) as (_ & _ & Hg & _).
  destruct Hinv as (_ & _ & _ & (Hs0 & Hs1 & _) & _). rewrite <- Hg. lia.
Qed.

Local Abbreviation lost_final := (default p_init (p_run 2 grant_env p_init lost_update_events)).

(** The increments are lost in a real run: both requests are granted,
    both threads read [sent_to_ec = 0] before either writes, and the
    process ends with [sent_to_ec = 1]. *)
Example sent_to_ec_loses_update :
  p_reachable 2 grant_env lost_final /\ p_final lost_final = true /\
  count_ids 2 grant_env is_granted = 2 /\ p_sent lost_final = 1.
Proof.
  split; [apply (p_run_reachable_from 2 grant_env p_init _ lost_update_events); vm_compute; reflexivity|].
  vm_compute. repeat split.
Qed.

(** Every run of the process is finite: whatever the interleaving,
    it has at most [6 * total_requests + 2] steps (a thread start, at most
    four steps of each thread, one helper line per fallback, the join and
    the feeder's exit). *)
Theorem pressure_run_bounded (total_requests : Z) (env : Z -> p_outcome) (evs : list p_event)
    (s : pstate) :
  p_run total_requests env p_init evs = Some s ->
  (List.length evs <= 6 * Z.to_nat total_requests + 2)%nat.
Proof.
  intros H. pose proof (p_run_measure total_requests env _ _ _ H) as Hm.
  unfold p_measure in Hm. cbn [p_init p_threads p_queue p_stop p_py_exited List.length sum_list_with] in Hm.
  lia.
Qed.

Local Abbreviation mixed_final := (default p_init (p_run 4 mixed_env p_init mixed_events)).

Lemma mixed_final_reachable : p_reachable 4 mixed_env mixed_final.
Proof. apply (p_run_reachable_from 4 mixed_env p_init _ mixed_events). vm_compute. reflexivity. Qed.

Lemma pressure_locked_counters_exact_witness :
  p_reachable 4 mixed_env mixed_final /\ p_final mixed_final = true /\
  p_completed mixed_final = count_ids 4 mixed_env is_fallback /\ p_ran mixed_final = p_completed mixed_final /\
  p_total mixed_final = zsum_with (fun t => fb_dur_of (mixed_env t)) (ids 4) /\
  p_py_in mixed_final = replicate (Z.to_nat (count_ids 4 mixed_env is_fallback)) (p_IMAGE +s+ lf).
Proof.
  assert (p_final mixed_final = true) as Hf by (vm_compute; reflexivity).
  split; [exact mixed_final_reachable|]. split; [exact Hf|].
  exact (pressure_locked_counters_exact 4 mixed_env mixed_final mixed_final_reachable Hf).
Defined.

Lemma pressure_sent_bounds_witness :
  p_reachable 4 mixed_env mixed_final /\ p_final mixed_final = true /\
  Z.min 1 (count_ids 4 mixed_env is_granted) <= p_sent mixed_final <= count_ids 4 mixed_env is_granted.
Proof.
  assert (p_final mixed_final = true) as Hf by (vm_compute; reflexivity).
  split; [exact mixed_final_reachable|]. split; [exact Hf|].
  exact (pressure_sent_bounds 4 mixed_env mixed_final mixed_final_reachable Hf).
Defined.

Lemma pressure_run_bounded_witness :
  p_run 4 mixed_env p_init mixed_events = Some mixed_final /\
  (List.length mixed_events <= 6 * Z.to_nat 4 + 2)%nat.
Proof.
  assert (p_run 4 mixed_env p_init mixed_events = Some mixed_final) as H by (vm_compute; reflexivity).
  split; [exact H|]. exact (pressure_run_bounded 4 mixed_env mixed_events mixed_final H).
Defined.
