(* ===== verification/Basic.v ===== *)
(** * Basic: the first, sequential ED client

    Source: src/Experiment_May15/ed_oms_parallel_basic_working.cpp.
    [main] (lines 127-161) calls [run_request(i)] (lines 36-125) for
    [i = 0 .. total_requests - 1] one after the other: no thread is ever
    started, so the counters are updated by one thread only.  On a refused
    connection and on DROP the task runs locally through [std::system]
    (its outcome is not observed); on GRANT the client sends
    [OK:<token_ec>:<id>] and the image in blocks of 4096 bytes read with
    [while (file.read(img_buf, 4096)) send(..)].

    The model is a function from the counters to the frames sent, the new
    counters ([None] on a signed overflow) and the log lines.  The
    theorems give the final counters of [main] for any sequence of
    network outcomes, and show what the image loop really sends. *)

From S2P Require Import Prelude CppString Wire.

Open Scope oms_scope.

(** ** Data *)

(** What the environment decides for one request: [socket()] and
    [connect] succeed, the bytes of the reply, the image file's bytes
    ([None]: it cannot be opened) and the measured duration in ms. *)
Record b_env := {
  b_socket_ok : bool;
  b_connect_ok : bool;
  b_reply : string;
  b_image : option (list Z);
  b_dur : Z
}.

Record bstats := {
  b_completed : Z;
  b_ran : Z;
  b_sent : Z;
  b_total : Z      (** [total_latency_ms], a [long] *)
}.

Definition bstats0 : bstats := {| b_completed := 0; b_ran := 0; b_sent := 0; b_total := 0 |}.

(** A frame written to the socket: text or raw image bytes. *)
Inductive bframe := BText (s : string) | BBytes (b : list Z).

Definition BLOCK : nat := 4096.

(** ** The image loop *)

(** [while (file.read(img_buf, sizeof(img_buf))) send(sock, img_buf,
    file.gcount(), 0);]: [read] succeeds only when it could fill the
    whole buffer, so a final partial block ends the loop unsent.  Each
    turn consumes [BLOCK] bytes: [S (length data)] turns are enough. *)
Fixpoint read_blocks (fuel : nat) (data : list Z) : list (list Z) :=
  match fuel with
  | O => []
  | S f => if (BLOCK <=? List.length data)%nat then take BLOCK data :: read_blocks f (drop BLOCK data) else []
  end.

Definition image_frames (img : list Z) : list bframe := BBytes <$> read_blocks (S (List.length img)) img.

(** ** The counters (locked blocks of lines 56-61, 95-100, 114-119) *)

Definition bump (st : bstats) (dur : Z) (ran sent : Z) : option bstats :=
  if in_int (b_completed st + 1) && in_int (b_ran st + ran) && in_int (b_sent st + sent) &&
     in_long (b_total st + dur)
  then Some {| b_completed := b_completed st + 1; b_ran := b_ran st + ran;
               b_sent := b_sent st + sent; b_total := b_total st + dur |}
  else None.

(** ** [run_request] *)

Record b_result := {
  br_frames : list bframe;
  br_stats : bstats;
  br_log : list string
}.

Definition b_run_request (st : bstats) (token_ed : Z) (e : b_env) : option b_result :=
  if negb (b_socket_ok e) then Some {| br_frames := []; br_stats := st; br_log := [] |}
  else if negb (b_connect_ok e) then
    st' ← bump st (b_dur e) 0 0;
    Some {| br_frames := []; br_stats := st';
            br_log := ["[ED_LOCAL_FAILOVER] token=" +s+ to_string token_ed +s+ " duration=" +s+ to_string (b_dur e)] |}
  else
    let req := BText (req_msg token_ed) in
    let response := recv_cstring 255 (b_reply e) in
    if starts_with "GRANT:" response then
      let token_ec := default EmptyString (substr response 6 None) in
      let ok := BText (ok_msg token_ec token_ed) in
      match b_image e with
      | None => Some {| br_frames := [req; ok]; br_stats := st; br_log := [] |}
      | Some img =>
          st' ← bump st (b_dur e) 0 1;
          Some {| br_frames := [req; ok] ++ image_frames img; br_stats := st';
                  br_log := ["[ED_SENT] token_ed=" +s+ to_string token_ed +s+ " token_ec=" +s+ token_ec
                             +s+ " duration=" +s+ to_string (b_dur e) +s+ " ms"] |}
      end
    else if String.eqb response "DROP" then
      st' ← bump st (b_dur e) 1 0;
      Some {| br_frames := [req]; br_stats := st';
              br_log := ["[ED_LOCAL] token_ed=" +s+ to_string token_ed +s+ " duration=" +s+ to_string (b_dur e) +s+ " ms"] |}
    else Some {| br_frames := [req]; br_stats := st; br_log := [] |}.

(** [for (int i = 0; i < total_requests; ++i) run_request(i);] from id
    [i], [k] requests left: the frames of each connection, the counters
    and the log. *)
Fixpoint basic_loop (env : Z -> b_env) (i : Z) (k : nat) (st : bstats)
    : option (list (list bframe) * bstats * list string) :=
  match k with
  | O => Some ([], st, [])
  | S k' =>
      r ← b_run_request st i (env i);
      '(fs, st', log) ← basic_loop env (i + 1) k' (br_stats r);
      Some (br_frames r :: fs, st', br_log r ++ log)
  end.

Definition basic_main (env : Z -> b_env) (total_requests : Z)
    : option (list (list bframe) * bstats * list string) :=
  basic_loop env 0 (Z.to_nat total_requests) bstats0.

(** ** What each request contributes *)

(** The increments a request adds to [completed_tasks], [ran_on_ed],
    [sent_to_ec] and [total_latency_ms]. *)
Definition b_delta (e : b_env) : Z * Z * Z * Z :=
  if negb (b_socket_ok e) then (0, 0, 0, 0)
  else if negb (b_connect_ok e) then (1, 0, 0, b_dur e)
  else
    let response := recv_cstring 255 (b_reply e) in
    if starts_with "GRANT:" response then
      match b_image e with None => (0, 0, 0, 0) | Some _ => (1, 0, 1, b_dur e) end
    else if String.eqb response "DROP" then (1, 1, 0, b_dur e)
    else (0, 0, 0, 0).

Definition b_add (st : bstats) (d : Z * Z * Z * Z) : bstats :=
  let '(c, r, s, t) := d in
  {| b_completed := b_completed st + c; b_ran := b_ran st + r; b_sent := b_sent st + s;
     b_total := b_total st + t |}.

(** The counters after the requests of [ts], from [st]. *)
Definition b_fold (env : Z -> b_env) (ts : list Z) (st : bstats) : bstats :=
  foldl (fun st t => b_add st (b_delta (env t))) st ts.

(** Request 0 cannot connect, request 1 is refused with DROP. *)
Definition refused_env (t : Z) : b_env :=
  {| b_socket_ok := true; b_connect_ok := t =? 0; b_reply := "DROP"; b_image := None; b_dur := 30 |}.

Definition is_failover (e : b_env) : bool := b_socket_ok e && negb (b_connect_ok e).

(** The EC granted on a working connection and the image opened. *)
Definition b_offloaded (e : b_env) : bool :=
  b_socket_ok e && b_connect_ok e && starts_with "GRANT:" (recv_cstring 255 (b_reply e)) &&
  match b_image e with Some _ => true | None => false end.

(** The EC answered exactly [DROP] on a working connection. *)
Definition b_dropped (e : b_env) : bool :=
  b_socket_ok e && b_connect_ok e && negb (starts_with "GRANT:" (recv_cstring 255 (b_reply e))) &&
  String.eqb (recv_cstring 255 (b_reply e)) "DROP".

(** The number of ids of [ts] whose request satisfies [p]. *)
Definition count_ids (env : Z -> b_env) (p : b_env -> bool) (ts : list Z) : Z :=
  zsum_with (fun t => if p (env t) then 1 else 0) ts.

(** Counters that the remaining [k] requests cannot overflow. *)
Definition b_room (st : bstats) (k : nat) (durs : Z) : Prop :=
  0 <= b_ran st /\ 0 <= b_sent st /\ b_ran st + b_sent st <= b_completed st /\
  b_completed st + Z.of_nat k <= INT_MAX /\ Z.abs (b_total st) + durs <= LONG_MAX.

(** The absolute durations of the requests [ts]. *)
Definition durs_of (env : Z -> b_env) (ts : list Z) : Z :=
  foldr (fun t acc => Z.abs (b_dur (env t)) + acc) 0 ts.

(** ** Lemmas *)

Lemma bump_add (st : bstats) (dur r s : Z) (k : nat) (durs : Z) :
  b_room st (S k) durs -> 0 <= r -> 0 <= s -> r + s <= 1 -> Z.abs dur <= durs ->
  bump st dur r s = Some (b_add st (1, r, s, dur)).
Proof.
  intros (H1 & H2 & H3 & H4 & H5) Hr Hs Hrs Hd. unfold bump.
  assert (0 <= b_completed st) by lia.
  rewrite !(proj2 (in_int_iff _)), (proj2 (in_long_iff _)) by (unfold INT_MIN, INT_MAX, LONG_MIN, LONG_MAX in *; lia).
  done.
Qed.

Lemma b_delta_shape (e : b_env) :
  exists c r s t, b_delta e = (c, r, s, t) /\ 0 <= r /\ 0 <= s /\ r + s <= c /\ 0 <= c <= 1 /\
    Z.abs t <= Z.abs (b_dur e) /\ (c = 0 -> t = 0).
Proof.
  unfold b_delta. repeat case_match; eexists _, _, _, _; (split; [reflexivity|]); lia.
Qed.

Lemma b_room_add (st : bstats) (e : b_env) (k : nat) (durs : Z) :
  b_room st (S k) (Z.abs (b_dur e) + durs) -> 0 <= durs -> b_room (b_add st (b_delta e)) k durs.
Proof.
  destruct (b_delta_shape e) as (c & r & s & t & -> & ?). unfold b_room. cbn. lia.
Qed.

Lemma b_add_0 (st : bstats) : b_add st (0, 0, 0, 0) = st.
Proof. destruct st. cbn. by rewrite !Z.add_0_r. Qed.

(** One request: [run_request] returns and adds the request's increments. *)
Lemma run_request_delta (st : bstats) (t : Z) (e : b_env) (k : nat) (durs : Z) :
  b_room st (S k) (Z.abs (b_dur e) + durs) -> 0 <= durs ->
  exists r, b_run_request st t e = Some r /\ br_stats r = b_add st (b_delta e).
Proof.
  intros Hroom Hd. unfold b_run_request, b_delta.
  destruct (b_socket_ok e); cbn [negb]; [|eexists; split; [reflexivity|]; by rewrite b_add_0].
  destruct (b_connect_ok e); cbn [negb].
  2: { rewrite (bump_add st _ 0 0 k (Z.abs (b_dur e) + durs)) by (done || lia). by eexists. }
  destruct (starts_with _ _); [destruct (b_image e)|destruct (String.eqb _ _)].
  - rewrite (bump_add st _ 0 1 k (Z.abs (b_dur e) + durs)) by (done || lia). by eexists.
  - eexists; split; [reflexivity|]. by rewrite b_add_0.
  - rewrite (bump_add st _ 1 0 k (Z.abs (b_dur e) + durs)) by (done || lia). by eexists.
  - eexists; split; [reflexivity|]. by rewrite b_add_0.
Qed.

Lemma durs_of_nonneg (env : Z -> b_env) (ts : list Z) : 0 <= durs_of env ts.
Proof. unfold durs_of. induction ts; cbn; lia. Qed.

(** What a request adds, by its outcome: a failover, an offload and a
    [DROP] each complete the task once. *)
Lemma b_delta_outcome (e : b_env) :
  b_delta e =
    ((if b_offloaded e then 1 else 0) + (if b_dropped e then 1 else 0) + (if is_failover e then 1 else 0),
     if b_dropped e then 1 else 0, if b_offloaded e then 1 else 0,
     if b_offloaded e || b_dropped e || is_failover e then b_dur e else 0).
Proof.
  unfold b_delta, b_offloaded, b_dropped, is_failover.
  destruct (b_socket_ok e), (b_connect_ok e); cbn; [|done..].
  destruct (starts_with _ _); cbn; [by destruct (b_image e)|]. by destruct (String.eqb _ _).
Qed.

Lemma b_fold_outcomes (env : Z -> b_env) (ts : list Z) (st : bstats) :
  b_fold env ts st =
  {| b_completed := b_completed st + count_ids env b_offloaded ts + count_ids env b_dropped ts +
                    count_ids env is_failover ts;
     b_ran := b_ran st + count_ids env b_dropped ts;
     b_sent := b_sent st + count_ids env b_offloaded ts;
     b_total := b_total st + zsum_with (fun t => if b_offloaded (env t) || b_dropped (env t) || is_failover (env t)
                                                 then b_dur (env t) else 0) ts |}.
Proof.
  unfold b_fold, count_ids. revert st. induction ts as [|t ts IH]; intros st; cbn [foldl].
  - destruct st. cbn. f_equal; lia.
  - rewrite IH, b_delta_outcome. unfold zsum_with. cbn [foldr b_add b_completed b_ran b_sent b_total].
    destruct (b_offloaded (env t)), (b_dropped (env t)), (is_failover (env t)); cbn; f_equal; lia.
Qed.

(** The loop returns, and its counters are the fold of the increments. *)
Lemma basic_loop_fold (env : Z -> b_env) (i : Z) (k : nat) (st : bstats) :
  b_room st k (durs_of env (seqZ i (Z.of_nat k))) ->
  exists fs log, basic_loop env i k st = Some (fs, b_fold env (seqZ i (Z.of_nat k)) st, log).
Proof.
  revert i st. induction k as [|k IH]; intros i st Hroom; [by exists [], []|].
  rewrite Nat2Z.inj_succ, seqZ_cons in * by lia. rewrite Z.pred_succ in *.
  unfold durs_of in Hroom. cbn [foldr] in Hroom. fold (durs_of env (seqZ (Z.succ i) (Z.of_nat k))) in Hroom.
  pose proof (durs_of_nonneg env (seqZ (Z.succ i) (Z.of_nat k))).
  destruct (run_request_delta st i (env i) k _ Hroom ltac:(lia)) as (r & Hr & Hst).
  destruct (IH (i + 1) (br_stats r)) as (fs & log & Hl).
  { rewrite Hst, Z.add_1_r. by apply b_room_add. }
  cbn [basic_loop]. rewrite Hr. cbn. rewrite Hl. cbn. rewrite Hst, Z.add_1_r. by eexists _, _.
Qed.

Lemma b_fold_failover (env : Z -> b_env) (ts : list Z) (st : bstats) :
  b_completed (b_fold env ts st) - b_ran (b_fold env ts st) - b_sent (b_fold env ts st) =
  b_completed st - b_ran st - b_sent st + Z.of_nat (List.length (filter (fun t => is_failover (env t) = true) ts)).
Proof.
  unfold b_fold. revert st. induction ts as [|t ts IH]; intros st; [cbn; lia|].
  cbn [foldl]. rewrite IH, filter_cons. unfold b_add, b_delta, is_failover.
  case_decide as Hf; cbn [List.length]; rewrite ?Nat2Z.inj_succ;
    destruct (b_socket_ok (env t)), (b_connect_ok (env t)); cbn in Hf |- *;
    try discriminate; try (by destruct Hf); repeat case_match; simplify_eq; cbn; lia.
Qed.

(** [run_request] adds the request's increments whenever it returns. *)
Lemma run_request_stats (st : bstats) (t : Z) (e : b_env) (r : b_result) :
  b_run_request st t e = Some r -> br_stats r = b_add st (b_delta e).
Proof.
  unfold b_run_request, b_delta, bump. intros H.
  repeat (case_match; simplify_eq/=; try done); destruct st; cbn; by rewrite !Z.add_0_r.
Qed.

Lemma basic_loop_stats (env : Z -> b_env) (i : Z) (k : nat) (st st' : bstats) fs log :
  basic_loop env i k st = Some (fs, st', log) -> st' = b_fold env (seqZ i (Z.of_nat k)) st.
Proof.
  revert i st fs log. induction k as [|k IH]; intros i st fs log H; cbn in H; [by simplify_eq|].
  apply bind_Some in H as (r & Hr & H). apply bind_Some in H as ([[fs' st''] log'] & Hl & H).
  simplify_eq. rewrite Nat2Z.inj_succ, seqZ_cons, Z.pred_succ by lia.
  rewrite (IH _ _ _ _ Hl), (run_request_stats _ _ _ _ Hr), Z.add_1_r. done.
Qed.

Lemma read_blocks_concat (f : nat) (data : list Z) :
  (List.length data / BLOCK < f)%nat ->
  List.concat (read_blocks f data) = take (BLOCK * (List.length data / BLOCK)) data.
Proof.
  revert data. induction f as [|f IH]; intros data Hf; [lia|]. cbn [read_blocks].
  destruct (Nat.leb_spec BLOCK (List.length data)) as [Hle|Hlt].
  - cbn [List.concat]. rewrite IH; rewrite length_drop.
    + rewrite take_take_drop. f_equal.
      replace (List.length data) with (1 * BLOCK + (List.length data - BLOCK))%nat at 2 by lia.
      rewrite Nat.div_add_l by (unfold BLOCK; lia). lia.
    + replace (List.length data) with (1 * BLOCK + (List.length data - BLOCK))%nat in Hf by lia.
      rewrite Nat.div_add_l in Hf by (unfold BLOCK; lia). lia.
  - rewrite Nat.div_small by done. by rewrite Nat.mul_0_r, take_0.
Qed.

Lemma grant_cstring (p : Z) : recv_cstring 255 (grant_msg p) = grant_msg p.
Proof.
  apply recv_cstring_whole; [apply grant_msg_length|].
  unfold grant_msg. rewrite all_chars_app, to_string_no by reflexivity. reflexivity.
Qed.

(** ** Theorems *)

(** C36: the image loop never sends the last, partial block: the bytes
    written after the OK frame are the first [4096 * (size / 4096)] bytes
    of the image, so [size mod 4096] bytes are lost (all of them for an
    image under 4 kB). *)
Theorem basic_image_tail_lost (img : list Z) :
  List.concat (read_blocks (S (List.length img)) img) = take (BLOCK * (List.length img / BLOCK)) img.
Proof.
  apply read_blocks_concat. unfold BLOCK.
  pose proof (Nat.div_mod (List.length img) 4096 ltac:(lia)). lia.
Qed.

(** C37: [main] runs the requests one after the other: when the counters
    cannot overflow, it returns, [sent_to_ec] is the number of ids the EC
    granted whose image opened, [ran_on_ed] the number answered [DROP],
    [completed_tasks] adds the ids whose [connect] failed to both, and
    [total_latency_ms] sums the durations of those three kinds of ids. *)
Theorem basic_final_counters (env : Z -> b_env) (total_requests : Z) :
  Z.max 0 total_requests <= INT_MAX ->
  durs_of env (seqZ 0 (Z.max 0 total_requests)) <= LONG_MAX ->
  exists fs st log, basic_main env total_requests = Some (fs, st, log) /\
    b_sent st = count_ids env b_offloaded (seqZ 0 (Z.max 0 total_requests)) /\
    b_ran st = count_ids env b_dropped (seqZ 0 (Z.max 0 total_requests)) /\
    b_completed st = b_sent st + b_ran st + count_ids env is_failover (seqZ 0 (Z.max 0 total_requests)) /\
    b_total st = zsum_with (fun t => if b_offloaded (env t) || b_dropped (env t) || is_failover (env t)
                                     then b_dur (env t) else 0) (seqZ 0 (Z.max 0 total_requests)).
Proof.
  intros Hn Hd. unfold basic_main.
  replace (Z.max 0 total_requests) with (Z.of_nat (Z.to_nat total_requests)) in * by lia.
  destruct (basic_loop_fold env 0 (Z.to_nat total_requests) bstats0) as (fs & log & Hl);
    [unfold b_room; cbn; lia|].
  eexists fs, _, log. split; [exact Hl|]. rewrite b_fold_outcomes. cbn. lia.
Qed.

(** A refused connection is counted as completed but neither as run
    locally nor as sent: whenever [main] returns, [completed_tasks] is
    [ran_on_ed + sent_to_ec] plus the number of ids whose connection
    failed, so the printed split does not add up to the total. *)
Theorem basic_failover_not_ran (env : Z -> b_env) (total_requests : Z) fs (st : bstats) log :
  basic_main env total_requests = Some (fs, st, log) ->
  b_completed st = b_ran st + b_sent st +
    Z.of_nat (List.length (filter (fun t => is_failover (env t) = true) (seqZ 0 (Z.max 0 total_requests)))).
Proof.
  intros H. apply basic_loop_stats in H as ->.
  replace (Z.of_nat (Z.to_nat total_requests)) with (Z.max 0 total_requests) by lia.
  pose proof (b_fold_failover env (seqZ 0 (Z.max 0 total_requests)) bstats0) as Hb.
  cbn [bstats0 b_completed b_ran b_sent] in Hb. lia.
Qed.

(** On [GRANT:<p>] the client acknowledges with [OK:<p>:<id>]
    (the token read back by [substr(6)]) and sends the image blocks,
    counting the task as sent. *)
Theorem basic_ok_echoes_grant (st st' : bstats) (t p dur : Z) (img : list Z) :
  bump st dur 0 1 = Some st' ->
  b_run_request st t {| b_socket_ok := true; b_connect_ok := true; b_reply := grant_msg p;
                      b_image := Some img; b_dur := dur |} =
  Some {| br_frames := [BText (req_msg t); BText (ok_msg (to_string p) t)] ++ image_frames img;
          br_stats := st';
          br_log := ["[ED_SENT] token_ed=" +s+ to_string t +s+ " token_ec=" +s+ to_string p
                     +s+ " duration=" +s+ to_string dur +s+ " ms"] |}.
Proof.
  intros Hb. unfold b_run_request. cbn [negb b_socket_ok b_connect_ok b_reply b_image b_dur].
  assert (starts_with "GRANT:" (grant_msg p) = true) as Hp by apply prefix_app.
  assert (substr (grant_msg p) 6 None = Some (to_string p)) as Hs
    by exact (substr_suffix "GRANT:" (to_string p)).
  rewrite grant_cstring, Hp, Hs. cbn [default]. by rewrite Hb.
Qed.

Lemma basic_final_counters_witness :
  Z.max 0 2 <= INT_MAX /\ durs_of refused_env (seqZ 0 (Z.max 0 2)) <= LONG_MAX /\
  exists fs st log, basic_main refused_env 2 = Some (fs, st, log) /\
    b_sent st = count_ids refused_env b_offloaded (seqZ 0 (Z.max 0 2)) /\
    b_ran st = count_ids refused_env b_dropped (seqZ 0 (Z.max 0 2)) /\
    b_completed st = b_sent st + b_ran st + count_ids refused_env is_failover (seqZ 0 (Z.max 0 2)) /\
    b_total st = zsum_with (fun t => if b_offloaded (refused_env t) || b_dropped (refused_env t) ||
                                        is_failover (refused_env t) then b_dur (refused_env t) else 0)
                   (seqZ 0 (Z.max 0 2)).
Proof.
  assert (Z.max 0 2 <= INT_MAX) as H1 by (vm_compute; discriminate).
  assert (durs_of refused_env (seqZ 0 (Z.max 0 2)) <= LONG_MAX) as H2 by (vm_compute; discriminate).
  split; [exact H1|]. split; [exact H2|]. exact (basic_final_counters refused_env 2 H1 H2).
Defined.

Local Abbreviation refused_run := (default ([], bstats0, []) (basic_main refused_env 2)).

Lemma basic_failover_not_ran_witness :
  basic_main refused_env 2 = Some (refused_run.1.1, refused_run.1.2, refused_run.2) /\
  b_completed refused_run.1.2 = b_ran refused_run.1.2 + b_sent refused_run.1.2 +
    Z.of_nat (List.length (filter (fun t => is_failover (refused_env t) = true) (seqZ 0 (Z.max 0 2)))).
Proof.
  assert (basic_main refused_env 2 = Some (refused_run.1.1, refused_run.1.2, refused_run.2)) as H
    by (vm_compute; reflexivity).
  split; [exact H|]. exact (basic_failover_not_ran refused_env 2 _ _ _ H).
Defined.

Lemma basic_ok_echoes_grant_witness :
  bump bstats0 5 0 1 = Some {| b_completed := 1; b_ran := 0; b_sent := 1; b_total := 5 |} /\
  b_run_request bstats0 3 {| b_socket_ok := true; b_connect_ok := true; b_reply := grant_msg 7;
                           b_image := Some [1; 2]; b_dur := 5 |} =
  Some {| br_frames := [BText (req_msg 3); BText (ok_msg (to_string 7) 3)] ++ image_frames [1; 2];
          br_stats := {| b_completed := 1; b_ran := 0; b_sent := 1; b_total := 5 |};
          br_log := ["[ED_SENT] token_ed=" +s+ to_string 3 +s+ " token_ec=" +s+ to_string 7
                     +s+ " duration=" +s+ to_string 5 +s+ " ms"] |}.
Proof.
  assert (bump bstats0 5 0 1 = Some {| b_completed := 1; b_ran := 0; b_sent := 1; b_total := 5 |}) as H
    by (vm_compute; reflexivity).
  split; [exact H|]. exact (basic_ok_echoes_grant _ _ 3 7 5 [1; 2] H).
Defined.
