(* ===== verification/Sim.v ===== *)
(** * Sim: the ED variant whose workers draw their ids themselves

    Source: src/Experiment_May15/ed_oms_parallel_rn50_simulation_working.cpp.
    [main] (lines 162-225) starts the helper feeder [local_run_dispatch]
    (147-160) and 32 workers; each worker loops: under a function-local
    [static std::mutex m] it reads and increments the [static int next],
    returns once [next >= total_requests] (lines 182-188), else runs
    [run_request(token)] (57-145).  After joining the workers [main] sets
    [stop_local] and joins the feeder.

    [run_request] sends the whole image (the partial last block too,
    lines 101-105), shuts the socket down for writing and waits for the
    EC's reply; every failure before the reply (socket, connect, recv)
    queues the task for the helper without counting it.

    As in [Pressure], every locked block is one step of a partial step
    function [s_step]; the thread-local part of [run_request] (socket,
    frames, replies) is one step that fixes the path the thread then
    follows through the shared blocks.  A ghost list records the ids in
    the order the workers drew them and the ids whose [run_request] has
    returned.

    The invariant [s_inv] (ids drawn = [seqZ 0 next], a permutation of
    the finished and running ids; each counter the sum over finished ids
    plus what running workers have added) is preserved by every step
    ([s_step_inv]); [s_measure] decreases at each step; [s_progress]
    shows that a state that is not final has a step.  The theorems are
    C38-C40 and [sim_ids_run_once].  Not modelled: the argument parsing,
    the [sleep_for] between requests (every interleaving is allowed instead) and [popen]. *)

From Stdlib Require Import SpecFloat.
From S2P Require Import Prelude CppString Double Wire Client LocalExec Driver Stats.

Open Scope oms_scope.

(** ** Data *)

(** What the network and the disk do for one request: [socket()] fails,
    [connect] fails, or the reply bytes arrive (empty: [recv <= 0]), with
    the image file ([None]: it does not open), the bytes of the EC's
    final reply (empty: [recv <= 0]) and the measured duration. *)
Inductive s_outcome :=
  | SSocketFail
  | SConnectFail
  | SReply (bytes : string) (image : option (list Z)) (done_bytes : string) (dur : Z).

(** Which counter block a thread will run. *)
Inductive s_kind := KSent (token_ec : string) | KDrop.

(** Where a thread is in [run_request]. *)
Inductive rpc :=
  | RStart                                   (** before [socket()] *)
  | REnq (next : option (s_kind * Z))        (** about to [enqueue_local_run(IMAGE)] *)
  | RCount (k : s_kind) (dur : Z)            (** about to update the counters *)
  | RLog (k : s_kind) (dur : Z)              (** about to [log_result] *)
  | REnd.                                    (** about to return *)

Inductive wpc :=
  | WIdle                      (** at the top of the worker loop *)
  | WRun (token : Z) (pc : rpc)
  | WExited.

(** A write to the socket. *)
Inductive sframe := SText (s : string) | SBytes (b : list Z) | SShutdown.

Record sstate := {
  s_completed : Z;
  s_ran : Z;
  s_sent : Z;
  s_total : Z;
  s_queue : list string;
  s_log : list string;
  s_workers : list wpc;
  s_next : Z;                  (** the [static int next] *)
  s_taken : list Z;            (** ghost: ids drawn, in order *)
  s_finished : list Z;         (** ghost: ids whose [run_request] returned *)
  s_py_in : list string;
  s_stop : bool;
  s_py_exited : bool
}.

Definition s_thread_pool_size : nat := 32.

Definition s_init : sstate :=
  {| s_completed := 0; s_ran := 0; s_sent := 0; s_total := 0; s_queue := []; s_log := [];
     s_workers := replicate s_thread_pool_size WIdle; s_next := 0; s_taken := []; s_finished := [];
     s_py_in := []; s_stop := false; s_py_exited := false |}.

Definition s_IMAGE : string := "COCO_test_1220/000000006321.jpg".

Definition s_lf : string := String (ascii_of_nat 10) EmptyString.

Inductive s_event := SWorker (i : nat) | SDispatch | SJoin.

(** ** The image loop *)

(** [while (file.read(img_buf, sizeof(img_buf))) send(..); if
    (file.gcount() > 0) send(..);] (lines 100-105), for a buffer of
    [bufsz] bytes: the full blocks, then the partial one. *)
Fixpoint sim_blocks (bufsz fuel : nat) (data : list Z) : list (list Z) :=
  match fuel with
  | O => []
  | S f =>
      if (bufsz <=? List.length data)%nat then take bufsz data :: sim_blocks bufsz f (drop bufsz data)
      else if (0 <? List.length data)%nat then [data] else []
  end.

(** [char img_buf[4096]] (line 100). *)
Definition IMG_BUF : nat := 4096.

(** ** The thread-local part of [run_request] *)

(** The frames written and the path taken up to the first shared block. *)
Definition s_local (token_ed : Z) (out : s_outcome) : list sframe * rpc :=
  match out with
  | SSocketFail => ([], REnq None)
  | SConnectFail => ([], REnq None)
  | SReply bytes image done_bytes dur =>
      let req := SText (req_msg token_ed) in
      let response := recv_bytes 255 bytes in
      if (String.length response =? 0)%nat then ([req], REnq None)
      else if starts_with "GRANT:" response then
        let token_ec := default EmptyString (substr response 6 None) in
        let ok := SText (ok_msg token_ec token_ed) in
        match image with
        | None => ([req; ok], REnd)
        | Some img =>
            let frames := [req; ok] ++ (SBytes <$> sim_blocks IMG_BUF (S (List.length img)) img) ++ [SShutdown] in
            if (String.length (recv_bytes 15 done_bytes) =? 0)%nat then (frames, REnd)
            else (frames, RCount (KSent token_ec) dur)
        end
      else if String.eqb response "DROP" then ([req], REnq (Some (KDrop, dur)))
      else ([req], REnd)
  end.

Definition s_log_entry (token_ed : Z) (k : s_kind) (dur : Z) : string :=
  match k with
  | KSent token_ec =>
      "[ED_SENT] token_ed=" +s+ to_string token_ed +s+ " token_ec=" +s+ token_ec
        +s+ " duration=" +s+ to_string dur +s+ " ms"
  | KDrop => "[ED_FALLBACK] token_ed=" +s+ to_string token_ed +s+ " duration=" +s+ to_string dur +s+ " ms"
  end.

(** ** Updates *)

Definition s_upd_worker (s : sstate) (i : nat) (w : wpc) : sstate :=
  {| s_completed := s_completed s; s_ran := s_ran s; s_sent := s_sent s; s_total := s_total s;
     s_queue := s_queue s; s_log := s_log s; s_workers := <[i := w]> (s_workers s);
     s_next := s_next s; s_taken := s_taken s; s_finished := s_finished s;
     s_py_in := s_py_in s; s_stop := s_stop s; s_py_exited := s_py_exited s |}.

(** [token = next++] under [m]. *)
Definition draw (s : sstate) : sstate :=
  {| s_completed := s_completed s; s_ran := s_ran s; s_sent := s_sent s; s_total := s_total s;
     s_queue := s_queue s; s_log := s_log s; s_workers := s_workers s;
     s_next := s_next s + 1; s_taken := s_taken s ++ [s_next s]; s_finished := s_finished s;
     s_py_in := s_py_in s; s_stop := s_stop s; s_py_exited := s_py_exited s |}.

(** [enqueue_local_run] (lines 49-55). *)
Definition push_local (s : sstate) : sstate :=
  {| s_completed := s_completed s; s_ran := s_ran s; s_sent := s_sent s; s_total := s_total s;
     s_queue := s_queue s ++ [s_IMAGE]; s_log := s_log s; s_workers := s_workers s;
     s_next := s_next s; s_taken := s_taken s; s_finished := s_finished s;
     s_py_in := s_py_in s; s_stop := s_stop s; s_py_exited := s_py_exited s |}.

(** The counter blocks of lines 119-124 and 134-139. *)
Definition count (s : sstate) (k : s_kind) (dur : Z) : sstate :=
  {| s_completed := s_completed s + 1;
     s_ran := s_ran s + (match k with KDrop => 1 | KSent _ => 0 end);
     s_sent := s_sent s + (match k with KSent _ => 1 | KDrop => 0 end);
     s_total := s_total s + dur; s_queue := s_queue s; s_log := s_log s; s_workers := s_workers s;
     s_next := s_next s; s_taken := s_taken s; s_finished := s_finished s;
     s_py_in := s_py_in s; s_stop := s_stop s; s_py_exited := s_py_exited s |}.

Definition add_log (s : sstate) (entry : string) : sstate :=
  {| s_completed := s_completed s; s_ran := s_ran s; s_sent := s_sent s; s_total := s_total s;
     s_queue := s_queue s; s_log := s_log s ++ [entry]; s_workers := s_workers s;
     s_next := s_next s; s_taken := s_taken s; s_finished := s_finished s;
     s_py_in := s_py_in s; s_stop := s_stop s; s_py_exited := s_py_exited s |}.

Definition finish (s : sstate) (t : Z) : sstate :=
  {| s_completed := s_completed s; s_ran := s_ran s; s_sent := s_sent s; s_total := s_total s;
     s_queue := s_queue s; s_log := s_log s; s_workers := s_workers s;
     s_next := s_next s; s_taken := s_taken s; s_finished := s_finished s ++ [t];
     s_py_in := s_py_in s; s_stop := s_stop s; s_py_exited := s_py_exited s |}.

Definition feed (s : sstate) (q : list string) (line : string) : sstate :=
  {| s_completed := s_completed s; s_ran := s_ran s; s_sent := s_sent s; s_total := s_total s;
     s_queue := q; s_log := s_log s; s_workers := s_workers s;
     s_next := s_next s; s_taken := s_taken s; s_finished := s_finished s;
     s_py_in := s_py_in s ++ [line]; s_stop := s_stop s; s_py_exited := s_py_exited s |}.

Definition set_flags (s : sstate) (stop exited : bool) : sstate :=
  {| s_completed := s_completed s; s_ran := s_ran s; s_sent := s_sent s; s_total := s_total s;
     s_queue := s_queue s; s_log := s_log s; s_workers := s_workers s;
     s_next := s_next s; s_taken := s_taken s; s_finished := s_finished s;
     s_py_in := s_py_in s; s_stop := stop; s_py_exited := exited |}.

Definition is_exited (w : wpc) : bool := match w with WExited => true | _ => false end.

Section Sim.

Variable total_requests : Z.
Variable env : Z -> s_outcome.

(** One step of worker [i]. *)
Definition worker_step (s : sstate) (i : nat) (w : wpc) : option sstate :=
  match w with
  | WIdle =>
      if total_requests <=? s_next s then Some (s_upd_worker s i WExited)
      else Some (s_upd_worker (draw s) i (WRun (s_next s) RStart))
  | WRun t RStart => Some (s_upd_worker s i (WRun t (s_local t (env t)).2))
  | WRun t (REnq nxt) =>
      Some (s_upd_worker (push_local s) i
              (WRun t (match nxt with Some (k, dur) => RCount k dur | None => REnd end)))
  | WRun t (RCount k dur) =>
      let s' := count s k dur in
      if in_int (s_completed s') && in_int (s_ran s') && in_int (s_sent s') && in_long (s_total s')
      then Some (s_upd_worker s' i (WRun t (RLog k dur)))
      else None
  | WRun t (RLog k dur) => Some (s_upd_worker (add_log s (s_log_entry t k dur)) i (WRun t REnd))
  | WRun t REnd => Some (s_upd_worker (finish s t) i WIdle)
  | WExited => None
  end.

Definition s_step (s : sstate) (ev : s_event) : option sstate :=
  match ev with
  | SWorker i => w ← s_workers s !! i; worker_step s i w
  | SDispatch =>
      if s_py_exited s then None else
      match s_queue s with
      | img :: q => Some (feed s q (img +s+ s_lf))
      | [] => if s_stop s then Some (set_flags s true true) else None
      end
  | SJoin =>
      if forallb is_exited (s_workers s) && negb (s_stop s)
      then Some (set_flags s true (s_py_exited s))
      else None
  end.

Fixpoint s_run (s : sstate) (evs : list s_event) : option sstate :=
  match evs with
  | [] => Some s
  | ev :: evs' => s' ← s_step s ev; s_run s' evs'
  end.

Definition s_steps (s s' : sstate) : Prop := exists ev, s_step s ev = Some s'.
Definition s_reachable (s : sstate) : Prop := rtc s_steps s_init s.

Definition s_final (s : sstate) : bool := s_stop s && s_py_exited s.

End Sim.

(** What [main] prints under [stats_mutex] (lines 205-221): the three
    counters, the two percentages in binary64 as in the sequential
    variant ([Stats.percent]) and [total_latency_ms / completed_tasks]
    ([long / int], truncated toward zero; [0] when nothing completed). *)
Record s_report := {
  sr_completed : Z; sr_sent : Z; sr_ran : Z;
  sr_pct_ed : spec_float; sr_pct_ec : spec_float; sr_avg : Z
}.

Definition s_final_report (s : sstate) : s_report :=
  {| sr_completed := s_completed s; sr_sent := s_sent s; sr_ran := s_ran s;
     sr_pct_ed := percent (s_ran s) (s_completed s); sr_pct_ec := percent (s_sent s) (s_completed s);
     sr_avg := if s_completed s =? 0 then 0 else Z.quot (s_total s) (s_completed s) |}.

(** ** Observations and invariants *)

#[export] Instance s_kind_eq_dec : EqDecision s_kind.
Proof. solve_decision. Defined.
#[export] Instance rpc_eq_dec : EqDecision rpc.
Proof. solve_decision. Defined.

(** The path [run_request] takes for an outcome. *)
Definition s_path (out : s_outcome) : rpc := (s_local 0 out).2.

(** The counter block an outcome leads to, and whether it queues a local run. *)
Definition path_count (p : rpc) : option (s_kind * Z) :=
  match p with REnq (Some kd) => Some kd | RCount k d => Some (k, d) | _ => None end.
Definition path_enq (p : rpc) : Z := match p with REnq _ => 1 | _ => 0 end.

Definition c_of (out : s_outcome) : Z := match path_count (s_path out) with Some _ => 1 | None => 0 end.
Definition r_of (out : s_outcome) : Z :=
  match path_count (s_path out) with Some (KDrop, _) => 1 | _ => 0 end.
Definition t_of (out : s_outcome) : Z :=
  match path_count (s_path out) with Some (KSent _, _) => 1 | _ => 0 end.
Definition d_of (out : s_outcome) : Z :=
  match path_count (s_path out) with Some (_, d) => d | None => 0 end.
Definition q_of (out : s_outcome) : Z := path_enq (s_path out).

(** [pc] lies on the path for [out]. *)
Definition on_path (out : s_outcome) (pc : rpc) : bool :=
  match pc with
  | RStart | REnd => true
  | REnq n => bool_decide (s_path out = REnq n)
  | RCount k d | RLog k d =>
      bool_decide (s_path out = REnq (Some (k, d))) || bool_decide (s_path out = RCount k d)
  end.

Definition counted_yet (pc : rpc) : bool := match pc with RLog _ _ | REnd => true | _ => false end.
Definition queued_yet (pc : rpc) : bool :=
  match pc with RCount _ _ | RLog _ _ | REnd => true | _ => false end.

Section Invariant.

Variable total_requests : Z.
Variable env : Z -> s_outcome.

(** What worker [w] has added so far, by the measure [f] of its id. *)
Definition w_part (yet : rpc -> bool) (f : s_outcome -> Z) (w : wpc) : Z :=
  match w with WRun t pc => if yet pc then f (env t) else 0 | _ => 0 end.

Definition running (w : wpc) : list Z := match w with WRun t _ => [t] | _ => [] end.

(** A counter is the sum over the finished ids and the running workers. *)
Definition tallies (f : s_outcome -> Z) (yet : rpc -> bool) (s : sstate) (v : Z) : Prop :=
  v = zsum_with (fun t => f (env t)) (s_finished s) + zsum_with (w_part yet f) (s_workers s).

(** What updating a worker from [w] to [w'], with the ids [fin] newly
    finished, adds to a counter. *)
Definition dv (yet : rpc -> bool) (f : s_outcome -> Z) (w w' : wpc) (fin : list Z) : Z :=
  - w_part yet f w + w_part yet f w' + zsum_with (fun t => f (env t)) fin.

Definition inv_ids (s : sstate) : Prop :=
  s_taken s = seqZ 0 (s_next s) /\ 0 <= s_next s <= Z.max 0 total_requests /\
  s_taken s ≡ₚ s_finished s ++ List.concat (running <$> s_workers s).

Definition inv_workers (s : sstate) : Prop :=
  List.length (s_workers s) = s_thread_pool_size /\
  (forall i t pc, s_workers s !! i = Some (WRun t pc) -> on_path (env t) pc = true) /\
  (forall i, s_workers s !! i = Some WExited -> total_requests <= s_next s).

Definition inv_counts (s : sstate) : Prop :=
  tallies c_of counted_yet s (s_completed s) /\ tallies r_of counted_yet s (s_ran s) /\
  tallies t_of counted_yet s (s_sent s) /\ tallies d_of counted_yet s (s_total s) /\
  tallies q_of queued_yet s (Z.of_nat (List.length (s_queue s) + List.length (s_py_in s))) /\
  s_queue s = replicate (List.length (s_queue s)) s_IMAGE /\
  s_py_in s = replicate (List.length (s_py_in s)) (s_IMAGE +s+ s_lf).

Definition inv_flags (s : sstate) : Prop :=
  (s_stop s = true -> forallb is_exited (s_workers s) = true) /\
  (s_py_exited s = true -> s_stop s = true /\ s_queue s = []).

Definition s_inv (s : sstate) : Prop := inv_ids s /\ inv_workers s /\ inv_counts s /\ inv_flags s.

End Invariant.

(** ** The ids by outcome, and the work left *)

Definition s_ids (total_requests : Z) : list Z := seqZ 0 (Z.max 0 total_requests).

Definition rpc_weight (pc : rpc) : nat :=
  match pc with
  | RStart => 7 | REnq (Some _) => 6 | REnq None => 4 | RCount _ _ => 4 | RLog _ _ => 3 | REnd => 2
  end.

Definition w_weight (w : wpc) : nat :=
  match w with WIdle => 1 | WRun _ pc => rpc_weight pc | WExited => 0 end.

(** Steps left: eight per id not yet drawn, what each worker may still
    do, one feeder turn per queued line, the join and the feeder's exit. *)
Definition s_measure (total_requests : Z) (s : sstate) : nat :=
  (8 * (Z.to_nat total_requests - Z.to_nat (s_next s)) + sum_list_with w_weight (s_workers s)
   + List.length (s_queue s) + (if s_stop s then 0 else 1) + (if s_py_exited s then 0 else 1))%nat.

(** ** A sample run *)

(** Id 0 is granted and its 3-byte image sent and acknowledged, id 1 is
    refused with DROP, the connection of id 2 fails. *)
Definition sim_env (t : Z) : s_outcome :=
  if t =? 0 then SReply "GRANT:0" (Some [1; 2; 3]) "DONE" 50
  else if t =? 1 then SReply "DROP" None EmptyString 20
  else SConnectFail.

(** Worker 0 handles the three ids in turn, the other workers find
    nothing left; the feeder writes the two queued lines. *)
Definition sim_events : list s_event :=
  repeat (SWorker 0) 16 ++ (SWorker <$> seq 1 31) ++ [SDispatch; SDispatch; SJoin; SDispatch].

(** ** Lemmas: paths *)

Lemma s_local_path (t : Z) (out : s_outcome) : (s_local t out).2 = s_path out.
Proof.
  unfold s_path, s_local. destruct out as [| |bytes image done_bytes dur]; [done|done|].
  destruct (String.length (recv_bytes 255 bytes) =? 0)%nat; [done|].
  destruct (starts_with _ _); [|destruct (String.eqb _ _); done].
  destruct image; [|done]. by destruct (_ =? 0)%nat.
Qed.

Lemma s_path_cases (out : s_outcome) :
  s_path out = REnq None \/ (exists d, s_path out = REnq (Some (KDrop, d))) \/
  (exists k d, s_path out = RCount k d) \/ s_path out = REnd.
Proof.
  unfold s_path, s_local. destruct out as [| |bytes image done_bytes dur]; [auto|auto|].
  destruct (String.length (recv_bytes 255 bytes) =? 0)%nat; [auto|].
  destruct (starts_with _ _); [|destruct (String.eqb _ _); eauto 10].
  destruct image; [|auto]. destruct (_ =? 0)%nat; eauto 10.
Qed.

Lemma on_path_start (out : s_outcome) : on_path out (s_path out) = true.
Proof.
  destruct (s_path_cases out) as [E|[[d E]|[[k [d E]]|E]]]; rewrite E; cbn.
  - by apply bool_decide_eq_true_2.
  - by apply bool_decide_eq_true_2.
  - apply orb_true_intro. right. by apply bool_decide_eq_true_2.
  - done.
Qed.

(** The first step adds nothing to any counter. *)
Lemma start_part_zero (yet : rpc -> bool) (f : s_outcome -> Z) (out : s_outcome) :
  (yet = counted_yet /\ (f = c_of \/ f = r_of \/ f = t_of \/ f = d_of)) \/ (yet = queued_yet /\ f = q_of) ->
  (if yet (s_path out) then f out else 0) = 0.
Proof.
  intros Hyf.
  destruct Hyf as [[-> [-> | [-> | [-> | ->]]]] | [-> ->]]; unfold c_of, r_of, t_of, d_of, q_of;
    destruct (s_path_cases out) as [E|[[d E]|[[k [d E]]|E]]]; rewrite E; cbn; try done;
    destruct k; done.
Qed.

Lemma path_count_on (out : s_outcome) (pc : rpc) (k : s_kind) (d : Z) :
  (pc = RCount k d \/ pc = RLog k d) -> on_path out pc = true ->
  path_count (s_path out) = Some (k, d).
Proof.
  intros [-> | ->] H; cbn in H; apply orb_true_iff in H as [H|H];
    apply bool_decide_eq_true in H; by rewrite H.
Qed.

Lemma counts_some (out : s_outcome) (k : s_kind) (d : Z) :
  path_count (s_path out) = Some (k, d) ->
  c_of out = 1 /\ r_of out = (match k with KDrop => 1 | _ => 0 end) /\
  t_of out = (match k with KSent _ => 1 | _ => 0 end) /\ d_of out = d.
Proof. unfold c_of, r_of, t_of, d_of. intros ->. by destruct k. Qed.

Lemma counts_none (out : s_outcome) :
  path_count (s_path out) = None -> c_of out = 0 /\ r_of out = 0 /\ t_of out = 0 /\ d_of out = 0.
Proof. unfold c_of, r_of, t_of, d_of. by intros ->. Qed.

Section Steps.

Variable total_requests : Z.
Variable env : Z -> s_outcome.

Local Abbreviation inv := (s_inv total_requests env).
Local Abbreviation tal := (tallies env).

Lemma tallies_upd (f : s_outcome -> Z) (yet : rpc -> bool) (s s0 : sstate) (i : nat) (w w' : wpc)
    (fin : list Z) (v v0 : Z) :
  s_workers s !! i = Some w -> s_workers s0 = s_workers s -> s_finished s0 = s_finished s ++ fin ->
  tal f yet s v ->
  v0 = v - w_part env yet f w + w_part env yet f w' + zsum_with (fun t => f (env t)) fin ->
  tal f yet (s_upd_worker s0 i w') v0.
Proof.
  intros Hi Hw Hf Hv ->. unfold tallies in *. cbn [s_upd_worker s_workers s_finished].
  rewrite Hw, Hf, zsum_with_app, (zsum_with_insert _ _ _ _ w' Hi). lia.
Qed.

(** A running worker means [main] has not set [stop_local]. *)
Lemma worker_not_stopped (s : sstate) (i : nat) (w : wpc) :
  inv s -> s_workers s !! i = Some w -> is_exited w = false ->
  s_stop s = false /\ s_py_exited s = false.
Proof.
  intros (_ & _ & _ & Hstop & Hexit) Hi Hw.
  destruct (s_stop s) eqn:Es.
  - specialize (Hstop eq_refl). by rewrite (forallb_lookup_false _ _ i w) in Hstop.
  - split; [done|]. destruct (s_py_exited s) eqn:Ee; [|done]. by destruct (Hexit eq_refl).
Qed.

Lemma ids_upd (s s0 : sstate) (i : nat) (w w' : wpc) (fin new : list Z) :
  s_workers s !! i = Some w -> s_finished s0 = s_finished s ++ fin -> s_taken s0 = s_taken s ++ new ->
  fin ++ running w' ≡ₚ new ++ running w ->
  s_taken s ≡ₚ s_finished s ++ List.concat (running <$> s_workers s) ->
  s_taken s0 ≡ₚ s_finished s0 ++ List.concat (running <$> <[i:=w']> (s_workers s)).
Proof.
  intros Hi Hf Ht Hfin Hperm. rewrite Hf, Ht.
  apply (Permutation_app_inv_r (running w)).
  rewrite <- !(assoc_L (++)), (concat_fmap_insert _ _ _ _ w' Hi), Hperm.
  rewrite <- !(assoc_L (++)), <- Hfin. solve_Permutation.
Qed.

(** Updating worker [i] keeps the invariant when the ghost lists, the
    counter [next] and the new worker's path are consistent. *)
Lemma upd_inv (s s0 : sstate) (i : nat) (w w' : wpc) (fin new : list Z) :
  inv s -> s_workers s !! i = Some w -> is_exited w = false ->
  s_workers s0 = s_workers s -> s_finished s0 = s_finished s ++ fin -> s_taken s0 = s_taken s ++ new ->
  s_stop s0 = s_stop s -> s_py_exited s0 = s_py_exited s ->
  s_taken s0 = seqZ 0 (s_next s0) -> 0 <= s_next s0 <= Z.max 0 total_requests -> s_next s <= s_next s0 ->
  fin ++ running w' ≡ₚ new ++ running w ->
  (forall t pc, w' = WRun t pc -> on_path (env t) pc = true) ->
  (w' = WExited -> total_requests <= s_next s0) ->
  inv_counts env (s_upd_worker s0 i w') ->
  inv (s_upd_worker s0 i w').
Proof.
  intros Hinv Hi Hw Hw0 Hf Ht Hst Hex Htk Hnx Hle Hfin Hon' Hex' Hcounts.
  destruct (worker_not_stopped s i w Hinv Hi Hw) as [Hs He].
  destruct Hinv as ((_ & _ & Hperm) & (Hlen & Hon & Hexw) & _ & _).
  split; [|split; [|split; [exact Hcounts|]]]; unfold inv_ids, inv_workers, inv_flags;
    split_and!; cbn [s_upd_worker s_taken s_next s_workers s_stop s_py_exited s_finished s_queue];
    rewrite ?Hw0; try done; try lia.
  - by apply (ids_upd s s0 i w w' fin new).
  - by rewrite length_insert.
  - intros j t pc Hj. apply list_lookup_insert_Some in Hj as [(-> & -> & _)|[_ Hj]]; eauto.
  - intros j Hj. apply list_lookup_insert_Some in Hj as [(-> & -> & _)|[_ Hj]]; [auto|].
    specialize (Hexw j Hj). lia.
  - by rewrite Hst, Hs.
  - by rewrite Hex, He.
Qed.


Lemma counts_upd (s s0 : sstate) (i : nat) (w w' : wpc) (fin : list Z) :
  inv_counts env s -> s_workers s !! i = Some w ->
  s_workers s0 = s_workers s -> s_finished s0 = s_finished s ++ fin ->
  s_completed s0 = s_completed s + dv env counted_yet c_of w w' fin ->
  s_ran s0 = s_ran s + dv env counted_yet r_of w w' fin ->
  s_sent s0 = s_sent s + dv env counted_yet t_of w w' fin ->
  s_total s0 = s_total s + dv env counted_yet d_of w w' fin ->
  Z.of_nat (List.length (s_queue s0) + List.length (s_py_in s0)) =
    Z.of_nat (List.length (s_queue s) + List.length (s_py_in s)) + dv env queued_yet q_of w w' fin ->
  s_queue s0 = replicate (List.length (s_queue s0)) s_IMAGE ->
  s_py_in s0 = replicate (List.length (s_py_in s0)) (s_IMAGE +s+ s_lf) ->
  inv_counts env (s_upd_worker s0 i w').
Proof.
  unfold dv. intros (Hc & Hr & Ht & Hd & Hq & _) Hi Hw Hf Ec Er Et Ed Eq Rq Rp.
  split_and!; cbn [s_upd_worker s_completed s_ran s_sent s_total s_queue s_py_in]; try done;
    eapply tallies_upd; eauto; lia.
Qed.

Ltac side_tac := try done; try lia; try (by intros ?? [= <- <-]).

Ltac dv_tac := unfold dv; cbn [w_part counted_yet queued_yet zsum_with foldr draw push_local count add_log finish
  s_completed s_ran s_sent s_total s_queue s_py_in]; rewrite ?length_app; cbn [Datatypes.length]; lia.

Lemma worker_step_inv (s s' : sstate) (i : nat) (w : wpc) :
  inv s -> s_workers s !! i = Some w -> worker_step total_requests env s i w = Some s' -> inv s'.
Proof.
  intros Hinv Hi Hstep. pose proof Hinv as (Hids & (_ & Hon & _) & Hcnt & _).
  destruct Hids as (Htk & Hnx & _). pose proof Hcnt as (_ & _ & _ & _ & _ & Rq & Rp).
  destruct w as [|t pc|]; [|destruct pc as [|nxt|k d|k d|]|done]; cbn in Hstep.
  - (* top of the worker loop *)
    destruct (total_requests <=? s_next s) eqn:E; injection Hstep as <-.
    + apply (upd_inv s s i WIdle WExited [] []); rewrite ?app_nil_r; side_tac.
      apply (counts_upd s s i WIdle WExited []); rewrite ?app_nil_r; try done; dv_tac.
    + apply (upd_inv s (draw s) i WIdle (WRun (s_next s) RStart) [] [s_next s]);
        cbn [draw s_workers s_finished s_taken s_stop s_py_exited s_next running]; rewrite ?app_nil_r;
        side_tac.
      * rewrite Htk, seqZ_snoc; [done|lia].
      * apply (counts_upd s (draw s) i WIdle _ []); rewrite ?app_nil_r; try done; dv_tac.
  - (* the thread-local part *)
    injection Hstep as <-. rewrite s_local_path.
    apply (upd_inv s s i (WRun t RStart) (WRun t (s_path (env t))) [] []); rewrite ?app_nil_r;
      side_tac.
    + intros t' pc [= <- <-]. apply on_path_start.
    + apply (counts_upd s s i (WRun t RStart) _ []); rewrite ?app_nil_r; try done;
        unfold dv; cbn [w_part counted_yet queued_yet zsum_with foldr];
        rewrite start_part_zero; auto 6; lia.
  - (* enqueue_local_run *)
    injection Hstep as <-. pose proof (Hon _ _ _ Hi) as Hp. cbn in Hp.
    apply bool_decide_eq_true in Hp.
    assert (Hq : q_of (env t) = 1) by (unfold q_of; by rewrite Hp).
    apply (upd_inv s (push_local s) i (WRun t (REnq nxt)) _ [] []); rewrite ?app_nil_r;
      side_tac.
    + intros t' pc [= <- <-]. destruct nxt as [[k d]|]; [|done].
      cbn. rewrite Hp. apply orb_true_intro. left. by apply bool_decide_eq_true_2.
    + apply (counts_upd s (push_local s) i (WRun t (REnq nxt)) _ []);
        cbn [push_local s_workers s_finished s_completed s_ran s_sent s_total s_queue s_py_in];
        rewrite ?app_nil_r; try done; [..|by rewrite length_app, Nat.add_1_r; apply replicate_snoc];
        destruct nxt as [[k d]|]; try dv_tac;
        (destruct (counts_none (env t)) as (Ec & Er & Et & Ed); [by rewrite Hp|dv_tac]).
  - (* the counter block *)
    destruct (in_int _ && _ && _ && _) eqn:G; [|done]. injection Hstep as <-.
    pose proof (Hon _ _ _ Hi) as Hp.
    destruct (counts_some (env t) k d) as (Ec & Er & Et & Ed); [apply (path_count_on _ (RCount k d)); [left|]; done|].
    apply (upd_inv s (count s k d) i (WRun t (RCount k d)) (WRun t (RLog k d)) [] []);
      rewrite ?app_nil_r; side_tac.
    apply (counts_upd s (count s k d) i (WRun t (RCount k d)) _ []); rewrite ?app_nil_r;
      try done; destruct k; dv_tac.
  - (* log_result *)
    injection Hstep as <-.
    apply (upd_inv s (add_log s (s_log_entry t k d)) i (WRun t (RLog k d)) (WRun t REnd) [] []);
      rewrite ?app_nil_r; side_tac.
    apply (counts_upd s _ i (WRun t (RLog k d)) _ []); rewrite ?app_nil_r; try done; dv_tac.
  - (* return from run_request *)
    injection Hstep as <-.
    apply (upd_inv s (finish s t) i (WRun t REnd) WIdle [t] []); rewrite ?app_nil_r; side_tac.
    apply (counts_upd s _ i (WRun t REnd) _ [t]); try done; dv_tac.
Qed.

(** A step that leaves the workers, the ghost lists and the counters alone. *)
Lemma inv_frame (s s' : sstate) :
  inv s -> s_workers s' = s_workers s -> s_finished s' = s_finished s -> s_taken s' = s_taken s ->
  s_next s' = s_next s -> s_completed s' = s_completed s -> s_ran s' = s_ran s ->
  s_sent s' = s_sent s -> s_total s' = s_total s ->
  (List.length (s_queue s') + List.length (s_py_in s') = List.length (s_queue s) + List.length (s_py_in s))%nat ->
  s_queue s' = replicate (List.length (s_queue s')) s_IMAGE ->
  s_py_in s' = replicate (List.length (s_py_in s')) (s_IMAGE +s+ s_lf) ->
  inv_flags s' -> inv s'.
Proof.
  intros ((Htk & Hnx & Hperm) & (Hlen & Hon & Hex) & (Hc & Hr & Ht & Hd & Hq & _) & _)
    Hw Hf Htk' Hn Ec Er Et Ed Eq Rq Rp Hfl.
  unfold s_inv, inv_ids, inv_workers, inv_counts, tallies in *.
  rewrite Hw, Hf, Htk', Hn, Ec, Er, Et, Ed, Eq. split_and!; try done; lia.
Qed.

Lemma s_step_inv (s s' : sstate) (ev : s_event) :
  inv s -> s_step total_requests env s ev = Some s' -> inv s'.
Proof.
  intros Hinv Hstep. pose proof Hinv as (_ & _ & (_ & _ & _ & _ & _ & Rq & Rp) & Hst & Hex).
  destruct ev as [i| |]; cbn in Hstep.
  - destruct (s_workers s !! i) as [w|] eqn:Hi; [|done]. by apply (worker_step_inv s s' i w).
  - destruct (s_py_exited s) eqn:E; [done|].
    destruct (s_queue s) as [|img q] eqn:Q.
    + destruct (s_stop s) eqn:S; [|done]. injection Hstep as <-.
      apply (inv_frame s); cbn; rewrite ?Q; try done.
    + injection Hstep as <-. cbn in Rq. injection Rq as -> Rq.
      apply (inv_frame s); cbn; rewrite ?Q, ?length_app; cbn; try done; try lia.
      * rewrite Nat.add_1_r. by apply replicate_snoc.
      * split; cbn; [by apply Hst|by rewrite E].
  - destruct (forallb is_exited (s_workers s) && negb (s_stop s)) eqn:G; [|done].
    injection Hstep as <-. apply andb_true_iff in G as [Hall Hs].
    apply (inv_frame s); cbn; try done. split; cbn; [done|].
    intros He. apply Hex in He as [Hs' _]. by rewrite Hs' in Hs.
Qed.

Lemma s_init_inv : inv s_init.
Proof.
  split; [|split; [|split]]; cbn.
  - split_and!; cbn; [done|lia..|done].
  - split_and!; [done| |].
    + intros i t pc Hi. apply lookup_replicate in Hi as [[=] _].
    + intros i Hi. apply lookup_replicate in Hi as [[=] _].
  - done.
  - done.
Qed.

Lemma s_reachable_inv (s : sstate) : s_reachable total_requests env s -> inv s.
Proof.
  intros H. refine (rtc_ind_r (R:=s_steps total_requests env) inv s_init _ _ s H);
    [apply s_init_inv | intros y z _ [ev Hev] Hy; by eapply s_step_inv].
Qed.

Lemma s_run_reachable_from (s s' : sstate) (evs : list s_event) :
  s_run total_requests env s evs = Some s' -> rtc (s_steps total_requests env) s s'.
Proof.
  revert s. induction evs as [|ev evs IH]; intros s H; cbn in H; [by simplify_eq|].
  apply bind_Some in H as (s1 & H1 & H2). eapply rtc_l; [by exists ev | by apply IH].
Qed.

Lemma exited_running (l : list wpc) : forallb is_exited l = true -> List.concat (running <$> l) = [].
Proof. induction l as [|[| |] l IH]; cbn; try done. Qed.

Lemma exited_parts (l : list wpc) (yet : rpc -> bool) (f : s_outcome -> Z) :
  forallb is_exited l = true -> zsum_with (w_part env yet f) l = 0.
Proof. unfold zsum_with. induction l as [|[| |] l IH]; cbn; try done. Qed.

(** In a final state every worker has left its loop, so [next] has
    reached [total_requests] and the ghost lists hold all the ids. *)
Lemma final_ids (s : sstate) :
  inv s -> s_final s = true ->
  s_taken s = s_ids total_requests /\ s_finished s ≡ₚ s_ids total_requests /\
  forallb is_exited (s_workers s) = true.
Proof.
  intros ((Htk & Hnx & Hperm) & (Hlen & _ & Hex) & _ & Hstop & _) Hf.
  apply andb_true_iff in Hf as [Hs _]. specialize (Hstop Hs).
  destruct (s_workers s !! 0%nat) as [w|] eqn:E0;
    [|apply lookup_ge_None in E0; rewrite Hlen in E0; cbv in E0; lia].
  pose proof (forallb_lookup _ _ _ _ Hstop E0) as Hw. destruct w; try done.
  specialize (Hex _ E0). unfold s_ids.
  replace (Z.max 0 total_requests) with (s_next s) by lia.
  rewrite exited_running, app_nil_r in Hperm by done. by rewrite <- Htk.
Qed.

Lemma final_tally (s : sstate) (f : s_outcome -> Z) (yet : rpc -> bool) (v : Z) :
  inv s -> s_final s = true -> tallies env f yet s v ->
  v = zsum_with (fun t => f (env t)) (s_ids total_requests).
Proof.
  intros Hinv Hf ->. destruct (final_ids s Hinv Hf) as (_ & Hp & Hall).
  rewrite exited_parts by done. rewrite (zsum_with_Permutation _ _ _ Hp). lia.
Qed.

(** ** Progress *)

Lemma w_parts_le (l : list wpc) (yet : rpc -> bool) (f : s_outcome -> Z) :
  (forall t, 0 <= f (env t)) ->
  zsum_with (w_part env yet f) l <= zsum_with (fun t => f (env t)) (List.concat (running <$> l)).
Proof.
  intros Hf. unfold zsum_with. induction l as [|[|t pc|] l IH]; cbn; try lia.
  specialize (Hf t). destruct (yet pc); lia.
Qed.

(** A worker about to update a counter adds to it at most what all the
    ids drawn so far could add. *)
Lemma counted_room (s : sstate) (i : nat) (t : Z) (k : s_kind) (d : Z) (f : s_outcome -> Z) (B v : Z) :
  inv s -> s_workers s !! i = Some (WRun t (RCount k d)) ->
  (forall t, 0 <= f (env t) <= B) -> tallies env f counted_yet s v ->
  0 <= v + f (env t) <= Z.max 0 total_requests * B.
Proof.
  intros ((Htk & Hnx & Hperm) & _) Hi Hf ->.
  pose proof (concat_fmap_insert running _ _ _ WIdle Hi) as Hc. cbn in Hc. rewrite app_nil_r in Hc.
  pose proof (zsum_with_insert (w_part env counted_yet f) _ _ _ WIdle Hi) as Hw. cbn in Hw.
  pose proof (w_parts_le (<[i:=WIdle]> (s_workers s)) counted_yet f (fun t => proj1 (Hf t))) as Hle.
  assert (Hsum : zsum_with (fun t => f (env t)) (s_finished s) +
                 zsum_with (fun t => f (env t)) (List.concat (running <$> <[i:=WIdle]> (s_workers s))) + f (env t) =
                 zsum_with (fun t => f (env t)) (seqZ 0 (s_next s))).
  { pose proof (zsum_with_Permutation (fun t => f (env t)) _ _ Hc) as Hz.
    rewrite zsum_with_app in Hz. change (zsum_with _ [t]) with (f (env t) + 0) in Hz.
    rewrite <- Htk, (zsum_with_Permutation _ _ _ Hperm), zsum_with_app. lia. }
  pose proof (zsum_with_bound (fun t => f (env t)) (seqZ 0 (s_next s)) B (fun x _ => Hf x)) as Hb.
  rewrite length_seqZ in Hb.
  assert (0 <= B) by (specialize (Hf 0); lia).
  assert (0 <= zsum_with (w_part env counted_yet f) (<[i:=WIdle]> (s_workers s))).
  { apply (zsum_with_bound _ _ B). intros [|t' pc|] _; cbn; [lia| |lia].
    specialize (Hf t'). destruct (counted_yet pc); lia. }
  assert (0 <= zsum_with (fun t => f (env t)) (s_finished s))
    by (apply (zsum_with_bound _ _ B); intros x _; apply Hf).
  specialize (Hf t). nia.
Qed.

Lemma of_ranges (out : s_outcome) :
  0 <= c_of out <= 1 /\ 0 <= r_of out <= 1 /\ 0 <= t_of out <= 1 /\ 0 <= q_of out <= 1.
Proof.
  unfold c_of, r_of, t_of, q_of.
  destruct (s_path_cases out) as [E|[[d E]|[[k [d E]]|E]]]; rewrite E; cbn; try destruct k; lia.
Qed.

(** With [total_requests] an [int] and durations below 2^31 ms, the
    counter block never overflows. *)
Lemma count_guard (s : sstate) (i : nat) (t : Z) (k : s_kind) (d : Z) :
  inv s -> s_workers s !! i = Some (WRun t (RCount k d)) -> total_requests <= INT_MAX ->
  (forall t, 0 <= d_of (env t) <= 2 ^ 31) ->
  in_int (s_completed (count s k d)) && in_int (s_ran (count s k d)) &&
  in_int (s_sent (count s k d)) && in_long (s_total (count s k d)) = true.
Proof.
  intros Hinv Hi Hmax Hd. pose proof Hinv as (_ & (_ & Hon & _) & (Hc & Hr & Ht & Hdt & _) & _).
  destruct (counts_some (env t) k d) as (Ec & Er & Et & Ed);
    [apply (path_count_on _ (RCount k d)); [by left|by eapply Hon]|].
  pose proof (counted_room s i t k d c_of 1 _ Hinv Hi (fun t => proj1 (of_ranges (env t))) Hc).
  pose proof (counted_room s i t k d r_of 1 _ Hinv Hi (fun t => proj1 (proj2 (of_ranges (env t)))) Hr).
  pose proof (counted_room s i t k d t_of 1 _ Hinv Hi (fun t => proj1 (proj2 (proj2 (of_ranges (env t))))) Ht).
  pose proof (counted_room s i t k d d_of (2 ^ 31) _ Hinv Hi Hd Hdt).
  unfold in_int, in_long, INT_MIN, INT_MAX, LONG_MIN, LONG_MAX in *. cbn [count s_completed s_ran s_sent s_total].
  rewrite !andb_true_iff, !Z.leb_le. destruct k; lia.
Qed.

(** A state that is not final always has an enabled step. *)
Lemma s_progress (s : sstate) :
  inv s -> total_requests <= INT_MAX -> (forall t, 0 <= d_of (env t) <= 2 ^ 31) ->
  s_final s = false -> exists ev s', s_step total_requests env s ev = Some s'.
Proof.
  intros Hinv Hmax Hd Hf. destruct (forallb is_exited (s_workers s)) eqn:Hall.
  - destruct (s_stop s) eqn:Hs.
    + exists SDispatch. unfold s_final in Hf. rewrite Hs in Hf. cbn in Hf. cbn. rewrite Hf.
      destruct (s_queue s); [rewrite Hs|]; eauto.
    + exists SJoin. cbn. rewrite Hall, Hs. eauto.
  - destruct (forallb_false_lookup _ _ Hall) as (i & w & Hi & Hw). exists (SWorker i).
    cbn. rewrite Hi. cbn [mbind option_bind].
    destruct w as [|t pc|]; [|destruct pc as [| |k d| |]|done]; cbn [worker_step];
      [case_match; eauto|eauto|eauto| |eauto|eauto].
    rewrite (count_guard s i t k d Hinv Hi Hmax Hd). eauto.
Qed.

Lemma path_weight (out : s_outcome) : (rpc_weight (s_path out) <= 6)%nat.
Proof. destruct (s_path_cases out) as [E|[[d E]|[[k [d E]]|E]]]; rewrite E; cbn; lia. Qed.

(** Every step uses up some of the work left. *)
Lemma s_measure_step (s s' : sstate) (ev : s_event) :
  inv s -> s_step total_requests env s ev = Some s' ->
  (s_measure total_requests s' < s_measure total_requests s)%nat.
Proof.
  intros ((_ & Hnx & _) & _) Hstep. unfold s_measure. destruct ev as [i| |]; cbn [s_step] in Hstep.
  - apply bind_Some in Hstep as (w & Hi & Hstep).
    destruct w as [|t pc|]; [|destruct pc as [|[[k d]|]|k d|k d|]|done]; cbn [worker_step] in Hstep;
      repeat match type of Hstep with context [if ?b then _ else _] => destruct b eqn:? end;
      simplify_eq; cbn [s_upd_worker draw push_local count add_log finish s_workers s_next s_queue s_stop s_py_exited];
      match goal with |- context [sum_list_with w_weight (insert _ ?y _)] =>
        pose proof (sum_list_with_insert w_weight _ i _ y Hi) as Hw end;
      cbn [w_weight rpc_weight] in Hw; rewrite ?length_app; cbn [Datatypes.length]; try lia.
    rewrite s_local_path in Hw |- *. pose proof (path_weight (env t)). lia.
  - destruct (s_py_exited s) eqn:E; [done|]. destruct (s_queue s) as [|img q] eqn:Q.
    + destruct (s_stop s) eqn:S; simplify_eq. cbn. rewrite ?E, ?Q, ?S. cbn. lia.
    + simplify_eq. cbn. rewrite ?Q, ?E. cbn. lia.
  - destruct (_ && _) eqn:G; simplify_eq. apply andb_true_iff in G as [_ G].
    apply negb_true_iff in G. cbn. rewrite ?G. lia.
Qed.

(** From any state of the invariant the process can run to its end. *)
Lemma s_can_finish (s : sstate) :
  inv s -> total_requests <= INT_MAX -> (forall t, 0 <= d_of (env t) <= 2 ^ 31) ->
  exists evs s', s_run total_requests env s evs = Some s' /\ s_final s' = true.
Proof.
  intros Hinv Hmax Hd. remember (s_measure total_requests s) as n eqn:En.
  revert s Hinv En. induction n as [n IH] using lt_wf_ind. intros s Hinv ->.
  destruct (s_final s) eqn:Hf; [by exists [], s|].
  destruct (s_progress s Hinv Hmax Hd Hf) as (ev & s1 & H1).
  destruct (IH _ (s_measure_step s s1 ev Hinv H1) s1 (s_step_inv s s1 ev Hinv H1) eq_refl) as (evs & s' & Hr & Hf').
  exists (ev :: evs), s'. cbn. by rewrite H1.
Qed.

Lemma s_run_measure (s s' : sstate) (evs : list s_event) :
  inv s -> s_run total_requests env s evs = Some s' ->
  (List.length evs + s_measure total_requests s' <= s_measure total_requests s)%nat.
Proof.
  revert s. induction evs as [|ev evs IH]; intros s Hinv H; cbn in H; [simplify_eq; cbn [List.length]; lia|].
  apply bind_Some in H as (s1 & H1 & H2). pose proof (s_measure_step _ _ _ Hinv H1).
  specialize (IH _ (s_step_inv _ _ _ Hinv H1) H2). cbn [List.length]. lia.
Qed.

End Steps.

(** ** Lemmas: the image loop *)

Lemma sim_blocks_spec (bufsz fuel : nat) (data : list Z) :
  (0 < bufsz)%nat -> (List.length data < bufsz * fuel)%nat ->
  List.concat (sim_blocks bufsz fuel data) = data /\
  Forall (fun b => 0 < List.length b <= bufsz)%nat (sim_blocks bufsz fuel data) /\
  List.length (sim_blocks bufsz fuel data) = ((List.length data + (bufsz - 1)) / bufsz)%nat.
Proof.
  intros HB. revert data. induction fuel as [|f IH]; intros data Hf; [lia|]. cbn [sim_blocks].
  destruct (Nat.leb_spec bufsz (List.length data)) as [Hle|Hlt].
  - destruct (IH (drop bufsz data)) as (Hc & Hb & Hn); [rewrite length_drop; lia|].
    rewrite length_drop in Hn. split_and!.
    + cbn [List.concat]. by rewrite Hc, take_drop.
    + constructor; [rewrite length_take; lia|done].
    + cbn [List.length]. rewrite Hn.
      replace (List.length data + (bufsz - 1))%nat
        with (1 * bufsz + (List.length data - bufsz + (bufsz - 1)))%nat by lia.
      rewrite Nat.div_add_l by lia. lia.
  - destruct (Nat.ltb_spec 0 (List.length data)) as [Hpos|Hz].
    + split_and!; [by cbn; rewrite app_nil_r|by constructor; [lia|]|].
      cbn [List.length]. apply Nat.div_unique with (List.length data - 1)%nat; lia.
    + destruct data; cbn in *; [|lia]. split_and!; [done|done|]. rewrite Nat.div_small; lia.
Qed.

(** ** Theorems *)

(** Under every interleaving of the 32 workers, the feeder and
    [main], when the process ends the workers have drawn the ids
    0 .. total_requests-1 in order from the locked [static int next], and
    [run_request] has returned exactly once for each of them. *)
Theorem sim_ids_run_once (total_requests : Z) (env : Z -> s_outcome) (s : sstate) :
  s_reachable total_requests env s -> s_final s = true ->
  s_taken s = s_ids total_requests /\ s_finished s ≡ₚ s_ids total_requests.
Proof.
  intros Hr Hf. destruct (final_ids total_requests env s (s_reachable_inv _ _ s Hr) Hf) as (? & ? & _).
  done.
Qed.

(** C38: the counters, all updated under [stats_mutex], are exact when
    the process ends: [completed_tasks], [ran_on_ed], [sent_to_ec] and
    [total_latency_ms] are the sums over the ids of what the id's outcome
    adds (1 for an acknowledged image or a DROP, nothing for a failure
    before the reply), the local queue is empty and the helper was given
    one line [IMAGE\n] per id that failed before its reply or was refused. *)
Theorem sim_final_counters (total_requests : Z) (env : Z -> s_outcome) (s : sstate) :
  s_reachable total_requests env s -> s_final s = true ->
  s_completed s = zsum_with (fun t => c_of (env t)) (s_ids total_requests) /\
  s_ran s = zsum_with (fun t => r_of (env t)) (s_ids total_requests) /\
  s_sent s = zsum_with (fun t => t_of (env t)) (s_ids total_requests) /\
  s_total s = zsum_with (fun t => d_of (env t)) (s_ids total_requests) /\
  s_queue s = [] /\
  s_py_in s = replicate (Z.to_nat (zsum_with (fun t => q_of (env t)) (s_ids total_requests))) (s_IMAGE +s+ s_lf).
Proof.
  intros Hr Hf. pose proof (s_reachable_inv _ _ s Hr) as Hinv.
  pose proof Hinv as (_ & _ & (Hc & Hran & Ht & Hd & Hq & _ & Hpy) & _ & Hexit).
  apply andb_true_iff in Hf as [Hs He]. destruct (Hexit He) as [_ Hq0].
  assert (Hf : s_final s = true) by (unfold s_final; by rewrite Hs, He).
  pose proof (final_tally _ _ s _ _ _ Hinv Hf Hq) as Eq. rewrite Hq0 in Eq. cbn [List.length] in Eq.
  split_and!; try (eapply final_tally; eauto); [done|]. by rewrite Hpy, <- Eq, Nat2Z.id.
Qed.

(** C39: a granted request whose image file opens sends the REQ frame,
    the OK ack and then the whole image: the 4096-byte blocks of the
    [file.read] loop followed by the partial last block, each block
    non-empty and at most [IMG_BUF] = 4096 bytes, ceil(size/4096) of
    them, then shuts
    the socket down for writing. *)
Theorem sim_image_sent_whole (token_ed : Z) (bytes : string) (img : list Z) (done_bytes : string) (dur : Z) :
  String.length (recv_bytes 255 bytes) <> 0%nat -> starts_with "GRANT:" (recv_bytes 255 bytes) = true ->
  exists ok blocks,
    (s_local token_ed (SReply bytes (Some img) done_bytes dur)).1 =
      [SText (req_msg token_ed); SText ok] ++ (SBytes <$> blocks) ++ [SShutdown] /\
    List.concat blocks = img /\ Forall (fun b => 0 < List.length b <= IMG_BUF)%nat blocks /\
    List.length blocks = ((List.length img + (IMG_BUF - 1)) / IMG_BUF)%nat.
Proof.
  intros Hn Hg. cbn [s_local]. apply Nat.eqb_neq in Hn. rewrite Hn, Hg.
  assert (HB : (0 < IMG_BUF)%nat) by (unfold IMG_BUF; lia).
  destruct (sim_blocks_spec IMG_BUF (S (List.length img)) img) as (Hc & Hb & Hl); [done|nia|].
  destruct (String.length (recv_bytes 15 done_bytes) =? 0)%nat;
    (eexists _, _; split; [reflexivity|exact (conj Hc (conj Hb Hl))]).
Qed.

(** C40: the process cannot deadlock and cannot run forever: with
    [total_requests] an [int] and every duration below 2^31 ms (so the
    counter block never overflows), every run from the start has at most
    [8 * total_requests + 34] steps, and every state a run reaches can be
    driven on to the end, where the workers are joined and the feeder has
    exited. *)
Theorem sim_run_completes (total_requests : Z) (env : Z -> s_outcome) (evs : list s_event) (s : sstate) :
  total_requests <= INT_MAX -> (forall t, 0 <= d_of (env t) <= 2 ^ 31) ->
  s_run total_requests env s_init evs = Some s ->
  (List.length evs <= 8 * Z.to_nat total_requests + 34)%nat /\
  exists evs' s', s_run total_requests env s evs' = Some s' /\ s_final s' = true.
Proof.
  intros Hmax Hd H. pose proof (s_run_measure total_requests env _ _ _ (s_init_inv _ _) H) as Hm.
  unfold s_measure in Hm. cbn [s_init s_next s_workers s_queue s_stop s_py_exited] in Hm.
  change (sum_list_with w_weight (replicate s_thread_pool_size WIdle)) with 32%nat in Hm.
  cbn [List.length] in Hm.
  split; [lia|]. apply s_can_finish; [|done..].
  apply s_reachable_inv. exact (s_run_reachable_from _ _ _ _ _ H).
Qed.

Local Abbreviation sim_final := (default s_init (s_run 3 sim_env s_init sim_events)).

Lemma sim_final_reachable : s_reachable 3 sim_env sim_final.
Proof. apply (s_run_reachable_from 3 sim_env s_init _ sim_events). vm_compute. reflexivity. Qed.

Lemma sim_ids_run_once_witness :
  s_reachable 3 sim_env sim_final /\ s_final sim_final = true /\
  s_taken sim_final = s_ids 3 /\ s_finished sim_final ≡ₚ s_ids 3.
Proof.
  assert (s_final sim_final = true) as Hf by (vm_compute; reflexivity).
  split; [exact sim_final_reachable|]. split; [exact Hf|].
  exact (sim_ids_run_once 3 sim_env sim_final sim_final_reachable Hf).
Defined.

Lemma sim_final_counters_witness :
  s_reachable 3 sim_env sim_final /\ s_final sim_final = true /\
  s_completed sim_final = zsum_with (fun t => c_of (sim_env t)) (s_ids 3) /\
  s_ran sim_final = zsum_with (fun t => r_of (sim_env t)) (s_ids 3) /\
  s_sent sim_final = zsum_with (fun t => t_of (sim_env t)) (s_ids 3) /\
  s_total sim_final = zsum_with (fun t => d_of (sim_env t)) (s_ids 3) /\
  s_queue sim_final = [] /\
  s_py_in sim_final = replicate (Z.to_nat (zsum_with (fun t => q_of (sim_env t)) (s_ids 3))) (s_IMAGE +s+ s_lf).
Proof.
  assert (s_final sim_final = true) as Hf by (vm_compute; reflexivity).
  split; [exact sim_final_reachable|]. split; [exact Hf|].
  exact (sim_final_counters 3 sim_env sim_final sim_final_reachable Hf).
Defined.

Lemma sim_image_sent_whole_witness :
  String.length (recv_bytes 255 "GRANT:0") <> 0%nat /\ starts_with "GRANT:" (recv_bytes 255 "GRANT:0") = true /\
  exists ok blocks,
    (s_local 0 (SReply "GRANT:0" (Some [1; 2; 3]) "DONE" 50)).1 =
      [SText (req_msg 0); SText ok] ++ (SBytes <$> blocks) ++ [SShutdown] /\
    List.concat blocks = [1; 2; 3] /\ Forall (fun b => 0 < List.length b <= IMG_BUF)%nat blocks /\
    List.length blocks = ((List.length [1; 2; 3] + (IMG_BUF - 1)) / IMG_BUF)%nat.
Proof.
  assert (String.length (recv_bytes 255 "GRANT:0") <> 0%nat) as Hn by (vm_compute; discriminate).
  assert (starts_with "GRANT:" (recv_bytes 255 "GRANT:0") = true) as Hg by (vm_compute; reflexivity).
  split; [exact Hn|]. split; [exact Hg|].
  exact (sim_image_sent_whole 0 "GRANT:0" [1; 2; 3] "DONE" 50 Hn Hg).
Defined.

Lemma sim_run_completes_witness :
  3 <= INT_MAX /\ (forall t, 0 <= d_of (sim_env t) <= 2 ^ 31) /\
  s_run 3 sim_env s_init sim_events = Some sim_final /\
  (List.length sim_events <= 8 * Z.to_nat 3 + 34)%nat /\
  exists evs' s', s_run 3 sim_env sim_final evs' = Some s' /\ s_final s' = true.
Proof.
  assert (3 <= INT_MAX) as Hm by (unfold INT_MAX; lia).
  assert (forall t, 0 <= d_of (sim_env t) <= 2 ^ 31) as Hd.
  { intros t. unfold sim_env. destruct (t =? 0); [|destruct (t =? 1)]; vm_compute; split; discriminate. }
  assert (s_run 3 sim_env s_init sim_events = Some sim_final) as H by (vm_compute; reflexivity).
  split; [exact Hm|]. split; [exact Hd|]. split; [exact H|].
  exact (sim_run_completes 3 sim_env sim_events sim_final Hm Hd H).
Defined.
