(* ===== verification/Pi3.v ===== *)
(** * Pi3: the Poisson ED for the Raspberry Pi 3

    Source: src/Experiment_May15/ed_oms_parallel_rn50_fallback_sequencial_poission_pi3.cpp.
    It is the sequential-fallback ED of [Client], [LocalExec], [Driver]
    and [Stats] with two changes:

    - the generator (lines 217-238) pushes ids for [duration_sec] seconds
      with exponential waits instead of [total_requests] ids at a fixed
      rate; it breaks at the first clock check where
      [duration_cast<duration<double>>(now - start).count() >= duration_sec],
      computed in binary64 ([pi3_stop], with [Double]);
    - [run_request] (lines 119-190) queues [IMAGE = "000000006321.jpg"]
      and logs [" fallback"] instead of [" fallback initiated"].

    [pi3_run_request] transcribes lines 119-190; [pi3_matches_sequential]
    shows it writes the same frames and runs the same locked blocks, in
    the same order and with the same ids, times and durations, as
    [Client.run_request]: only the texts differ.  The process is
    [Driver.sys_step] with [pi3_effects] and the listener of [LocalExec]
    (lines 75-116 are those of the sequential file but for the FIFO path
    and an error message), for as many ids as the generator pushed
    ([pi3_reachable]); [pi3_report] is what [main] prints. *)

From S2P Require Import Prelude CppString Double Wire Client LocalExec Driver Stats.

Open Scope oms_scope.

(** ** [run_request] *)

(** [const char* IMAGE] (line 24). *)
Definition pi3_IMAGE : string := "000000006321.jpg".

(** [enqueue_local_run] (lines 61-74). *)
Definition pi3_enqueue_local_run (token_ed : Z) (now_ns : Z) : list ed_effect :=
  [PushLocal (to_string token_ed +s+ ":" +s+ pi3_IMAGE); SetStart token_ed (to_ms now_ns)].

(** Lines 119-190. *)
Definition pi3_run_request (token_ed : Z) (env : req_env) : req_result :=
  let fallback := pi3_enqueue_local_run token_ed (enqueue_ns env) in
  if negb (socket_ok env) then {| req_frames := []; req_effects := fallback |}
  else if negb (connect_ok env) then {| req_frames := []; req_effects := fallback |}
  else
    let req := req_msg token_ed in
    let response := recv_bytes 255 (reply env) in
    if String.eqb response EmptyString then {| req_frames := [req]; req_effects := fallback |}
    else
      match classify response with
      | RGrant token_ec =>
          let ok := ok_msg token_ec token_ed in
          if negb (image_ok env) then {| req_frames := [req; ok]; req_effects := [] |}
          else if String.eqb (recv_bytes 15 (done_reply env)) EmptyString then
            {| req_frames := [req; ok]; req_effects := [] |}
          else
            let duration := to_ms (end_ns env - start_ns env) in
            {| req_frames := [req; ok];
               req_effects :=
                 [CountSent duration;
                  Log ("[ED_SENT] token_ed=" +s+ to_string token_ed +s+ " token_ec=" +s+ token_ec
                       +s+ " duration=" +s+ to_string duration +s+ " ms")] |}
      | RDrop =>
          {| req_frames := [req];
             req_effects := fallback ++
               [CountFallback; Log ("[ED_FALLBACK] token_ed=" +s+ to_string token_ed +s+ " fallback")] |}
      | ROther => {| req_frames := [req]; req_effects := [] |}
      end.

Definition pi3_effects (env : Z -> req_env) (token : Z) : list ed_effect :=
  req_effects (pi3_run_request token (env token)).

(** ** The generator *)

(** Lines 221-223: [elapsed = (double) ns / 1e9], the [double] count of a
    [duration<double>] cast from nanoseconds, then [elapsed >= duration_sec]
    with the [int] converted to [double]; [now k] is the
    [high_resolution_clock] reading at the [k]-th check, in nanoseconds
    since the generator started. *)
Definition pi3_stop (now : Z -> Z) (duration_sec : Z) (k : Z) : bool :=
  dge (ddiv (double_of_int (now k)) (double_of_int 1000000000)) (double_of_int duration_sec).

(** The states the Pi 3 ED reaches (lines 217-268): [Driver]'s process
    with the generator checking its binary64 clock at most [fuel] times
    (lines 217-238), the 32 workers running [pi3_run_request]
    (lines 240-256), the dispatcher, the helper and the listener's
    blocks, and [main]'s joins and [stop_local] (lines 258-268). *)
Definition pi3_reachable (now : Z -> Z) (duration_sec : Z) (fuel : nat) (env : Z -> req_env) (s : sys) : Prop :=
  sys_reachable (first_stop fuel (pi3_stop now duration_sec) 0) (pi3_effects env) record_effects no_gen_effects s.

(** What [main] prints (lines 271-303): [total_generated] (one increment
    per push, read after [generator.join()], so [gen_i]), the run time,
    then the counters, percentages and average latency computed as in the
    sequential variant ([Stats.final_report]). *)
Definition pi3_report (s : sys) (total_time_ms : Z) (order : list (Z * Z)) : option timed_report :=
  r ← final_report (sys_sh s) order;
  Some {| rep_generated := gen_i s; rep_time_ms := total_time_ms; rep_stats := r |}.

(** ** Observations *)

(** A locked block with its texts erased. *)
Definition shape (e : ed_effect) : ed_effect :=
  match e with PushLocal _ => PushLocal EmptyString | Log _ => Log EmptyString | _ => e end.

(** ** A sample run *)

(** Id 0 is refused with [DROP], the connection of id 1 fails; the
    clock advances 0.7 s between checks and the run lasts one second. *)
Definition pi3_demo_now (k : Z) : Z := 700000000 * k.

Definition pi3_demo_events : list sys_event :=
  [Gen; Gen; GenEnd; Take 0; Block 0; Block 0; Block 0; Block 0; Finish 0;
   Take 0; Block 0; Block 0; Finish 0] ++ (Exit <$> seq 0 thread_pool_size) ++
  [Stop; Dispatch; Dispatch; Dispatch; HelperDone "40" 1700000000100; HelperDone "41" 1700000000200].

(** ** Lemmas *)

Lemma counts_shape (es : list ed_effect) : counts (shape <$> es) = counts es.
Proof.
  unfold counts, local_runs. f_equal; [f_equal|];
    induction es as [|[] es IH]; cbn; try done; by rewrite IH.
Qed.

Lemma pi3_effects_short (env : Z -> req_env) (t : Z) : (List.length (pi3_effects env t) <= 4)%nat.
Proof. unfold pi3_effects, pi3_run_request. repeat case_match; cbn; lia. Qed.

(** The Pi 3 client is the sequential-fallback client up to its texts:
    for every answer of the system calls it writes the same frames and
    runs the same locked blocks, in the same order and with the same ids,
    start and end times and durations; only the queued image path and the
    log lines differ. *)
Lemma pi3_matches_sequential (token_ed : Z) (env : req_env) :
  req_frames (pi3_run_request token_ed env) = req_frames (run_request token_ed env) /\
  shape <$> req_effects (pi3_run_request token_ed env) = shape <$> req_effects (run_request token_ed env).
Proof.
  unfold pi3_run_request, run_request.
  destruct (socket_ok env), (connect_ok env); cbn; try done.
  destruct (String.eqb _ EmptyString); cbn; [done|].
  destruct (classify _); cbn; [|done|done].
  destruct (image_ok env); cbn; [|done]. by destruct (String.eqb _ EmptyString).
Qed.

Lemma pi3_effects_counts (env : Z -> req_env) (t : Z) :
  sum_list_with is_sent (pi3_effects env t) = (if offloaded (env t) then 1 else 0)%nat /\
  sum_list_with is_fallback (pi3_effects env t) = (if refused (env t) then 1 else 0)%nat.
Proof.
  pose proof (f_equal counts (proj2 (pi3_matches_sequential t (env t)))) as H.
  rewrite !counts_shape in H. unfold counts, pi3_effects in *. injection H as -> -> _.
  apply run_request_counts.
Qed.

(** ** Theorems *)

(** The whole Pi 3 ED: whatever the clock and the interleaving of
    the generator, the 32 workers, the dispatcher and the listener, when
    the process ends the workers have popped exactly the ids the
    generator pushed before its binary64 clock check first failed, each
    once and in order, and the counters are those of the
    sequential-fallback ED on these ids: [sent_to_ec] counts the
    completed offloads, [ran_on_ed] the [DROP]s, [completed_tasks] their
    sum. *)
Theorem pi3_final_counters (now : Z -> Z) (duration_sec N : Z) (env : Z -> req_env) (s : sys) :
  0 <= N -> pi3_stop now duration_sec N = true ->
  (forall j, 0 <= j < N -> pi3_stop now duration_sec j = false) ->
  pi3_reachable now duration_sec (S (Z.to_nat N)) env s ->
  sys_final s = true ->
  taken s = gen_pushes (S (Z.to_nat N)) (pi3_stop now duration_sec) 0 /\
  sent_to_ec (ed_stats_of (sys_sh s)) = Z.of_nat (List.length (filter (fun t => offloaded (env t) = true) (taken s))) /\
  ran_on_ed (ed_stats_of (sys_sh s)) = Z.of_nat (List.length (filter (fun t => refused (env t) = true) (taken s))) /\
  completed_tasks (ed_stats_of (sys_sh s)) = ran_on_ed (ed_stats_of (sys_sh s)) + sent_to_ec (ed_stats_of (sys_sh s)).
Proof.
  intros HN Hstop Hbefore Hr Hf.
  apply (timed_final_by_outcome _ N (pi3_effects env) record_effects no_gen_effects); try assumption;
    first [exact (pi3_effects_short env) | exact record_effects_quiet | exact no_gen_quiet | intros t; apply pi3_effects_counts].
Qed.

Local Abbreviation pi3_final :=
  (default sys_init (sys_run 2 (pi3_effects demo_env) record_effects no_gen_effects sys_init pi3_demo_events)).

Lemma pi3_final_counters_witness :
  0 <= 2 /\ pi3_stop pi3_demo_now 1 2 = true /\
  (forall j, 0 <= j < 2 -> pi3_stop pi3_demo_now 1 j = false) /\
  pi3_reachable pi3_demo_now 1 (S (Z.to_nat 2)) demo_env pi3_final /\
  sys_final pi3_final = true /\
  taken pi3_final = gen_pushes (S (Z.to_nat 2)) (pi3_stop pi3_demo_now 1) 0 /\
  sent_to_ec (ed_stats_of (sys_sh pi3_final)) =
    Z.of_nat (List.length (filter (fun t => offloaded (demo_env t) = true) (taken pi3_final))) /\
  ran_on_ed (ed_stats_of (sys_sh pi3_final)) =
    Z.of_nat (List.length (filter (fun t => refused (demo_env t) = true) (taken pi3_final))) /\
  completed_tasks (ed_stats_of (sys_sh pi3_final)) =
    ran_on_ed (ed_stats_of (sys_sh pi3_final)) + sent_to_ec (ed_stats_of (sys_sh pi3_final)).
Proof.
  assert (H0 : 0 <= 2) by lia.
  assert (H1 : pi3_stop pi3_demo_now 1 2 = true) by (vm_compute; reflexivity).
  assert (H2 : forall j, 0 <= j < 2 -> pi3_stop pi3_demo_now 1 j = false).
  { intros j Hj. assert (j = 0 \/ j = 1) as [-> | ->] by lia; vm_compute; reflexivity. }
  assert (H3 : pi3_reachable pi3_demo_now 1 (S (Z.to_nat 2)) demo_env pi3_final).
  { unfold pi3_reachable. apply (sys_run_reachable_from _ _ _ _ sys_init _ pi3_demo_events).
    vm_compute. reflexivity. }
  assert (H4 : sys_final pi3_final = true) by (vm_compute; reflexivity).
  split; [exact H0|]. split; [exact H1|]. split; [exact H2|]. split; [exact H3|]. split; [exact H4|].
  exact (pi3_final_counters pi3_demo_now 1 2 demo_env pi3_final H0 H1 H2 H3 H4).
Defined.
