(* ===== verification/Yolo.v ===== *)
(** * Yolo: the bandwidth-aware YOLOv5s ED

    Source: src/ed_oms_parallel_yolov5s_bwaj.cpp.  Its [main] (lines
    173-274) is the process of [Driver] with a time-driven generator: for
    [duration_sec] seconds of [steady_clock] it pushes the ids 0, 1, ...
    with exponential waits (lines 194-214), then sets [all_generated];
    32 workers pop ids and run [run_request]; the dispatcher is that of
    [LocalExec]; the listener (lines 84-107, [yolo_listen]) parses as
    [LocalExec]'s does but never extracts the inference time
    ([yolo_process_line_seq]); after the joins [main] prints the
    statistics of [Stats] with the number of ids generated
    ([yolo_report]).  [yolo_reachable] names the states of that process.

    What differs from the sequential-fallback variant is [run_request]
    (lines 110-171) and the listener's log line (105):

    - every answer but [GRANT:] (a [DROP], an unknown reply, a GRANT frame
      cut by TCP) queues a local run and counts the task as run locally;
    - after a [GRANT] and the image, the EC's final reply is read but not
      checked (line 153): the task is counted as sent whether or not
      [DONE] arrived;
    - there is no [ED_SENT] or [ED_FALLBACK] log line.

    [yolo_run_request] is that function over [Client.req_env], with the
    locked blocks as [Client.ed_effect]s, so the process is
    [Driver.sys_step] instantiated with [yolo_effects] and
    [yolo_record_effects], and the number of ids is where the generator's
    clock check first fails ([yolo_stop], [Driver.first_stop]).  The
    Poisson waits and the clock are inputs: [now k] is the [steady_clock]
    reading, in nanoseconds since the generator started, at its [k]-th
    check. *)

From S2P Require Import Prelude CppString Wire Client LocalExec Driver Stats.

Open Scope oms_scope.

(** ** [run_request] and its locked blocks *)

(** [const char* IMAGE] (line 22). *)
Definition yolo_IMAGE : string := "000000006321.jpg".

(** ["REQ:" + std::to_string(token_ed) + ":yolov5s:PI5"] (line 126). *)
Definition yolo_req_msg (token_ed : Z) : string :=
  "REQ:" +s+ to_string token_ed +s+ ":yolov5s:PI5".

(** [enqueue_local_run] (lines 56-69): the task line, then its start time,
    in two locked blocks. *)
Definition yolo_enqueue_local_run (token_ed : Z) (now_ns : Z) : list ed_effect :=
  [PushLocal (to_string token_ed +s+ ":" +s+ yolo_IMAGE); SetStart token_ed (to_ms now_ns)].

(** Lines 110-171.  The image bytes are not among the frames; the final
    [recv] (line 153) is made but its result is never looked at. *)
Definition yolo_run_request (token_ed : Z) (env : req_env) : req_result :=
  let fallback := yolo_enqueue_local_run token_ed (enqueue_ns env) in
  if negb (socket_ok env) then {| req_frames := []; req_effects := fallback |}
  else if negb (connect_ok env) then {| req_frames := []; req_effects := fallback |}
  else
    let req := yolo_req_msg token_ed in
    let response := recv_bytes 255 (reply env) in
    if String.eqb response EmptyString then {| req_frames := [req]; req_effects := fallback |}
    else
      match classify response with
      | RGrant token_ec =>
          let ok := ok_msg token_ec token_ed in
          if negb (image_ok env) then {| req_frames := [req; ok]; req_effects := [] |}
          else {| req_frames := [req; ok]; req_effects := [CountSent (to_ms (end_ns env - start_ns env))] |}
      | _ => {| req_frames := [req]; req_effects := fallback ++ [CountFallback] |}
      end.

(** The listener's locked blocks for one record (lines 101-105). *)
Definition yolo_record_effects (token : Z) (infer : string) (done_time : Z) : list ed_effect :=
  [SetEnd token done_time; Log ("[ED_DONE] token_ed=" +s+ to_string token)].

(** The listener's parse of one line (lines 94-100): unlike the
    sequential variant it never extracts the inference time. *)
Inductive yolo_line :=
  | YSkip
  | YRecord (token : Z) (done_time : Z)
  | YThrow (e : listener_exn).

Definition yolo_process_line (chunk : string) : yolo_line :=
  let line := erase_char "010"%char (upto_nul chunk) in
  let first := str_find "," line 0 in
  let second := str_find "," line (npos_succ first) in
  match first, second with
  | Some f, Some sc =>
      match substr line 0 (Some f) with
      | None => YThrow SubstrOutOfRange
      | Some tok_s =>
          match stoi tok_s with
          | inl e => YThrow (ConvFailed e)
          | inr token =>
              match substr line (S sc) None with
              | None => YThrow SubstrOutOfRange
              | Some done_s =>
                  match stol done_s with
                  | inl e => YThrow (ConvFailed e)
                  | inr done_time => YRecord token done_time
                  end
              end
          end
      end
  | _, _ => YSkip
  end.

(** The listener thread (lines 84-108): its blocks for each record and
    the exception that ends the process, if any. *)
Fixpoint yolo_listen (fuel : nat) (stream : string) : list ed_effect * option listener_exn :=
  match fuel with
  | O => ([], None)
  | S f =>
      match fgets stream with
      | None => ([], None)
      | Some (chunk, rest) =>
          match yolo_process_line chunk with
          | YSkip => yolo_listen f rest
          | YRecord token done_time =>
              let '(es, ex) := yolo_listen f rest in (yolo_record_effects token EmptyString done_time ++ es, ex)
          | YThrow e => ([], Some e)
          end
      end
  end.

Definition yolo_effects (env : Z -> req_env) (token : Z) : list ed_effect :=
  req_effects (yolo_run_request token (env token)).

(** ** The generator *)

(** [duration_cast<seconds>(now - start).count() >= duration_sec]
    (line 201): whole seconds, truncated. *)
Definition yolo_stop (now : Z -> Z) (duration_sec : Z) (k : Z) : bool :=
  duration_sec <=? Z.quot (now k) 1000000000.

(** ** What the code counts *)

(** The first [recv] returned a [GRANT:] frame on a working connection. *)
Definition yolo_granted (env : req_env) : bool :=
  socket_ok env && connect_ok env && negb (String.eqb (recv_bytes 255 (reply env)) EmptyString)
  && starts_with "GRANT:" (recv_bytes 255 (reply env)).

Definition yolo_sent (env : req_env) : bool := yolo_granted env && image_ok env.

(** Any other non-empty answer on a working connection. *)
Definition yolo_ran (env : req_env) : bool :=
  socket_ok env && connect_ok env && negb (String.eqb (recv_bytes 255 (reply env)) EmptyString)
  && negb (starts_with "GRANT:" (recv_bytes 255 (reply env))).

(** The counts of the spec's outcomes: tasks sent, run locally, queued. *)
Definition spec_counts (o : spec_outcome) : nat * nat * nat :=
  match o with
  | RemoteCompleted => (1, 0, 0)
  | LocalFallback => (0, 1, 1)
  | PayloadError | Failed => (0, 0, 0)
  end%nat.

(** ** The process *)

(** The states the YOLOv5s ED reaches (lines 194-243): [Driver]'s
    process with the generator checking the clock at most [fuel] times
    (lines 194-214), the 32 workers running [yolo_run_request]
    (lines 216-232), the dispatcher, the helper and the listener's blocks,
    and [main]'s joins and [stop_local] (lines 234-243). *)
Definition yolo_reachable (now : Z -> Z) (duration_sec : Z) (fuel : nat) (env : Z -> req_env) (s : sys) : Prop :=
  sys_reachable (first_stop fuel (yolo_stop now duration_sec) 0) (yolo_effects env) yolo_record_effects no_gen_effects s.

(** ** The final statistics (lines 245-271) *)

(** What [main] prints after the joins: [total_generated], incremented
    after each push and read once the generator is joined, so the number
    of ids pushed ([gen_i]); the run time; and the counters, percentages
    and average latency, which lines 245-254 and 265-270 compute as the
    sequential variant does ([Stats.final_report]). *)
Definition yolo_report (s : sys) (total_time_ms : Z) (order : list (Z * Z)) : option timed_report :=
  r ← final_report (sys_sh s) order;
  Some {| rep_generated := gen_i s; rep_time_ms := total_time_ms; rep_stats := r |}.

(** Counted neither as sent nor as run locally: the socket, the connect
    or the first [recv] failed, or the image of a granted task could not
    be read. *)
Definition yolo_lost (env : req_env) : bool := negb (yolo_sent env || yolo_ran env).

(** ** A sample run *)

(** Id 0 is granted and its image sent, but the EC's [DONE] never comes;
    id 1 gets an unknown answer; the connection of id 2 is refused. *)
Definition yolo_demo_env (t : Z) : req_env :=
  if t =? 0 then
    {| socket_ok := true; connect_ok := true; reply := "GRANT:4"; image_ok := true;
       done_reply := EmptyString; start_ns := 0; end_ns := 80000000; enqueue_ns := 0 |}
  else if t =? 1 then
    {| socket_ok := true; connect_ok := true; reply := "BUSY"; image_ok := true;
       done_reply := EmptyString; start_ns := 0; end_ns := 0; enqueue_ns := 1000000000 |}
  else refused_env.

(** The clock reads 0.4 s more at each check; the run lasts one second,
    so the checks at 0, 0.4 and 0.8 s push ids 0, 1, 2 and the one at
    1.2 s stops the generator. *)
Definition yolo_demo_now (k : Z) : Z := 400000000 * k.

Definition yolo_demo_events : list sys_event :=
  [Gen; Gen; Gen; GenEnd; Take 0; Block 0; Finish 0; Take 0; Block 0; Block 0; Block 0; Finish 0;
   Take 0; Block 0; Block 0; Finish 0] ++ (Exit <$> seq 0 thread_pool_size) ++
  [Stop; Dispatch; Dispatch; Dispatch; HelperDone "35" 1700000002000; HelperDone "41" 1700000003000].

(** ** Lemmas *)

(** The YOLOv5s listener parses a line as the sequential one does, but
    for the inference-time field it never reads: the [substr] of that
    field cannot throw, the separator having been found after it. *)
Lemma yolo_process_line_seq (chunk : string) :
  yolo_process_line chunk =
  match process_line chunk with
  | LSkip => YSkip
  | LRecord t _ d => YRecord t d
  | LThrow e => YThrow e
  end.
Proof.
  unfold yolo_process_line, process_line, on_substr, on_conv.
  set (line := erase_char "010"%char (upto_nul chunk)).
  destruct (str_find "," line 0) as [f|] eqn:Hf; [|done].
  destruct (str_find "," line (npos_succ (Some f))) as [sc|] eqn:Hsc; [|done].
  apply str_find_bounds in Hsc. cbn [npos_succ] in Hsc.
  destruct (substr line 0 (Some f)); [|done]. destruct (stoi _); [done|].
  unfold substr at 2. rewrite (proj2 (Nat.leb_le _ _)) by lia.
  destruct (substr line (S sc) None); [|done]. by destruct (stol _).
Qed.

(** On the helper's well-formed reports the listener stores each end time
    and logs each id, in order, and ends without exception. *)
Lemma yolo_listen_records (rs : list (Z * string * Z)) (fuel : nat) :
  Forall (fun r => record_ok r = true) rs -> (String.length (done_stream rs) < fuel)%nat ->
  yolo_listen fuel (done_stream rs) = (mjoin ((fun '(t, i, d) => yolo_record_effects t EmptyString d) <$> rs), None).
Proof.
  revert fuel. induction rs as [|[[t i] d] rs IH]; intros [|fuel] Hok Hf.
  1-3: cbn in Hf |- *; try lia; done.
  change (done_stream ((t, i, d) :: rs)) with (done_record t i d +s+ done_stream rs) in Hf |- *.
  apply Forall_cons in Hok as [Hr Hok].
  pose proof Hr as Hr'. unfold record_ok in Hr'. repeat apply andb_prop in Hr' as [Hr' ?].
  rewrite done_record_fields, string_app_assoc. cbn [yolo_listen]. rewrite fgets_line.
  - rewrite <- done_record_fields, yolo_process_line_seq, process_done_record by done.
    rewrite IH; [done|done|]. rewrite string_length_app, done_record_fields, string_length_app in Hf.
    cbn [String.length newline] in Hf. lia.
  - unfold fields_line. rewrite ?lacks_app, ?lacks_to_string by reflexivity.
    repeat (apply andb_true_intro; split); try assumption; reflexivity.
  - by apply Nat.ltb_lt.
Qed.

(** The counts of every branch of [run_request]. *)
Lemma yolo_counts (token_ed : Z) (env : req_env) :
  counts (req_effects (yolo_run_request token_ed env)) =
  if yolo_sent env then (1, 0, 0)%nat
  else if yolo_ran env then (0, 1, 1)%nat
  else if yolo_granted env then (0, 0, 0)%nat
  else (0, 0, 1)%nat.
Proof.
  unfold yolo_run_request, yolo_sent, yolo_granted, yolo_ran.
  destruct (socket_ok env), (connect_ok env); cbn; try done.
  destruct (String.eqb _ EmptyString); cbn; [done|].
  destruct (starts_with "GRANT:" _) eqn:G; cbn.
  - apply classify_grant in G as [tok ->]. by destruct (image_ok env).
  - destruct (classify _) eqn:C; try done. exfalso.
    assert (starts_with "GRANT:" (recv_bytes 255 (reply env)) = true) by (apply classify_grant; eauto).
    congruence.
Qed.

Lemma yolo_sent_not_ran (env : req_env) : yolo_sent env = true -> yolo_ran env = false.
Proof.
  unfold yolo_sent, yolo_granted, yolo_ran. rewrite !andb_true_iff. intros [[_ ->] _].
  by rewrite !andb_false_r.
Qed.

Lemma yolo_effects_counts (env : Z -> req_env) (t : Z) :
  sum_list_with is_sent (yolo_effects env t) = (if yolo_sent (env t) then 1 else 0)%nat /\
  sum_list_with is_fallback (yolo_effects env t) = (if yolo_ran (env t) then 1 else 0)%nat.
Proof.
  pose proof (yolo_counts t (env t)) as H. unfold counts, yolo_effects in *.
  destruct (yolo_sent (env t)) eqn:S; [rewrite (yolo_sent_not_ran _ S) in *; by injection H as -> -> _|].
  destruct (yolo_ran (env t)), (yolo_granted (env t)); by injection H as -> -> _.
Qed.

Lemma yolo_effects_short (env : Z -> req_env) (t : Z) : (List.length (yolo_effects env t) <= 4)%nat.
Proof. unfold yolo_effects, yolo_run_request. repeat case_match; cbn; lia. Qed.

Lemma yolo_record_quiet (t : Z) (i : string) (d : Z) : forallb quiet_effect (yolo_record_effects t i d) = true.
Proof. done. Qed.

(** The spec's outcome of a connected request that got an answer. *)
Lemma spec_outcome_connected (env : req_env) :
  socket_ok env && connect_ok env = true ->
  String.eqb (recv_bytes 255 (reply env)) EmptyString = false ->
  spec_outcome_of env =
  if starts_with "GRANT:" (recv_bytes 255 (reply env)) then
    (if negb (image_ok env) then PayloadError
     else if String.eqb (recv_bytes 15 (done_reply env)) "DONE" then RemoteCompleted
     else Failed)
  else LocalFallback.
Proof.
  intros Hc He. unfold spec_outcome_of. rewrite Hc, He. cbn.
  destruct (starts_with "GRANT:" _) eqn:G.
  - by apply classify_grant in G as [tok ->].
  - destruct (classify _) eqn:C; try done. exfalso.
    assert (starts_with "GRANT:" (recv_bytes 255 (reply env)) = true) by (apply classify_grant; eauto).
    congruence.
Qed.

(** ** Theorems *)

(** C19: on a working connection that got an answer, the YOLOv5s
    client does what the spec's Offload Client does, as far as the
    counters and the local queue tell, in every case but one: a completed
    offload is counted as sent, and any other answer (a [DROP], an
    unknown reply, a cut [GRANT] frame) is queued locally once and
    counted as run locally; an unreadable image is neither.  The case
    left out is a [GRANT] whose reply after the image is not [DONE],
    which the spec classifies as failed ([yolo_sent_without_done]). *)
Theorem yolo_refines_spec (token_ed : Z) (env : req_env) :
  socket_ok env && connect_ok env = true ->
  String.eqb (recv_bytes 255 (reply env)) EmptyString = false ->
  spec_outcome_of env <> Failed ->
  counts (req_effects (yolo_run_request token_ed env)) = spec_counts (spec_outcome_of env).
Proof.
  intros Hc He. rewrite (spec_outcome_connected env Hc He), yolo_counts.
  unfold yolo_sent, yolo_granted, yolo_ran. rewrite Hc, He. cbn.
  destruct (starts_with "GRANT:" _), (image_ok env); cbn; try done.
  destruct (String.eqb (recv_bytes 15 (done_reply env)) "DONE"); [done | intros H; by destruct H].
Qed.

(** The final [recv] after the image is not checked (line 153):
    when the EC does not answer [DONE] (the spec's failed task, which
    neither counter counts), the task is still counted as completed and
    sent to the EC. *)
Theorem yolo_sent_without_done (token_ed : Z) (env : req_env) :
  spec_outcome_of env = Failed ->
  counts (req_effects (yolo_run_request token_ed env)) = (1, 0, 0)%nat.
Proof.
  intros Hl. rewrite yolo_counts.
  destruct (socket_ok env && connect_ok env) eqn:Hc;
    [|unfold spec_outcome_of in Hl; cbv zeta in Hl; by rewrite Hc in Hl].
  destruct (String.eqb (recv_bytes 255 (reply env)) EmptyString) eqn:He;
    [unfold spec_outcome_of in Hl; cbv zeta in Hl; by rewrite He, orb_true_r in Hl|].
  rewrite (spec_outcome_connected env Hc He) in Hl. revert Hl.
  unfold yolo_sent, yolo_granted. rewrite Hc, He. cbn.
  by destruct (starts_with "GRANT:" _), (image_ok env); cbn; try done.
Qed.

(** C20: the whole YOLOv5s ED: whatever the clock and the interleaving
    of the generator, the 32 workers, the dispatcher and the listener,
    when the process ends the workers have popped exactly the ids the
    generator pushed before its clock check first failed, each once and
    in order; [sent_to_ec] counts those granted with a readable image,
    [ran_on_ed] those with any other answer on a working connection, and
    [completed_tasks] is their sum. *)
Theorem yolo_final_counters (now : Z -> Z) (duration_sec N : Z) (env : Z -> req_env) (s : sys) :
  0 <= N -> yolo_stop now duration_sec N = true ->
  (forall j, 0 <= j < N -> yolo_stop now duration_sec j = false) ->
  yolo_reachable now duration_sec (S (Z.to_nat N)) env s ->
  sys_final s = true ->
  taken s = gen_pushes (S (Z.to_nat N)) (yolo_stop now duration_sec) 0 /\
  sent_to_ec (ed_stats_of (sys_sh s)) = Z.of_nat (List.length (filter (fun t => yolo_sent (env t) = true) (taken s))) /\
  ran_on_ed (ed_stats_of (sys_sh s)) = Z.of_nat (List.length (filter (fun t => yolo_ran (env t) = true) (taken s))) /\
  completed_tasks (ed_stats_of (sys_sh s)) = ran_on_ed (ed_stats_of (sys_sh s)) + sent_to_ec (ed_stats_of (sys_sh s)).
Proof.
  intros HN Hstop Hbefore Hr Hf.
  apply (timed_final_by_outcome _ N (yolo_effects env) yolo_record_effects no_gen_effects); try assumption;
    first [exact (yolo_effects_short env) | exact yolo_record_quiet | exact no_gen_quiet | intros t; apply yolo_effects_counts].
Qed.

(** C21: the printed report accounts for every generated task: when the
    YOLOv5s ED ends (any clock, any interleaving) and no [long] sum
    overflows, [main] prints a report whose number of generated tasks is
    the number of ids pushed before the clock check first failed, and
    whose generated minus completed count is exactly the number of those
    ids whose request failed before an answer or whose granted image could
    not be read. *)
Theorem yolo_report_accounts (now : Z -> Z) (duration_sec N : Z) (env : Z -> req_env) (s : sys)
    (total_time_ms : Z) (order : list (Z * Z)) :
  0 <= N -> yolo_stop now duration_sec N = true ->
  (forall j, 0 <= j < N -> yolo_stop now duration_sec j = false) ->
  yolo_reachable now duration_sec (S (Z.to_nat N)) env s ->
  sys_final s = true ->
  order ≡ₚ map_to_list (local_task_end_ms (sys_sh s)) ->
  Z.abs (total_latency_ms (ed_stats_of (sys_sh s))) +
    zsum (Z.abs <$> matched_latencies (local_task_start_ms (sys_sh s)) (map_to_list (local_task_end_ms (sys_sh s))))
    <= LONG_MAX ->
  exists r, yolo_report s total_time_ms order = Some r /\ rep_generated r = N /\
    rep_generated r - rep_completed (rep_stats r) =
      Z.of_nat (List.length (filter (fun t => yolo_lost (env t) = true) (seqZ 0 N))).
Proof.
  intros HN Hstop Hbefore Hr Hf Hperm Hb.
  destruct (timed_final_by_outcome (yolo_stop now duration_sec) N (yolo_effects env) yolo_record_effects no_gen_effects
              (fun t => yolo_sent (env t)) (fun t => yolo_ran (env t)) s) as (Ht & Es & Er & Ec);
    try assumption; try first [exact (yolo_effects_short env) | exact yolo_record_quiet | exact no_gen_quiet
                               | intros t; apply yolo_effects_counts].
  destruct (gen_pushes_first_stop (yolo_stop now duration_sec) N Hstop Hbefore (S (Z.to_nat N)) 0) as [Hp Hfs]; [lia|lia|].
  rewrite Hp, Z.sub_0_r in Ht. rewrite Ht in Es, Er.
  pose proof (final_gen_i _ _ s (sys_reachable_inv _ _ _ _ (yolo_effects_short env) yolo_record_quiet
                                   no_gen_quiet s Hr) Hf) as Hg.
  rewrite Hfs in Hg.
  destruct (final_report_some (sys_sh s) order Hperm Hb) as (r & Hrep & Hc & _ & _ & _).
  exists {| rep_generated := gen_i s; rep_time_ms := total_time_ms; rep_stats := r |}.
  unfold yolo_report. rewrite Hrep. cbn [rep_generated rep_stats]. split_and!; [done|lia|].
  rewrite Hc, Ec, Es, Er, Hg, Z.max_r by lia.
  pose proof (length_filter_split (fun t => yolo_sent (env t)) (fun t => yolo_ran (env t)) (seqZ 0 N)
                (fun t => yolo_sent_not_ran (env t))) as Hsplit.
  rewrite length_seqZ in Hsplit. unfold yolo_lost. lia.
Qed.

Local Abbreviation yolo_final :=
  (default sys_init (sys_run 3 (yolo_effects yolo_demo_env) yolo_record_effects no_gen_effects sys_init yolo_demo_events)).

Lemma yolo_refines_spec_witness :
  socket_ok (yolo_demo_env 1) && connect_ok (yolo_demo_env 1) = true /\
  String.eqb (recv_bytes 255 (reply (yolo_demo_env 1))) EmptyString = false /\
  spec_outcome_of (yolo_demo_env 1) <> Failed /\
  counts (req_effects (yolo_run_request 1 (yolo_demo_env 1))) = spec_counts (spec_outcome_of (yolo_demo_env 1)).
Proof.
  assert (H1 : socket_ok (yolo_demo_env 1) && connect_ok (yolo_demo_env 1) = true) by reflexivity.
  assert (H2 : String.eqb (recv_bytes 255 (reply (yolo_demo_env 1))) EmptyString = false) by (vm_compute; reflexivity).
  assert (H3 : spec_outcome_of (yolo_demo_env 1) <> Failed) by (vm_compute; discriminate).
  split; [exact H1|]. split; [exact H2|]. split; [exact H3|].
  exact (yolo_refines_spec 1 (yolo_demo_env 1) H1 H2 H3).
Defined.

Lemma yolo_sent_without_done_witness :
  spec_outcome_of (yolo_demo_env 0) = Failed /\
  counts (req_effects (yolo_run_request 0 (yolo_demo_env 0))) = (1, 0, 0)%nat.
Proof.
  assert (H : spec_outcome_of (yolo_demo_env 0) = Failed) by (vm_compute; reflexivity).
  split; [exact H | exact (yolo_sent_without_done 0 (yolo_demo_env 0) H)].
Defined.

Lemma yolo_final_counters_witness :
  0 <= 3 /\ yolo_stop yolo_demo_now 1 3 = true /\
  (forall j, 0 <= j < 3 -> yolo_stop yolo_demo_now 1 j = false) /\
  yolo_reachable yolo_demo_now 1 (S (Z.to_nat 3)) yolo_demo_env yolo_final /\
  sys_final yolo_final = true /\
  taken yolo_final = gen_pushes (S (Z.to_nat 3)) (yolo_stop yolo_demo_now 1) 0 /\
  sent_to_ec (ed_stats_of (sys_sh yolo_final)) =
    Z.of_nat (List.length (filter (fun t => yolo_sent (yolo_demo_env t) = true) (taken yolo_final))) /\
  ran_on_ed (ed_stats_of (sys_sh yolo_final)) =
    Z.of_nat (List.length (filter (fun t => yolo_ran (yolo_demo_env t) = true) (taken yolo_final))) /\
  completed_tasks (ed_stats_of (sys_sh yolo_final)) =
    ran_on_ed (ed_stats_of (sys_sh yolo_final)) + sent_to_ec (ed_stats_of (sys_sh yolo_final)).
Proof.
  assert (H0 : 0 <= 3) by lia.
  assert (H1 : yolo_stop yolo_demo_now 1 3 = true) by reflexivity.
  assert (H2 : forall j, 0 <= j < 3 -> yolo_stop yolo_demo_now 1 j = false).
  { intros j Hj. assert (j = 0 \/ j = 1 \/ j = 2) as [-> | [-> | ->]] by lia; reflexivity. }
  assert (H3 : yolo_reachable yolo_demo_now 1 (S (Z.to_nat 3)) yolo_demo_env yolo_final).
  { unfold yolo_reachable. apply (sys_run_reachable_from _ _ _ _ sys_init _ yolo_demo_events).
    vm_compute. reflexivity. }
  assert (H4 : sys_final yolo_final = true) by (vm_compute; reflexivity).
  split; [exact H0|]. split; [exact H1|]. split; [exact H2|]. split; [exact H3|]. split; [exact H4|].
  exact (yolo_final_counters yolo_demo_now 1 3 yolo_demo_env yolo_final H0 H1 H2 H3 H4).
Defined.

Lemma yolo_report_accounts_witness :
  0 <= 3 /\ yolo_stop yolo_demo_now 1 3 = true /\
  (forall j, 0 <= j < 3 -> yolo_stop yolo_demo_now 1 j = false) /\
  yolo_reachable yolo_demo_now 1 (S (Z.to_nat 3)) yolo_demo_env yolo_final /\
  sys_final yolo_final = true /\
  exists r, yolo_report yolo_final 1250 (map_to_list (local_task_end_ms (sys_sh yolo_final))) = Some r /\
    rep_generated r = 3 /\
    rep_generated r - rep_completed (rep_stats r) =
      Z.of_nat (List.length (filter (fun t => yolo_lost (yolo_demo_env t) = true) (seqZ 0 3))).
Proof.
  assert (H0 : 0 <= 3) by lia.
  assert (H1 : yolo_stop yolo_demo_now 1 3 = true) by reflexivity.
  assert (H2 : forall j, 0 <= j < 3 -> yolo_stop yolo_demo_now 1 j = false).
  { intros j Hj. assert (j = 0 \/ j = 1 \/ j = 2) as [-> | [-> | ->]] by lia; reflexivity. }
  assert (H3 : yolo_reachable yolo_demo_now 1 (S (Z.to_nat 3)) yolo_demo_env yolo_final).
  { unfold yolo_reachable. apply (sys_run_reachable_from _ _ _ _ sys_init _ yolo_demo_events).
    vm_compute. reflexivity. }
  assert (H4 : sys_final yolo_final = true) by (vm_compute; reflexivity).
  assert (H5 : Z.abs (total_latency_ms (ed_stats_of (sys_sh yolo_final))) +
    zsum (Z.abs <$> matched_latencies (local_task_start_ms (sys_sh yolo_final))
                      (map_to_list (local_task_end_ms (sys_sh yolo_final)))) <= LONG_MAX)
    by (vm_compute; discriminate).
  split; [exact H0|]. split; [exact H1|]. split; [exact H2|]. split; [exact H3|]. split; [exact H4|].
  exact (yolo_report_accounts yolo_demo_now 1 3 yolo_demo_env yolo_final 1250 _ H0 H1 H2 H3 H4 (reflexivity _) H5).
Defined.
