(* ===== verification/Rn50Bwaj.v ===== *)
(** * Rn50Bwaj: the bandwidth-aware ResNet-50 ED

    Source: src/ed_oms_parallel_rn50_bwaj.cpp.  The process has the shape
    of the sequential variant ([Driver]): a time-driven generator, 32
    workers running [run_request], the dispatcher, the helper and its
    listener.  It differs in what it records for the end-to-end latency:

    - the generator stamps each id's birth time in [task_start_time]
      under [time_map_mutex] when it pushes the id (lines 237-245):
      [bw_gen_effects] is the generator's locked block, passed to
      [Driver.sys_step];
    - [run_request] overwrites that entry with the time the worker starts
      the request (line 132), WITHOUT taking [time_map_mutex];
    - the EC path stamps [task_end_time] when [DONE] arrives (lines
      183-187), the listener when the helper reports (lines 121-125);
    - [main] averages [end - start] over the ids present in both maps
      (lines 296-308): [e2e_stats].

    Each atomic block of [run_request] and of the generator is a [block]
    that records the mutexes held while it runs (the [std::lock_guard]s
    in scope); the blocks run one at a time in [Driver], so a mutex shows
    only in which accesses it orders.  As in the race definition of
    RustBelt's [nonracing_accesses], a data race is two co-enabled
    blocks that write the same map and hold no common mutex
    ([racing_blocks], [start_race]).

    A local run gets a random image of the [COCO_test_1220] directory
    ([coco_image]).  The double-valued [local_infer_time_ms] map and its
    average, and the text [std::to_string(double)] gives the inference
    time in the listener's log line, are not modelled: the log text
    takes that conversion as the parameter [fmt_infer]. *)

From S2P Require Import Prelude CppString Wire Client LocalExec Driver Yolo.

Open Scope oms_scope.

(** ** Inputs *)

(** [const char* IMAGE] (line 25). *)
Definition bw_IMAGE : string := "000000006321.jpg".

(** [get_random_image_from_coco()] (lines 55-69).  [dir] is what
    [readdir] lists of [COCO_test_1220] (each entry with [d_type == DT_REG]
    and its name), [None] when [opendir] fails; [pick] is the draw of
    [dist(gen)], which lies in [0 .. images.size() - 1]. *)
Definition coco_image (dir : option (list (bool * string))) (pick : nat) : string :=
  match dir with
  | None => bw_IMAGE
  | Some entries =>
      let images := (fun e => "COCO_test_1220" +s+ "/" +s+ e.2) <$> filter (fun e => e.1 = true) entries in
      match images with
      | [] => bw_IMAGE
      | _ => default bw_IMAGE (images !! (pick mod List.length images)%nat)
      end
  end.

(** What one [run_request] sees: the answers of its system calls, the two
    [current_time_ms()] readings, and the image chosen for a local run. *)
Record bw_env := {
  bw_req : req_env;                       (** socket, connect, recv, file, clocks *)
  birth_ms : Z;                           (** [current_time_ms()] at line 132 *)
  done_ms : Z;                            (** [current_time_ms()] at line 183 *)
  coco_dir : option (list (bool * string));
  pick : nat
}.

(** ** Mutexes and blocks *)

(** The mutexes of the program (lines 28, 34, 42 and 219). *)
Inductive mutex := stats_mutex | queue_mutex | time_map_mutex | task_queue_mutex.

#[global] Instance mutex_eq_dec : EqDecision mutex.
Proof. solve_decision. Defined.

(** An atomic block of a thread: the mutexes it holds while it runs (the
    [std::lock_guard]s in scope, none for an unlocked access) and what it
    does to the shared state. *)
Record block := { held : list mutex; blk : ed_effect }.

Definition locked (ms : list mutex) (e : ed_effect) : block := {| held := ms; blk := e |}.

(** ** [run_request] and its blocks *)

(** [enqueue_local_run] (lines 81-88): one block under [queue_mutex]. *)
Definition bw_enqueue_local_run (token_ed : Z) (image_path : string) : list block :=
  [locked [queue_mutex] (PushLocal (to_string token_ed +s+ ":" +s+ image_path))].

(** [log_result] (lines 49-53) writes under [stats_mutex]. *)
Definition bw_log (line : string) : block := locked [stats_mutex] (Log line).

(** What [run_request] sends and the blocks it runs. *)
Record bw_result := { bw_frames : list string; bw_blocks : list block }.

(** Lines 131-207.  The first block is the write of line 132, which
    holds no mutex. *)
Definition bw_run_request (token_ed : Z) (e : bw_env) : bw_result :=
  let env := bw_req e in
  let birth := locked [] (SetStart token_ed (birth_ms e)) in
  let fallback := bw_enqueue_local_run token_ed (coco_image (coco_dir e) (pick e)) in
  if negb (socket_ok env) then {| bw_frames := []; bw_blocks := birth :: fallback |}
  else if negb (connect_ok env) then {| bw_frames := []; bw_blocks := birth :: fallback |}
  else
    let req := req_msg token_ed in
    let response := recv_bytes 255 (reply env) in
    if String.eqb response EmptyString then {| bw_frames := [req]; bw_blocks := birth :: fallback |}
    else
      match classify response with
      | RGrant token_ec =>
          let ok := ok_msg token_ec token_ed in
          if negb (image_ok env) then {| bw_frames := [req; ok]; bw_blocks := [birth] |}
          else if String.eqb (recv_bytes 15 (done_reply env)) EmptyString then
            {| bw_frames := [req; ok]; bw_blocks := [birth] |}
          else
            let duration := to_ms (end_ns env - start_ns env) in
            {| bw_frames := [req; ok];
               bw_blocks :=
                 [birth; locked [time_map_mutex] (SetEnd token_ed (done_ms e));
                  locked [stats_mutex] (CountSent duration);
                  bw_log ("[ED_SENT] token_ed=" +s+ to_string token_ed +s+ " token_ec=" +s+ token_ec
                          +s+ " duration=" +s+ to_string duration +s+ " ms")] |}
      | RDrop =>
          {| bw_frames := [req];
             bw_blocks := birth :: fallback ++
               [locked [stats_mutex] CountFallback;
                bw_log ("[ED_FALLBACK] token_ed=" +s+ to_string token_ed +s+ " fallback")] |}
      | ROther => {| bw_frames := [req]; bw_blocks := [birth] |}
      end.

Definition bw_effects (env : Z -> bw_env) (token : Z) : list ed_effect :=
  blk <$> bw_blocks (bw_run_request token (env token)).

(** The listener's locked block and log line for one record (lines
    121-126); [fmt_infer] is [std::to_string(std::stod(.))] of the
    inference-time field. *)
Definition bw_record_effects (fmt_infer : string -> string) (token : Z) (infer : string)
    (done_time : Z) : list ed_effect :=
  [SetEnd token done_time;
   Log ("[ED_DONE] token_ed=" +s+ to_string token +s+ " infer_time=" +s+ fmt_infer infer +s+ " ms")].

(** The generator's block (lines 238-243): the birth time of the id it
    pushes, written under [task_queue_mutex] and [time_map_mutex];
    [gen_ms token] is [current_time_ms()] at line 242. *)
Definition bw_gen_blocks (gen_ms : Z -> Z) (token : Z) : list block :=
  [locked [task_queue_mutex; time_map_mutex] (SetStart token (gen_ms token))].

Definition bw_gen_effects (gen_ms : Z -> Z) (token : Z) : list ed_effect :=
  blk <$> bw_gen_blocks gen_ms token.

(** ** The final statistics (lines 296-308) *)

(** Sum of [end - start] and count, over the ids of [task_start_time]
    that [task_end_time] has. *)
Definition e2e_stats (starts ends : gmap Z Z) : Z * Z :=
  map_fold (fun t st acc => match ends !! t with
                            | Some en => (acc.1 + (en - st), acc.2 + 1)
                            | None => acc
                            end) (0, 0) starts.

(** [e2e_count ? (total_e2e_time / e2e_count) : 0]. *)
Definition avg_e2e (starts ends : gmap Z Z) : Z :=
  let '(total, cnt) := e2e_stats starts ends in if cnt =? 0 then 0 else Z.quot total cnt.

(** The same statistics over a list of ids [ids] without repetition,
    with start times [start_of]: the reference the traversal of the map
    is compared with. *)
Definition e2e_over (ends : gmap Z Z) (start_of : Z -> Z) (ids : list Z) : Z * Z :=
  foldr (fun t acc => match ends !! t with
                      | Some en => (acc.1 + (en - start_of t), acc.2 + 1)
                      | None => acc
                      end) (0, 0) ids.

(** The map that stamps each id of [ids] with [start_of]. *)
Definition stamps (start_of : Z -> Z) (ids : list Z) : gmap Z Z :=
  foldr (fun t m => <[t:=start_of t]> m) ∅ ids.

(** ** The process *)

(** The states the process reaches (lines 230-283): [Driver]'s process
    with the generator pushing the ids [0 .. N - 1] and stamping each
    birth under [time_map_mutex] (lines 230-252), the 32 workers running
    [bw_run_request] (lines 254-270), the dispatcher, the helper and the
    listener's blocks, and [main]'s joins and [stop_local]
    (lines 272-283). *)
Definition bw_reachable (N : Z) (env : Z -> bw_env) (fmt_infer : string -> string) (gen_ms : Z -> Z) (s : sys) : Prop :=
  sys_reachable N (bw_effects env) (bw_record_effects fmt_infer) (bw_gen_effects gen_ms) s.

(** ** The data race on [task_start_time] *)

(** A block writes the [task_start_time] map. *)
Definition writes_start_map (b : block) : bool :=
  match blk b with SetStart _ _ => true | _ => false end.

(** Two blocks race when both write [task_start_time] and no mutex is
    held by both: nothing orders the two writes to the map. *)
Definition racing_blocks (b1 b2 : block) : bool :=
  writes_start_map b1 && writes_start_map b2 &&
  negb (existsb (fun m => bool_decide (m ∈ held b2)) (held b1)).

(** The block a worker runs next: the one of its request's blocks at the
    position of the first effect it has not yet applied. *)
Definition next_block (env : Z -> bw_env) (w : worker) : option block :=
  match w with
  | WBusy t rest =>
      let bs := bw_blocks (bw_run_request t (env t)) in
      bs !! (List.length bs - List.length rest)%nat
  | _ => None
  end.

(** The generator can push its next id, and its block races with the
    block some worker runs next. *)
Definition start_race (total_requests : Z) (env : Z -> bw_env) (gen_ms : Z -> Z) (s : sys) : bool :=
  negb (all_generated s) && (gen_i s <? total_requests) &&
  existsb (fun w => match next_block env w, head (bw_gen_blocks gen_ms (gen_i s)) with
                    | Some b1, Some b2 => racing_blocks b1 b2
                    | _, _ => false
                    end) (workers s).

(** ** A sample run *)

(** Id 0 is offloaded and acknowledged; the connection of id 1 is
    refused, and its task runs locally on the second image of the
    directory.  Both ids wait in [task_queue] before a worker takes them. *)
Definition bw_demo_dir : option (list (bool * string)) :=
  Some [(true, "a.jpg"); (false, "sub"); (true, "b.jpg")].

Definition bw_demo_env (t : Z) : bw_env :=
  if t =? 0 then
    {| bw_req := {| socket_ok := true; connect_ok := true; reply := "GRANT:7"; image_ok := true;
                    done_reply := "DONE"; start_ns := 0; end_ns := 90000000; enqueue_ns := 0 |};
       birth_ms := 1700000000400; done_ms := 1700000000490; coco_dir := bw_demo_dir; pick := 1 |}
  else
    {| bw_req := refused_env; birth_ms := 1700000000900; done_ms := 0; coco_dir := bw_demo_dir;
       pick := 1 |}.

(** The generator stamps id [k] at [300 k] ms; its clock check reads
    [0.6 k] s, so with [duration_sec = 1] it pushes ids 0 and 1. *)
Definition bw_demo_gen_ms (k : Z) : Z := 1700000000000 + 300 * k.
Definition bw_demo_now (k : Z) : Z := 600000000 * k.
Definition bw_demo_fmt (infer : string) : string := "35.500000".

Definition bw_demo_events : list sys_event :=
  [Gen; Gen; GenEnd; Take 0; Block 0; Block 0; Block 0; Block 0; Finish 0;
   Take 0; Block 0; Block 0; Finish 0] ++ (Exit <$> seq 0 thread_pool_size) ++
  [Stop; Dispatch; Dispatch; HelperDone "35.5" 1700000003000].

(** ** [task_start_time] along a run *)

(** What [task_start_time] holds for [t]: the worker's stamp once [t]'s
    request has begun, the generator's once [t] is pushed, else nothing. *)
Definition start_expected (env : Z -> bw_env) (gen_ms : Z -> Z) (s : sys) (t : Z) : option Z :=
  match applied_for t (applied s) with
  | [] => if bool_decide (0 <= t < gen_i s) then Some (gen_ms t) else None
  | _ :: _ => Some (birth_ms (env t))
  end.

Definition start_inv (env : Z -> bw_env) (gen_ms : Z -> Z) (s : sys) : Prop :=
  forall t, local_task_start_ms (sys_sh s) !! t = start_expected env gen_ms s t.

(** ** Lemmas *)

(** Every request starts with the unlocked write of line 132, and writes
    [task_start_time] nowhere else. *)
Lemma bw_effects_shape (env : Z -> bw_env) (t : Z) :
  exists rest, bw_effects env t = SetStart t (birth_ms (env t)) :: rest /\
    Forall (fun e => match e with SetStart _ _ => False | _ => True end) rest.
Proof. unfold bw_effects, bw_run_request. repeat case_match; eexists; (split; [reflexivity | repeat constructor]). Qed.

(** The first block of every request is the write of line 132. *)
Lemma bw_blocks_head (t : Z) (e : bw_env) :
  exists rest, bw_blocks (bw_run_request t e) = locked [] (SetStart t (birth_ms e)) :: rest.
Proof. unfold bw_run_request. repeat case_match; eexists; reflexivity. Qed.

(** A worker that has just taken [t] runs that write next. *)
Lemma next_block_start (env : Z -> bw_env) (t : Z) :
  next_block env (WBusy t (bw_effects env t)) = Some (locked [] (SetStart t (birth_ms (env t)))).
Proof.
  unfold next_block, bw_effects. rewrite length_fmap, Nat.sub_diag.
  by destruct (bw_blocks_head t (env t)) as [rest ->].
Qed.

(** The blocks of a request count what the sequential variant's count:
    the two differ only in their time stamps and the image. *)
Lemma bw_counts (token_ed : Z) (e : bw_env) :
  counts (blk <$> bw_blocks (bw_run_request token_ed e)) = counts (req_effects (run_request token_ed (bw_req e))).
Proof. unfold bw_run_request, run_request. repeat case_match; reflexivity. Qed.

Lemma bw_effects_counts (env : Z -> bw_env) (t : Z) :
  sum_list_with is_sent (bw_effects env t) = (if offloaded (bw_req (env t)) then 1 else 0)%nat /\
  sum_list_with is_fallback (bw_effects env t) = (if refused (bw_req (env t)) then 1 else 0)%nat.
Proof.
  pose proof (bw_counts t (env t)) as H. unfold counts in H. injection H as Hs Hf _.
  unfold bw_effects. rewrite Hs, Hf. apply run_request_counts.
Qed.

Lemma bw_effects_short (env : Z -> bw_env) (t : Z) : (List.length (bw_effects env t) <= 4)%nat.
Proof. unfold bw_effects, bw_run_request. repeat case_match; cbn; lia. Qed.

Lemma bw_record_quiet (fmt_infer : string -> string) (t : Z) (i : string) (d : Z) :
  forallb quiet_effect (bw_record_effects fmt_infer t i d) = true.
Proof. done. Qed.

Lemma bw_gen_quiet (gen_ms : Z -> Z) (t : Z) : forallb quiet_effect (bw_gen_effects gen_ms t) = true.
Proof. done. Qed.

(** ** Theorems *)

(** C22: [task_start_time] is written concurrently: as soon as the
    generator has two ids to push, there is a reachable state where a
    worker's next block is the write of line 132 and the generator's
    next block writes the same map, and the two blocks hold no common
    mutex: the worker's holds none, the generator's holds
    [time_map_mutex]. *)
Theorem bw_start_time_race (N : Z) (env : Z -> bw_env) (gen_ms : Z -> Z) (fmt_infer : string -> string) :
  1 < N ->
  exists s, bw_reachable N env fmt_infer gen_ms s /\
    start_race N env gen_ms s = true.
Proof.
  intros HN. assert (H0 : (0 <? N) = true) by (apply Z.ltb_lt; lia).
  eexists. split.
  - apply (sys_run_reachable_from _ _ _ _ sys_init _ [Gen; Take 0%nat]).
    cbn -[bw_effects]. rewrite H0. cbn -[bw_effects]. reflexivity.
  - unfold start_race. cbn -[bw_effects next_block]. rewrite next_block_start. cbn.
    rewrite andb_true_r. apply Z.ltb_lt. lia.
Qed.

(** The traversal of [main] does not depend on the order of the map. *)
Lemma e2e_stats_insert (starts ends : gmap Z Z) (t st : Z) :
  starts !! t = None ->
  e2e_stats (<[t:=st]> starts) ends =
    match ends !! t with
    | Some en => ((e2e_stats starts ends).1 + (en - st), (e2e_stats starts ends).2 + 1)
    | None => e2e_stats starts ends
    end.
Proof.
  intros Ht. unfold e2e_stats. rewrite map_fold_insert_L; [done| |done].
  intros j1 j2 z1 z2 [a c] _ _ _. cbn. do 2 case_match; cbn; f_equal; lia.
Qed.

Lemma lookup_stamps (start_of : Z -> Z) (ids : list Z) (t : Z) :
  stamps start_of ids !! t = if bool_decide (t ∈ ids) then Some (start_of t) else None.
Proof.
  induction ids as [|x ids IH]; [done|]. unfold stamps; cbn [foldr]; fold (stamps start_of ids).
  destruct (decide (x = t)) as [->|Hne].
  - rewrite lookup_insert_eq, bool_decide_true; [done | by left].
  - rewrite lookup_insert_ne, IH by done. do 2 case_bool_decide; rewrite ?elem_of_cons in *; naive_solver.
Qed.

Lemma e2e_stats_stamps (start_of : Z -> Z) (ids : list Z) (ends : gmap Z Z) :
  NoDup ids -> e2e_stats (stamps start_of ids) ends = e2e_over ends start_of ids.
Proof.
  induction 1 as [|t ids Ht Hnd IH]; [done|]. unfold stamps; cbn [foldr]; fold (stamps start_of ids).
  rewrite e2e_stats_insert, IH; [done|]. by rewrite lookup_stamps, bool_decide_false.
Qed.

Lemma dispatch_step_start (sh sh' : ed_shared) (line : string) :
  dispatch_step sh = DWrite line sh' -> local_task_start_ms sh' = local_task_start_ms sh.
Proof. unfold dispatch_step. repeat case_match; by intros [= _ <-]. Qed.

Section StartTimes.
Variable N : Z.
Variable env : Z -> bw_env.
Variable gen_ms : Z -> Z.
Variable fmt_infer : string -> string.

Local Abbreviation bw_step := (sys_step N (bw_effects env) (bw_record_effects fmt_infer) (bw_gen_effects gen_ms)).

Lemma start_inv_frame (s s' : sys) :
  start_inv env gen_ms s -> local_task_start_ms (sys_sh s') = local_task_start_ms (sys_sh s) ->
  applied s' = applied s -> gen_i s' = gen_i s -> start_inv env gen_ms s'.
Proof. intros H Hm Ha Hg t. rewrite Hm, H. unfold start_expected. by rewrite Ha, Hg. Qed.

Lemma start_inv_step (s s' : sys) (ev : sys_event) :
  sys_inv N (bw_effects env) s -> start_inv env gen_ms s -> bw_step s ev = Some s' -> start_inv env gen_ms s'.
Proof.
  intros Hinv Hs Hstep. destruct ev; cbn in Hstep; step_cases Hstep;
    try (eapply start_inv_frame; [exact Hs|reflexivity|reflexivity|reflexivity]).
  - destruct Hinv as ((Ht & Hg & _) & (_ & _ & _ & Hkeys & _) & _).
    intros t. unfold start_expected. cbn [sys_sh applied gen_i upd_sh upd_gen upd_applied upd_worker local_task_start_ms set_start].
    destruct (decide (t = gen_i s)) as [->|Hne].
    + rewrite lookup_insert_eq, (applied_for_absent _ _ (taken s) Hkeys); [by rewrite bool_decide_true by lia|].
      intros Hin. assert (Hg' : gen_i s ∈ seqZ 0 (gen_i s)) by (rewrite <- Ht; apply elem_of_app; by left).
      apply elem_of_seqZ in Hg'. lia.
    + rewrite lookup_insert_ne, Hs by congruence. unfold start_expected.
      destruct (applied_for t (applied s)); [|done]. do 2 case_bool_decide; done || lia.
  - destruct Hinv as (_ & (_ & Hbusy & _) & _).
    match goal with Hw : workers s !! _ = Some (WBusy _ _) |- _ => destruct (Hbusy _ _ _ Hw) as (_ & Heff & _) end.
    destruct (bw_effects_shape env token) as (rest & Hr & Hrest). rewrite Hr in Heff.
    intros t. unfold start_expected. cbn [sys_sh applied gen_i upd_sh upd_gen upd_applied upd_worker local_task_start_ms set_start]. 
    match goal with Ha : apply_effect _ _ = Some _ |- _ => rewrite (apply_effect_start _ _ _ Ha) end.
    rewrite applied_for_snoc.
    destruct (applied_for token (applied s)) as [|a pre] eqn:Ea; cbn in Heff; injection Heff as <- Hl.
    + destruct (decide (t = token)) as [->|Hne].
      * by rewrite lookup_insert_eq, Ea, decide_True.
      * rewrite lookup_insert_ne, Hs, decide_False by congruence. unfold start_expected. by rewrite app_nil_r.
    + assert (He : e ∈ rest) by (rewrite Hl; apply elem_of_app; right; left).
      rewrite Forall_forall in Hrest. specialize (Hrest e He).
      assert (Hm : match e with SetStart t0 ms => <[t0:=ms]> (local_task_start_ms (sys_sh s))
                   | _ => local_task_start_ms (sys_sh s) end = local_task_start_ms (sys_sh s))
        by (destruct e; done).
      rewrite Hm, Hs. unfold start_expected.
      destruct (decide (token = t)) as [<-|Hne]; [by rewrite Ea|by rewrite app_nil_r].
  - eapply start_inv_frame; [exact Hs| |done|done]. cbn. by eapply dispatch_step_start.
Qed.

Lemma start_inv_init : start_inv env gen_ms sys_init.
Proof. intros t. unfold start_expected. cbn. by rewrite bool_decide_false by lia. Qed.

Lemma bw_sys_inv (s : sys) :
  bw_reachable N env fmt_infer gen_ms s ->
  sys_inv N (bw_effects env) s.
Proof. apply sys_reachable_inv; first [exact (bw_effects_short env) | exact (bw_record_quiet fmt_infer) | exact (bw_gen_quiet gen_ms)]. Qed.

Lemma bw_start_inv (s : sys) :
  bw_reachable N env fmt_infer gen_ms s -> start_inv env gen_ms s.
Proof.
  apply (rtc_ind_r (start_inv env gen_ms) sys_init); [apply start_inv_init|].
  intros y z Hy [ev Hev] IH. eapply start_inv_step; [by apply bw_sys_inv | exact IH | exact Hev].
Qed.

(** The generator's birth stamp never survives: when the process ends,
    [task_start_time] maps each id [0 .. N - 1] to the time its worker
    started [run_request] (line 132) and holds no other id. *)
Lemma bw_final_starts (s : sys) :
  bw_reachable N env fmt_infer gen_ms s ->
  sys_final s = true ->
  forall t, local_task_start_ms (sys_sh s) !! t = if bool_decide (0 <= t < N) then Some (birth_ms (env t)) else None.
Proof.
  intros Hr Hf t. pose proof (bw_sys_inv s Hr) as Hinv.
  rewrite (bw_start_inv s Hr t). unfold start_expected. rewrite (final_gen_i _ _ s Hinv Hf).
  destruct (final_quiescent _ _ s Hinv Hf) as [Htk Hnb].
  destruct Hinv as (_ & (_ & _ & Hidle & Hkeys & _) & _).
  destruct (decide (0 <= t < N)) as [Ht|Ht].
  - rewrite (bool_decide_true (0 <= t < N)) by done.
    rewrite (Hidle t); [| rewrite Htk, elem_of_seqZ; lia | intros; apply Hnb].
    by destruct (bw_effects_shape env t) as (rest & -> & _).
  - rewrite (applied_for_absent _ _ (taken s) Hkeys); [by rewrite !bool_decide_false by lia|].
    rewrite Htk, elem_of_seqZ. lia.
Qed.

(** ** Theorems *)

(** C23: the end-to-end latency [main] prints is measured from the start
    of [run_request], not from the generator's birth stamp: when the
    process ends, the sum and the count of lines 296-307 are those of
    [end - start] over the ids [0 .. N - 1] that have an end time, with
    [start] the worker's stamp of line 132, so the time an id waited in
    [task_queue] is left out. *)
Theorem bw_e2e_from_run_start (s : sys) :
  bw_reachable N env fmt_infer gen_ms s ->
  sys_final s = true ->
  e2e_stats (local_task_start_ms (sys_sh s)) (local_task_end_ms (sys_sh s)) =
  e2e_over (local_task_end_ms (sys_sh s)) (fun t => birth_ms (env t)) (seqZ 0 N).
Proof.
  intros Hr Hf. rewrite <- e2e_stats_stamps by apply NoDup_seqZ. f_equal.
  apply map_eq. intros t. rewrite bw_final_starts, lookup_stamps by done.
  destruct (decide (0 <= t < N)).
  - by rewrite !bool_decide_true by (rewrite ?elem_of_seqZ; lia).
  - by rewrite !bool_decide_false by (rewrite ?elem_of_seqZ; lia).
Qed.

End StartTimes.

(** C24: the whole bandwidth-aware ResNet-50 ED: whatever the clocks and
    the interleaving, when the process ends the workers have popped
    exactly the ids the generator pushed before its clock check first
    failed, each once and in order; [sent_to_ec] counts the completed
    offloads, [ran_on_ed] the [DROP]s, and [completed_tasks] is their
    sum: the same counts as the sequential variant's. *)
Theorem bw_final_counters (now : Z -> Z) (duration_sec N : Z) (env : Z -> bw_env) (gen_ms : Z -> Z)
    (fmt_infer : string -> string) (s : sys) :
  0 <= N -> yolo_stop now duration_sec N = true ->
  (forall j, 0 <= j < N -> yolo_stop now duration_sec j = false) ->
  bw_reachable (first_stop (S (Z.to_nat N)) (yolo_stop now duration_sec) 0) env fmt_infer gen_ms s ->
  sys_final s = true ->
  taken s = gen_pushes (S (Z.to_nat N)) (yolo_stop now duration_sec) 0 /\
  sent_to_ec (ed_stats_of (sys_sh s)) = Z.of_nat (List.length (filter (fun t => offloaded (bw_req (env t)) = true) (taken s))) /\
  ran_on_ed (ed_stats_of (sys_sh s)) = Z.of_nat (List.length (filter (fun t => refused (bw_req (env t)) = true) (taken s))) /\
  completed_tasks (ed_stats_of (sys_sh s)) = ran_on_ed (ed_stats_of (sys_sh s)) + sent_to_ec (ed_stats_of (sys_sh s)).
Proof.
  intros HN Hstop Hbefore Hr Hf.
  apply (timed_final_by_outcome _ N (bw_effects env) (bw_record_effects fmt_infer) (bw_gen_effects gen_ms)); try assumption;
    first [exact (bw_effects_short env) | exact (bw_record_quiet fmt_infer) | exact (bw_gen_quiet gen_ms)
          | intros t; apply bw_effects_counts].
Qed.

Local Abbreviation bw_final :=
  (default sys_init (sys_run 2 (bw_effects bw_demo_env) (bw_record_effects bw_demo_fmt) (bw_gen_effects bw_demo_gen_ms)
                       sys_init bw_demo_events)).

Lemma bw_demo_reachable :
  bw_reachable 2 bw_demo_env bw_demo_fmt bw_demo_gen_ms bw_final.
Proof. apply (sys_run_reachable_from _ _ _ _ sys_init _ bw_demo_events). vm_compute. reflexivity. Qed.

Lemma bw_start_time_race_witness :
  1 < 2 /\ exists s, bw_reachable 2 bw_demo_env bw_demo_fmt bw_demo_gen_ms s /\
    start_race 2 bw_demo_env bw_demo_gen_ms s = true.
Proof. split; [lia | apply (bw_start_time_race 2 bw_demo_env bw_demo_gen_ms bw_demo_fmt); lia]. Defined.

(** In the sample run the two ids waited 400 and 600 ms in [task_queue];
    the latencies [main] averages are 90 and 2100 ms. *)
Lemma bw_e2e_from_run_start_witness :
  bw_reachable 2 bw_demo_env bw_demo_fmt bw_demo_gen_ms bw_final /\
  sys_final bw_final = true /\
  e2e_stats (local_task_start_ms (sys_sh bw_final)) (local_task_end_ms (sys_sh bw_final)) =
    e2e_over (local_task_end_ms (sys_sh bw_final)) (fun t => birth_ms (bw_demo_env t)) (seqZ 0 2) /\
  e2e_over (local_task_end_ms (sys_sh bw_final)) (fun t => birth_ms (bw_demo_env t)) (seqZ 0 2) = (2190, 2).
Proof.
  assert (Hf : sys_final bw_final = true) by (vm_compute; reflexivity).
  split; [exact bw_demo_reachable|]. split; [exact Hf|]. split; [|vm_compute; reflexivity].
  exact (bw_e2e_from_run_start 2 bw_demo_env bw_demo_gen_ms bw_demo_fmt bw_final bw_demo_reachable Hf).
Defined.

Lemma bw_final_counters_witness :
  0 <= 2 /\ yolo_stop bw_demo_now 1 2 = true /\
  (forall j, 0 <= j < 2 -> yolo_stop bw_demo_now 1 j = false) /\
  bw_reachable (first_stop (S (Z.to_nat 2)) (yolo_stop bw_demo_now 1) 0) bw_demo_env bw_demo_fmt bw_demo_gen_ms bw_final /\
  sys_final bw_final = true /\
  taken bw_final = gen_pushes (S (Z.to_nat 2)) (yolo_stop bw_demo_now 1) 0 /\
  sent_to_ec (ed_stats_of (sys_sh bw_final)) =
    Z.of_nat (List.length (filter (fun t => offloaded (bw_req (bw_demo_env t)) = true) (taken bw_final))) /\
  ran_on_ed (ed_stats_of (sys_sh bw_final)) =
    Z.of_nat (List.length (filter (fun t => refused (bw_req (bw_demo_env t)) = true) (taken bw_final))) /\
  completed_tasks (ed_stats_of (sys_sh bw_final)) =
    ran_on_ed (ed_stats_of (sys_sh bw_final)) + sent_to_ec (ed_stats_of (sys_sh bw_final)).
Proof.
  assert (H0 : 0 <= 2) by lia.
  assert (H1 : yolo_stop bw_demo_now 1 2 = true) by reflexivity.
  assert (H2 : forall j, 0 <= j < 2 -> yolo_stop bw_demo_now 1 j = false).
  { intros j Hj. assert (j = 0 \/ j = 1) as [-> | ->] by lia; reflexivity. }
  assert (H3 : bw_reachable (first_stop (S (Z.to_nat 2)) (yolo_stop bw_demo_now 1) 0) bw_demo_env bw_demo_fmt bw_demo_gen_ms bw_final) by exact bw_demo_reachable.
  assert (H4 : sys_final bw_final = true) by (vm_compute; reflexivity).
  split; [exact H0|]. split; [exact H1|]. split; [exact H2|]. split; [exact H3|]. split; [exact H4|].
  exact (bw_final_counters bw_demo_now 1 2 bw_demo_env bw_demo_gen_ms bw_demo_fmt bw_final H0 H1 H2 H3 H4).
Defined.
