(* ===== verification/Rn50Listener.v ===== *)
(** * Rn50Listener: the listener and the inference-time average of the
    bandwidth-aware ResNet-50 ED

    Source: src/ed_oms_parallel_rn50_bwaj.cpp.  Unlike the sequential
    variant, whose listener keeps the helper's inference time as text
    ([LocalExec.process_line]), this listener converts it with
    [std::stod] (line 119) between [std::stoi] on the id and [std::stol]
    on the completion time, stores it in [local_infer_time_ms] and the
    completion time in [task_end_time] under [time_map_mutex]
    (lines 121-125), and logs it through [std::to_string(double)]
    (line 126).  After the joins, [main] sums the map in the iteration
    order of the [std::unordered_map] and divides by the number of
    entries (lines 284-293).

    The thread's state is [bw_lstate] (the two maps and the log lines);
    an exception leaving the thread ends the process ([std::terminate]),
    returned as the [listener_exn] next to the state reached.  The text
    [std::to_string(double)] prints is the parameter [fmt] ("%f" is not
    modelled).  The iteration order of [local_infer_time_ms] is a list,
    a permutation of the map's entries. *)

From Stdlib Require Import SpecFloat.
From S2P Require Import Prelude CppString Double Strtod Wire Client LocalExec Driver Rn50Bwaj.

Open Scope oms_scope.

(** ** The listener thread (lines 103-129) *)

(** The outcome of one line. *)
Inductive bw_line :=
  | BwSkip                                               (** [continue] (line 117) *)
  | BwRecord (token : Z) (infer : spec_float) (done_time : Z)
  | BwThrow (e : listener_exn).

(** Lines 113-120: the conversions in program order, [substr] first,
    then [stoi], [stod] and [stol]; the first that throws ends the thread. *)
Definition bw_process_line (chunk : string) : bw_line :=
  let line := erase_char "010"%char (upto_nul chunk) in
  let first := str_find "," line 0 in
  let second := str_find "," line (npos_succ first) in
  match first, second with
  | Some f, Some sc =>
      match substr line 0 (Some f) with
      | None => BwThrow SubstrOutOfRange
      | Some tok_s =>
          match stoi tok_s with
          | inl e => BwThrow (ConvFailed e)
          | inr token =>
              match substr line (S f) (Some (sc - f - 1)%nat) with
              | None => BwThrow SubstrOutOfRange
              | Some infer_s =>
                  match stod infer_s with
                  | inl e => BwThrow (ConvFailed e)
                  | inr infer =>
                      match substr line (S sc) None with
                      | None => BwThrow SubstrOutOfRange
                      | Some done_s =>
                          match stol done_s with
                          | inl e => BwThrow (ConvFailed e)
                          | inr done_time => BwRecord token infer done_time
                          end
                      end
                  end
              end
          end
      end
  | _, _ => BwSkip
  end.

(** What the listener writes: [local_infer_time_ms], [task_end_time] and
    the lines of [ed_task_log.txt]. *)
Record bw_lstate := {
  infer_ms : gmap Z spec_float;
  end_ms : gmap Z Z;
  blog : list string
}.

(** Lines 121-126: the locked block and the log line. *)
Definition bw_record (fmt : spec_float -> string) (st : bw_lstate) (token : Z) (infer : spec_float)
    (done_time : Z) : bw_lstate :=
  {| infer_ms := <[token := infer]> (infer_ms st);
     end_ms := <[token := done_time]> (end_ms st);
     blog := blog st ++ ["[ED_DONE] token_ed=" +s+ to_string token +s+ " infer_time=" +s+ fmt infer +s+ " ms"] |}.

(** The loop of lines 111-128 over what the FIFO delivers. *)
Fixpoint bw_listen (fmt : spec_float -> string) (fuel : nat) (stream : string) (st : bw_lstate)
    : bw_lstate * option listener_exn :=
  match fuel with
  | O => (st, None)
  | S f =>
      match fgets stream with
      | None => (st, None)
      | Some (chunk, rest) =>
          match bw_process_line chunk with
          | BwSkip => bw_listen fmt f rest st
          | BwRecord token infer done_time => bw_listen fmt f rest (bw_record fmt st token infer done_time)
          | BwThrow e => (st, Some e)
          end
      end
  end.

(** The whole stream, one turn per byte and one for the end of file. *)
Definition bw_listen_all (fmt : spec_float -> string) (stream : string) (st : bw_lstate)
    : bw_lstate * option listener_exn :=
  bw_listen fmt (S (String.length stream)) stream st.

(** ** The average inference time (lines 284-293) *)

(** [total_local_infer_time] and [local_infer_count] after the loop over
    the entries in the order [order]. *)
Definition infer_totals (order : list (Z * spec_float)) : spec_float * Z :=
  foldl (fun acc kv => (dadd acc.1 kv.2, acc.2 + 1)) (S754_zero false, 0) order.

(** [avg_local_infer_time]. *)
Definition avg_local_infer (order : list (Z * spec_float)) : spec_float :=
  let '(total, n) := infer_totals order in
  if n =? 0 then S754_zero false else ddiv total (double_of_int n).

(** What [main] prints (lines 310-316): the counters, the average
    inference time over the listener's map in the order [infer_order],
    and the end-to-end average over the two time maps. *)
Record bw_report := {
  bw_completed : Z;
  bw_sent : Z;
  bw_ran : Z;
  bw_avg_infer : spec_float;
  bw_avg_e2e : Z
}.

Definition bw_final_report (sh : ed_shared) (infer_order : list (Z * spec_float)) : bw_report :=
  {| bw_completed := completed_tasks (ed_stats_of sh); bw_sent := sent_to_ec (ed_stats_of sh);
     bw_ran := ran_on_ed (ed_stats_of sh); bw_avg_infer := avg_local_infer infer_order;
     bw_avg_e2e := avg_e2e (local_task_start_ms sh) (local_task_end_ms sh) |}.

(** ** The records the helper writes *)

(** The listener's effect of one well-formed record. *)
Definition bw_apply (fmt : spec_float -> string) (st : bw_lstate) (r : Z * string * Z) : bw_lstate :=
  let '(t, i, d) := r in
  match stod i with inr v => bw_record fmt st t v d | inl _ => st end.

Definition bw_lstate0 : bw_lstate := {| infer_ms := ∅; end_ms := ∅; blog := [] |}.

(** Three reports of 0.1, 0.2 and 0.3 ms. *)
Definition three_stream : string :=
  done_record 1 "0.1" 1700000000001 +s+ done_record 2 "0.2" 1700000000002 +s+
  done_record 3 "0.3" 1700000000003.

(** ** Lemmas *)

(** Where the sequential listener reads a record, this one converts its
    inference time, and throws what [std::stod] throws. *)
Lemma bw_process_line_record (chunk : string) (t : Z) (i : string) (d : Z) :
  process_line chunk = LRecord t i d ->
  bw_process_line chunk = match stod i with inr v => BwRecord t v d | inl e => BwThrow (ConvFailed e) end.
Proof.
  unfold process_line, bw_process_line, on_substr, on_conv.
  intros Hp. repeat case_match; simplify_eq; congruence.
Qed.

(** One well-formed report: the listener converts its inference time
    and records it, or stops on what [std::stod] throws. *)
Lemma bw_listen_record_step (fmt : spec_float -> string) (fuel : nat) (t : Z) (i : string) (d : Z)
    (rest : string) (st : bw_lstate) :
  record_ok (t, i, d) = true ->
  bw_listen fmt (S fuel) (done_record t i d +s+ rest) st =
    match stod i with
    | inr v => bw_listen fmt fuel rest (bw_record fmt st t v d)
    | inl e => (st, Some (ConvFailed e))
    end.
Proof.
  intros Hr. pose proof Hr as Hr'. unfold record_ok in Hr'. repeat apply andb_prop in Hr' as [Hr' ?].
  rewrite done_record_fields, string_app_assoc. cbn [bw_listen]. rewrite fgets_line.
  - rewrite <- done_record_fields, (bw_process_line_record _ t i d) by (by apply process_done_record).
    by destruct (stod i).
  - unfold fields_line. rewrite ?lacks_app, ?lacks_to_string by reflexivity.
    repeat (apply andb_true_intro; split); try assumption; reflexivity.
  - by apply Nat.ltb_lt.
Qed.

Lemma bw_listen_empty (fmt : spec_float -> string) (fuel : nat) (st : bw_lstate) :
  bw_listen fmt fuel EmptyString st = (st, None).
Proof. by destruct fuel. Qed.

Lemma done_stream_length (rs : list (Z * string * Z)) : (List.length rs <= String.length (done_stream rs))%nat.
Proof.
  induction rs as [|[[t i] d] rs IH]; [done|].
  change (done_stream ((t, i, d) :: rs)) with (done_record t i d +s+ done_stream rs).
  rewrite string_length_app, done_record_fields, string_length_app. cbn [List.length String.length newline]. lia.
Qed.

(** The reports of [rs] are stored in order, one turn each, and the
    listener goes on with what follows them. *)
Lemma bw_listen_records (fmt : spec_float -> string) (rs : list (Z * string * Z)) (rest : string)
    (fuel : nat) (st : bw_lstate) :
  Forall (fun r => record_ok r = true /\ exists v, stod r.1.2 = inr v) rs ->
  (String.length (done_stream rs +s+ rest) < fuel)%nat ->
  bw_listen fmt fuel (done_stream rs +s+ rest) st =
    bw_listen fmt (fuel - List.length rs) rest (foldl (bw_apply fmt) st rs).
Proof.
  revert fuel st. induction rs as [|[[t i] d] rs IH]; intros fuel st Hok Hf.
  - cbn. by rewrite Nat.sub_0_r.
  - change (done_stream ((t, i, d) :: rs)) with (done_record t i d +s+ done_stream rs) in Hf |- *.
    apply Forall_cons in Hok as [[Hr [v Hv]] Hok]. cbn in Hv.
    rewrite string_length_app, string_length_app, done_record_fields, string_length_app in Hf.
    cbn [String.length newline] in Hf. destruct fuel as [|fuel]; [lia|].
    rewrite string_app_assoc, bw_listen_record_step, Hv by done.
    rewrite IH by (done || (rewrite ?string_length_app; lia)). cbn [foldl bw_apply List.length]. by rewrite Hv.
Qed.

(** ** Theorems *)

(** The listener stores every record the helper writes: on a stream of
    well-formed reports whose inference time [std::stod] converts, it
    writes the converted time and the completion time of each id, in
    order, and ends without an exception. *)
Theorem bw_listener_reads_records (fmt : spec_float -> string) (rs : list (Z * string * Z)) (st : bw_lstate) :
  Forall (fun r => record_ok r = true /\ exists v, stod r.1.2 = inr v) rs ->
  bw_listen_all fmt (done_stream rs) st = (foldl (bw_apply fmt) st rs, None).
Proof.
  intros Hok. unfold bw_listen_all. rewrite <- (string_app_nil_r (done_stream rs)).
  rewrite bw_listen_records by (done || lia). apply bw_listen_empty.
Qed.

(** C25: an inference time that is not a number ends the process:
    after any well-formed reports, the first report whose inference
    time [std::stod] cannot convert throws out of the listener thread,
    before its time is stored and before anything after it is read;
    the sequential variant's listener, reading the same reports, stores
    every one of them and reaches the end of the stream. *)
Theorem bw_bad_infer_kills_listener (fmt : spec_float -> string) (rs : list (Z * string * Z)) (t : Z)
    (i : string) (d : Z) (e : conv_error) (rest : string) (st : bw_lstate) :
  Forall (fun r => record_ok r = true /\ exists v, stod r.1.2 = inr v) rs ->
  record_ok (t, i, d) = true -> stod i = inl e ->
  bw_listen_all fmt (done_stream rs +s+ done_record t i d +s+ rest) st =
    (foldl (bw_apply fmt) st rs, Some (ConvFailed e)) /\
  listen_all (done_stream (rs ++ [(t, i, d)])) = (record_effects_of (rs ++ [(t, i, d)]), None).
Proof.
  intros Hok Hr He. split.
  - unfold bw_listen_all. pose proof (done_stream_length rs) as Hn.
    rewrite bw_listen_records by (done || lia).
    rewrite !string_length_app, done_record_fields, string_length_app. cbn [String.length newline].
    replace (S _ - List.length rs)%nat with (S (String.length (done_stream rs) - List.length rs +
      (String.length (fields_line (to_string t) i (to_string d)) + 1 + String.length rest)))%nat by lia.
    rewrite <- done_record_fields, bw_listen_record_step, He by done. done.
  - apply listen_records; [|lia]. apply Forall_app. split; [|by apply Forall_singleton].
    eapply Forall_impl; [exact Hok|]. by intros r [? _].
Qed.

(** The printed average inference time depends on the iteration order of
    [local_infer_time_ms]: for the reports 0.1, 0.2 and 0.3 ms, summing
    the map in one order or in the reverse order gives two different
    doubles. *)
Example infer_average_order_dependent (fmt : spec_float -> string) :
  let m := infer_ms (bw_listen_all fmt three_stream bw_lstate0).1 in
  map_to_list m ≡ₚ reverse (map_to_list m) /\
  avg_local_infer (map_to_list m) <> avg_local_infer (reverse (map_to_list m)).
Proof.
  intros m. split; [symmetry; apply reverse_Permutation|].
  subst m. vm_compute. discriminate.
Qed.

Lemma bw_listener_reads_records_witness :
  Forall (fun r => record_ok r = true /\ exists v, stod r.1.2 = inr v) [(4, "40.5", 1700000000100)] /\
  bw_listen_all (fun _ => "40.500000") (done_stream [(4, "40.5", 1700000000100)]) bw_lstate0 =
    (foldl (bw_apply (fun _ => "40.500000")) bw_lstate0 [(4, "40.5", 1700000000100)], None).
Proof.
  assert (Forall (fun r => record_ok r = true /\ exists v, stod r.1.2 = inr v) [(4, "40.5", 1700000000100)]) as H.
  { apply Forall_singleton. split; [vm_compute; reflexivity | eexists; vm_compute; reflexivity]. }
  split; [exact H|]. exact (bw_listener_reads_records _ _ _ H).
Defined.

Lemma bw_bad_infer_kills_listener_witness :
  Forall (fun r => record_ok r = true /\ exists v, stod r.1.2 = inr v) [(2, "0.2", 1700000000002)] /\
  record_ok (3, "n/a", 1700000000000) = true /\ stod "n/a" = inl InvalidArgument /\
  bw_listen_all (fun _ => "0.200000")
    (done_stream [(2, "0.2", 1700000000002)] +s+ done_record 3 "n/a" 1700000000000 +s+
     done_record 4 "40.5" 1700000000100) bw_lstate0 =
    (foldl (bw_apply (fun _ => "0.200000")) bw_lstate0 [(2, "0.2", 1700000000002)],
     Some (ConvFailed InvalidArgument)) /\
  listen_all (done_stream ([(2, "0.2", 1700000000002)] ++ [(3, "n/a", 1700000000000)])) =
    (record_effects_of ([(2, "0.2", 1700000000002)] ++ [(3, "n/a", 1700000000000)]), None).
Proof.
  assert (H1 : Forall (fun r => record_ok r = true /\ exists v, stod r.1.2 = inr v) [(2, "0.2", 1700000000002)]).
  { apply Forall_singleton. split; [vm_compute; reflexivity | eexists; vm_compute; reflexivity]. }
  assert (H2 : record_ok (3, "n/a", 1700000000000) = true) by (vm_compute; reflexivity).
  assert (H3 : stod "n/a" = inl InvalidArgument) by (vm_compute; reflexivity).
  split; [exact H1|]. split; [exact H2|]. split; [exact H3|].
  exact (bw_bad_infer_kills_listener _ _ _ _ _ _ _ _ H1 H2 H3).
Defined.
