(* ===== verification/Dpu.v ===== *)
(** * Dpu: the thread-per-request ED with a bounded local runner

    Source: src/Experiment_May15/ed_oms_parallel_working_withdpu_retina.cpp.
    [main] starts one thread per request (lines 222-229), each running
    [run_request] (63-209), and joins them (231) before printing the
    statistics (233-242).  Two limits bound the concurrency:

    - the counting semaphore [thread_limit(100)] ([SimpleSemaphore],
      lines 30-48): [run_request] acquires it first and releases it on
      every return;
    - [local_running < MAX_LOCAL = 20] (lines 82-91 and 175-184): a thread
      that falls back to [std::system(LOCAL_CMD)] first waits, retrying
      every 50 ms under [local_mutex], until fewer than 20 local runs are
      in progress, and decrements [local_running] after the run.

    A connection failure and a [DROP] run the task locally; a [GRANT]
    sends the image and counts the task as sent when the EC's reply is
    exactly [DONE].  The second [recv]'s result [bytes] is passed to
    [std::string(done_buf, bytes)]: when [recv] fails ([bytes = -1]) the
    length is [SIZE_MAX] and the constructor throws [std::length_error],
    which no handler catches: the process terminates.

    The model is a step function [d_step] over [dstate].  Every locked
    block (the semaphore's [acquire]/[release], [local_mutex],
    [stats_mutex]) is one step; the socket operations of a thread touch
    no shared state and form one step ([d_begin]).  The 50 ms retry loop
    is modelled as waiting: the thread's step is enabled exactly when a
    local slot is free, which is when a retry succeeds.  The local command
    (a Python RetinaFace script, not under src/) and the clocks are
    inputs: [d_env] gives, per id, what the system calls return and the
    measured duration. *)

From S2P Require Import Prelude CppString Wire.

Open Scope oms_scope.

(** ** Inputs and state *)

(** What the calls of [run_request(t)] return. *)
Record d_env := {
  d_socket_ok : bool;        (** [socket(...) >= 0] (line 67) *)
  d_connect_ok : bool;       (** [connect(...) >= 0] (line 79) *)
  d_reply : string;          (** the bytes of [recv(sock, buf, 255, 0)] (line 121) *)
  d_image_ok : bool;         (** [std::ifstream file(IMAGE)] opened (line 129) *)
  d_done : option string;    (** [recv] at line 149: [None] when it returns [-1] *)
  d_dur : Z                  (** [end - start] in ms when the task is counted *)
}.

(** Where a counted task was run. *)
Inductive dkind :=
  | Failover                   (** [connect] failed (lines 79-113) *)
  | Offloaded (token_ec : string) (** [GRANT], image sent, [DONE] (124-167) *)
  | Dropped.                   (** [DROP] (172-204) *)

(** How a thread left [run_request]. *)
Inductive dend :=
  | DNoSocket                  (** [sock < 0] (line 68) *)
  | DNoImage                   (** image not found after [OK] (line 130) *)
  | DUnexpected                (** the reply after the image was not [DONE] (169) *)
  | DIgnored                   (** a first reply neither [GRANT:...] nor [DROP] *)
  | DCounted (k : dkind) (duration : Z).

Inductive dpc :=
  | DNew                       (** started, before [thread_limit.acquire()] *)
  | DRemote                    (** holds a semaphore unit, socket work ahead *)
  | DWaitLocal (k : dkind)     (** waiting for [local_running < MAX_LOCAL] *)
  | DLocal (k : dkind)         (** [std::system(LOCAL_CMD)] is running *)
  | DCount (k : dkind)         (** about to update the counters *)
  | DLog (k : dkind) (duration : Z) (** about to [log_result] *)
  | DRelease (e : dend)        (** about to [thread_limit.release()] *)
  | DEnd (e : dend).           (** returned *)

Record dstate := {
  d_completed : Z;             (** [int completed_tasks] *)
  d_ran : Z;                   (** [int ran_on_ed] *)
  d_sent : Z;                  (** [int sent_to_ec] *)
  d_total : Z;                 (** [long total_latency_ms] *)
  d_sem : Z;                   (** [thread_limit.count] *)
  d_local_running : Z;         (** [int local_running] *)
  d_log : list string;         (** lines appended to ed_task_log.txt *)
  d_threads : list dpc;        (** thread [i] runs [run_request(i)] *)
  d_aborted : bool             (** an uncaught exception terminated the process *)
}.

(** [SimpleSemaphore thread_limit(100)] and [MAX_LOCAL] (lines 48, 22). *)
Definition THREAD_LIMIT : Z := 100.
Definition MAX_LOCAL : Z := 20.

Definition d_init : dstate :=
  {| d_completed := 0; d_ran := 0; d_sent := 0; d_total := 0; d_sem := THREAD_LIMIT;
     d_local_running := 0; d_log := []; d_threads := []; d_aborted := false |}.

(** [main] starts the next thread, or thread [i] takes a step. *)
Inductive d_event := DSpawn | DThread (i : nat).

(** ** Operations *)

Definition d_set_thread (s : dstate) (i : nat) (pc : dpc) : dstate :=
  {| d_completed := d_completed s; d_ran := d_ran s; d_sent := d_sent s; d_total := d_total s;
     d_sem := d_sem s; d_local_running := d_local_running s; d_log := d_log s;
     d_threads := <[i := pc]> (d_threads s); d_aborted := d_aborted s |}.

(** [threads.emplace_back(run_request, i)] (line 225). *)
Definition d_spawn (s : dstate) : dstate :=
  {| d_completed := d_completed s; d_ran := d_ran s; d_sent := d_sent s; d_total := d_total s;
     d_sem := d_sem s; d_local_running := d_local_running s; d_log := d_log s;
     d_threads := d_threads s ++ [DNew]; d_aborted := d_aborted s |}.

(** [--count] in [acquire] and [++count] in [release] (lines 40, 44). *)
Definition d_set_sem (s : dstate) (v : Z) : dstate :=
  {| d_completed := d_completed s; d_ran := d_ran s; d_sent := d_sent s; d_total := d_total s;
     d_sem := v; d_local_running := d_local_running s; d_log := d_log s;
     d_threads := d_threads s; d_aborted := d_aborted s |}.

(** [local_running++] and [local_running--] (lines 86, 97, 179, 190). *)
Definition d_set_local (s : dstate) (v : Z) : dstate :=
  {| d_completed := d_completed s; d_ran := d_ran s; d_sent := d_sent s; d_total := d_total s;
     d_sem := d_sem s; d_local_running := v; d_log := d_log s;
     d_threads := d_threads s; d_aborted := d_aborted s |}.

(** The locked counter blocks (lines 103-108, 156-161, 196-201). *)
Definition d_count (s : dstate) (k : dkind) (dur : Z) : dstate :=
  let sent := match k with Offloaded _ => 1 | _ => 0 end in
  {| d_completed := d_completed s + 1; d_ran := d_ran s + (1 - sent); d_sent := d_sent s + sent;
     d_total := d_total s + dur; d_sem := d_sem s; d_local_running := d_local_running s;
     d_log := d_log s; d_threads := d_threads s; d_aborted := d_aborted s |}.

(** [log_result] (lines 51-55). *)
Definition d_add_log (s : dstate) (entry : string) : dstate :=
  {| d_completed := d_completed s; d_ran := d_ran s; d_sent := d_sent s; d_total := d_total s;
     d_sem := d_sem s; d_local_running := d_local_running s; d_log := d_log s ++ [entry];
     d_threads := d_threads s; d_aborted := d_aborted s |}.

(** [std::terminate]: the whole process stops. *)
Definition d_abort (s : dstate) : dstate :=
  {| d_completed := d_completed s; d_ran := d_ran s; d_sent := d_sent s; d_total := d_total s;
     d_sem := d_sem s; d_local_running := d_local_running s; d_log := d_log s;
     d_threads := d_threads s; d_aborted := true |}.

(** The outcome of the socket work of [run_request] (lines 65-172),
    which touches no shared state: the next program point, or [None] when
    [std::string(done_buf, bytes)] throws. *)
Definition d_begin (e : d_env) : option dpc :=
  if negb (d_socket_ok e) then Some (DRelease DNoSocket)
  else if negb (d_connect_ok e) then Some (DWaitLocal Failover)
  else
    let response := recv_cstring 255 (d_reply e) in
    if starts_with "GRANT:" response then
      match substr response 6 None with
      | None => Some (DRelease DIgnored)   (** unreachable: the prefix has length 6 *)
      | Some token_ec =>
          if negb (d_image_ok e) then Some (DRelease DNoImage)
          else match d_done e with
               | None => None
               | Some bytes =>
                   if String.eqb (recv_bytes 15 bytes) "DONE" then Some (DCount (Offloaded token_ec))
                   else Some (DRelease DUnexpected)
               end
      end
    else if String.eqb response "DROP" then Some (DWaitLocal Dropped)
    else Some (DRelease DIgnored).

(** The log lines of the three counted paths (lines 110, 166-167, 203-204). *)
Definition d_log_entry (k : dkind) (token : Z) (dur : Z) : string :=
  match k with
  | Failover => "[ED_LOCAL_FAILOVER] token=" +s+ to_string token +s+ " duration=" +s+ to_string dur
  | Offloaded token_ec =>
      "[ED_SENT] token_ed=" +s+ to_string token +s+ " token_ec=" +s+ token_ec
      +s+ " duration=" +s+ to_string dur +s+ " ms"
  | Dropped => "[ED_LOCAL] token_ed=" +s+ to_string token +s+ " duration=" +s+ to_string dur +s+ " ms"
  end.

Section Dpu.

Variable total_requests : Z.
Variable env : Z -> d_env.

(** One step of thread [i] at [pc]. *)
Definition d_thread_step (s : dstate) (i : nat) (pc : dpc) : option dstate :=
  let e := env (Z.of_nat i) in
  match pc with
  | DNew => if 0 <? d_sem s then Some (d_set_thread (d_set_sem s (d_sem s - 1)) i DRemote) else None
  | DRemote =>
      match d_begin e with
      | Some pc' => Some (d_set_thread s i pc')
      | None => Some (d_abort s)
      end
  | DWaitLocal k =>
      if d_local_running s <? MAX_LOCAL
      then Some (d_set_thread (d_set_local s (d_local_running s + 1)) i (DLocal k))
      else None
  | DLocal k => Some (d_set_thread (d_set_local s (d_local_running s - 1)) i (DCount k))
  | DCount k =>
      if in_int (d_completed s + 1)
         && match k with Offloaded _ => in_int (d_sent s + 1) | _ => in_int (d_ran s + 1) end
         && in_long (d_total s + d_dur e)
      then Some (d_set_thread (d_count s k (d_dur e)) i (DLog k (d_dur e)))
      else None
  | DLog k dur => Some (d_set_thread (d_add_log s (d_log_entry k (Z.of_nat i) dur)) i (DRelease (DCounted k dur)))
  | DRelease r => Some (d_set_thread (d_set_sem s (d_sem s + 1)) i (DEnd r))
  | DEnd _ => None
  end.

Definition d_step (s : dstate) (ev : d_event) : option dstate :=
  if d_aborted s then None else
  match ev with
  | DSpawn =>
      if Z.of_nat (List.length (d_threads s)) <? total_requests then Some (d_spawn s) else None
  | DThread i => pc ← d_threads s !! i; d_thread_step s i pc
  end.

Fixpoint d_run (s : dstate) (evs : list d_event) : option dstate :=
  match evs with
  | [] => Some s
  | ev :: evs' => s' ← d_step s ev; d_run s' evs'
  end.

Definition d_steps (s s' : dstate) : Prop := exists ev, d_step s ev = Some s'.
Definition d_reachable (s : dstate) : Prop := rtc d_steps d_init s.

Definition d_is_end (pc : dpc) : bool := match pc with DEnd _ => true | _ => false end.

(** Every thread started and joined (line 231): [main] prints. *)
Definition d_final (s : dstate) : bool :=
  negb (d_aborted s) && negb (Z.of_nat (List.length (d_threads s)) <? total_requests)
  && forallb d_is_end (d_threads s).

End Dpu.

(** [completed_tasks ? total_latency_ms / completed_tasks : 0] (line 240). *)
Definition d_avg (s : dstate) : Z := if d_completed s =? 0 then 0 else Z.quot (d_total s) (d_completed s).

(** ** Observations and invariants *)

#[export] Instance dkind_eq_dec : EqDecision dkind.
Proof. solve_decision. Defined.
#[export] Instance dend_eq_dec : EqDecision dend.
Proof. solve_decision. Defined.
#[export] Instance dpc_eq_dec : EqDecision dpc.
Proof. solve_decision. Defined.

(** A thread between [acquire] and [release]; a thread running the local
    command. *)
Definition inside (pc : dpc) : Z := match pc with DNew | DEnd _ => 0 | _ => 1 end.
Definition in_local (pc : dpc) : Z := match pc with DLocal _ => 1 | _ => 0 end.

(** What the counter blocks a thread has passed added. *)
Definition counted (pc : dpc) : option (dkind * Z) :=
  match pc with
  | DLog k dur | DRelease (DCounted k dur) | DEnd (DCounted k dur) => Some (k, dur)
  | _ => None
  end.
Definition c_sent (pc : dpc) : Z :=
  match counted pc with Some (Offloaded _, _) => 1 | _ => 0 end.
Definition c_ran (pc : dpc) : Z :=
  match counted pc with Some (Failover, _) | Some (Dropped, _) => 1 | _ => 0 end.
Definition c_dur (pc : dpc) : Z := match counted pc with Some (_, dur) => dur | None => 0 end.

(** A thread whose next step needs no free resource; a thread about to
    count. *)
Definition busy (pc : dpc) : bool :=
  match pc with DRemote | DLocal _ | DCount _ | DLog _ _ | DRelease _ => true | _ => false end.
Definition at_count (pc : dpc) : Z := match pc with DCount _ => 1 | _ => 0 end.

(** [pc] lies on the path [run_request] takes for [e]. *)
Definition on_path (e : d_env) (pc : dpc) : bool :=
  let counts k := bool_decide (d_begin e = Some (DWaitLocal k)) || bool_decide (d_begin e = Some (DCount k)) in
  match pc with
  | DNew | DRemote => true
  | DWaitLocal k | DLocal k => bool_decide (d_begin e = Some (DWaitLocal k))
  | DCount k => counts k
  | DLog k dur | DRelease (DCounted k dur) | DEnd (DCounted k dur) => counts k && bool_decide (dur = d_dur e)
  | DRelease r | DEnd r => bool_decide (d_begin e = Some (DRelease r))
  end.

(** The outcome of a request, from what its system calls return: counted
    as sent, counted as run locally, or terminating the process. *)
Definition sent_of (e : d_env) : bool :=
  match d_begin e with Some (DCount (Offloaded _)) => true | _ => false end.
Definition ran_of (e : d_env) : bool :=
  match d_begin e with Some (DWaitLocal _) => true | _ => false end.
(** The request reaches the [recv] of line 149 and it fails: [socket]
    and [connect] succeed, the EC answers [GRANT:...], the image opens,
    and [recv] returns [-1]. *)
Definition done_recv_fails (e : d_env) : bool :=
  d_socket_ok e && d_connect_ok e && starts_with "GRANT:" (recv_cstring 255 (d_reply e)) && d_image_ok e &&
  match d_done e with None => true | Some _ => false end.

Section Invariant.
Variable total_requests : Z.
Variable env : Z -> d_env.

Definition d_inv (s : dstate) : Prop :=
  Z.of_nat (List.length (d_threads s)) <= Z.max 0 total_requests /\
  (forall i pc, d_threads s !! i = Some pc -> on_path (env (Z.of_nat i)) pc = true) /\
  d_sem s + zsum_with inside (d_threads s) = THREAD_LIMIT /\ 0 <= d_sem s /\
  d_local_running s = zsum_with in_local (d_threads s) /\ d_local_running s <= MAX_LOCAL /\
  d_sent s = zsum_with c_sent (d_threads s) /\ d_ran s = zsum_with c_ran (d_threads s) /\
  d_completed s = d_sent s + d_ran s /\ d_total s = zsum_with c_dur (d_threads s).

End Invariant.

(** Steps a thread may still take. *)
Definition pc_weight (pc : dpc) : nat :=
  match pc with
  | DNew => 7 | DRemote => 6 | DWaitLocal _ => 5 | DLocal _ => 4 | DCount _ => 3
  | DLog _ _ => 2 | DRelease _ => 1 | DEnd _ => 0
  end.

Definition d_measure (total_requests : Z) (s : dstate) : nat :=
  (8 * (Z.to_nat total_requests - List.length (d_threads s)) + sum_list_with pc_weight (d_threads s)
   + (if d_aborted s then 0 else 1))%nat.

(** ** A sample run *)

(** Id 0 is granted and acknowledged, id 1 refused with [DROP], the
    connection of id 2 fails, and the [DONE] reply of id 3 is garbled. *)
Definition dpu_env (t : Z) : d_env :=
  if t =? 0 then {| d_socket_ok := true; d_connect_ok := true; d_reply := "GRANT:0"; d_image_ok := true;
                    d_done := Some "DONE"; d_dur := 120 |}
  else if t =? 1 then {| d_socket_ok := true; d_connect_ok := true; d_reply := "DROP"; d_image_ok := true;
                         d_done := None; d_dur := 900 |}
  else if t =? 2 then {| d_socket_ok := true; d_connect_ok := false; d_reply := EmptyString; d_image_ok := true;
                         d_done := None; d_dur := 950 |}
  else {| d_socket_ok := true; d_connect_ok := true; d_reply := "GRANT:1"; d_image_ok := true;
          d_done := Some "DON"; d_dur := 80 |}.

(** One request, granted, whose [DONE] [recv] fails with [-1]. *)
Definition crash_env (t : Z) : d_env :=
  {| d_socket_ok := true; d_connect_ok := true; d_reply := "GRANT:0"; d_image_ok := true;
     d_done := None; d_dur := 0 |}.

Definition dpu_events : list d_event :=
  [DSpawn; DSpawn; DSpawn; DSpawn] ++
  [DThread 0; DThread 1; DThread 2; DThread 3] ++
  [DThread 0; DThread 1; DThread 2; DThread 3] ++
  [DThread 0; DThread 1; DThread 2; DThread 3] ++
  [DThread 0; DThread 1; DThread 2] ++
  [DThread 0; DThread 1; DThread 2] ++ [DThread 1; DThread 2] ++ [DThread 1; DThread 2].

(** ** Lemmas *)

(** The socket work ends on the path it chose, holding the semaphore, and
    has counted nothing. *)
Lemma d_begin_on_path (e : d_env) (pc : dpc) :
  d_begin e = Some pc ->
  on_path e pc = true /\ inside pc = 1 /\ in_local pc = 0 /\ c_sent pc = 0 /\ c_ran pc = 0 /\ c_dur pc = 0.
Proof.
  intros H. pose proof H as H0. unfold d_begin in H.
  repeat case_match; simplify_eq; cbn; (split; [|lia]);
    unfold on_path; rewrite H0; repeat case_bool_decide; cbn; done || congruence.
Qed.

(** The paths [d_begin] can choose. *)
Lemma d_begin_shapes (e : d_env) :
  (forall k, d_begin e = Some (DWaitLocal k) -> k = Failover \/ k = Dropped) /\
  (forall k, d_begin e = Some (DCount k) -> exists tok, k = Offloaded tok).
Proof. unfold d_begin. repeat case_match; split; intros; simplify_eq; eauto. Qed.

(** A failing [recv] after the image is the path on which [run_request]
    throws. *)
Lemma done_recv_fails_begin (e : d_env) : done_recv_fails e = true -> d_begin e = None.
Proof.
  unfold done_recv_fails, d_begin.
  destruct (d_socket_ok e), (d_connect_ok e), (starts_with "GRANT:" _) eqn:G, (d_image_ok e), (d_done e);
    cbn; try discriminate.
  intros _. apply prefix_length in G. unfold substr. cbn [String.length] in G.
  by rewrite (proj2 (Nat.leb_le _ _) G).
Qed.

(** What a finished thread counted, from what its system calls returned. *)
Lemma end_counts (e : d_env) (r : dend) :
  on_path e (DEnd r) = true ->
  c_sent (DEnd r) = (if sent_of e then 1 else 0) /\ c_ran (DEnd r) = (if ran_of e then 1 else 0) /\
  c_dur (DEnd r) = (if sent_of e || ran_of e then d_dur e else 0) /\ d_begin e <> None.
Proof.
  unfold sent_of, ran_of. destruct (d_begin_shapes e) as (Hw & Hc).
  destruct r as [| | | |k dur]; cbn; intros Hp.
  1-4: apply bool_decide_eq_true in Hp; rewrite Hp; done.
  apply andb_prop in Hp as [Hp Hd]. apply bool_decide_eq_true in Hd as ->.
  apply orb_prop in Hp as [Hp|Hp]; apply bool_decide_eq_true in Hp; rewrite Hp.
  - by destruct (Hw _ Hp) as [-> | ->].
  - by destruct (Hc _ Hp) as [tok ->].
Qed.

Lemma seqZ_max0 (n : Z) : seqZ 0 (Z.max 0 n) = seqZ 0 n.
Proof. destruct (Z.le_gt_cases 0 n); [by rewrite Z.max_r | rewrite Z.max_l, !seqZ_nil by lia; done]. Qed.

Section Lemmas.
Variable total_requests : Z.
Variable env : Z -> d_env.

Local Abbreviation step := (d_step total_requests env).

Lemma d_inv_init : d_inv total_requests env d_init.
Proof.
  unfold d_inv; cbn. split_and!; try (unfold THREAD_LIMIT, MAX_LOCAL in *; lia).
  intros i pc Hi. by rewrite lookup_nil in Hi.
Qed.

Lemma d_inv_thread (s s' : dstate) (i : nat) (pc : dpc) :
  d_inv total_requests env s -> d_threads s !! i = Some pc -> d_thread_step env s i pc = Some s' ->
  d_inv total_requests env s'.
Proof.
  unfold d_inv. intros (Hlen & Hpath & Hsem & Hsem0 & Hloc & Hloc20 & Hs & Hr & Hc & Ht) Hi Hstep.
  pose proof (Hpath i pc Hi) as Hpi.
  assert (Hpath' : forall pc', on_path (env (Z.of_nat i)) pc' = true ->
            forall j q, <[i:=pc']> (d_threads s) !! j = Some q -> on_path (env (Z.of_nat j)) q = true).
  { intros pc' Hp' j q [(<- & <- & _)|(_ & Hj)]%list_lookup_insert_Some; [done | by apply (Hpath j)]. }
  destruct pc as [| |k|k|k|k dur|[| | | |k dur]|r]; cbn in Hstep; repeat case_match; simplify_eq/=;
    rewrite ?length_insert, ?(zsum_with_insert _ _ _ _ _ Hi); cbn [inside in_local c_sent c_ran c_dur counted].
  all: rewrite ?Z.ltb_lt in *.
  all: try match goal with H : d_begin _ = Some ?d |- _ => destruct (d_begin_on_path _ _ H) as (Hd & ? & ? & ? & ? & ?) end.
  all: split_and!; try (unfold THREAD_LIMIT, MAX_LOCAL in *; lia); try done.
  all: apply Hpath'; first [done | assumption | revert Hpi; cbn; intros Hpi; rewrite ?Hpi; rewrite ?bool_decide_true by done; done].
Qed.

Lemma d_inv_step (s s' : dstate) (ev : d_event) :
  d_inv total_requests env s -> step s ev = Some s' -> d_inv total_requests env s'.
Proof.
  intros Hinv Hstep. unfold d_step in Hstep. destruct (d_aborted s); [discriminate|].
  destruct ev as [|i].
  - case_match; simplify_eq. rewrite Z.ltb_lt in *.
    destruct Hinv as (Hlen & Hpath & Hsem & Hsem0 & Hloc & Hloc20 & Hs & Hr & Hc & Ht).
    unfold d_inv; cbn [d_spawn d_threads d_sem d_local_running d_sent d_ran d_completed d_total].
    rewrite length_app, !zsum_with_snoc. cbn [List.length inside in_local c_sent c_ran c_dur counted].
    split_and!; try lia.
    intros j pc [(_ & Hj) | (_ & <-)]%lookup_snoc_Some; [by apply Hpath | done].
  - destruct (d_threads s !! i) as [pc|] eqn:Hi; [|discriminate]. cbn in Hstep.
    by eapply d_inv_thread.
Qed.

Lemma d_reachable_inv (s : dstate) : d_reachable total_requests env s -> d_inv total_requests env s.
Proof.
  apply (rtc_ind_r (d_inv total_requests env) d_init); [apply d_inv_init|].
  intros y z _ [ev Hev] Hy. by eapply d_inv_step.
Qed.

Lemma d_run_reachable_from (s s' : dstate) (evs : list d_event) :
  d_run total_requests env s evs = Some s' -> rtc (d_steps total_requests env) s s'.
Proof.
  revert s. induction evs as [|ev evs IH]; intros s H; cbn in H; [by injection H as <-|].
  destruct (step s ev) as [s1|] eqn:E; [|discriminate]. cbn in H.
  eapply rtc_l; [by exists ev | by apply IH].
Qed.

(** When [main] prints, every thread has returned on its path. *)
Lemma d_final_threads (s : dstate) :
  d_reachable total_requests env s -> d_final total_requests s = true ->
  Z.of_nat (List.length (d_threads s)) = Z.max 0 total_requests /\
  forall i pc, d_threads s !! i = Some pc -> exists r, pc = DEnd r /\ on_path (env (Z.of_nat i)) (DEnd r) = true.
Proof.
  intros Hr Hf. destruct (d_reachable_inv s Hr) as (Hlen & Hpath & _).
  unfold d_final in Hf. apply andb_prop in Hf as [Hf Hend]. apply andb_prop in Hf as [_ Hn].
  apply negb_true_iff, Z.ltb_ge in Hn. split; [lia|].
  intros i pc Hi. pose proof (forallb_lookup _ _ _ _ Hend Hi) as He.
  destruct pc; try discriminate. eexists; split; [done|]. by apply (Hpath i).
Qed.

Lemma d_begin_weight (e : d_env) (pc : dpc) : d_begin e = Some pc -> (pc_weight pc <= 5)%nat.
Proof. unfold d_begin. repeat case_match; intros; simplify_eq; cbn; lia. Qed.

(** Every step lowers the measure. *)
Lemma d_measure_step (s s' : dstate) (ev : d_event) :
  step s ev = Some s' -> (d_measure total_requests s' < d_measure total_requests s)%nat.
Proof.
  unfold d_step. destruct (d_aborted s) eqn:Ha; [discriminate|]. destruct ev as [|i].
  - case_match; intros; simplify_eq. rewrite Z.ltb_lt in *. unfold d_measure. cbn.
    rewrite Ha, length_app, sum_list_with_snoc. cbn. lia.
  - destruct (d_threads s !! i) as [pc|] eqn:Hi; [|discriminate]. cbn.
    pose proof (fun y => sum_list_with_insert pc_weight _ i pc y Hi) as Hw.
    destruct pc; cbn; repeat case_match; intros; simplify_eq; unfold d_measure; cbn; rewrite ?Ha, ?length_insert;
      try match goal with |- context [sum_list_with pc_weight (<[i:=?y]> _)] => specialize (Hw y) end;
      try match goal with H : d_begin _ = Some _ |- _ => pose proof (d_begin_weight _ _ H) end;
      cbn [pc_weight] in *; lia.
Qed.

Lemma d_run_measure (s s' : dstate) (evs : list d_event) :
  d_run total_requests env s evs = Some s' ->
  (List.length evs + d_measure total_requests s' <= d_measure total_requests s)%nat.
Proof.
  revert s. induction evs as [|ev evs IH]; intros s H; cbn in H; [injection H as <-; cbn; lia|].
  destruct (step s ev) as [s1|] eqn:E; [|discriminate]. cbn in H.
  pose proof (d_measure_step s s1 ev E). specialize (IH s1 H). cbn [List.length]. lia.
Qed.

(** The counters cannot overflow while a thread is about to count. *)
Lemma counted_lt_threads (l : list dpc) (i : nat) (k : dkind) :
  l !! i = Some (DCount k) -> zsum_with c_sent l + zsum_with c_ran l + 1 <= Z.of_nat (List.length l).
Proof.
  intros Hi.
  assert (Hb : zsum_with (fun pc => c_sent pc + c_ran pc + at_count pc) l <= Z.of_nat (List.length l) * 1).
  { apply zsum_with_bound. intros [| |?|?|?|[]?|[| | | |[]?]|[| | | |[]?]] _; cbn; lia. }
  rewrite !zsum_with_add in Hb.
  pose proof (zsum_with_lookup_le at_count l i _ ltac:(intros []; cbn; lia) Hi). cbn in *. lia.
Qed.

(** The guard of the counter block holds while no counter can overflow. *)
Lemma d_count_guard (s : dstate) (i : nat) (k : dkind) :
  total_requests <= INT_MAX -> (forall t, 0 <= d_dur (env t) <= 2 ^ 31) ->
  d_inv total_requests env s -> d_threads s !! i = Some (DCount k) ->
  in_int (d_completed s + 1) && match k with Offloaded _ => in_int (d_sent s + 1) | _ => in_int (d_ran s + 1) end
  && in_long (d_total s + d_dur (env (Z.of_nat i))) = true.
Proof.
  intros Hmax Hd (Hlen & Hpath & Hsem & Hsem0 & Hloc & Hloc20 & Hs & Hr & Hc & Ht) Hi.
  apply not_false_iff_true. intros Hg.
  pose proof (counted_lt_threads _ _ _ Hi).
  pose proof (zsum_with_nonneg c_sent (d_threads s) ltac:(intros pc; unfold c_sent; destruct (counted pc) as [[[] ?]|]; lia)).
  pose proof (zsum_with_nonneg c_ran (d_threads s) ltac:(intros pc; unfold c_ran; destruct (counted pc) as [[[] ?]|]; lia)).
  assert (Hdur : 0 <= zsum_with c_dur (d_threads s) <= Z.of_nat (List.length (d_threads s)) * 2 ^ 31).
  { apply zsum_with_bound. intros x Hx. apply list_elem_of_lookup in Hx as [j Hj].
    pose proof (Hpath j x Hj) as Hp. specialize (Hd (Z.of_nat j)).
    destruct x as [| |?|?|?|? dur|[| | | |? dur]|[| | | |? dur]]; cbn in *; try lia;
    apply andb_prop in Hp as [_ Hp]; apply bool_decide_eq_true in Hp; lia. }
  specialize (Hd (Z.of_nat i)). unfold in_int, in_long, INT_MIN, INT_MAX, LONG_MIN, LONG_MAX in *.
  repeat match goal with H : _ && _ = false |- _ => apply andb_false_iff in H as [H|H] end;
  try case_match; rewrite ?Z.leb_gt in *; lia.
Qed.

(** Some thread can always move: a full semaphore has a holder that can
    move, and a thread waiting for a local slot sees one free or a local
    run that can finish. *)
Lemma d_progress (s : dstate) :
  total_requests <= INT_MAX -> (forall t, 0 <= d_dur (env t) <= 2 ^ 31) ->
  d_inv total_requests env s -> d_aborted s = false -> d_final total_requests s = false ->
  exists ev s', step s ev = Some s'.
Proof.
  intros Hmax Hd Hinv Ha Hfin. pose proof Hinv as (Hlen & Hpath & Hsem & Hsem0 & Hloc & Hloc20 & Hs & Hr & Hc & Ht).
  unfold d_final in Hfin. unfold d_step. rewrite Ha in Hfin |- *. cbn in Hfin.
  destruct (Z.of_nat (List.length (d_threads s)) <? total_requests) eqn:Hn; [by exists DSpawn, (d_spawn s)|].
  cbn in Hfin.
  destruct (list_find (fun pc => busy pc = true) (d_threads s)) as [[i pc]|] eqn:Hb.
  - apply list_find_Some in Hb as (Hi & Hbusy & _). exists (DThread i). rewrite Hi. cbn.
    destruct pc; try discriminate; cbn; try (case_match; by eauto); eauto.
    rewrite (d_count_guard s i k Hmax Hd Hinv Hi). eauto.
  - apply list_find_None in Hb.
    assert (Hl0 : zsum_with in_local (d_threads s) = 0).
    { apply zsum_with_zero. eapply Forall_impl; [exact Hb|]. intros [] Hx; cbn in *; done || tauto. }
    destruct (list_find (fun pc => match pc with DWaitLocal _ => true | _ => false end = true) (d_threads s))
      as [[i pc]|] eqn:Hw.
    + apply list_find_Some in Hw as (Hi & Hwait & _). exists (DThread i). rewrite Hi.
      destruct pc; try discriminate. cbn. rewrite (proj2 (Z.ltb_lt _ _)) by (unfold MAX_LOCAL; lia). eauto.
    + apply list_find_None in Hw.
      assert (Hi0 : zsum_with inside (d_threads s) = 0).
      { apply zsum_with_zero. apply Forall_forall. intros x Hx.
        pose proof (proj1 (Forall_forall _ _) Hb x Hx). pose proof (proj1 (Forall_forall _ _) Hw x Hx).
        destruct x; cbn in *; done || tauto. }
      destruct (forallb_false_lookup _ _ Hfin) as (i & x & Hi & Hx). exists (DThread i). rewrite Hi.
      pose proof (proj1 (Forall_forall _ _) Hb x (list_elem_of_lookup_2 _ _ _ Hi)).
      pose proof (proj1 (Forall_forall _ _) Hw x (list_elem_of_lookup_2 _ _ _ Hi)).
      destruct x; cbn in *; try done; try tauto.
      rewrite (proj2 (Z.ltb_lt _ _)) by (unfold THREAD_LIMIT in *; lia). eauto.
Qed.

(** From every reachable state the process can run to its end: [main]
    prints, or an uncaught exception has terminated it. *)
Lemma d_can_finish (s : dstate) :
  total_requests <= INT_MAX -> (forall t, 0 <= d_dur (env t) <= 2 ^ 31) ->
  d_reachable total_requests env s ->
  exists evs s', d_run total_requests env s evs = Some s' /\
    (d_final total_requests s' = true \/ d_aborted s' = true).
Proof.
  intros Hmax Hd Hr. remember (d_measure total_requests s) as m eqn:Hm. revert s Hm Hr.
  induction m as [m IH] using (well_founded_induction lt_wf). intros s -> Hr. destruct (d_aborted s) eqn:Ha; [exists [], s; by split; [|right]|].
  destruct (d_final total_requests s) eqn:Hf; [exists [], s; by split; [|left]|].
  destruct (d_progress s Hmax Hd (d_reachable_inv s Hr) Ha Hf) as (ev & s1 & Hs1).
  destruct (IH _ (d_measure_step s s1 ev Hs1) s1 eq_refl)
    as (evs & s' & Hrun & Hend); [by eapply rtc_r; [|exists ev]|].
  exists (ev :: evs), s'. cbn. by rewrite Hs1.
Qed.

(** ** Theorems *)

(** C26: the two limits hold under every interleaving: at most 100
    threads are between [thread_limit.acquire()] and [release()], at most
    20 run the local command at once, and the semaphore's count and
    [local_running] count them exactly. *)
Theorem dpu_limits (s : dstate) :
  d_reachable total_requests env s ->
  zsum_with inside (d_threads s) <= THREAD_LIMIT /\ zsum_with in_local (d_threads s) <= MAX_LOCAL /\
  d_sem s = THREAD_LIMIT - zsum_with inside (d_threads s) /\ d_local_running s = zsum_with in_local (d_threads s).
Proof. intros Hr. destruct (d_reachable_inv s Hr) as (_ & _ & Hsem & Hsem0 & Hloc & Hloc20 & _). lia. Qed.

(** C27: when [main] prints, whatever the interleaving, [sent_to_ec]
    counts the requests granted whose image was sent and answered exactly
    [DONE], [ran_on_ed] those whose connection failed or that got [DROP],
    [completed_tasks] is their sum and [total_latency_ms] the sum of
    their durations; the other requests (no socket, no image, another
    answer) are counted nowhere. *)
Theorem dpu_final_counters (s : dstate) :
  d_reachable total_requests env s -> d_final total_requests s = true ->
  d_sent s = Z.of_nat (List.length (filter (fun t => sent_of (env t) = true) (seqZ 0 total_requests))) /\
  d_ran s = Z.of_nat (List.length (filter (fun t => ran_of (env t) = true) (seqZ 0 total_requests))) /\
  d_completed s = d_sent s + d_ran s /\
  d_total s = zsum_with (fun t => if sent_of (env t) || ran_of (env t) then d_dur (env t) else 0)
                (seqZ 0 total_requests).
Proof.
  intros Hr Hf. destruct (d_final_threads s Hr Hf) as [Hlen Hend].
  destruct (d_reachable_inv s Hr) as (_ & _ & _ & _ & _ & _ & Hs & Hran & Hc & Ht).
  rewrite <- !zsum_with_indicator, <- (seqZ_max0 total_requests), <- Hlen.
  split_and!; [rewrite Hs | rewrite Hran | exact Hc | rewrite Ht]; apply zsum_with_indexed;
    intros i pc Hi; destruct (Hend i pc Hi) as (r & -> & Hp); apply (end_counts _ _ Hp).
Qed.

(** C28: a failing [recv] of the reply to the image ([bytes = -1]) makes
    [std::string(done_buf, bytes)] throw and terminates the process: if
    any request meets it, [main] never prints its statistics. *)
Theorem dpu_recv_failure_no_stats (s : dstate) (t : Z) :
  0 <= t < total_requests -> done_recv_fails (env t) = true ->
  d_reachable total_requests env s -> d_final total_requests s = false.
Proof.
  intros Ht Ha Hr. destruct (d_final total_requests s) eqn:Hf; [exfalso|done].
  destruct (d_final_threads s Hr Hf) as [Hlen Hend].
  destruct (lookup_lt_is_Some_2 (d_threads s) (Z.to_nat t)) as [pc Hi]; [lia|].
  destruct (Hend _ _ Hi) as (r & -> & Hp). rewrite Z2Nat.id in Hp by lia.
  destruct (end_counts _ _ Hp) as (_ & _ & _ & Hb). by rewrite (done_recv_fails_begin _ Ha) in Hb.
Qed.

(** C29: the process cannot deadlock on its two limits: while the request
    count is an [int] and every duration below 2^31 ms, every run has at
    most [8 * total_requests + 1] steps, and every state a run reaches can
    be driven on until [main] prints or an uncaught exception stops the
    process. *)
Theorem dpu_run_completes (evs : list d_event) (s : dstate) :
  total_requests <= INT_MAX -> (forall t, 0 <= d_dur (env t) <= 2 ^ 31) ->
  d_run total_requests env d_init evs = Some s ->
  (List.length evs <= 8 * Z.to_nat total_requests + 1)%nat /\
  exists evs' s', d_run total_requests env s evs' = Some s' /\
    (d_final total_requests s' = true \/ d_aborted s' = true).
Proof.
  intros Hmax Hd H. pose proof (d_run_measure _ _ _ H) as Hm. unfold d_measure in Hm. cbn in Hm.
  split; [lia|]. apply d_can_finish; [done..|]. exact (d_run_reachable_from _ _ _ H).
Qed.

End Lemmas.

Local Abbreviation dpu_final := (default d_init (d_run 4 dpu_env d_init dpu_events)).

Lemma dpu_final_reachable : d_reachable 4 dpu_env dpu_final.
Proof. apply (d_run_reachable_from 4 dpu_env d_init _ dpu_events). vm_compute. reflexivity. Qed.

Lemma dpu_limits_witness :
  d_reachable 4 dpu_env dpu_final /\
  zsum_with inside (d_threads dpu_final) <= THREAD_LIMIT /\ zsum_with in_local (d_threads dpu_final) <= MAX_LOCAL /\
  d_sem dpu_final = THREAD_LIMIT - zsum_with inside (d_threads dpu_final) /\
  d_local_running dpu_final = zsum_with in_local (d_threads dpu_final).
Proof. split; [exact dpu_final_reachable | exact (dpu_limits 4 dpu_env dpu_final dpu_final_reachable)]. Defined.

Lemma dpu_final_counters_witness :
  d_reachable 4 dpu_env dpu_final /\ d_final 4 dpu_final = true /\
  d_sent dpu_final = Z.of_nat (List.length (filter (fun t => sent_of (dpu_env t) = true) (seqZ 0 4))) /\
  d_ran dpu_final = Z.of_nat (List.length (filter (fun t => ran_of (dpu_env t) = true) (seqZ 0 4))) /\
  d_completed dpu_final = d_sent dpu_final + d_ran dpu_final /\
  d_total dpu_final = zsum_with (fun t => if sent_of (dpu_env t) || ran_of (dpu_env t) then d_dur (dpu_env t) else 0)
                        (seqZ 0 4).
Proof.
  assert (Hf : d_final 4 dpu_final = true) by (vm_compute; reflexivity).
  split; [exact dpu_final_reachable|]. split; [exact Hf|].
  exact (dpu_final_counters 4 dpu_env dpu_final dpu_final_reachable Hf).
Defined.

Local Abbreviation crash_state := (default d_init (d_run 1 crash_env d_init [DSpawn; DThread 0; DThread 0])).

Lemma dpu_recv_failure_no_stats_witness :
  0 <= 0 < 1 /\ done_recv_fails (crash_env 0) = true /\ d_reachable 1 crash_env crash_state /\
  d_aborted crash_state = true /\ d_final 1 crash_state = false.
Proof.
  assert (H0 : 0 <= 0 < 1) by lia.
  assert (H1 : done_recv_fails (crash_env 0) = true) by (vm_compute; reflexivity).
  assert (H2 : d_reachable 1 crash_env crash_state)
    by (apply (d_run_reachable_from 1 crash_env d_init _ [DSpawn; DThread 0; DThread 0]); vm_compute; reflexivity).
  split; [exact H0|]. split; [exact H1|]. split; [exact H2|]. split; [vm_compute; reflexivity|].
  exact (dpu_recv_failure_no_stats 1 crash_env crash_state 0 H0 H1 H2).
Defined.

Lemma dpu_run_completes_witness :
  4 <= INT_MAX /\ (forall t, 0 <= d_dur (dpu_env t) <= 2 ^ 31) /\
  d_run 4 dpu_env d_init dpu_events = Some dpu_final /\
  (List.length dpu_events <= 8 * Z.to_nat 4 + 1)%nat /\
  exists evs' s', d_run 4 dpu_env dpu_final evs' = Some s' /\ (d_final 4 s' = true \/ d_aborted s' = true).
Proof.
  assert (H0 : 4 <= INT_MAX) by (unfold INT_MAX; lia).
  assert (H1 : forall t, 0 <= d_dur (dpu_env t) <= 2 ^ 31) by (intros t; unfold dpu_env; repeat case_match; cbn; lia).
  assert (H2 : d_run 4 dpu_env d_init dpu_events = Some dpu_final) by (vm_compute; reflexivity).
  split; [exact H0|]. split; [exact H1|]. split; [exact H2|].
  exact (dpu_run_completes 4 dpu_env dpu_events dpu_final H0 H1 H2).
Defined.
