(* ===== verification/ReadPower.v ===== *)
(** * ReadPower: the column average of a power log

    Source: src/Experiment_May15/read_power.cpp.  [compute_column_average]
    reads a CSV file line by line with [std::getline], skips the first
    line (the header), splits every other line at [','] with
    [std::getline] on a [std::stringstream], converts the cell of index
    [col_index] with [std::stod] (a cell that throws is skipped), and
    returns [sum / count], or [-1] when the file cannot be opened or no
    cell converted.  [main] reads the column index with [std::atoi] and
    prints the average only when it is [>= 0].

    The file content is a [string] ([None] when [ifstream] fails to open
    it); [std::getline] is [split_on], which yields the pieces between
    delimiters and a last piece only when it is non-empty; the loops are
    a [fold_left] over the lines and a scan over the cells; the sum is a
    binary64 [SFadd] in file order.  [line_num] and [current_col] are
    [int]s that would overflow only past [2^31] lines or cells; the model
    counts them in [Z].  The messages on [std::cerr] are not modelled.

    The theorems show that the loop computes the mean of the converted
    cells of column [col_index] of every line but the first, in file order
    ([column_average_spec]), and that a column whose mean is negative is
    computed but never printed, exactly like a file that cannot be
    opened ([negative_average_silent]). *)

From Stdlib Require Import SpecFloat.
From S2P Require Import Prelude CppString Double Strtod.

Open Scope oms_scope.

(** ** The code *)

(** [while (std::getline(in, piece, delim))]: the pieces of [s] between
    the delimiters; after the last delimiter, a piece only if non-empty
    (an extraction that reads nothing fails). *)
Fixpoint split_on (delim : ascii) (s : string) : list string :=
  match s with
  | EmptyString => []
  | String a s' =>
      if Ascii.eqb a delim then EmptyString :: split_on delim s'
      else match split_on delim s' with
           | [] => [String a EmptyString]
           | p :: ps => String a p :: ps
           end
  end.

Definition comma : ascii := ",".
Definition line_feed : ascii := "010".

(** The inner loop (lines 26-40): the cell whose [current_col] equals
    [col_index], the loop breaking there. *)
Fixpoint find_col (col_index : Z) (cells : list string) (current_col : Z) : option string :=
  match cells with
  | [] => None
  | cell :: rest =>
      if current_col =? col_index then Some cell
      else find_col col_index rest (current_col + 1)
  end.

(** The locals of [compute_column_average]. *)
Record avg_state := { sum : spec_float; count : Z; line_num : Z }.

Definition avg_init : avg_state := {| sum := S754_zero false; count := 0; line_num := 0 |}.

(** One turn of the outer loop (lines 20-41): count the line, skip the
    header, add the converted cell or skip it when [std::stod] throws. *)
Definition column_line (col_index : Z) (st : avg_state) (line : string) : avg_state :=
  let n := line_num st + 1 in
  if n =? 1 then {| sum := sum st; count := count st; line_num := n |}
  else
    match find_col col_index (split_on comma line) 0 with
    | Some cell =>
        match stod cell with
        | inr val => {| sum := dadd (sum st) val; count := count st + 1; line_num := n |}
        | inl _ => {| sum := sum st; count := count st; line_num := n |}
        end
    | None => {| sum := sum st; count := count st; line_num := n |}
    end.

Definition minus_one : spec_float := double_of_int (-1).

(** [compute_column_average(filename, col_index)]; [file] is the content
    of the file, [None] when it cannot be opened. *)
Definition compute_column_average (file : option string) (col_index : Z) : spec_float :=
  match file with
  | None => minus_one
  | Some content =>
      let st := fold_left (column_line col_index) (split_on line_feed content) avg_init in
      if count st =? 0 then minus_one else ddiv (sum st) (double_of_int (count st))
  end.

(** [(int)] of a [long]: the low 32 bits, two's complement. *)
Definition wrap_int (z : Z) : Z := (z + 2 ^ 31) mod 2 ^ 32 - 2 ^ 31.

(** [std::atoi(s)]: glibc's [(int) strtol(s, NULL, 10)], [strtol]
    saturating at the [long] bounds and giving [0] when nothing converts. *)
Definition atoi (s : string) : Z :=
  match strtol_core s with
  | None => 0
  | Some v => wrap_int (Z.max LONG_MIN (Z.min LONG_MAX v))
  end.

(** What [main] writes on [std::cout]. *)
Inductive rp_output :=
  | RpSilent
  | RpAverage (col_index : Z) (average : spec_float).

(** [main(argc, argv)] with [argv] without the program name, [fs] the
    files it can open: the output and the exit status.  A wrong argument
    count is reported on [std::cerr] only. *)
Definition read_power_main (fs : string -> option string) (args : list string) : rp_output * Z :=
  match args with
  | [filename; col] =>
      let col_index := atoi col in
      let average := compute_column_average (fs filename) col_index in
      (if dge average (S754_zero false) then RpAverage col_index average else RpSilent, 0)
  | _ => (RpSilent, 1)
  end.

(** ** The reference: the mean of the column *)

(** The value a data line contributes: its cell of index [col], when
    [std::stod] converts it. *)
Definition line_value (col : Z) (line : string) : option spec_float :=
  if 0 <=? col then
    cell ← split_on comma line !! Z.to_nat col;
    match stod cell with inr v => Some v | inl _ => None end
  else None.

(** The converted cells of column [col] of the lines after the first. *)
Definition column_values (content : string) (col : Z) : list spec_float :=
  omap (line_value col) (drop 1 (split_on line_feed content)).

(** Their sum in order over their number, or [-1] when there is none. *)
Definition mean_or_minus_one (vs : list spec_float) : spec_float :=
  match vs with
  | [] => minus_one
  | _ => ddiv (foldl dadd (S754_zero false) vs) (double_of_int (Z.of_nat (List.length vs)))
  end.

(** ** Lemmas *)

(** The inner loop with its [break] selects the cell of index
    [col_index], counting from [current_col]. *)
Lemma find_col_lookup (col : Z) (cells : list string) (k : Z) :
  find_col col cells k = if k <=? col then cells !! Z.to_nat (col - k) else None.
Proof.
  revert k. induction cells as [|c cells IH]; intros k; cbn [find_col].
  - by case_match.
  - rewrite IH. destruct (Z.eqb_spec k col) as [->|Hne].
    + by rewrite Z.leb_refl, Z.sub_diag.
    + destruct (Z.leb_spec k col), (Z.leb_spec (k + 1) col); try lia; [|done].
      replace (Z.to_nat (col - k)) with (S (Z.to_nat (col - (k + 1)))) by lia. done.
Qed.

Lemma column_line_data (col : Z) (st : avg_state) (line : string) :
  1 <= line_num st ->
  column_line col st line =
  match line_value col line with
  | Some v => {| sum := dadd (sum st) v; count := count st + 1; line_num := line_num st + 1 |}
  | None => {| sum := sum st; count := count st; line_num := line_num st + 1 |}
  end.
Proof.
  intros Hn. unfold column_line, line_value.
  rewrite (proj2 (Z.eqb_neq _ _)) by lia. rewrite find_col_lookup, Z.sub_0_r.
  destruct (0 <=? col); [|done]. cbn. destruct (split_on comma line !! Z.to_nat col); [|done].
  cbn. by destruct (stod _).
Qed.

(** After the header, the loop adds the values of the lines in order. *)
Lemma fold_data_lines (col : Z) (lines : list string) (st : avg_state) :
  1 <= line_num st ->
  fold_left (column_line col) lines st =
  {| sum := foldl dadd (sum st) (omap (line_value col) lines);
     count := count st + Z.of_nat (List.length (omap (line_value col) lines));
     line_num := line_num st + Z.of_nat (List.length lines) |}.
Proof.
  revert st. induction lines as [|l lines IH]; intros st Hn; cbn [fold_left].
  - destruct st. cbn. f_equal; lia.
  - assert (omap (line_value col) (l :: lines) =
            match line_value col l with Some v => v :: omap (line_value col) lines
                                   | None => omap (line_value col) lines end) as -> by done.
    rewrite column_line_data by done. destruct (line_value col l) as [v|]; rewrite IH by (cbn; lia);
      cbn [sum count line_num foldl List.length]; f_equal; lia.
Qed.

(** [std::atoi] always yields an [int]. *)
Lemma atoi_int (s : string) : int32 (atoi s).
Proof.
  apply in_int_iff. unfold atoi, wrap_int, INT_MIN, INT_MAX.
  case_match; [|lia]. pose proof (Z.mod_pos_bound (Z.max LONG_MIN (Z.min LONG_MAX z) + 2 ^ 31) (2 ^ 32) ltac:(lia)).
  lia.
Qed.

(** A sample log: a header, two readings of column 1 that convert, one
    that does not, and one line too short. *)
Definition sample_log : string :=
  "time,power" +s+ String line_feed ("0,-2.5" +s+ String line_feed ("1,n/a" +s+ String line_feed
  ("2" +s+ String line_feed ("3,-1.5,x" +s+ String line_feed EmptyString)))).

Definition sample_fs (name : string) : option string :=
  if String.eqb name "power.csv" then Some sample_log else None.

(** ** Theorems *)

(** C33: the loops of [compute_column_average] compute the mean, in binary64,
    of the cells of column [col_index] that [std::stod] converts, over
    every line but the first, summed in file order; [-1] when there is
    none (including every negative [col_index]). *)
Theorem column_average_spec (content : string) (col : Z) :
  compute_column_average (Some content) col = mean_or_minus_one (column_values content col).
Proof.
  unfold compute_column_average, column_values.
  destruct (split_on line_feed content) as [|header lines]; [done|].
  cbn [fold_left drop].
  assert (column_line col avg_init header = {| sum := S754_zero false; count := 0; line_num := 1 |}) as ->
    by reflexivity.
  rewrite fold_data_lines by (cbn; lia). cbn [sum count]. rewrite drop_0.
  destruct (omap (line_value col) lines) as [|v vs]; [reflexivity|].
  cbn [List.length]. rewrite (proj2 (Z.eqb_neq _ _)) by lia. done.
Qed.

(** A column whose readings are negative has a negative mean, which
    [main] computes and then does not print: its output and exit status
    are those of a file that cannot be opened. *)
Example negative_average_silent :
  compute_column_average (sample_fs "power.csv") 1 = double_of_int (-2) /\
  read_power_main sample_fs ["power.csv"; "1"] = (RpSilent, 0) /\
  read_power_main sample_fs ["missing.csv"; "1"] = (RpSilent, 0).
Proof. vm_compute. repeat split. Qed.
